(* ===== verification/_CoqProject ===== *)
-Q . S2P
Prelude.v
GoSort.v
GoStrings.v
GoNet.v
GoCodec.v
GoCsv.v
Domain.v
Failover.v
Probe.v
Classify.v
OvpnConfig.v
Verify.v
Config.v
ProxyCore.v
Subscription.v
Storage.v
TunnelSession.v
Tunnel.v
TunnelBridge.v
Source.v
Service.v
TunnelApi.v
ExitPath.v
Cmd.v
Server.v
ServerProps.v
ServerRace.v
SharedMetadata.v
Bytesx.v
Packet.v
Session.v
Reliable.v
ReliableSender.v
Muxer.v
VpnOptions.v
ControlMsg.v
DataCrypto.v
DataChannel.v
DataChannelProps.v
TlsSession.v
TlsCert.v
NetworkIO.v
StartTun.v
Html.v
ConsolePage.v
ConsoleView.v
ConsoleProps.v
Console.v
ConsoleMachine.v
ConsoleServer.v
