(* ===== verification/Prelude.v ===== *)
(** * Residential IP Manager: a verification development

    [rim] (src/cmd/rim, src/internal) fetches public VPNGate servers, grades and
    probes them, connects to the best one with an OpenVPN engine that runs in the
    process (src/third_party/minivpn), verifies the public exit, and lets clients
    use that exit through an embedded VMESS core. A web console drives it, a
    monitor replaces an exit that fails. The parts and how they meet:

    - the list: [source] parses VPNGate's CSV into nodes ([domain]), [classify]
      grades them, [probe] measures them, [storage] keeps them in a JSON file;
    - the exit: [failover.go] ranks the nodes that may be connected and keeps the
      cooldowns; [ovpn_config.go] removes from an untrusted profile what could run
      programs; [openvpn.go] runs the engine, a userspace network stack and the
      bridge between them, and tracks the connections of a session; [verify]
      checks where the traffic comes out;
    - the clients: [proxycore] starts xray with a dialer into the tunnel,
      [subscription] publishes how to reach it;
    - the control: [web/server.go] holds the state behind one mutex, answers the
      console and runs the monitor and the automatic connection; [config] and
      [service] set it up, [cmd/rim] is the command line.

    ** The files

    Foundations. [Prelude]: 64-bit integers, [result] for Go's [(T, error)], early
    returns, shared lemmas and tactics. [GoSort], [GoStrings], [GoNet], [GoCodec],
    [GoCsv]: what the program uses of Go's [sort], [strings], [strconv],
    [unicode/utf8], [net], [encoding/base64], [encoding/json] and [encoding/csv],
    byte for byte; Unicode's case tables above U+007F are the class
    [UnicodeTables].

    The program, one file per package: [Domain], [Failover], [Probe], [Classify],
    [Verify], [OvpnConfig], [Config], [ProxyCore], [Subscription], [Storage],
    [Source], [Service], [Cmd] and, for [openvpn.go], [Tunnel] (the controller),
    [TunnelSession] (tracked connections) and [TunnelBridge] (the data path). A
    definition has the name of the Go function it translates; loops of a function
    are definitions of their own. State is a record, a handler a function in the
    state monad [Server.M], a goroutine a step relation or, in [ServerRace], a
    resumption. [TunnelApi] is the interface between the tunnel and its users: the
    class [TunnelLaws] is what [ServerProps], [ServerRace] and [Cmd] are proved
    against, and [controller_keeps_promises] shows that the controller keeps it.
    [Server] has the state and the handlers, [ServerProps] their properties when
    run alone, [ServerRace] what holds and what breaks when they overlap. [ExitPath]
    runs [ProxyCore], the controller of [Tunnel] and the dials of clients together.
    [SharedMetadata] has the metadata maps that handlers share as objects in a memory.

    The engine: [Bytesx], [Packet] (the codec), [Session] (the session manager),
    [Reliable] and [ReliableSender] (reordering, acknowledgement, retransmission),
    [Muxer] (framing, handshake, routing, control records), [VpnOptions] (the parser
    of profiles), [ControlMsg] (the key exchange and the push reply), [DataCrypto]
    (ciphers and key derivation over the class [Primitives] of what Go's library
    computes), [DataChannel] (framing, encryption, replay check, workers) and
    [DataChannelProps], [TlsSession] (the exchange of keys and addresses over TLS),
    [TlsCert] (certificates, the set-up of TLS, [tlsAuth]; x509 and utls are the
    classes [X509] and [UTLS]), [NetworkIO] (the dialer, framing over a stream that
    arrives in pieces, the network workers, the BIO below TLS) and [StartTun] (how the
    goroutines of a start, a failure and a shutdown meet).

    The console page of [static.go]: [Html] (escaping, and a tokenizer to say what a
    piece of markup is), [ConsolePage] (the body of the page), [ConsoleView] (the
    functions that draw, as functions on the [Page]; what the browser formats is the
    class [Browser]), [ConsoleProps] (what they draw), [Console] (the asynchronous
    functions: a [Task] is what a handler still has to do at an await, a [Console] a
    page and the tasks that wait), [ConsoleMachine] (every order of clicks, timers and
    answers) and [ConsoleServer] (the page and [Server] in one loop).

    ** What the theorems show

    - Connecting tells the truth: on every branch the snapshot says connected
      exactly if a verified tunnel is up ([connect_outcome], [candidate_up_iff_ok],
      [recover_outcome], [node_maintenance_truthful]); the monitor is patient
      ([monitor_tolerates]).
    - Nothing leaks: [connect_never_leaks], [controller_invariant],
      [session_close_safe] and [session_close_terminates] under every interleaving;
      [proxy_never_leaks] between any two calls on xray, and with the tunnel and the
      clients running, no connection goes around the exit
      ([traffic_only_through_exit]).
    - The data path keeps packets and counts them ([bridge_carries]) and stops
      ([bridge_close_terminates]), but can hang before that ([close_can_hang]).
    - Untrusted input is tamed: [sanitize_safe], [fetched_nodes_safe],
      [parse_complete], [classify_sound], [read_options_wellformed],
      [sanitized_reads_no_credentials]; but not everywhere: a profile that passed can
      redirect the engine or stop the program ([profile_redirects],
      [profile_panics]).
    - The choice of nodes: [candidates_sound], [candidates_best_first],
      [failure_cools_down].
    - Access: [private_routes_guarded], [login_sessions].
    - The console: data never becomes markup ([markup_faithful]); refreshes do not
      overlap ([one_load_at_a_time]), what the script asks the server answers
      ([requests_served]) and a refresh shows the server's state
      ([refresh_shows_world]); the script stays within the page
      ([script_stays_on_page]).
    - The data channel: what is written is read ([cbc_wire_roundtrip]), once
      ([cbc_no_replay]), under a fresh nonce ([gcm_nonces_distinct]) and never without
      keys ([keys_before_data]), which are those of TLS 1.0's function
      ([prf_is_tls10], [keys_derived]), from what both ends have exchanged
      ([key_exchange], [auth_outcome]), with a server that the authorities of the
      profile certify ([exit_authenticated]).
    - The start of the engine ends ([start_ends]) and leaves nothing behind when it
      fails ([start_outcome]), but for a race in which it hangs ([start_can_hang]).
    - Data survives: [save_crash_safe], [vmess_roundtrip], [init_load],
      [packet_roundtrip]; configuration: [validate_iff].
    - Concurrency: [probe_confluent]; handlers in blocks are the handlers
      ([blocks_compose]), overlapping they keep the log and the tunnel sound
      ([overlap_sound]) and end ([overlap_terminates]), and lose updates
      ([connects_race], [disconnect_lost], [cooldown_lost]). Most share their metadata
      maps safely ([shared_maps_safe]); a connect while the tunnel runs and [persist] do
      not ([connect_status_fatal], [connects_fatal], [persist_verify_fatal]).
    - The connection to the server carries whole packets in order however the stream is
      cut ([network_carries], [cuts_irrelevant], [bioRead_stream]) and its workers end
      ([network_ends]).
    - The engine delivers TLS records in order and completely over a network that
      loses, repeats and reorders ([records_in_order], [delivered_in_order],
      [unacked_resent]); its handshake completes once ([handshake_once]); messages
      are read as they were written ([client_message_roundtrip],
      [server_message_read], [push_reply_read], [profile_roundtrip]).
    - Deviations, as theorems: [advertised_ping_overflow], [restored_nodes_refused],
      [valid_but_unstartable], [disconnect_while_connecting_lost],
      [overlapping_saves_lose_state], [clash_scalar_backslash],
      [verify_ignores_exit_ip], [full_queue_wedges], [buffer_overwritten],
      [engine_failure_unnoticed], [bad_hmac_crashes], [gcm_wire_keeps_padding],
      [gcm_replays], [cbc_exhausted_unreadable], [lzo_no_unreadable],
      [channel_for_options],
      [broken_connection_unnoticed], [auth_goroutine_leaks], [second_exchange_old_key],
      [password_profile_fails], [tls_version_ignored], [write_not_copied],
      [stop_restores_system_dialer];
      of the console, [console_needs_subscription],
      [failed_verification_shown_passed], [confirmed_stop_starts],
      [stopped_proxy_says_stop], [refresh_after_action_lost].

    ** Parameters, bounds and fuel

    The operating system ([Config.OS]), HTTP answers, TCP dials, the clock, the
    random source, the handshake of the engine, the network stack and xray are
    arguments; the server asks an [Environment] that may answer differently every
    time. Integers keep their width ([wrap64], 32-bit packet identifiers, 64-bit
    counters). Recursion is structural but for four functions with fuel: the IPv6
    parser takes one step per 16-bit group, of which there are at most eight;
    [Classify.fetchLoop] takes the number of addresses, and each batch removes at
    least one; the loop of [pHash] takes the length of its buffer, of which a round
    fills at least a byte ([prf_is_tls10]); the reader of JSON objects that states [vmess_roundtrip] takes the
    length of its input. Relations that stand for goroutines terminate by an explicit
    measure ([bridgeMeasure], two steps per node in [Probe]) or by well-founded
    induction on resumptions ([overlap_terminates]).

    ** Not modelled

    The style sheet and the head of the page have no behaviour. Focus, scrolling and
    the removal of toasts by a timer are left out, and fetch, the clipboard and the
    formatting of times and numbers belong to the browser. Logging through [slog],
    printing, signal handling and the accept loop of [net/http] are I/O. Of the
    engine, the inside of TLS and of x509 are libraries and parameters, and minivpn's
    own command line tools are not used by the program. What xray does with a connection
    is not modelled: an instance that runs may dial anything ([ExitPath]), one that was
    closed may not. In [StartTun] the other workers may
    always end; that the one which writes to the TUN may not is [close_can_hang].
    AES, GCM, MD5 and SHA are parameters with their laws ([PrimitiveLaws]).
    [path/filepath] in [VpnOptions] is that of Unix.
    A call of [tunnel.Connect] is atomic in [ServerRace]. In [Server] metadata maps are
    values: what the handlers' sharing of them does is in [SharedMetadata], which has
    only the mutex and the maps. *)

From Stdlib Require Export ZArith Lia Sorted Permutation Bool.
From stdpp Require Export base numbers option list strings gmap fin_maps pretty.
Export Stdlib.Strings.Ascii (ascii(..)).

(** ** Go's fixed-width integers

    [int], [int64] and [time.Duration] are 64-bit two's complement: arithmetic
    on them is arithmetic on [Z] followed by [wrap64]. *)
Definition minInt64 : Z := (-9223372036854775808)%Z.
Definition maxInt64 : Z := 9223372036854775807.
Definition wrap64 (z : Z) : Z := ((z + 2 ^ 63) mod 2 ^ 64 - 2 ^ 63)%Z.
Definition isInt64 (z : Z) : Prop := (minInt64 ≤ z ≤ maxInt64)%Z.

Declare Scope go_scope.
Delimit Scope go_scope with go.
Notation "x '+i' y" := (wrap64 (x + y)%Z) (at level 50, left associativity) : go_scope.
Notation "x '-i' y" := (wrap64 (x - y)%Z) (at level 50, left associativity) : go_scope.
Notation "x '*i' y" := (wrap64 (x * y)%Z) (at level 40, left associativity) : go_scope.

Lemma wrap64_small z : isInt64 z → wrap64 z = z.
Proof.
  unfold isInt64, wrap64, minInt64, maxInt64. intros H.
  rewrite Z.mod_small; lia.
Qed.

Lemma wrap64_range z : isInt64 (wrap64 z).
Proof.
  unfold isInt64, wrap64, minInt64, maxInt64.
  pose proof (Z.mod_pos_bound (z + 2 ^ 63) (2 ^ 64) ltac:(lia))%Z. lia.
Qed.

(** ** Go's error values

    A [result] is the value half or the error half of Go's [(T, error)]; an
    error is the text its [Error()] method returns. *)
Inductive result (A : Type) : Type :=
  | Ok (a : A)
  | Err (e : string).
Arguments Ok {A} a.
Arguments Err {A} e.

Definition isOk {A} (r : result A) : bool :=
  match r with Ok _ => true | Err _ => false end.

Notation "'let?' x ':=' c 'in' k" :=
  (match c with Ok x => k | Err e => Err e end)
  (at level 10, x pattern, c at level 200, k at level 200) : go_scope.

(** An early return: [fail_if c with v ;; k] is Go's [if c { return v }; k]. *)
Notation "'fail_if' b 'with' m ';;' k" :=
  (if b then m else k)
  (at level 10, b at level 99, m at level 99, k at level 200, only parsing) : go_scope.
Open Scope go_scope.

(** ** Tactics *)

(** Split the conditionals and matches of the goal or of a hypothesis. *)
Ltac case_goal :=
  match goal with
  | |- context [if ?b then _ else _] => destruct b eqn:?
  | |- context [match ?x with _ => _ end] => destruct x eqn:?
  end.
Ltac case_hyp H :=
  match type of H with
  | context [if ?b then _ else _] => destruct b eqn:?
  | context [match ?x with _ => _ end] => destruct x eqn:?
  end.

(** Boolean tests to propositions, in the whole context. *)
Ltac bools :=
  repeat match goal with
  | H : _ && _ = true |- _ => apply andb_true_iff in H as [? ?]
  | H : _ || _ = false |- _ => apply orb_false_iff in H as [? ?]
  | H : negb _ = true |- _ => apply negb_true_iff in H
  | H : negb _ = false |- _ => apply negb_false_iff in H
  | H : (_ <? _)%Z = true |- _ => apply Z.ltb_lt in H
  | H : (_ <? _)%Z = false |- _ => apply Z.ltb_ge in H
  | H : (_ <=? _)%Z = true |- _ => apply Z.leb_le in H
  | H : (_ <=? _)%Z = false |- _ => apply Z.leb_gt in H
  | H : (_ =? _)%Z = true |- _ => apply Z.eqb_eq in H
  | H : (_ =? _)%Z = false |- _ => apply Z.eqb_neq in H
  | H : bool_decide _ = true |- _ => apply bool_decide_eq_true in H
  | H : bool_decide _ = false |- _ => apply bool_decide_eq_false in H
  end.

(** A closed decidable goal, by evaluating its decision procedure. *)
Ltac decided :=
  match goal with |- ?P => refine (bool_decide_unpack P _); vm_compute; exact I end.

Create HintDb go discriminated.
Create Rewrite HintDb gostr.
#[export] Hint Resolve wrap64_range : go.
