(* ===== verification/GoSort.v ===== *)
(** * Go's [sort.SliceStable]

    [sliceStable less l] is the stable insertion sort that Go's
    [sort.SliceStable] runs on blocks of its input.  Its documented contract
    (ordered by [less], equal elements in their original order) determines the
    result whenever [less] is a strict weak order: [sliceStable_unique] proves
    it, so the definition stands for the library's merge of blocks as well. *)

From S2P Require Import Prelude.

Section SliceStable.
Context {A : Type} (less : A → A → bool).

(** One outer iteration of the insertion loop: the new element [x] moves left
    past the elements it is less than.  The sorted prefix is kept reversed. *)
Fixpoint insertLeft (x : A) (rprefix : list A) : list A :=
  match rprefix with
  | [] => [x]
  | y :: rest => if less x y then y :: insertLeft x rest else x :: y :: rest
  end.

Definition sliceStable (l : list A) : list A :=
  reverse (fold_left (λ acc x, insertLeft x acc) l []).

Lemma insertLeft_perm x acc : insertLeft x acc ≡ₚ x :: acc.
Proof.
  induction acc as [|y acc IH]; simpl; [done|].
  case_goal; [|done]. rewrite IH. constructor.
Qed.

Lemma fold_insertLeft_perm l acc :
  fold_left (λ acc x, insertLeft x acc) l acc ≡ₚ l ++ acc.
Proof.
  revert acc. induction l as [|x l IH]; intros acc; simpl; [done|].
  rewrite IH, insertLeft_perm. symmetry. apply Permutation_middle.
Qed.

Lemma sliceStable_perm l : sliceStable l ≡ₚ l.
Proof.
  unfold sliceStable. rewrite reverse_Permutation, fold_insertLeft_perm.
  by rewrite app_nil_r.
Qed.

Lemma length_sliceStable l : length (sliceStable l) = length l.
Proof. apply Permutation_length, sliceStable_perm. Qed.

Lemma elem_of_sliceStable x l : x ∈ sliceStable l ↔ x ∈ l.
Proof. by rewrite sliceStable_perm. Qed.

(** ** Strict weak orders *)

Class StrictWeakOrder : Prop := {
  swo_irrefl : ∀ x, less x x = false;
  swo_trans : ∀ x y z, less x y = true → less y z = true → less x z = true;
  swo_incomp : ∀ x y z, less x y = false → less y z = false → less x z = false
}.

(** Not later than: [x] may stand before [y]. *)
Definition notAfter (x y : A) : Prop := less y x = false.

(** Equivalent: neither is less than the other. *)
Definition tied (x y : A) : bool := negb (less x y) && negb (less y x).

Context {SWO : StrictWeakOrder}.

Lemma swo_asym x y : less x y = true → less y x = false.
Proof.
  intros H. destruct (less y x) eqn:E; [|done].
  by rewrite <- (swo_irrefl x), (swo_trans x y x H E).
Qed.

Lemma notAfter_trans x y z : notAfter x y → notAfter y z → notAfter x z.
Proof. unfold notAfter. eauto using swo_incomp. Qed.

Lemma notAfter_refl x : notAfter x x.
Proof. apply swo_irrefl. Qed.

Lemma insertLeft_sorted x acc :
  StronglySorted (flip notAfter) acc → StronglySorted (flip notAfter) (insertLeft x acc).
Proof.
  induction 1 as [|y acc Hs IH Hy]; simpl; [repeat constructor|].
  destruct (less x y) eqn:E.
  - constructor; [done|]. rewrite insertLeft_perm.
    constructor; [by apply swo_asym|done].
  - constructor; [by constructor|]. constructor; [done|].
    eapply Forall_impl; [exact Hy|]. intros z Hz. by eapply notAfter_trans.
Qed.

Lemma StronglySorted_snoc {R : A → A → Prop} l x :
  StronglySorted R l → Forall (λ y, R y x) l → StronglySorted R (l ++ [x]).
Proof.
  induction 1 as [|y l Hs IH Hy]; intros Hx; simpl; [repeat constructor|].
  inversion_clear Hx. constructor; [auto|]. apply Forall_app; auto.
Qed.

Lemma StronglySorted_reverse {R : A → A → Prop} l :
  StronglySorted (flip R) l → StronglySorted R (reverse l).
Proof.
  induction 1 as [|x l Hs IH Hx]; [constructor|].
  rewrite reverse_cons. apply StronglySorted_snoc; [done|].
  by apply Forall_reverse.
Qed.

Lemma sliceStable_sorted l : StronglySorted notAfter (sliceStable l).
Proof.
  apply StronglySorted_reverse.
  assert (∀ acc, StronglySorted (flip notAfter) acc →
    StronglySorted (flip notAfter) (fold_left (λ acc x, insertLeft x acc) l acc)) as H.
  { induction l as [|x l IH]; intros acc Hacc; simpl; [done|].
    by apply IH, insertLeft_sorted. }
  apply H. constructor.
Qed.

(** ** Stability: tied elements keep their order *)

Lemma tied_less_l x y z : tied x y = true → less x z = less y z.
Proof.
  unfold tied. intros H. bools.
  destruct (less x z) eqn:E1, (less y z) eqn:E2; try done.
  - by rewrite (swo_incomp x y z) in E1.
  - by rewrite (swo_incomp y x z) in E2.
Qed.

Lemma insertLeft_tied k x acc :
  filter (λ y, tied k y = true) (insertLeft x acc) =
  filter (λ y, tied k y = true) (x :: acc).
Proof.
  induction acc as [|y acc IH]; simpl; [done|].
  destruct (less x y) eqn:E; [|done].
  rewrite filter_cons, IH, !filter_cons.
  destruct (decide (tied k x = true)) as [Hx|], (decide (tied k y = true)) as [Hy|]; try done.
  unfold tied in Hx, Hy. bools.
  by rewrite (swo_incomp x k y) in E.
Qed.

Lemma fold_insertLeft_tied k l acc :
  filter (λ y, tied k y = true) (fold_left (λ acc x, insertLeft x acc) l acc) =
  filter (λ y, tied k y = true) (reverse l ++ acc).
Proof.
  revert acc. induction l as [|x l IH]; intros acc; simpl; [done|].
  rewrite IH, reverse_cons, <-(assoc_L app).
  by rewrite !(filter_app _ (reverse l)), insertLeft_tied.
Qed.

Lemma filter_reverse (P : A → Prop) `{!∀ x, Decision (P x)} l :
  filter P (reverse l) = reverse (filter P l).
Proof.
  induction l as [|x l IH]; [done|].
  rewrite reverse_cons, filter_app, IH, !filter_cons.
  destruct (decide (P x)); simpl; [by rewrite reverse_cons|by rewrite app_nil_r].
Qed.

Lemma sliceStable_stable k l :
  filter (λ y, tied k y = true) (sliceStable l) = filter (λ y, tied k y = true) l.
Proof.
  unfold sliceStable. rewrite filter_reverse, fold_insertLeft_tied, app_nil_r.
  by rewrite filter_reverse, reverse_involutive.
Qed.

(** ** The contract determines the result *)

Lemma sorted_head_tied_filter x l :
  StronglySorted notAfter (x :: l) →
  filter (λ y, tied x y = true) (x :: l) = x :: filter (λ y, tied x y = true) l.
Proof.
  intros _. rewrite filter_cons_True; [done|].
  unfold tied. by rewrite !swo_irrefl.
Qed.

Lemma stable_sort_unique l1 l2 :
  StronglySorted notAfter l1 → StronglySorted notAfter l2 → l1 ≡ₚ l2 →
  (∀ k, filter (λ y, tied k y = true) l1 = filter (λ y, tied k y = true) l2) →
  l1 = l2.
Proof.
  revert l2. induction l1 as [|x l1 IH]; intros l2 Hs1 Hs2 Hp Hst.
  { by apply Permutation_nil_l in Hp. }
  destruct l2 as [|y l2]; [by apply Permutation_nil_r in Hp|].
  assert (x = y) as <-.
  { pose proof (Hst x) as Hx.
    rewrite (sorted_head_tied_filter x l1 Hs1) in Hx.
    rewrite filter_cons in Hx.
    destruct (decide (tied x y = true)) as [|Hny]; [congruence|exfalso].
    apply Hny. unfold tied. apply andb_true_iff; split; apply negb_true_iff.
    - inversion_clear Hs2 as [|? ? _ Hall].
      assert (x ∈ y :: l2) as Hin by (rewrite <-Hp; left).
      apply elem_of_cons in Hin as [->|Hin]; [apply swo_irrefl|].
      rewrite Forall_forall in Hall. by apply Hall.
    - inversion_clear Hs1 as [|? ? _ Hall].
      assert (y ∈ x :: l1) as Hin by (rewrite Hp; left).
      apply elem_of_cons in Hin as [->|Hin]; [apply swo_irrefl|].
      rewrite Forall_forall in Hall. by apply Hall. }
  f_equal. inversion_clear Hs1. inversion_clear Hs2.
  apply IH; [done..| by apply Permutation_cons_inv in Hp |].
  intros k. specialize (Hst k). rewrite !filter_cons in Hst.
  destruct (decide (tied k x = true)); [by simplify_eq|done].
Qed.

(** Any list that meets the documented contract of a stable sort of [l] is
    [sliceStable l]. *)
Lemma sliceStable_unique l l' :
  StronglySorted notAfter l' → l' ≡ₚ l →
  (∀ k, filter (λ y, tied k y = true) l' = filter (λ y, tied k y = true) l) →
  l' = sliceStable l.
Proof.
  intros Hs Hp Hst. apply stable_sort_unique;
    [done | apply sliceStable_sorted | by rewrite sliceStable_perm |].
  intros k. by rewrite Hst, sliceStable_stable.
Qed.

(** When tied elements of [l1] are equal the input order is irrelevant. *)
Lemma sliceStable_order_irrelevant l1 l2 :
  l1 ≡ₚ l2 →
  (∀ x y, x ∈ l1 → y ∈ l1 → tied x y = true → x = y) →
  sliceStable l1 = sliceStable l2.
Proof.
  intros Hp Htot.
  assert (∀ m1 m2, StronglySorted notAfter m1 → StronglySorted notAfter m2 → m1 ≡ₚ m2 →
    (∀ x y, x ∈ m1 → y ∈ m1 → tied x y = true → x = y) → m1 = m2) as Huniq.
  { induction m1 as [|x m1 IH]; intros m2 Hs1 Hs2 Hpm Ht.
    { by apply Permutation_nil_l in Hpm. }
    destruct m2 as [|y m2]; [by apply Permutation_nil_r in Hpm|].
    inversion_clear Hs1 as [|? ? Hs1' Hx]. inversion_clear Hs2 as [|? ? Hs2' Hy].
    assert (x = y) as <-.
    { assert (x ∈ y :: m2) as Hin1 by (rewrite <-Hpm; left).
      assert (y ∈ x :: m1) as Hin2 by (rewrite Hpm; left).
      apply Ht; [left|done|]. unfold tied. apply andb_true_iff; split; apply negb_true_iff.
      - apply elem_of_cons in Hin1 as [->|Hin1]; [apply swo_irrefl|].
        rewrite Forall_forall in Hy. by apply Hy.
      - apply elem_of_cons in Hin2 as [->|Hin2]; [apply swo_irrefl|].
        rewrite Forall_forall in Hx. by apply Hx. }
    f_equal. apply IH; [done..|by apply Permutation_cons_inv in Hpm|].
    intros a b Ha Hb. apply Ht; by right. }
  apply Huniq; [apply sliceStable_sorted..|by rewrite !sliceStable_perm|].
  intros x y. rewrite !elem_of_sliceStable. apply Htot.
Qed.

(** A sorted list without ties is the sorted form of all its permutations. *)
Lemma sliceStable_eq l l' :
  StronglySorted notAfter l' → l' ≡ₚ l → (∀ x y, x ∈ l' → y ∈ l' → tied x y = true → x = y) → sliceStable l = l'.
Proof.
  intros Hs Hp Ht. rewrite <-(sliceStable_order_irrelevant l' l Hp Ht). symmetry. by apply sliceStable_unique.
Qed.

End SliceStable.

Arguments StrictWeakOrder {A} less.

(** Only the comparisons of elements of the list matter. *)
Lemma insertLeft_ext {A} (f g : A → A → bool) x acc :
  (∀ y, y ∈ acc → f x y = g x y) → insertLeft f x acc = insertLeft g x acc.
Proof.
  induction acc as [|y acc IH]; intros H; [done|]. simpl. rewrite (H y) by left.
  rewrite IH; [done|]. intros z Hz. apply H. by right.
Qed.

Lemma sliceStable_ext {A} (f g : A → A → bool) l :
  (∀ x y, x ∈ l → y ∈ l → f x y = g x y) → sliceStable f l = sliceStable g l.
Proof.
  intros H. unfold sliceStable. f_equal.
  assert (∀ l' acc, (∀ x, x ∈ l' → x ∈ l) → (∀ x, x ∈ acc → x ∈ l) →
    fold_left (λ acc x, insertLeft f x acc) l' acc = fold_left (λ acc x, insertLeft g x acc) l' acc) as Hf.
  { induction l' as [|x l' IH]; intros acc Hl Ha; [done|]. simpl.
    rewrite (insertLeft_ext f g) by (intros y Hy; apply H; [apply Hl; left|by apply Ha]).
    apply IH; [intros y Hy; apply Hl; by right|]. intros y Hy. rewrite insertLeft_perm in Hy.
    apply elem_of_cons in Hy as [->|Hy]; [apply Hl; left|by apply Ha]. }
  apply Hf; [done|]. by intros x ?%elem_of_nil.
Qed.

(** A prefix of a sorted list is at least as good as what follows it. *)
Lemma StronglySorted_app_forall {A} (R : A → A → Prop) l1 l2 x y :
  StronglySorted R (l1 ++ l2) → x ∈ l1 → y ∈ l2 → R x y.
Proof.
  induction l1 as [|a l1 IH]; simpl; intros Hs Hx Hy; [by apply elem_of_nil in Hx|].
  inversion_clear Hs as [|? ? Hs' Ha].
  apply elem_of_cons in Hx as [->|Hx]; [|by apply IH].
  rewrite Forall_forall in Ha. apply Ha, elem_of_app. by right.
Qed.

(** ** Orders built from a sort key

    [less] comparators of Go code compare one key after the other; the
    combinators below give the order of one integer key and the lexicographic
    composition, and the instances prove them strict weak orders. *)

Definition lessBy {A} (key : A → Z) (x y : A) : bool := (key x <? key y)%Z.

Definition lessThen {A} (l1 l2 : A → A → bool) (x y : A) : bool :=
  if l1 x y then true else if l1 y x then false else l2 x y.

#[export] Instance lessBy_swo {A} (key : A → Z) : StrictWeakOrder (lessBy key).
Proof.
  split; unfold lessBy; intros; bools;
    first [apply Z.ltb_irrefl | apply Z.ltb_lt; lia | apply Z.ltb_ge; lia].
Qed.

Lemma lessThen_true {A} (l1 l2 : A → A → bool) x y :
  lessThen l1 l2 x y = true ↔
  l1 x y = true ∨ (l1 x y = false ∧ l1 y x = false ∧ l2 x y = true).
Proof. unfold lessThen. destruct (l1 x y), (l1 y x), (l2 x y); intuition congruence. Qed.

Lemma lessThen_false {A} (l1 l2 : A → A → bool) x y :
  lessThen l1 l2 x y = false ↔
  l1 x y = false ∧ (l1 y x = true ∨ l2 x y = false).
Proof. unfold lessThen. destruct (l1 x y), (l1 y x), (l2 x y); intuition congruence. Qed.

#[export] Instance lessThen_swo {A} (l1 l2 : A → A → bool) :
  StrictWeakOrder l1 → StrictWeakOrder l2 → StrictWeakOrder (lessThen l1 l2).
Proof.
  intros [i1 t1 n1] [i2 t2 n2]. split.
  - intros x. apply lessThen_false. auto.
  - intros x y z Hxy Hyz. apply lessThen_true.
    apply lessThen_true in Hxy as [Hxy|(Hxy & Hyx & H2)];
      apply lessThen_true in Hyz as [Hyz|(Hyz & Hzy & H2')].
    + left. eauto.
    + left. destruct (l1 x z) eqn:E; [done|]. by rewrite (n1 x z y E Hzy) in Hxy.
    + left. destruct (l1 x z) eqn:E; [done|]. by rewrite (n1 y x z Hyx E) in Hyz.
    + right. split_and!; eauto.
  - intros x y z Hxy Hyz. apply lessThen_false.
    apply lessThen_false in Hxy as [Hxy H2], Hyz as [Hyz H2'].
    split; [eauto|]. destruct (l1 z x) eqn:E; [by left|right].
    destruct H2 as [H2|H2], H2' as [H2'|H2']; [..|eauto].
    + by rewrite (n1 y z x Hyz E) in H2.
    + by rewrite (n1 y z x Hyz E) in H2.
    + by rewrite (n1 z x y E Hxy) in H2'.
Qed.
