(* ===== verification/GoStrings.v ===== *)
(** * Go's strings

    A Go string is a sequence of bytes, here a [string]; this file models the
    functions of the packages [strings], [strconv], [unicode/utf8] and [fmt]
    that the program calls.  Functions that look at runes (ToLower, EqualFold,
    TrimSpace, Fields) decode UTF-8 as Go does, an invalid byte giving U+FFFD.
    Unicode's case tables for the code points from U+0080 on are the only part
    not written out: they are the class [UnicodeTables]. *)

From S2P Require Import Prelude.

Abbreviation bytes := (list ascii).

Definition s2l (s : string) : bytes := String.list_ascii_of_string s.
Definition l2s (l : bytes) : string := String.string_of_list_ascii l.

Definition byte_of (n : N) : ascii := Ascii.ascii_of_N n.
Definition code (c : ascii) : N := Ascii.N_of_ascii c.

(** Bytes that a Rocq string literal cannot spell. *)
Definition str1 (n : N) : string := String (byte_of n) "".
Definition nl : string := str1 10.
Definition cr : string := str1 13.
Definition tab : string := str1 9.
Definition dquote : string := str1 34.

Lemma s2l_l2s l : s2l (l2s l) = l.
Proof. apply String.list_ascii_of_string_of_list_ascii. Qed.
Lemma l2s_s2l s : l2s (s2l s) = s.
Proof. apply String.string_of_list_ascii_of_string. Qed.
#[export] Hint Rewrite s2l_l2s l2s_s2l : gostr.

Lemma s2l_inj s t : s2l s = s2l t → s = t.
Proof. intros H. by rewrite <-(l2s_s2l s), H, l2s_s2l. Qed.

Lemma s2l_app s t : s2l (s +:+ t) = s2l s ++ s2l t.
Proof. induction s as [|c s IH]; simpl; [done|]. unfold s2l in *. simpl. by f_equal. Qed.

Lemma l2s_app a b : l2s (a ++ b) = l2s a +:+ l2s b.
Proof. apply s2l_inj. by rewrite s2l_app, !s2l_l2s. Qed.

(** ** Prefixes, substrings, splitting *)

Fixpoint prefixb (p l : bytes) : bool :=
  match p, l with
  | [], _ => true
  | a :: p, b :: l => bool_decide (a = b) && prefixb p l
  | _ :: _, [] => false
  end.

Fixpoint containsb (l sub : bytes) : bool :=
  prefixb sub l || match l with [] => false | _ :: l' => containsb l' sub end.

Definition hasPrefix (s p : string) : bool := prefixb (s2l p) (s2l s).
Definition hasSuffix (s p : string) : bool :=
  prefixb (reverse (s2l p)) (reverse (s2l s)).
Definition contains (s sub : string) : bool := containsb (s2l s) (s2l sub).
Definition trimPrefix (s p : string) : string :=
  if hasPrefix s p then l2s (drop (length (s2l p)) (s2l s)) else s.

(** [strings.Split] with a one-byte separator. *)
Fixpoint splitb (sep : ascii) (l : bytes) : list bytes :=
  match l with
  | [] => [[]]
  | c :: l' =>
      if bool_decide (c = sep) then [] :: splitb sep l'
      else match splitb sep l' with
           | [] => [[c]]
           | w :: ws => (c :: w) :: ws
           end
  end.
Definition splitOn (sep : N) (s : string) : list string := l2s <$> splitb (byte_of sep) (s2l s).
Definition splitLines (s : string) : list string := l2s <$> splitb (byte_of 10) (s2l s).

Fixpoint join (sep : string) (l : list string) : string :=
  match l with
  | [] => ""
  | [s] => s
  | s :: l' => s +:+ sep +:+ join sep l'
  end.

(** [strings.ReplaceAll] for a non-empty [old]: left to right, no overlap.
    [skip] counts the bytes of the last match still to be passed over. *)
Fixpoint replaceb (old new : bytes) (skip : nat) (l : bytes) : bytes :=
  match l with
  | [] => []
  | c :: l' =>
      match skip with
      | S k => replaceb old new k l'
      | O => if prefixb old l then new ++ replaceb old new (length old - 1) l'
             else c :: replaceb old new O l'
      end
  end.
Definition replaceAll (s old new : string) : string :=
  l2s (replaceb (s2l old) (s2l new) O (s2l s)).

(** ** White space ([unicode.IsSpace]) by encoded length

    The predicates recognise the UTF-8 encodings of one, two and three bytes:
    TAB..CR, SPACE; U+0085, U+00A0; U+1680, U+2000..U+200A, U+2028, U+2029,
    U+202F, U+205F, U+3000. *)
Definition space1 (a : ascii) : bool :=
  bool_decide (9 ≤ code a ≤ 13)%N || bool_decide (code a = 32)%N.
Definition space2 (a b : ascii) : bool :=
  bool_decide (code a = 194)%N &&
  (bool_decide (code b = 133)%N || bool_decide (code b = 160)%N).
Definition space3 (a b c : ascii) : bool :=
  (bool_decide (code a = 225)%N && bool_decide (code b = 154)%N && bool_decide (code c = 128)%N) ||
  (bool_decide (code a = 226)%N && bool_decide (code b = 128)%N &&
     (bool_decide (128 ≤ code c ≤ 138)%N || bool_decide (code c = 168)%N ||
      bool_decide (code c = 169)%N || bool_decide (code c = 175)%N)) ||
  (bool_decide (code a = 226)%N && bool_decide (code b = 129)%N && bool_decide (code c = 159)%N) ||
  (bool_decide (code a = 227)%N && bool_decide (code b = 128)%N && bool_decide (code c = 128)%N).

(** Drop the leading runes whose encodings the three predicates accept. *)
Fixpoint trimWhile (p1 : ascii → bool) (p2 : ascii → ascii → bool)
    (p3 : ascii → ascii → ascii → bool) (l : bytes) : bytes :=
  match l with
  | [] => []
  | a :: l1 =>
      if p1 a then trimWhile p1 p2 p3 l1
      else match l1 with
      | [] => l
      | b :: l2 =>
          if p2 a b then trimWhile p1 p2 p3 l2
          else match l2 with
          | [] => l
          | c :: l3 => if p3 a b c then trimWhile p1 p2 p3 l3 else l
          end
      end
  end.

Definition trimLeftSpace (l : bytes) : bytes := trimWhile space1 space2 space3 l.
Definition trimRightSpace (l : bytes) : bytes :=
  reverse (trimWhile space1 (flip space2) (λ c b a, space3 a b c) (reverse l)).
Definition trimSpace (s : string) : string := l2s (trimRightSpace (trimLeftSpace (s2l s))).

(** [strings.Trim], [TrimRight] for a cut set of ASCII bytes, and [TrimLeft]
    for the cut set of U+FEFF and SPACE. *)
Fixpoint dropWhileb (p : ascii → bool) (l : bytes) : bytes :=
  match l with
  | [] => []
  | a :: l' => if p a then dropWhileb p l' else l
  end.
Definition inSet (cutset : string) (a : ascii) : bool := bool_decide (a ∈ s2l cutset).
Definition trimLeftSet (s cutset : string) : string := l2s (dropWhileb (inSet cutset) (s2l s)).
Definition trimRightSet (s cutset : string) : string :=
  l2s (reverse (dropWhileb (inSet cutset) (reverse (s2l s)))).
Definition trimSet (s cutset : string) : string := trimRightSet (trimLeftSet s cutset) cutset.
Definition trimLeftBOM (s : string) : string :=
  l2s (trimWhile (λ a, bool_decide (code a = 32)%N) (λ _ _, false)
        (λ a b c, bool_decide (code a = 239)%N && bool_decide (code b = 187)%N &&
                  bool_decide (code c = 191)%N) (s2l s)).

(** [strings.Fields]: the maximal runs of bytes that are not white space. *)
Definition flush (cur : bytes) (rest : list bytes) : list bytes :=
  match cur with [] => rest | _ => reverse cur :: rest end.
Fixpoint fieldsb (cur : bytes) (l : bytes) : list bytes :=
  match l with
  | [] => flush cur []
  | a :: l1 =>
      if space1 a then flush cur (fieldsb [] l1)
      else match l1 with
      | [] => fieldsb (a :: cur) l1
      | b :: l2 =>
          if space2 a b then flush cur (fieldsb [] l2)
          else match l2 with
          | [] => fieldsb (a :: cur) l1
          | c :: l3 => if space3 a b c then flush cur (fieldsb [] l3) else fieldsb (a :: cur) l1
          end
      end
  end.
Definition fields (s : string) : list string := l2s <$> fieldsb [] (s2l s).

(** ** UTF-8 *)

Definition runeError : N := 65533.
Definition cont (b : ascii) (lo hi : N) : bool := bool_decide (lo ≤ code b ≤ hi)%N.

(** The second byte's range for a three- and a four-byte lead. *)
Definition lead3 (a : N) : option (N * N) :=
  if bool_decide (a = 224)%N then Some (160, 191)%N
  else if bool_decide (a = 237)%N then Some (128, 159)%N
  else if bool_decide (225 ≤ a ≤ 239)%N then Some (128, 191)%N
  else None.
Definition lead4 (a : N) : option (N * N) :=
  if bool_decide (a = 240)%N then Some (144, 191)%N
  else if bool_decide (a = 244)%N then Some (128, 143)%N
  else if bool_decide (241 ≤ a ≤ 243)%N then Some (128, 191)%N
  else None.

(** The runes of a string, each with the bytes it was decoded from; an invalid
    byte is U+FFFD decoded from that one byte. *)
Fixpoint decodeRunes (l : bytes) : list (N * bytes) :=
  match l with
  | [] => []
  | a :: l1 =>
      if bool_decide (code a < 128)%N then (code a, [a]) :: decodeRunes l1
      else match l1 with
      | [] => (runeError, [a]) :: decodeRunes l1
      | b :: l2 =>
          if bool_decide (194 ≤ code a ≤ 223)%N && cont b 128 191
          then (((code a - 192) * 64 + (code b - 128))%N, [a; b]) :: decodeRunes l2
          else match l2 with
          | [] => (runeError, [a]) :: decodeRunes l1
          | c :: l3 =>
              if match lead3 (code a) with
                 | Some (lo, hi) => cont b lo hi && cont c 128 191 | None => false end
              then (((code a - 224) * 4096 + (code b - 128) * 64 + (code c - 128))%N, [a; b; c])
                   :: decodeRunes l3
              else match l3 with
              | [] => (runeError, [a]) :: decodeRunes l1
              | d :: l4 =>
                  if match lead4 (code a) with
                     | Some (lo, hi) => cont b lo hi && cont c 128 191 && cont d 128 191
                     | None => false end
                  then (((code a - 240) * 262144 + (code b - 128) * 4096
                         + (code c - 128) * 64 + (code d - 128))%N, [a; b; c; d])
                       :: decodeRunes l4
                  else (runeError, [a]) :: decodeRunes l1
              end
          end
      end
  end.

(** [for _, r := range s]. *)
Definition runes (l : bytes) : list N := fst <$> decodeRunes l.

(** [utf8.AppendRune]. *)
Definition encodeRune (r : N) : bytes :=
  if bool_decide (r < 128)%N then [byte_of r]
  else if bool_decide (r < 2048)%N then [byte_of (192 + r / 64); byte_of (128 + r mod 64)]
  else if bool_decide (55296 ≤ r ≤ 57343)%N || bool_decide (1114111 < r)%N
  then [byte_of 239; byte_of 191; byte_of 189]
  else if bool_decide (r < 65536)%N
  then [byte_of (224 + r / 4096); byte_of (128 + (r / 64) mod 64); byte_of (128 + r mod 64)]
  else [byte_of (240 + r / 262144); byte_of (128 + (r / 4096) mod 64);
        byte_of (128 + (r / 64) mod 64); byte_of (128 + r mod 64)].

(** ** Case mapping *)

(** Unicode's simple case mappings, case-folding equivalence ([foldNonASCII a b]:
    [a] and [b] lie in one [SimpleFold] orbit) and printability for code points
    from U+0080 on. *)
Class UnicodeTables := {
  lowerNonASCII : N → N;
  upperNonASCII : N → N;
  foldNonASCII : N → N → bool;
  printNonASCII : N → bool
}.

Section Case.
Context {U : UnicodeTables}.

Definition lowerRune (r : N) : N :=
  if bool_decide (65 ≤ r ≤ 90)%N then (r + 32)%N
  else if bool_decide (r < 128)%N then r else lowerNonASCII r.
Definition upperRune (r : N) : N :=
  if bool_decide (97 ≤ r ≤ 122)%N then (r - 32)%N
  else if bool_decide (r < 128)%N then r else upperNonASCII r.

(** [strings.ToLower]: byte by byte on an ASCII string, else [strings.Map]. *)
Definition toLower (s : string) : string :=
  l2s (runes (s2l s) ≫= λ r, encodeRune (lowerRune r)).
Definition toUpper (s : string) : string :=
  l2s (runes (s2l s) ≫= λ r, encodeRune (upperRune r)).

Definition foldRune (a b : N) : bool :=
  bool_decide (a = b) ||
  if bool_decide (a < 128)%N && bool_decide (b < 128)%N
  then bool_decide (lowerRune a = lowerRune b)
  else foldNonASCII a b.
Fixpoint foldRunes (a b : list N) : bool :=
  match a, b with
  | [], [] => true
  | x :: a, y :: b => foldRune x y && foldRunes a b
  | _, _ => false
  end.
Definition equalFold (s t : string) : bool := foldRunes (runes (s2l s)) (runes (s2l t)).

(** ** [%q] ([strconv.Quote]) *)

Definition hexDigitChar (d : N) : ascii :=
  if bool_decide (d < 10)%N then byte_of (48 + d) else byte_of (87 + d).
(** [n] as [width] hexadecimal digits. *)
Fixpoint hexPad (width : nat) (n : N) : bytes :=
  match width with
  | O => []
  | S w => hexPad w (n / 16) ++ [hexDigitChar (n mod 16)]
  end.

Definition escapeRune (rb : N * bytes) : bytes :=
  let '(r, raw) := rb in
  if bool_decide (r = runeError) && bool_decide (length raw = 1%nat)
  then s2l "\x" ++ (raw ≫= λ c, hexPad 2 (code c))
  else if bool_decide (r = 34)%N || bool_decide (r = 92)%N then s2l "\" ++ raw
  else if (if bool_decide (r < 128)%N then bool_decide (32 ≤ r ≤ 126)%N else printNonASCII r)
  then raw
  else if bool_decide (r = 7)%N then s2l "\a"
  else if bool_decide (r = 8)%N then s2l "\b"
  else if bool_decide (r = 12)%N then s2l "\f"
  else if bool_decide (r = 10)%N then s2l "\n"
  else if bool_decide (r = 13)%N then s2l "\r"
  else if bool_decide (r = 9)%N then s2l "\t"
  else if bool_decide (r = 11)%N then s2l "\v"
  else if bool_decide (r < 32)%N || bool_decide (r = 127)%N then s2l "\x" ++ hexPad 2 r
  else if bool_decide (r < 65536)%N then s2l "\u" ++ hexPad 4 r
  else s2l "\U" ++ hexPad 8 r.

Definition quote (s : string) : string :=
  dquote +:+ l2s (decodeRunes (s2l s) ≫= escapeRune) +:+ dquote.
End Case.

(** The tables restricted to ASCII: every other rune is its own lower case,
    upper case and fold, and printable.  Concrete runs on ASCII data use it. *)
Definition asciiTables : UnicodeTables :=
  {| lowerNonASCII r := r; upperNonASCII r := r; foldNonASCII a b := bool_decide (a = b);
     printNonASCII _ := true |}.

(** ** Numbers *)

Definition digit (c : ascii) : option Z :=
  if bool_decide (48 ≤ code c ≤ 57)%N then Some (Z.of_N (code c - 48)) else None.

(** The value of a non-empty run of decimal digits. *)
Fixpoint digits (acc : Z) (l : bytes) : option Z :=
  match l with
  | [] => Some acc
  | c :: l' => match digit c with Some d => digits (acc * 10 + d)%Z l' | None => None end
  end.

(** [strconv.Atoi]: the value and whether the error is nil.  A syntax error
    gives 0, a value out of range the nearest bound. *)
Definition atoi (s : string) : Z * bool :=
  let '(neg, ds) :=
    match s2l s with
    | c :: l => if bool_decide (code c = 45)%N then (true, l)
                else if bool_decide (code c = 43)%N then (false, l) else (false, c :: l)
    | [] => (false, [])
    end in
  match ds with
  | [] => (0%Z, false)
  | _ => match digits 0 ds with
         | None => (0%Z, false)
         | Some n =>
             let v := if neg : bool then (- n)%Z else n in
             if bool_decide (v < minInt64)%Z then (minInt64, false)
             else if bool_decide (maxInt64 < v)%Z then (maxInt64, false)
             else (v, true)
         end
  end.

(** [%d] and [%v] of an integer, [%v] of a bool. *)
Definition itoa (z : Z) : string := pretty z.
Definition fmtBool (b : bool) : string := if b then "true" else "false".

(** [x < y] on strings: bytewise. *)
Definition strLess (s t : string) : bool := String.ltb s t.

(** The [valueOr] helpers: [proxycore], [subscription] and [tunnel] test for the
    empty string, [classify] and [service] for a blank one. *)
Definition valueOr (value fallback : string) : string :=
  if bool_decide (value = "") then fallback else value.
Definition valueOrBlank (value fallback : string) : string :=
  if bool_decide (trimSpace value = "") then fallback else value.

(** ** Lemmas *)

Lemma splitb_no_sep sep l w : w ∈ splitb sep l → sep ∉ w.
Proof.
  revert w. induction l as [|c l IH]; intros w; simpl.
  - intros ->%list_elem_of_singleton. apply not_elem_of_nil.
  - case_bool_decide as E.
    + intros [->|H]%elem_of_cons; [apply not_elem_of_nil|auto].
    + destruct (splitb sep l) as [|v ws]; simpl in *.
      * intros ->%list_elem_of_singleton Hin%list_elem_of_singleton. congruence.
      * intros [->|H]%elem_of_cons; [|apply IH; by right].
        intros [->|Hin]%elem_of_cons; [done|]. by eapply (IH v); [left|].
Qed.

Lemma splitb_single sep w : sep ∉ w → splitb sep w = [w].
Proof.
  induction w as [|c w IH]; [done|]. intros [Hne Hw]%not_elem_of_cons. simpl.
  by rewrite bool_decide_false, IH.
Qed.

Lemma splitb_app_sep sep w l : sep ∉ w → splitb sep (w ++ sep :: l) = w :: splitb sep l.
Proof.
  induction w as [|c w IH]; intros Hw; simpl.
  - by rewrite bool_decide_true.
  - apply not_elem_of_cons in Hw as [Hne Hw]. by rewrite bool_decide_false, IH.
Qed.

(** A string without the byte [c]. *)
Definition lacks (c : ascii) (s : string) : Prop := c ∉ s2l s.

Lemma splitLines_lacks s w : w ∈ splitLines s → lacks (byte_of 10) w.
Proof.
  unfold splitLines, lacks. intros (l & -> & H)%list_elem_of_fmap.
  rewrite s2l_l2s. by eapply splitb_no_sep.
Qed.

Lemma splitb_elem sep l w c : w ∈ splitb sep l → c ∈ w → c ∈ l.
Proof.
  revert w. induction l as [|d l IH]; intros w; simpl.
  - by intros ->%list_elem_of_singleton ?%elem_of_nil.
  - case_bool_decide.
    + intros [->|H']%elem_of_cons Hc; [by apply elem_of_nil in Hc|right; eauto].
    + destruct (splitb sep l) as [|v ws]; simpl in *.
      * intros ->%list_elem_of_singleton ->%list_elem_of_singleton. left.
      * intros [->|H']%elem_of_cons Hc; [|right; eapply IH; [by right|done]].
        apply elem_of_cons in Hc as [->|Hc]; [left|right; eapply IH; [left|done]].
Qed.

Lemma splitLines_elem s w c : w ∈ splitLines s → c ∈ s2l w → c ∈ s2l s.
Proof.
  unfold splitLines. intros (l & -> & H)%list_elem_of_fmap. rewrite s2l_l2s.
  by apply (splitb_elem (byte_of 10) (s2l s)).
Qed.

Lemma splitb_covers sep l c : c ∈ l → c = sep ∨ ∃ w, w ∈ splitb sep l ∧ c ∈ w.
Proof.
  induction l as [|d l IH]; [by intros ?%elem_of_nil|]. simpl.
  intros [->|Hin]%elem_of_cons.
  - case_bool_decide as E; [by left|]. right.
    destruct (splitb sep l) as [|v ws]; eexists; split; left.
  - destruct (IH Hin) as [?|(w & Hw & Hc)]; [by left|right].
    case_bool_decide; [exists w; split; [by right|done]|].
    destruct (splitb sep l) as [|v ws]; [by apply elem_of_nil in Hw|].
    apply elem_of_cons in Hw as [->|Hw].
    + exists (d :: v). split; [left|by right].
    + exists w. split; [by right|done].
Qed.

(** A byte other than the newline that no line has is not in the text. *)
Lemma splitLines_lacks_all s c :
  Forall (lacks c) (splitLines s) → c ∈ s2l s → c = byte_of 10.
Proof.
  intros H Hin. destruct (splitb_covers (byte_of 10) (s2l s) c Hin) as [?|(w & Hw & Hc)]; [done|].
  rewrite Forall_forall in H. exfalso. apply (H (l2s w)).
  - apply list_elem_of_fmap. eauto.
  - by rewrite s2l_l2s.
Qed.

(** A run of ASCII bytes without blanks, and words made of them. *)
Lemma fieldsb_word cur w rest :
  Forall (λ c, (code c < 128)%N ∧ space1 c = false) w → fieldsb cur (w ++ rest) = fieldsb (reverse w ++ cur) rest.
Proof.
  intros Hw. revert cur. induction Hw as [|a w [Ha Hs] Hw IH]; intros cur; [done|].
  assert (∀ b, space2 a b = false) as H2 by (intros b; unfold space2; rewrite bool_decide_false; [done|lia]).
  assert (∀ b c, space3 a b c = false) as H3.
  { intros b c. unfold space3. by rewrite !(bool_decide_false (code a = _)) by lia. }
  rewrite reverse_cons, <-app_assoc. cbn [app]. rewrite <-IH.
  destruct (w ++ rest) as [|b [|c l]] eqn:E; cbn [fieldsb]; rewrite Hs, ?H2, ?H3; done.
Qed.

(** Not empty and no blank inside. *)
Definition solidWord (s : string) : Prop := s ≠ "" ∧ Forall (λ c, (code c < 128)%N ∧ space1 c = false) (s2l s).

Lemma fields_words ws : Forall solidWord ws → fields (join " " ws) = ws.
Proof.
  unfold fields. intros Hws.
  assert (∀ s, s ≠ "" → s2l s ≠ []) as Hne by (intros s Hs E; apply Hs, s2l_inj; by rewrite E).
  induction Hws as [|w ws [Hw Hc] Hws IH]; [done|]. apply Hne in Hw.
  assert (flush (reverse (s2l w)) = cons (s2l w)) as Hf.
  { unfold flush. destruct (reverse (s2l w)) as [|c r] eqn:E; [|by rewrite <-E, reverse_involutive].
    by apply (f_equal reverse) in E; rewrite reverse_involutive in E. }
  destruct ws as [|w' ws].
  - simpl join. rewrite <-(app_nil_r (s2l w)), fieldsb_word by done. simpl. rewrite app_nil_r, Hf. simpl. by rewrite l2s_s2l.
  - change (join " " (w :: w' :: ws)) with (w +:+ " " +:+ join " " (w' :: ws)).
    rewrite !s2l_app, fieldsb_word, app_nil_r by done. change (s2l " ") with [byte_of 32].
    change (fieldsb (reverse (s2l w)) ([byte_of 32] ++ s2l (join " " (w' :: ws))))
      with (flush (reverse (s2l w)) (fieldsb [] (s2l (join " " (w' :: ws))))).
    rewrite Hf, fmap_cons, IH. by rewrite l2s_s2l.
Qed.

Lemma hasPrefix_app p s : hasPrefix (p +:+ s) p = true.
Proof.
  unfold hasPrefix. rewrite s2l_app. induction (s2l p) as [|c l IH]; [done|]. simpl.
  by rewrite bool_decide_true.
Qed.
Lemma trimPrefix_app p s : trimPrefix (p +:+ s) p = s.
Proof. unfold trimPrefix. by rewrite hasPrefix_app, s2l_app, drop_app_length, l2s_s2l. Qed.

Lemma trimWhile_head p1 p2 p3 a l :
  p1 a = false → (∀ b, p2 a b = false) → (∀ b c, p3 a b c = false) → trimWhile p1 p2 p3 (a :: l) = a :: l.
Proof. intros H1 H2 H3. destruct l as [|b [|c l]]; simpl; by rewrite H1, ?H2, ?H3. Qed.

(** A string whose first and last bytes are ASCII and not blank. *)
Lemma trimSpace_ends s a b l r :
  (code a < 128)%N ∧ space1 a = false → (code b < 128)%N ∧ space1 b = false →
  s2l s = a :: l → reverse (s2l s) = b :: r → trimSpace s = s.
Proof.
  intros [Ha Ha1] [Hb Hb1] El Er. unfold trimSpace, trimLeftSpace, trimRightSpace.
  rewrite <-(l2s_s2l s) at 2. f_equal. rewrite El, trimWhile_head; [|done|..].
  2, 3: intros; unfold space2, space3; by rewrite !(bool_decide_false (code a = _)) by lia.
  rewrite <-El, Er, trimWhile_head; [by rewrite <-Er, reverse_involutive|done|..].
  - intros c. unfold flip, space2. by rewrite !(bool_decide_false (code b = _)), andb_false_r by lia.
  - intros c d. unfold space3. rewrite !(bool_decide_false (code b = _)), (bool_decide_false (128 ≤ code b ≤ 138)%N) by lia.
    by rewrite !andb_false_r.
Qed.

Lemma trimSpace_solid s : solidWord s → trimSpace s = s.
Proof.
  intros [Hne Hs]. destruct (s2l s) as [|a l] eqn:El; [by apply (s2l_inj s "") in El|].
  destruct (reverse (a :: l)) as [|b r] eqn:Er; [by apply (f_equal length) in Er; rewrite length_reverse in Er|].
  pose proof Hs as Hr. apply Forall_reverse in Hr. rewrite Er in Hr.
  eapply trimSpace_ends; [by apply (Forall_inv Hs)|by apply (Forall_inv Hr)|done|by rewrite El].
Qed.

(** Words joined by blanks. *)
Lemma trimSpace_words ws : ws ≠ [] → Forall solidWord ws → trimSpace (join " " ws) = join " " ws.
Proof.
  intros Hne Hws. assert (∀ s, solidWord s → ∃ c, (code c < 128)%N ∧ space1 c = false ∧ (∃ l, s2l s = c :: l)) as Hfst.
  { intros s [Hs Hc]. destruct (s2l s) as [|c l] eqn:E; [by apply (s2l_inj s "") in E|].
    exists c. destruct (Forall_inv Hc). eauto. }
  assert (∀ s, solidWord s → ∃ c r, (code c < 128)%N ∧ space1 c = false ∧ reverse (s2l s) = c :: r) as Hlst.
  { intros s [Hs Hc]. apply Forall_reverse in Hc. destruct (reverse (s2l s)) as [|c r] eqn:E.
    - apply (f_equal reverse) in E. rewrite reverse_involutive in E. by apply (s2l_inj s "") in E.
    - exists c, r. by destruct (Forall_inv Hc). }
  assert (∃ c l, (code c < 128)%N ∧ space1 c = false ∧ s2l (join " " ws) = c :: l) as (a & l & Ha & Ha' & El).
  { destruct ws as [|w ws]; [done|]. destruct (Hfst w (Forall_inv Hws)) as (c & H1 & H2 & t & Ht). exists c.
    destruct ws; [eauto|]. change (join " " (w :: s :: ws)) with (w +:+ " " +:+ join " " (s :: ws)).
    rewrite s2l_app, Ht. cbn. eauto. }
  assert (∃ c r, (code c < 128)%N ∧ space1 c = false ∧ reverse (s2l (join " " ws)) = c :: r) as (b & r & Hb & Hb' & Er).
  { clear El. induction Hws as [|w ws Hw Hws IH]; [done|]. destruct ws as [|v ws]; [by apply Hlst|].
    change (join " " (w :: v :: ws)) with (w +:+ " " +:+ join " " (v :: ws)).
    destruct IH as (c & r & ? & ? & Hr); [done|]. exists c. rewrite !s2l_app, !reverse_app, Hr. cbn. eauto. }
  by apply (trimSpace_ends _ a b l r).
Qed.

Lemma join_lacks c sep ws : lacks c sep → Forall (lacks c) ws → lacks c (join sep ws).
Proof.
  intros Hs Hws. induction Hws as [|w ws Hw Hws IH]; [apply not_elem_of_nil|]. destruct ws as [|v ws]; [done|].
  change (join sep (w :: v :: ws)) with (w +:+ sep +:+ join sep (v :: ws)). unfold lacks in *.
  rewrite !s2l_app, !not_elem_of_app. auto.
Qed.

Lemma splitOn_join sep ws : ws ≠ [] → Forall (lacks (byte_of sep)) ws → splitOn sep (join (str1 sep) ws) = ws.
Proof.
  intros Hne Hws. unfold splitOn. induction Hws as [|w ws Hw Hws IH]; [done|]. destruct ws as [|v ws].
  - cbn [join]. rewrite splitb_single by done. cbn. by rewrite l2s_s2l.
  - change (join (str1 sep) (w :: v :: ws)) with (w +:+ str1 sep +:+ join (str1 sep) (v :: ws)).
    rewrite !s2l_app. change (s2l (str1 sep)) with [byte_of sep]. cbn [app]. rewrite splitb_app_sep by done.
    rewrite fmap_cons, IH by done. by rewrite l2s_s2l.
Qed.
Lemma splitOn_words ws : ws ≠ [] → Forall (lacks (byte_of 32)) ws → splitOn 32 (join " " ws) = ws.
Proof. exact (splitOn_join 32 ws). Qed.

Lemma solidWord_lacks c s : space1 c = true → solidWord s → lacks c s.
Proof. intros Hc [_ Hs] Hin. rewrite Forall_forall in Hs. destruct (Hs c Hin). congruence. Qed.

Lemma solidWord_value s fallback : solidWord s → valueOrBlank s fallback = s.
Proof. intros Hs. unfold valueOrBlank. rewrite trimSpace_solid by done. destruct Hs. by rewrite bool_decide_false. Qed.

Lemma append_assoc (a b c : string) : (a +:+ b) +:+ c = a +:+ b +:+ c.
Proof. apply s2l_inj. by rewrite !s2l_app, app_assoc. Qed.

Lemma join_snoc sep lines s : lines ≠ [] → join sep (lines ++ [s]) = join sep lines +:+ sep +:+ s.
Proof.
  induction lines as [|l lines IH]; [done|]. intros _. destruct lines as [|l' lines]; [done|].
  change (l +:+ sep +:+ join sep ((l' :: lines) ++ [s]) = (l +:+ sep +:+ join sep (l' :: lines)) +:+ sep +:+ s).
  rewrite IH by done. by rewrite !append_assoc.
Qed.

Lemma s2l_nl : s2l nl = [byte_of 10].
Proof. reflexivity. Qed.

Lemma splitLines_join lines s :
  Forall (lacks (byte_of 10)) lines →
  splitLines (join nl lines +:+ nl +:+ s) =
  (match lines with [] => [""] | _ => lines end) ++ splitLines s.
Proof.
  intros H. unfold splitLines. rewrite !s2l_app, s2l_nl.
  induction H as [|x lines Hx Hl IH]; [done|].
  destruct lines as [|y lines].
  - cbn [join app]. rewrite (splitb_app_sep _ (s2l x)) by done.
    simpl. by rewrite l2s_s2l.
  - change (join nl (x :: y :: lines)) with (x +:+ nl +:+ join nl (y :: lines)).
    rewrite !s2l_app, s2l_nl, <-!(assoc_L app).
    cbn [app]. rewrite (splitb_app_sep _ (s2l x)) by done.
    rewrite fmap_cons, l2s_s2l. cbn [app] in *. by rewrite IH.
Qed.

Lemma replaceb_absent o old new l : o ∉ l → replaceb (o :: old) new 0 l = l.
Proof.
  induction l as [|c l IH]; [done|]. intros [Hne Hl]%not_elem_of_cons.
  cbn [replaceb prefixb]. rewrite bool_decide_false by done. cbn [andb]. by rewrite IH.
Qed.

Lemma replaceb_removes o new l : o ∉ new → o ∉ replaceb [o] new 0 l.
Proof.
  intros Hnew. induction l as [|c l IH]; [apply not_elem_of_nil|].
  cbn [replaceb prefixb length Nat.sub]. case_bool_decide as E; cbn [andb].
  - rewrite elem_of_app. tauto.
  - rewrite elem_of_cons. intros [?|?]; [congruence|done].
Qed.

(** ** Trimming *)

Lemma trimWhile_snoc p1 p2 p3 l x :
  p1 x = true → (∀ a, p2 a x = false) → (∀ a b, p3 a b x = false) →
  trimWhile p1 p2 p3 (l ++ [x]) =
  match trimWhile p1 p2 p3 l with [] => [] | r => r ++ [x] end.
Proof.
  intros H1 H2 H3.
  induction l as [l IH] using (induction_ltof1 _ (@length ascii)). unfold ltof in IH.
  destruct l as [|a [|b [|c l]]].
  - cbn. by rewrite H1.
  - cbn. destruct (p1 a) eqn:Ea; cbn; [by rewrite H1|]. by rewrite H2.
  - cbn. destruct (p1 a) eqn:Ea.
    { apply (IH [b]). simpl. lia. }
    destruct (p2 a b) eqn:Eb; [by rewrite H1|]. by rewrite H3.
  - cbn [app trimWhile].
    destruct (p1 a) eqn:Ea; [apply (IH (b :: c :: l)); simpl; lia|].
    destruct (p2 a b) eqn:Eb; [apply (IH (c :: l)); simpl; lia|].
    destruct (p3 a b c) eqn:Ec; [apply (IH l); simpl; lia|]. done.
Qed.

Lemma blank_not_wide x :
  x ∈ [byte_of 32; byte_of 9] →
  space1 x = true ∧ (∀ a, space2 a x = false) ∧ (∀ a b, space3 a b x = false).
Proof.
  intros Hx. assert (code x = 32 ∨ code x = 9)%N as Hc.
  { apply elem_of_cons in Hx as [-> | ->%list_elem_of_singleton]; auto. }
  unfold space1, space2, space3.
  destruct Hc as [-> | ->]; (split; [done|split; intros; cbn; by rewrite ?andb_false_r]).
Qed.

Lemma trimSpace_blank_tail l x :
  x ∈ [byte_of 32; byte_of 9] → trimSpace (l2s (l ++ [x])) = trimSpace (l2s l).
Proof.
  intros Hx. destruct (blank_not_wide x Hx) as (H1 & H2 & H3).
  unfold trimSpace. rewrite !s2l_l2s. unfold trimLeftSpace. rewrite trimWhile_snoc by done.
  destruct (trimWhile space1 space2 space3 l) as [|a r]; [done|].
  unfold trimRightSpace. rewrite reverse_app. simpl. by rewrite H1.
Qed.

(** Dropping from the end is removing a suffix of accepted bytes. *)
Lemma dropWhileb_split p l :
  ∃ d, l = d ++ dropWhileb p l ∧ Forall (λ c, p c = true) d.
Proof.
  induction l as [|c l (d & Hd & Hp)]; [by exists []|]. simpl.
  destruct (p c) eqn:E.
  - exists (c :: d). split; [by rewrite Hd at 1|by constructor].
  - by exists [].
Qed.

Lemma trimRightSet_split s cutset :
  ∃ d, s2l s = s2l (trimRightSet s cutset) ++ d ∧ Forall (λ c, c ∈ s2l cutset) d.
Proof.
  unfold trimRightSet. rewrite s2l_l2s.
  destruct (dropWhileb_split (inSet cutset) (reverse (s2l s))) as (d & Hd & Hp).
  exists (reverse d). split.
  - by rewrite <-reverse_app, <-Hd, reverse_involutive.
  - apply Forall_reverse. eapply Forall_impl; [exact Hp|].
    intros c Hc. unfold inSet in Hc. by bools.
Qed.

Lemma dropWhileb_idemp p l : dropWhileb p (dropWhileb p l) = dropWhileb p l.
Proof. induction l as [|c l IH]; simpl; [done|]. destruct (p c) eqn:E; simpl; [done|by rewrite E]. Qed.

Lemma trimRightSet_idemp s cutset : trimRightSet (trimRightSet s cutset) cutset = trimRightSet s cutset.
Proof. unfold trimRightSet. by rewrite s2l_l2s, reverse_involutive, dropWhileb_idemp. Qed.

Lemma trimRightSet_lacks c s cutset : lacks c s → lacks c (trimRightSet s cutset).
Proof.
  unfold lacks. destruct (trimRightSet_split s cutset) as (d & -> & _).
  rewrite elem_of_app. tauto.
Qed.

(** Library functions do not unfold during simplification. *)
(** ** Decimal numbers *)

Lemma pretty_N_char_digit d : (d < 10)%N → digit (pretty_N_char d) = Some (Z.of_N d).
Proof.
  intros Hd. assert (d = 0 ∨ d = 1 ∨ d = 2 ∨ d = 3 ∨ d = 4 ∨ d = 5 ∨ d = 6 ∨ d = 7 ∨ d = 8 ∨ d = 9)%N
    as Hc by lia. by destruct_or! Hc; subst.
Qed.

Lemma pretty_N_go_digits x s acc :
  ∃ k, digits acc (s2l (pretty_N_go x s)) = digits (acc * 10 ^ Z.of_nat k + Z.of_N x)%Z (s2l s).
Proof.
  revert s acc. induction (N.lt_wf_0 x) as [x _ IH]; intros s acc.
  destruct (decide (x = 0)%N) as [->|Hx]; [exists 0%nat; rewrite pretty_N_go_0; f_equal; lia|].
  rewrite pretty_N_go_step by lia.
  destruct (IH (x / 10)%N ltac:(apply N.div_lt; lia) (String (pretty_N_char (x mod 10)) s) acc) as [k ->].
  exists (S k). unfold s2l. simpl.
  rewrite pretty_N_char_digit by (apply N.mod_lt; lia). f_equal.
  rewrite Nat2Z.inj_succ, Z.pow_succ_r by lia. pose proof (N.div_mod x 10). lia.
Qed.

Lemma pretty_N_go_elem x s c : c ∈ s2l (pretty_N_go x s) → c ∈ s2l s ∨ is_Some (digit c).
Proof.
  revert s. induction (N.lt_wf_0 x) as [x _ IH]; intros s.
  destruct (decide (x = 0)%N) as [->|Hx]; [rewrite pretty_N_go_0; by left|].
  rewrite pretty_N_go_step by lia. intros [Hin|?]%IH; [|by right|apply N.div_lt; lia].
  apply elem_of_cons in Hin as [->|?]; [right|by left].
  rewrite pretty_N_char_digit by (apply N.mod_lt; lia). eauto.
Qed.

Lemma pretty_N_value (n : N) : digits 0 (s2l (pretty n)) = Some (Z.of_N n) ∧ s2l (pretty n) ≠ [].
Proof.
  unfold pretty, pretty_N. case_decide as Hn; [by subst|].
  destruct (pretty_N_go_digits n "" 0) as [k E]. split; [by rewrite E; simpl; f_equal; lia|].
  intros E'. rewrite E' in E. simpl in E. injection E. lia.
Qed.

Lemma pretty_N_elem (n : N) c : c ∈ s2l (pretty n) → is_Some (digit c).
Proof.
  unfold pretty, pretty_N. case_decide; [intros ->%list_elem_of_singleton; by eexists|].
  intros [Hin|?]%pretty_N_go_elem; [by apply elem_of_nil in Hin|done].
Qed.

Lemma itoa_elem z c : c ∈ s2l (itoa z) → c = byte_of 45 ∨ is_Some (digit c).
Proof.
  unfold itoa, pretty, pretty_Z. destruct z as [|p|p].
  - intros ->%list_elem_of_singleton. right. by eexists.
  - intros ?%pretty_N_elem. by right.
  - rewrite s2l_app. intros [Hin|?%pretty_N_elem]%elem_of_app; [|by right].
    apply list_elem_of_singleton in Hin. by left.
Qed.

(** [Atoi] reads back what [%d] prints. *)
Lemma atoi_itoa z : isInt64 z → atoi (itoa z) = (z, true).
Proof.
  assert (∀ n : N, atoi (pretty n) = (if bool_decide (maxInt64 < Z.of_N n)%Z then (maxInt64, false) else (Z.of_N n, true))) as Hp.
  { intros n. destruct (pretty_N_value n) as [Hv Hn]. unfold atoi.
    destruct (s2l (pretty n)) as [|c l] eqn:E; [done|].
    assert (is_Some (digit c)) as [d Hd] by (apply (pretty_N_elem n); rewrite E; by left).
    assert (48 ≤ code c ≤ 57)%N as Hc.
    { unfold digit in Hd. by case_bool_decide. }
    rewrite !bool_decide_false by lia. rewrite Hv.
    rewrite (bool_decide_false (Z.of_N n < minInt64)%Z); [done|unfold minInt64; lia]. }
  intros [Hlo Hhi]. destruct z as [|p|p].
  - done.
  - change (itoa (Zpos p)) with (pretty (Npos p)). rewrite Hp, bool_decide_false; [done|simpl; lia].
  - change (itoa (Zneg p)) with ("-" +:+ pretty (Npos p)). unfold atoi. rewrite s2l_app. simpl.
    destruct (pretty_N_value (Npos p)) as [Hv Hn].
    destruct (s2l (pretty (Npos p))) as [|c l] eqn:E; [done|]. rewrite Hv. simpl.
    rewrite !bool_decide_false; [done|..]; unfold minInt64, maxInt64 in *; lia.
Qed.

(** ** Trimming only removes bytes *)

Lemma trimWhile_elem p1 p2 p3 l c : c ∈ trimWhile p1 p2 p3 l → c ∈ l.
Proof.
  induction l as [l IH] using (induction_ltof1 _ length). unfold ltof in IH.
  destruct l as [|a [|b [|d l]]]; simpl; intros H; repeat case_hyp H; try done;
    try (apply IH in H; [|simpl; lia]); rewrite ?elem_of_cons, ?elem_of_nil in *; tauto.
Qed.

Lemma trimSpace_elem s c : c ∈ s2l (trimSpace s) → c ∈ s2l s.
Proof.
  unfold trimSpace, trimRightSpace, trimLeftSpace. rewrite s2l_l2s, elem_of_reverse.
  intros H%trimWhile_elem. rewrite elem_of_reverse in H. by apply trimWhile_elem in H.
Qed.

#[global] Arguments hasPrefix : simpl never.
#[global] Arguments hasSuffix : simpl never.
#[global] Arguments contains : simpl never.
#[global] Arguments trimPrefix : simpl never.
#[global] Arguments splitLines : simpl never.
#[global] Arguments replaceAll : simpl never.
#[global] Arguments trimSpace : simpl never.
#[global] Arguments trimSet : simpl never.
#[global] Arguments trimRightSet : simpl never.
#[global] Arguments trimLeftBOM : simpl never.
#[global] Arguments fields : simpl never.
#[global] Arguments toLower : simpl never.
#[global] Arguments toUpper : simpl never.
#[global] Arguments equalFold : simpl never.
#[global] Arguments atoi : simpl never.
#[global] Arguments itoa : simpl never.
#[global] Arguments strLess : simpl never.
