(* ===== verification/GoNet.v ===== *)
(** * Go's [net] package

    IP addresses in the 16-byte form [net.ParseIP] returns, its parser (that of
    [net/netip], zones refused), the classification predicates, [IP.String],
    [SplitHostPort] and [JoinHostPort]. *)

From S2P Require Import Prelude GoStrings.

(** A [net.IP] of 16 bytes, most significant first. *)
Abbreviation IP := (list N).

Definition v4prefix : IP := [0; 0; 0; 0; 0; 0; 0; 0; 0; 0; 255; 255]%N.

(** ** Parsing *)

(** [netip.parseIPv4Fields]: four decimal octets without leading zeros.  The
    state is the octets read, the value and the number of digits of the current one. *)
Fixpoint parseIPv4Fields (acc : list N) (val : N) (digLen : nat) (l : bytes) : option (list N) :=
  match l with
  | [] => if bool_decide (length acc = 3%nat) && bool_decide (digLen ≠ 0%nat)
          then Some (acc ++ [val]) else None
  | c :: l' =>
      if bool_decide (48 ≤ code c ≤ 57)%N then
        if bool_decide (digLen = 1%nat) && bool_decide (val = 0%N) then None
        else let val' := (val * 10 + (code c - 48))%N in
             if bool_decide (255 < val')%N then None
             else parseIPv4Fields acc val' (S digLen) l'
      else if bool_decide (code c = 46)%N then
        if bool_decide (digLen = 0%nat) || bool_decide (length acc = 3%nat) then None
        else parseIPv4Fields (acc ++ [val]) 0 0 l'
      else None
  end.
Definition parseIPv4 (l : bytes) : option (list N) := parseIPv4Fields [] 0 0 l.

Definition hexDigit (c : ascii) : option N :=
  let n := code c in
  if bool_decide (48 ≤ n ≤ 57)%N then Some (n - 48)%N
  else if bool_decide (97 ≤ n ≤ 102)%N then Some (n - 87)%N
  else if bool_decide (65 ≤ n ≤ 70)%N then Some (n - 55)%N
  else None.

(** The hexadecimal group at the head of [l]: value, digits read, rest. *)
Fixpoint hexGroup (acc : N) (off : nat) (l : bytes) : N * nat * bytes :=
  match l with
  | [] => (acc, off, [])
  | c :: l' => match hexDigit c with
               | Some d => hexGroup (acc * 16 + d)%N (S off) l'
               | None => (acc, off, l)
               end
  end.

(** The loop of [netip.parseIPv6]: [ip] holds the bytes read, [ell] the position
    of the [::].  Every iteration adds at least two bytes, so eight iterations
    are enough; the loop ends when sixteen bytes are there. *)
Fixpoint parseIPv6Loop (fuel : nat) (ip : list N) (ell : option nat) (l : bytes)
    : option (list N * option nat * bytes) :=
  match fuel with
  | O => Some (ip, ell, l)
  | S fuel =>
      let '(acc, off, rest) := hexGroup 0 0 l in
      if bool_decide (off = 0%nat) || bool_decide (4 < off)%nat then None
      else match rest with
      | [] => Some (ip ++ [acc / 256; acc mod 256]%N, ell, [])
      | c :: rest1 =>
          if bool_decide (code c = 46)%N then
            if (bool_decide (ell = None) && bool_decide (length ip ≠ 12%nat))
               || bool_decide (12 < length ip)%nat then None
            else match parseIPv4 l with
                 | Some v4 => Some (ip ++ v4, ell, [])
                 | None => None
                 end
          else
            let ip' := ip ++ [acc / 256; acc mod 256]%N in
            if bool_decide (code c ≠ 58)%N then None
            else match rest1 with
            | [] => None
            | d :: rest2 =>
                if bool_decide (code d = 58)%N then
                  match ell with
                  | Some _ => None
                  | None => match rest2 with
                            | [] => Some (ip', Some (length ip'), [])
                            | _ => parseIPv6Loop fuel ip' (Some (length ip')) rest2
                            end
                  end
                else parseIPv6Loop fuel ip' ell rest1
            end
      end
  end.

Definition parseIPv6 (l : bytes) : option IP :=
  let '(ell, l) :=
    match l with
    | a :: b :: l' => if bool_decide (code a = 58)%N && bool_decide (code b = 58)%N
                      then (Some 0%nat, l') else (None, l)
    | _ => (None, l)
    end in
  match ell, l with
  | Some _, [] => Some (replicate 16 0%N)
  | _, _ =>
      match parseIPv6Loop 8 [] ell l with
      | Some (ip, ell, []) =>
          if bool_decide (length ip < 16)%nat then
            match ell with
            | None => None
            | Some e => Some (take e ip ++ replicate (16 - length ip) 0%N ++ drop e ip)
            end
          else match ell with Some _ => None | None => Some ip end
      | _ => None
      end
  end.

(** [net.ParseIP]; an address with a zone is not an IP. *)
Fixpoint parseAddrKind (l : bytes) : option bool :=
  match l with
  | [] => None
  | c :: l' => if bool_decide (code c = 46)%N then Some true
               else if bool_decide (code c = 58)%N then Some false
               else if bool_decide (code c = 37)%N then None
               else parseAddrKind l'
  end.
Definition parseIP (s : string) : option IP :=
  match parseAddrKind (s2l s) with
  | Some true => (λ v4, v4prefix ++ v4) <$> parseIPv4 (s2l s)
  | Some false => if bool_decide (byte_of 37 ∈ s2l s) then None else parseIPv6 (s2l s)
  | None => None
  end.

(** ** Classification *)

Definition to4 (ip : IP) : option (list N) :=
  if bool_decide (length ip = 16%nat) && bool_decide (take 12 ip = v4prefix)
  then Some (drop 12 ip) else None.

Definition isUnspecified (ip : IP) : bool :=
  bool_decide (ip = v4prefix ++ [0; 0; 0; 0]%N) || bool_decide (ip = replicate 16 0%N).
Definition isLoopback (ip : IP) : bool :=
  match to4 ip with
  | Some v4 => bool_decide (v4 !! 0%nat = Some 127%N)
  | None => bool_decide (ip = replicate 15 0%N ++ [1%N])
  end.
Definition octet (ip : list N) (i : nat) : N := default 0%N (ip !! i).
Definition isPrivate (ip : IP) : bool :=
  match to4 ip with
  | Some v4 =>
      bool_decide (octet v4 0 = 10)%N
      || (bool_decide (octet v4 0 = 172)%N && bool_decide (N.land (octet v4 1) 240 = 16)%N)
      || (bool_decide (octet v4 0 = 192)%N && bool_decide (octet v4 1 = 168)%N)
  | None => bool_decide (length ip = 16%nat) && bool_decide (N.land (octet ip 0) 254 = 252)%N
  end.
Definition isMulticast (ip : IP) : bool :=
  match to4 ip with
  | Some v4 => bool_decide (N.land (octet v4 0) 240 = 224)%N
  | None => bool_decide (length ip = 16%nat) && bool_decide (octet ip 0 = 255)%N
  end.
Definition isLinkLocalUnicast (ip : IP) : bool :=
  match to4 ip with
  | Some v4 => bool_decide (octet v4 0 = 169)%N && bool_decide (octet v4 1 = 254)%N
  | None => bool_decide (length ip = 16%nat) && bool_decide (octet ip 0 = 254)%N
            && bool_decide (N.land (octet ip 1) 192 = 128)%N
  end.
Definition isGlobalUnicast (ip : IP) : bool :=
  bool_decide (length ip = 16%nat)
  && negb (bool_decide (ip = v4prefix ++ [255; 255; 255; 255]%N))
  && negb (isUnspecified ip) && negb (isLoopback ip)
  && negb (isMulticast ip) && negb (isLinkLocalUnicast ip).

(** Every caller tests the same thing of an address it wants to be public. *)
Definition publicIP (ip : IP) : bool :=
  isGlobalUnicast ip && negb (isPrivate ip) && negb (isLoopback ip).

(** ** Printing *)

(** [%x] of a 16-bit group: no leading zeros. *)
Definition hex16 (n : N) : bytes :=
  if bool_decide (4096 ≤ n)%N
  then hexDigitChar <$> [n / 4096; (n / 256) mod 16; (n / 16) mod 16; n mod 16]%N
  else if bool_decide (256 ≤ n)%N then hexDigitChar <$> [n / 256; (n / 16) mod 16; n mod 16]%N
  else if bool_decide (16 ≤ n)%N then hexDigitChar <$> [n / 16; n mod 16]%N
  else [hexDigitChar n].

Fixpoint groups (ip : list N) : list N :=
  match ip with a :: b :: ip' => (a * 256 + b)%N :: groups ip' | _ => [] end.

(** Length of the run of zero groups at the head. *)
Fixpoint zeroRun (gs : list N) : nat :=
  match gs with 0%N :: gs' => S (zeroRun gs') | _ => O end.
(** The first longest run of zero groups: start and length. *)
Fixpoint longestRun (i : nat) (gs : list N) (best : nat * nat) : nat * nat :=
  match gs with
  | [] => best
  | _ :: gs' => longestRun (S i) gs' (if (snd best <? zeroRun gs)%nat then (i, zeroRun gs) else best)
  end.

Definition ipString (ip : IP) : string :=
  match to4 ip with
  | Some v4 => join "." ((λ o, itoa (Z.of_N o)) <$> v4)
  | None =>
      let gs := groups ip in
      let show l := join ":" ((λ g, l2s (hex16 g)) <$> l) in
      let '(z, n) := longestRun 0 gs (0, 0)%nat in
      if bool_decide (2 ≤ n)%nat then show (take z gs) +:+ "::" +:+ show (drop (z + n) gs)
      else show gs
  end.

(** ** host:port *)

Fixpoint indexByte (c : ascii) (l : bytes) : option nat :=
  match l with
  | [] => None
  | d :: l' => if bool_decide (d = c) then Some O else S <$> indexByte c l'
  end.
Definition lastIndexByte (c : ascii) (l : bytes) : option nat :=
  (λ i, (length l - 1 - i)%nat) <$> indexByte c (reverse l).
Definition hasByte (c : ascii) (l : bytes) : bool := bool_decide (c ∈ l).

Definition addrErr {A} (addr why : string) : result A :=
  Err (if bool_decide (addr = "") then why else "address " +:+ addr +:+ ": " +:+ why).

(** [net.SplitHostPort]. *)
Definition splitHostPort (hostport : string) : result (string * string) :=
  let l := s2l hostport in
  let colon := byte_of 58 in let lb := byte_of 91 in let rb := byte_of 93 in
  match lastIndexByte colon l with
  | None => addrErr hostport "missing port in address"
  | Some i =>
      let finish host j k :=
        if hasByte lb (drop j l) then addrErr hostport "unexpected '[' in address"
        else if hasByte rb (drop k l) then addrErr hostport "unexpected ']' in address"
        else Ok (l2s host, l2s (drop (S i) l)) in
      if bool_decide (l !! 0%nat = Some lb) then
        match indexByte rb l with
        | None => addrErr hostport "missing ']' in address"
        | Some e =>
            if bool_decide (S e = length l) then addrErr hostport "missing port in address"
            else if bool_decide (S e = i) then finish (drop 1 (take e l)) 1%nat (S e)
            else if bool_decide (l !! S e = Some colon)
                 then addrErr hostport "too many colons in address"
                 else addrErr hostport "missing port in address"
        end
      else if hasByte colon (take i l) then addrErr hostport "too many colons in address"
      else finish (take i l) 0%nat 0%nat
  end.

(** [net.JoinHostPort]. *)
Definition joinHostPort (host port : string) : string :=
  if hasByte (byte_of 58) (s2l host) then "[" +:+ host +:+ "]:" +:+ port
  else host +:+ ":" +:+ port.

#[global] Arguments parseIP : simpl never.
#[global] Arguments ipString : simpl never.
#[global] Arguments splitHostPort : simpl never.
#[global] Arguments joinHostPort : simpl never.
#[global] Arguments isGlobalUnicast : simpl never.
#[global] Arguments isPrivate : simpl never.
#[global] Arguments isLoopback : simpl never.
