(* ===== verification/GoCodec.v ===== *)
(** * Go's [encoding/base64] and the string form of [encoding/json]

    [base64.StdEncoding] in both directions with Go's rules (line breaks are
    skipped, padding is required, the bits of the last digit that do not reach
    a byte are not checked), the text [encoding/json] writes for a string, and
    a reader for that text. *)

From S2P Require Import Prelude GoStrings GoNet.

(** ** base64 *)

(** The digit of a 6-bit value and the value of a digit. *)
Definition b64Digit (n : N) : ascii :=
  if bool_decide (n < 26)%N then byte_of (65 + n)
  else if bool_decide (n < 52)%N then byte_of (71 + n)
  else if bool_decide (n < 62)%N then byte_of (n - 4)
  else if bool_decide (n = 62)%N then byte_of 43 else byte_of 47.
Definition b64Value (c : ascii) : option N :=
  let n := code c in
  if bool_decide (65 ≤ n ≤ 90)%N then Some (n - 65)%N
  else if bool_decide (97 ≤ n ≤ 122)%N then Some (n - 71)%N
  else if bool_decide (48 ≤ n ≤ 57)%N then Some (n + 4)%N
  else if bool_decide (n = 43)%N then Some 62%N
  else if bool_decide (n = 47)%N then Some 63%N
  else None.
Definition pad : ascii := byte_of 61.

Fixpoint b64Encode (l : bytes) : bytes :=
  match l with
  | a :: b :: c :: l' =>
      let v := (code a * 65536 + code b * 256 + code c)%N in
      [b64Digit (v / 262144); b64Digit (v / 4096 mod 64); b64Digit (v / 64 mod 64); b64Digit (v mod 64)]
      ++ b64Encode l'
  | [a; b] =>
      let v := (code a * 65536 + code b * 256)%N in
      [b64Digit (v / 262144); b64Digit (v / 4096 mod 64); b64Digit (v / 64 mod 64); pad]
  | [a] =>
      let v := (code a * 65536)%N in
      [b64Digit (v / 262144); b64Digit (v / 4096 mod 64); pad; pad]
  | [] => []
  end.
Definition encodeToString (l : bytes) : string := l2s (b64Encode l).

(** Quanta of four digits; only the last one may be padded. *)
Fixpoint b64Quanta (l : bytes) : option bytes :=
  match l with
  | [] => Some []
  | a :: b :: c :: d :: l' =>
      match b64Value a, b64Value b with
      | Some a, Some b =>
          let v := (a * 262144 + b * 4096)%N in
          match b64Value c, b64Value d with
          | Some c, Some d =>
              let v := (v + c * 64 + d)%N in
              ([byte_of (v / 65536); byte_of (v / 256 mod 256); byte_of (v mod 256)] ++.) <$> b64Quanta l'
          | Some c, None =>
              let v := (v + c * 64)%N in
              if bool_decide (d = pad) && bool_decide (l' = [])
              then Some [byte_of (v / 65536); byte_of (v / 256 mod 256)] else None
          | None, _ =>
              if bool_decide (c = pad) && bool_decide (d = pad) && bool_decide (l' = [])
              then Some [byte_of (v / 65536)] else None
          end
      | _, _ => None
      end
  | _ => None
  end.
Definition isLineBreak (c : ascii) : bool := bool_decide (code c = 10)%N || bool_decide (code c = 13)%N.
(** [DecodeString]: the bytes, or an error. *)
Definition decodeString (s : string) : option bytes :=
  b64Quanta (filter (λ c, isLineBreak c = false) (s2l s)).

Lemma code_lt c : (code c < 256)%N.
Proof. apply Ascii.N_ascii_bounded. Qed.
Lemma byte_of_code c : byte_of (code c) = c.
Proof. apply Ascii.ascii_N_embedding. Qed.
Lemma code_byte_of n : (n < 256)%N → code (byte_of n) = n.
Proof. apply Ascii.N_ascii_embedding. Qed.

(** A statement about all values below a bound, by trying them. *)
Lemma forall_below (P : N → Prop) `{∀ n, Decision (P n)} (k : nat) :
  forallb (λ n, bool_decide (P (N.of_nat n))) (seq 0 k) = true → ∀ n, (n < N.of_nat k)%N → P n.
Proof.
  intros Hf n Hn. rewrite forallb_forall in Hf.
  specialize (Hf (N.to_nat n)). rewrite N2Nat.id in Hf. bools.
  apply (bool_decide_eq_true (P n)). apply Hf. apply in_seq. lia.
Qed.

Lemma b64_digit_value n : (n < 64)%N →
  b64Value (b64Digit n) = Some n ∧ isLineBreak (b64Digit n) = false ∧ b64Digit n ≠ pad.
Proof. revert n. apply (forall_below _ 64). vm_compute. reflexivity. Qed.

Lemma byte_ind (P : ascii → Prop) : (∀ n, (n < 256)%N → P (byte_of n)) → ∀ c, P c.
Proof. intros H c. rewrite <-(byte_of_code c). apply H, code_lt. Qed.

Ltac b64_bounds := repeat match goal with |- context [code ?c] =>
  lazymatch goal with H : (code c < 256)%N |- _ => fail | _ => pose proof (code_lt c) end end.

Lemma list_ind3 {A} (P : list A → Prop) :
  P [] → (∀ a, P [a]) → (∀ a b, P [a; b]) → (∀ a b c l, P l → P (a :: b :: c :: l)) → ∀ l, P l.
Proof.
  intros H0 H1 H2 H3. fix IH 1. intros [|a [|b [|c l]]];
    [exact H0|exact (H1 a)|exact (H2 a b)|exact (H3 a b c l (IH l))].
Qed.

Lemma b64_triple a b c :
  let v := (code a * 65536 + code b * 256 + code c)%N in
  (v / 262144 < 64)%N ∧ (v / 262144 * 262144 + v / 4096 mod 64 * 4096 + v / 64 mod 64 * 64 + v mod 64 = v)%N
  ∧ (v / 65536 = code a)%N ∧ (v / 256 mod 256 = code b)%N ∧ (v mod 256 = code c)%N.
Proof. simpl. b64_bounds. split_and!; zify; Z.to_euclidean_division_equations; lia. Qed.

Lemma b64Encode_clean l : filter (λ c, isLineBreak c = false) (b64Encode l) = b64Encode l.
Proof.
  induction l as [|a|a b|a b c l IH] using list_ind3; [done|..]; cbn [b64Encode app];
    rewrite ?filter_app; repeat (rewrite filter_cons_True; [|first
      [reflexivity | apply b64_digit_value; b64_bounds; zify; Z.to_euclidean_division_equations; lia]]);
    by rewrite ?filter_nil, ?IH.
Qed.

Lemma b64Quanta_encode l : b64Quanta (b64Encode l) = Some l.
Proof.
  assert (∀ c n, (n = code c)%N → byte_of n = c) as Hb by (intros c n ->; apply byte_of_code).
  assert (∀ n, (n < 64)%N → b64Value (b64Digit n) = Some n) as Hv by (intros; by apply b64_digit_value).
  induction l as [|a|a b|a b c l IH] using list_ind3; [done|..]; cbn [b64Encode b64Quanta app];
    b64_bounds; rewrite !Hv by (zify; Z.to_euclidean_division_equations; lia).
  - rewrite (Hb a); [done|]. zify; Z.to_euclidean_division_equations; lia.
  - rewrite (Hb a), (Hb b); [done|..]; zify; Z.to_euclidean_division_equations; lia.
  - rewrite IH. simpl. destruct (b64_triple a b c) as (_ & E & Ea & Eb & Ec).
    rewrite E. by rewrite (Hb a), (Hb b), (Hb c).
Qed.

(** Decoding undoes encoding, on every sequence of bytes. *)
Lemma decodeString_encodeToString l : decodeString (encodeToString l) = Some l.
Proof.
  unfold decodeString, encodeToString. rewrite s2l_l2s, b64Encode_clean. apply b64Quanta_encode.
Qed.

(** Only digits and padding. *)
Lemma b64Encode_lacks c l : b64Value c = None → c ≠ pad → c ∉ b64Encode l.
Proof.
  intros Hc Hp.
  assert (∀ n, (n < 64)%N → c ≠ b64Digit n) as Hd.
  { intros n Hn ->. by rewrite (proj1 (b64_digit_value n Hn)) in Hc. }
  induction l as [|a|a b|a b d l IH] using list_ind3; cbn [b64Encode app]; b64_bounds;
    rewrite ?elem_of_cons, ?elem_of_nil; [tauto|..];
    intros Hin; destruct_or? Hin; try done; revert Hin; apply Hd; zify; Z.to_euclidean_division_equations; lia.
Qed.

(** ** JSON strings *)

(** [encoding/json]'s [appendString], HTML characters escaped. *)
Definition jsonEscapeByte (a : ascii) : bytes :=
  let n := code a in
  if bool_decide (n = 34)%N || bool_decide (n = 92)%N then [byte_of 92; a]
  else if bool_decide (n = 8)%N then s2l "\b"
  else if bool_decide (n = 12)%N then s2l "\f"
  else if bool_decide (n = 10)%N then s2l "\n"
  else if bool_decide (n = 13)%N then s2l "\r"
  else if bool_decide (n = 9)%N then s2l "\t"
  else if bool_decide (n < 32)%N || bool_decide (n = 60)%N || bool_decide (n = 62)%N || bool_decide (n = 38)%N
  then s2l "\u00" ++ hexPad 2 n
  else [a].
Definition jsonEscapeRune (rb : N * bytes) : bytes :=
  let '(r, raw) := rb in
  match raw with
  | [a] => if bool_decide (code a < 128)%N then jsonEscapeByte a else s2l "\ufffd"
  | _ => if bool_decide (r = 8232)%N || bool_decide (r = 8233)%N then s2l "\u" ++ hexPad 4 r else raw
  end.
Definition jsonString (s : string) : bytes :=
  [byte_of 34] ++ (decodeRunes (s2l s) ≫= jsonEscapeRune) ++ [byte_of 34].

(** Reading the body of a JSON string up to its closing quote: the value and
    the text behind it. [\u] is read for the code points below U+0080, the only
    ones written for ASCII text. *)
Fixpoint jsonBody (l : bytes) : option (bytes * bytes) :=
  match l with
  | [] => None
  | c :: l1 =>
      if bool_decide (code c = 34)%N then Some ([], l1)
      else if bool_decide (code c = 92)%N then
        match l1 with
        | [] => None
        | e :: l2 =>
            let push (x : ascii) (r : option (bytes * bytes)) : option (bytes * bytes) :=
              match r with Some (v, rest) => Some (x :: v, rest) | None => None end in
            if bool_decide (code e = 34)%N || bool_decide (code e = 92)%N || bool_decide (code e = 47)%N
            then push e (jsonBody l2)
            else if bool_decide (code e = 98)%N then push (byte_of 8) (jsonBody l2)
            else if bool_decide (code e = 102)%N then push (byte_of 12) (jsonBody l2)
            else if bool_decide (code e = 110)%N then push (byte_of 10) (jsonBody l2)
            else if bool_decide (code e = 114)%N then push (byte_of 13) (jsonBody l2)
            else if bool_decide (code e = 116)%N then push (byte_of 9) (jsonBody l2)
            else if bool_decide (code e = 117)%N then
              match l2 with
              | h1 :: h2 :: h3 :: h4 :: l3 =>
                  match hexDigit h1, hexDigit h2, hexDigit h3, hexDigit h4 with
                  | Some d1, Some d2, Some d3, Some d4 =>
                      let n := (d1 * 4096 + d2 * 256 + d3 * 16 + d4)%N in
                      if bool_decide (n < 128)%N then push (byte_of n) (jsonBody l3) else None
                  | _, _, _, _ => None
                  end
              | _ => None
              end
            else None
        end
      else match jsonBody l1 with Some (v, rest) => Some (c :: v, rest) | None => None end
  end.

Definition isASCII (s : string) : Prop := Forall (λ c, (code c < 128)%N) (s2l s).
#[export] Instance isASCII_dec s : Decision (isASCII s) := _.

Lemma decodeRunes_ascii l : Forall (λ c, (code c < 128)%N) l → decodeRunes l = (λ c, (code c, [c])) <$> l.
Proof.
  induction 1 as [|c l Hc _ IH]; [done|]. cbn [decodeRunes fmap list_fmap].
  by rewrite bool_decide_true, IH.
Qed.

Lemma jsonBody_escape a l : (code a < 128)%N →
  jsonBody (jsonEscapeByte a ++ l) =
  match jsonBody l with Some (v, rest) => Some (a :: v, rest) | None => None end.
Proof.
  destruct a as [[] [] [] [] [] [] [] []]; intros Ha; try by vm_compute in Ha.
  all: reflexivity.
Qed.

Lemma jsonBody_read l rest : Forall (λ c, (code c < 128)%N) l →
  jsonBody ((decodeRunes l ≫= jsonEscapeRune) ++ byte_of 34 :: rest) = Some (l, rest).
Proof.
  intros Hl. rewrite (decodeRunes_ascii l Hl). induction Hl as [|c l Hc _ IH]; [done|].
  cbn [fmap list_fmap mbind list_bind jsonEscapeRune]. rewrite bool_decide_true by done.
  rewrite <-app_assoc, jsonBody_escape by done. by rewrite IH.
Qed.

(** Reading a string literal back. *)
Definition jsonReadString (l : bytes) : option (string * bytes) :=
  match l with
  | c :: l => if bool_decide (code c = 34)%N
              then (λ vr, (l2s vr.1, vr.2)) <$> jsonBody l else None
  | [] => None
  end.

Lemma jsonReadString_jsonString s rest : isASCII s → jsonReadString (jsonString s ++ rest) = Some (s, rest).
Proof.
  intros Hs. unfold jsonString. rewrite <-!app_assoc. cbn [app jsonReadString].
  rewrite bool_decide_true by done. rewrite (jsonBody_read _ _ Hs). simpl. by rewrite l2s_s2l.
Qed.

#[global] Arguments jsonString : simpl never.
#[global] Arguments jsonReadString : simpl never.
#[global] Arguments encodeToString : simpl never.
#[global] Arguments decodeString : simpl never.
