(* ===== verification/GoCsv.v ===== *)
(** * Go's [encoding/csv] reader

    [csv.Reader.ReadAll] with a comma, no comments, strict quotes and any number
    of fields per record, as a machine that reads one byte at a time; and what it
    reads from a table of plain cells. *)

From S2P Require Import Prelude GoStrings.

Definition LF : ascii := byte_of 10.
Definition CR : ascii := byte_of 13.
Definition comma : ascii := byte_of 44.
Definition quoteByte : ascii := byte_of 34.

(** At the start of a record, at the start of another field, inside a field with
    or without quotes, after a quote inside a quoted field. *)
Inductive csvMode := LineStart | FieldStart | Unquoted | Quoted | QuoteSeen.

(** The mode; the line the record starts on, the line and column of the next
    byte, whether the last byte ended its line; the field, the fields and the
    records so far, last first. *)
Record csvState := mkCsv {
  csvMode_ : csvMode;
  recLine : Z;
  csvLine : Z;
  csvCol : Z;
  csvEOL : bool;
  csvField : bytes;
  csvFields : list string;
  csvRows : list (list string)
}.
Definition csvInit : csvState := mkCsv LineStart 1 1 1 false [] [] [].

(** [csv.ParseError]. *)
Definition csvError (rec line col : Z) (what : string) : string :=
  if (rec =? line)%Z
  then "parse error on line " +:+ itoa line +:+ ", column " +:+ itoa col +:+ ": " +:+ what
  else "record on line " +:+ itoa rec +:+ "; parse error on line " +:+ itoa line +:+ ", column "
       +:+ itoa col +:+ ": " +:+ what.
Definition errBareQuote : string := "bare " +:+ dquote +:+ " in non-quoted field".
Definition errQuote : string := "extraneous or missing " +:+ dquote +:+ " in quoted-field".

Definition csvAdvance (s : csvState) : csvState :=
  if csvEOL s then mkCsv (csvMode_ s) (recLine s) (csvLine s + 1) 1 false (csvField s) (csvFields s) (csvRows s)
  else s.

(** The end of a field, and of a record. *)
Definition endField (s : csvState) : list string := l2s (reverse (csvField s)) :: csvFields s.
Definition endRecord (s : csvState) : list (list string) := reverse (endField s) :: csvRows s.

Definition csvStep (c : ascii) (s : csvState) : result csvState :=
  let s := csvAdvance s in
  let col := (csvCol s + 1)%Z in
  (** After a byte of the current record. *)
  let within mode field := Ok (mkCsv mode (recLine s) (csvLine s) col false field (csvFields s) (csvRows s)) in
  let nextField := Ok (mkCsv FieldStart (recLine s) (csvLine s) col false [] (endField s) (csvRows s)) in
  let nextRecord rows := Ok (mkCsv LineStart (recLine s) (csvLine s) col true [] [] rows) in
  let inField :=
    if bool_decide (c = comma) then nextField
    else if bool_decide (c = LF) then nextRecord (endRecord s)
    else if bool_decide (c = quoteByte)
    then Err (csvError (recLine s) (csvLine s) (csvCol s) errBareQuote)
    else within Unquoted (c :: csvField s) in
  match csvMode_ s with
  | LineStart =>
      if bool_decide (c = LF) then nextRecord (csvRows s)
      else let at_ := csvLine s in
           if bool_decide (c = quoteByte) then Ok (mkCsv Quoted at_ at_ col false [] [] (csvRows s))
           else if bool_decide (c = comma) then Ok (mkCsv FieldStart at_ at_ col false [] [""] (csvRows s))
           else Ok (mkCsv Unquoted at_ at_ col false [c] [] (csvRows s))
  | FieldStart => if bool_decide (c = quoteByte) then within Quoted [] else inField
  | Unquoted => inField
  | Quoted =>
      if bool_decide (c = quoteByte) then within QuoteSeen (csvField s)
      else Ok (mkCsv Quoted (recLine s) (csvLine s) col (bool_decide (c = LF)) (c :: csvField s)
                 (csvFields s) (csvRows s))
  | QuoteSeen =>
      if bool_decide (c = quoteByte) then within Quoted (quoteByte :: csvField s)
      else if bool_decide (c = comma) then nextField
      else if bool_decide (c = LF) then nextRecord (endRecord s)
      else Err (csvError (recLine s) (csvLine s) (csvCol s - 1) errQuote)
  end.

Fixpoint csvGo (l : bytes) (s : csvState) : result csvState :=
  match l with
  | [] => Ok s
  | c :: l => let? s := csvStep c s in csvGo l s
  end.

(** At the end of the input. *)
Definition csvEnd (s : csvState) : result (list (list string)) :=
  match csvMode_ s with
  | LineStart => Ok (reverse (csvRows s))
  | Quoted => Err (csvError (recLine s) (csvLine s) (csvCol s) errQuote)
  | FieldStart | Unquoted | QuoteSeen => Ok (reverse (endRecord s))
  end.

(** [readLine]: CR LF counts as LF, and a CR before the end of the input is dropped. *)
Definition csvNormalize (l : bytes) : bytes :=
  let l := replaceb [CR; LF] [LF] 0 l in
  match reverse l with
  | c :: r => if bool_decide (c = CR) then reverse r else l
  | [] => l
  end.

Definition readAll (text : string) : result (list (list string)) :=
  let? s := csvGo (csvNormalize (s2l text)) csvInit in csvEnd s.

(** ** Plain tables *)

(** Cells that need no quotes, and records whose line is not empty. *)
Definition plainCell (s : string) : Prop :=
  lacks comma s ∧ lacks LF s ∧ lacks CR s ∧ lacks quoteByte s.
Definition plainRow (row : list string) : Prop := Forall plainCell row ∧ join "," row ≠ "".
Definition rowLine (row : list string) : string := join "," row.

Lemma csvNormalize_plain l : CR ∉ l → csvNormalize l = l.
Proof.
  intros H. unfold csvNormalize. rewrite replaceb_absent by done.
  destruct (reverse l) as [|c r] eqn:E; [done|]. rewrite bool_decide_false; [done|].
  intros ->. apply H. rewrite <-(reverse_involutive l), E. rewrite elem_of_reverse. by left.
Qed.

Lemma csvGo_app a b s : csvGo (a ++ b) s = let? s := csvGo a s in csvGo b s.
Proof. revert s. induction a as [|c a IH]; intros s; simpl; [done|]. by destruct (csvStep c s). Qed.

(** What matters of a state inside an unquoted part of a record: up to positions. *)
Definition reading (s : csvState) (field : bytes) (fields : list string) (rows : list (list string)) : Prop :=
  (csvMode_ s = FieldStart ∨ csvMode_ s = Unquoted) ∧ csvField s = field ∧ csvFields s = fields ∧
  csvRows s = rows.
Definition between (s : csvState) (rows : list (list string)) : Prop :=
  csvMode_ s = LineStart ∧ csvFields s = [] ∧ csvField s = [] ∧ csvRows s = rows.

Lemma csvAdvance_same s :
  csvMode_ (csvAdvance s) = csvMode_ s ∧ csvField (csvAdvance s) = csvField s ∧
  csvFields (csvAdvance s) = csvFields s ∧ csvRows (csvAdvance s) = csvRows s.
Proof. unfold csvAdvance. by destruct (csvEOL s). Qed.

(** A byte of a plain cell, a comma and a line feed in a record. *)
Lemma csvStep_cell c s field fields rows :
  reading s field fields rows → c ≠ comma → c ≠ LF → c ≠ quoteByte →
  ∃ s', csvStep c s = Ok s' ∧ reading s' (c :: field) fields rows.
Proof.
  intros (Hm & <- & <- & <-) H1 H2 H3. destruct (csvAdvance_same s) as (Em & <- & <- & <-). unfold csvStep.
  destruct Hm as [Hm|Hm]; rewrite Em, Hm, ?(bool_decide_false (c = comma)), ?(bool_decide_false (c = LF)),
    ?(bool_decide_false (c = quoteByte)) by done; (eexists; split; [done|]); split_and!; auto.
Qed.

Lemma csvStep_comma s field fields rows :
  reading s field fields rows →
  ∃ s', csvStep comma s = Ok s' ∧ reading s' [] (l2s (reverse field) :: fields) rows.
Proof.
  intros (Hm & <- & <- & <-). destruct (csvAdvance_same s) as (Em & <- & <- & <-). unfold csvStep.
  destruct Hm as [Hm|Hm]; rewrite Em, Hm; (eexists; split; [done|]); split_and!; auto.
Qed.

Lemma csvStep_LF s field fields rows :
  reading s field fields rows →
  ∃ s', csvStep LF s = Ok s' ∧ between s' (reverse (l2s (reverse field) :: fields) :: rows).
Proof.
  intros (Hm & <- & <- & <-). destruct (csvAdvance_same s) as (Em & Ef & Efs & Er). unfold csvStep.
  destruct Hm as [Hm|Hm]; rewrite Em, Hm; (eexists; split; [done|]); split_and!; try done; cbn;
    unfold endRecord, endField; by rewrite Ef, Efs, Er.
Qed.

Lemma csvGo_cell w s field fields rows :
  reading s field fields rows → (comma ∉ w) → (LF ∉ w) → (quoteByte ∉ w) →
  ∃ s', csvGo w s = Ok s' ∧ reading s' (reverse w ++ field) fields rows.
Proof.
  revert s field. induction w as [|c w IH]; intros s field Hs H1 H2 H3; [by exists s|].
  apply not_elem_of_cons in H1 as [? ?], H2 as [? ?], H3 as [? ?].
  destruct (csvStep_cell c s field fields rows) as (s1 & E1 & Hs1); [done..|].
  destruct (IH s1 (c :: field)) as (s2 & E2 & Hs2); [done..|]. exists s2. simpl. rewrite E1, E2.
  split; [done|]. rewrite reverse_cons, <-app_assoc. done.
Qed.

Lemma s2l_comma : s2l "," = [comma].
Proof. reflexivity. Qed.

(** The cells of a record, read from inside it. *)
Lemma csvGo_cells cells cell s field fields rows :
  reading s field fields rows → Forall plainCell (cell :: cells) →
  ∃ s' field' fields', csvGo (s2l (join "," (cell :: cells))) s = Ok s' ∧ reading s' field' fields' rows ∧
    l2s (reverse field') :: fields' = reverse cells ++ l2s (reverse field ++ s2l cell) :: fields.
Proof.
  revert cell s field fields. induction cells as [|next cells IH]; intros cell s field fields Hs Hp;
    apply Forall_cons in Hp as [(H1 & H2 & _ & H3) Hp];
    destruct (csvGo_cell (s2l cell) s field fields rows Hs H1 H2 H3) as (s1 & E1 & Hs1).
  - exists s1, (reverse (s2l cell) ++ field), fields. simpl join. rewrite E1. split_and!; try done.
    by rewrite reverse_app, reverse_involutive.
  - destruct (csvStep_comma s1 _ fields rows Hs1) as (s2 & E2 & Hs2).
    destruct (IH next s2 [] _ Hs2 Hp) as (s3 & f3 & fs3 & E3 & Hs3 & Hf).
    exists s3, f3, fs3.
    change (join "," (cell :: next :: cells)) with (cell +:+ "," +:+ join "," (next :: cells)).
    rewrite !s2l_app, s2l_comma, csvGo_app, E1. cbn [app csvGo]. rewrite E2, E3.
    split_and!; try done. rewrite Hf, reverse_cons, <-app_assoc, reverse_app, reverse_involutive.
    simpl. by rewrite l2s_s2l.
Qed.

(** The first byte of a record. *)
Lemma csvStep_start c s rows :
  between s rows → c ≠ LF → c ≠ quoteByte →
  ∃ s0, reading s0 [] [] rows ∧ csvStep c s = csvStep c s0.
Proof.
  intros (Hm & _ & _ & <-) H1 H2. destruct (csvAdvance_same s) as (Em & _ & _ & Er). set (a := csvAdvance s) in *.
  exists (mkCsv FieldStart (csvLine a) (csvLine a) (csvCol a) false [] [] (csvRows a)).
  split; [split_and!; auto|]. unfold csvStep. fold a. rewrite Em, Hm. cbn.
  by rewrite !(bool_decide_false (c = LF)), !(bool_decide_false (c = quoteByte)) by done.
Qed.

Lemma plain_head row c l : Forall plainCell row → s2l (rowLine row) = c :: l → c ≠ LF ∧ c ≠ quoteByte.
Proof.
  intros Hp. unfold rowLine. destruct row as [|cell [|next row]]; [done|..]; apply Forall_cons in Hp as [(H1 & H2 & H3 & H4) _].
  - simpl join. unfold lacks in *. intros E. rewrite E in *. apply not_elem_of_cons in H2, H4. intuition congruence.
  - change (join "," (cell :: next :: row)) with (cell +:+ "," +:+ join "," (next :: row)).
    rewrite !s2l_app, s2l_comma. unfold lacks in *. destruct (s2l cell) as [|d w]; intros [= <- _]; [done|].
    apply not_elem_of_cons in H2, H4. intuition congruence.
Qed.

Lemma csvGo_row row s rows :
  between s rows → plainRow row →
  ∃ s' field fields, csvGo (s2l (rowLine row)) s = Ok s' ∧ reading s' field fields rows ∧
    reverse (l2s (reverse field) :: fields) = row.
Proof.
  intros Hs [Hp Hne]. destruct (s2l (rowLine row)) as [|c l] eqn:El.
  { exfalso. apply Hne. apply s2l_inj. exact El. }
  destruct (plain_head row c l Hp El) as [Hlf Hq]. destruct (csvStep_start c s rows Hs Hlf Hq) as (s0 & Hs0 & E0).
  destruct row as [|cell cells]; [done|].
  destruct (csvGo_cells cells cell s0 [] [] rows Hs0 Hp) as (s' & field & fields & E & Hr & Hf).
  exists s', field, fields. split_and!; try done.
  - unfold rowLine in El. rewrite El in E. simpl in *. by rewrite E0.
  - rewrite Hf, reverse_app, reverse_involutive. simpl. by rewrite l2s_s2l.
Qed.

(** Records separated by line feeds. *)
Lemma csvGo_rows table s rows :
  between s rows → Forall plainRow table →
  (let? s' := csvGo (s2l (join nl (rowLine <$> table))) s in csvEnd s') = Ok (reverse rows ++ table).
Proof.
  revert s rows. induction table as [|row table IH]; intros s rows Hs Ht.
  { simpl. destruct Hs as (Hm & _ & _ & Hr). unfold csvEnd. by rewrite Hm, Hr, app_nil_r. }
  apply Forall_cons in Ht as [Hrow Ht]. destruct (csvGo_row row s rows Hs Hrow) as (s1 & field & fields & E1 & Hs1 & Hf).
  destruct table as [|next table].
  - cbn [fmap list_fmap join]. rewrite E1. destruct Hs1 as ([Hm|Hm] & <- & <- & <-); unfold csvEnd; rewrite Hm;
      unfold endRecord, endField; by rewrite Hf, reverse_cons.
  - change (join nl (rowLine <$> row :: next :: table)) with
      (rowLine row +:+ nl +:+ join nl (rowLine <$> next :: table)).
    rewrite s2l_app, csvGo_app, E1, s2l_app, s2l_nl. cbn [app csvGo].
    destruct (csvStep_LF s1 field fields rows Hs1) as (s2 & E2 & Hs2). change (byte_of 10) with LF. rewrite E2.
    rewrite (IH s2 _ Hs2 Ht), Hf, reverse_cons, <-app_assoc. done.
Qed.

Lemma join_lacks_nl c lines :
  c ≠ LF → Forall (lacks c) lines → lacks c (join nl lines).
Proof.
  intros Hc. induction lines as [|l lines IH]; intros Hl; [apply not_elem_of_nil|].
  apply Forall_cons in Hl as [Hl Hls]. destruct lines as [|l' lines]; [done|].
  change (join nl (l :: l' :: lines)) with (l +:+ nl +:+ join nl (l' :: lines)).
  unfold lacks in *. rewrite !s2l_app, !elem_of_app, s2l_nl, list_elem_of_singleton. fold LF. intros [?|[?|?]]; auto.
  by apply IH.
Qed.

Lemma rowLine_lacks_CR row : Forall plainCell row → lacks CR (rowLine row).
Proof.
  unfold rowLine. induction row as [|cell row IH]; intros Hp; [apply not_elem_of_nil|].
  apply Forall_cons in Hp as [(_ & _ & Hc & _) Hp]. destruct row as [|next row]; [done|].
  change (join "," (cell :: next :: row)) with (cell +:+ "," +:+ join "," (next :: row)).
  unfold lacks in *. rewrite !s2l_app, !elem_of_app, s2l_comma, list_elem_of_singleton.
  intros [?|[[=]|?]]; [done|by apply IH].
Qed.

(** Reading a table of plain cells gives the table. *)
Theorem readAll_plain table :
  Forall plainRow table → readAll (join nl (rowLine <$> table)) = Ok table.
Proof.
  intros Ht. unfold readAll. rewrite csvNormalize_plain.
  - by apply (csvGo_rows table csvInit []).
  - apply join_lacks_nl; [done|]. apply Forall_fmap. eapply Forall_impl; [exact Ht|].
    intros row [Hp _]. by apply rowLine_lacks_CR.
Qed.
