(* ===== verification/Domain.v ===== *)
(** * [internal/domain]: the shared data model

    [ConnectionState], [NodeStatus] and [PurityGrade] are named string types in
    Go; a value read from the state file need not be one of the constants, so
    each type here has a constructor for any other string. Timestamps are
    nanoseconds since the epoch; a Go pointer field is an [option]. *)

From S2P Require Import Prelude.

(** [time.Time] and [time.Duration], in nanoseconds. *)
Abbreviation Time := Z.
Abbreviation Duration := Z.

Definition Millisecond : Z := 1000000.
Definition Second : Z := 1000000000.
Definition Hour : Z := 3600000000000.

(** The zero [time.Time], the first instant of year 1. *)
Definition zeroTime : Time := (-62135596800 * Second)%Z.

Definition timeBefore (t u : Time) : bool := (t <? u)%Z.
(** [t.Add(d)]: Go keeps seconds in 64 bits, so this does not overflow. *)
Definition timeAdd (t : Time) (d : Duration) : Time := (t + d)%Z.

Inductive ConnectionState : Set :=
  | StateIdle | StateFetchingNodes | StateProbingNodes | StateConnecting
  | StateVerifying | StateConnected | StateFailingOver | StateDisconnecting
  | StateError | StateOther (s : string).

Inductive NodeStatus : Set :=
  | NodeUnknown | NodeChecking | NodeAvailable | NodeUnavailable | NodeCooldown
  | NodeOther (s : string).

Inductive Purity : Set :=
  | PurityRejected | PurityCandidate | PurityStrictHome | PurityOther (s : string).

#[export] Instance ConnectionState_eq_dec : EqDecision ConnectionState.
Proof. solve_decision. Defined.
#[export] Instance NodeStatus_eq_dec : EqDecision NodeStatus.
Proof. solve_decision. Defined.
#[export] Instance Purity_eq_dec : EqDecision Purity.
Proof. solve_decision. Defined.

Record ResidentialEvidence := mkEvidence {
  Provider : string;
  Passed : bool;
  Summary : string;
  CheckedAt : Time
}.
#[export] Instance ResidentialEvidence_eq_dec : EqDecision ResidentialEvidence.
Proof. solve_decision. Defined.

Record VpnNode := mkNode {
  ID                : string;
  NodeIP            : string;
  RemoteHost        : string;
  RemotePort        : Z;
  Protocol          : string;
  CountryCode       : string;
  Country           : string;
  City              : string;
  ISP               : string;
  ASN               : string;
  ReverseDNS        : string;
  Score             : Z;
  AdvertisedPingMS  : Z;
  SpeedBPS          : Z;
  Sessions          : Z;
  LatencyMS         : option Z;
  LatencySuspicious : bool;
  ProbeAttempts     : Z;
  ProbeSuccesses    : Z;
  PurityGrade       : Purity;
  PurityScore       : Z;
  Status            : NodeStatus;
  Evidence          : list ResidentialEvidence;
  LastCheckedAt     : option Time;
  LastError         : string;
  CooldownUntil     : option Time;
  OpenVPNConfig     : string
}.
#[export] Instance VpnNode_eq_dec : EqDecision VpnNode.
Proof. solve_decision. Defined.

(** Assignment to one field. *)
Definition setID (v : string) (n : VpnNode) : VpnNode :=
  mkNode v (NodeIP n) (RemoteHost n) (RemotePort n) (Protocol n) (CountryCode n) (Country n)
    (City n) (ISP n) (ASN n) (ReverseDNS n) (Score n) (AdvertisedPingMS n) (SpeedBPS n)
    (Sessions n) (LatencyMS n) (LatencySuspicious n) (ProbeAttempts n) (ProbeSuccesses n)
    (PurityGrade n) (PurityScore n) (Status n) (Evidence n) (LastCheckedAt n) (LastError n)
    (CooldownUntil n) (OpenVPNConfig n).
Definition setNodeIP (v : string) (n : VpnNode) : VpnNode :=
  mkNode (ID n) v (RemoteHost n) (RemotePort n) (Protocol n) (CountryCode n) (Country n)
    (City n) (ISP n) (ASN n) (ReverseDNS n) (Score n) (AdvertisedPingMS n) (SpeedBPS n)
    (Sessions n) (LatencyMS n) (LatencySuspicious n) (ProbeAttempts n) (ProbeSuccesses n)
    (PurityGrade n) (PurityScore n) (Status n) (Evidence n) (LastCheckedAt n) (LastError n)
    (CooldownUntil n) (OpenVPNConfig n).
Definition setRemoteHost (v : string) (n : VpnNode) : VpnNode :=
  mkNode (ID n) (NodeIP n) v (RemotePort n) (Protocol n) (CountryCode n) (Country n) (City
    n) (ISP n) (ASN n) (ReverseDNS n) (Score n) (AdvertisedPingMS n) (SpeedBPS n) (Sessions
    n) (LatencyMS n) (LatencySuspicious n) (ProbeAttempts n) (ProbeSuccesses n) (PurityGrade
    n) (PurityScore n) (Status n) (Evidence n) (LastCheckedAt n) (LastError n)
    (CooldownUntil n) (OpenVPNConfig n).
Definition setRemotePort (v : Z) (n : VpnNode) : VpnNode :=
  mkNode (ID n) (NodeIP n) (RemoteHost n) v (Protocol n) (CountryCode n) (Country n) (City
    n) (ISP n) (ASN n) (ReverseDNS n) (Score n) (AdvertisedPingMS n) (SpeedBPS n) (Sessions
    n) (LatencyMS n) (LatencySuspicious n) (ProbeAttempts n) (ProbeSuccesses n) (PurityGrade
    n) (PurityScore n) (Status n) (Evidence n) (LastCheckedAt n) (LastError n)
    (CooldownUntil n) (OpenVPNConfig n).
Definition setProtocol (v : string) (n : VpnNode) : VpnNode :=
  mkNode (ID n) (NodeIP n) (RemoteHost n) (RemotePort n) v (CountryCode n) (Country n) (City
    n) (ISP n) (ASN n) (ReverseDNS n) (Score n) (AdvertisedPingMS n) (SpeedBPS n) (Sessions
    n) (LatencyMS n) (LatencySuspicious n) (ProbeAttempts n) (ProbeSuccesses n) (PurityGrade
    n) (PurityScore n) (Status n) (Evidence n) (LastCheckedAt n) (LastError n)
    (CooldownUntil n) (OpenVPNConfig n).
Definition setCountryCode (v : string) (n : VpnNode) : VpnNode :=
  mkNode (ID n) (NodeIP n) (RemoteHost n) (RemotePort n) (Protocol n) v (Country n) (City n)
    (ISP n) (ASN n) (ReverseDNS n) (Score n) (AdvertisedPingMS n) (SpeedBPS n) (Sessions n)
    (LatencyMS n) (LatencySuspicious n) (ProbeAttempts n) (ProbeSuccesses n) (PurityGrade n)
    (PurityScore n) (Status n) (Evidence n) (LastCheckedAt n) (LastError n) (CooldownUntil
    n) (OpenVPNConfig n).
Definition setCountry (v : string) (n : VpnNode) : VpnNode :=
  mkNode (ID n) (NodeIP n) (RemoteHost n) (RemotePort n) (Protocol n) (CountryCode n) v
    (City n) (ISP n) (ASN n) (ReverseDNS n) (Score n) (AdvertisedPingMS n) (SpeedBPS n)
    (Sessions n) (LatencyMS n) (LatencySuspicious n) (ProbeAttempts n) (ProbeSuccesses n)
    (PurityGrade n) (PurityScore n) (Status n) (Evidence n) (LastCheckedAt n) (LastError n)
    (CooldownUntil n) (OpenVPNConfig n).
Definition setCity (v : string) (n : VpnNode) : VpnNode :=
  mkNode (ID n) (NodeIP n) (RemoteHost n) (RemotePort n) (Protocol n) (CountryCode n)
    (Country n) v (ISP n) (ASN n) (ReverseDNS n) (Score n) (AdvertisedPingMS n) (SpeedBPS n)
    (Sessions n) (LatencyMS n) (LatencySuspicious n) (ProbeAttempts n) (ProbeSuccesses n)
    (PurityGrade n) (PurityScore n) (Status n) (Evidence n) (LastCheckedAt n) (LastError n)
    (CooldownUntil n) (OpenVPNConfig n).
Definition setISP (v : string) (n : VpnNode) : VpnNode :=
  mkNode (ID n) (NodeIP n) (RemoteHost n) (RemotePort n) (Protocol n) (CountryCode n)
    (Country n) (City n) v (ASN n) (ReverseDNS n) (Score n) (AdvertisedPingMS n) (SpeedBPS
    n) (Sessions n) (LatencyMS n) (LatencySuspicious n) (ProbeAttempts n) (ProbeSuccesses n)
    (PurityGrade n) (PurityScore n) (Status n) (Evidence n) (LastCheckedAt n) (LastError n)
    (CooldownUntil n) (OpenVPNConfig n).
Definition setASN (v : string) (n : VpnNode) : VpnNode :=
  mkNode (ID n) (NodeIP n) (RemoteHost n) (RemotePort n) (Protocol n) (CountryCode n)
    (Country n) (City n) (ISP n) v (ReverseDNS n) (Score n) (AdvertisedPingMS n) (SpeedBPS
    n) (Sessions n) (LatencyMS n) (LatencySuspicious n) (ProbeAttempts n) (ProbeSuccesses n)
    (PurityGrade n) (PurityScore n) (Status n) (Evidence n) (LastCheckedAt n) (LastError n)
    (CooldownUntil n) (OpenVPNConfig n).
Definition setReverseDNS (v : string) (n : VpnNode) : VpnNode :=
  mkNode (ID n) (NodeIP n) (RemoteHost n) (RemotePort n) (Protocol n) (CountryCode n)
    (Country n) (City n) (ISP n) (ASN n) v (Score n) (AdvertisedPingMS n) (SpeedBPS n)
    (Sessions n) (LatencyMS n) (LatencySuspicious n) (ProbeAttempts n) (ProbeSuccesses n)
    (PurityGrade n) (PurityScore n) (Status n) (Evidence n) (LastCheckedAt n) (LastError n)
    (CooldownUntil n) (OpenVPNConfig n).
Definition setScore (v : Z) (n : VpnNode) : VpnNode :=
  mkNode (ID n) (NodeIP n) (RemoteHost n) (RemotePort n) (Protocol n) (CountryCode n)
    (Country n) (City n) (ISP n) (ASN n) (ReverseDNS n) v (AdvertisedPingMS n) (SpeedBPS n)
    (Sessions n) (LatencyMS n) (LatencySuspicious n) (ProbeAttempts n) (ProbeSuccesses n)
    (PurityGrade n) (PurityScore n) (Status n) (Evidence n) (LastCheckedAt n) (LastError n)
    (CooldownUntil n) (OpenVPNConfig n).
Definition setAdvertisedPingMS (v : Z) (n : VpnNode) : VpnNode :=
  mkNode (ID n) (NodeIP n) (RemoteHost n) (RemotePort n) (Protocol n) (CountryCode n)
    (Country n) (City n) (ISP n) (ASN n) (ReverseDNS n) (Score n) v (SpeedBPS n) (Sessions
    n) (LatencyMS n) (LatencySuspicious n) (ProbeAttempts n) (ProbeSuccesses n) (PurityGrade
    n) (PurityScore n) (Status n) (Evidence n) (LastCheckedAt n) (LastError n)
    (CooldownUntil n) (OpenVPNConfig n).
Definition setSpeedBPS (v : Z) (n : VpnNode) : VpnNode :=
  mkNode (ID n) (NodeIP n) (RemoteHost n) (RemotePort n) (Protocol n) (CountryCode n)
    (Country n) (City n) (ISP n) (ASN n) (ReverseDNS n) (Score n) (AdvertisedPingMS n) v
    (Sessions n) (LatencyMS n) (LatencySuspicious n) (ProbeAttempts n) (ProbeSuccesses n)
    (PurityGrade n) (PurityScore n) (Status n) (Evidence n) (LastCheckedAt n) (LastError n)
    (CooldownUntil n) (OpenVPNConfig n).
Definition setSessions (v : Z) (n : VpnNode) : VpnNode :=
  mkNode (ID n) (NodeIP n) (RemoteHost n) (RemotePort n) (Protocol n) (CountryCode n)
    (Country n) (City n) (ISP n) (ASN n) (ReverseDNS n) (Score n) (AdvertisedPingMS n)
    (SpeedBPS n) v (LatencyMS n) (LatencySuspicious n) (ProbeAttempts n) (ProbeSuccesses n)
    (PurityGrade n) (PurityScore n) (Status n) (Evidence n) (LastCheckedAt n) (LastError n)
    (CooldownUntil n) (OpenVPNConfig n).
Definition setLatencyMS (v : option Z) (n : VpnNode) : VpnNode :=
  mkNode (ID n) (NodeIP n) (RemoteHost n) (RemotePort n) (Protocol n) (CountryCode n)
    (Country n) (City n) (ISP n) (ASN n) (ReverseDNS n) (Score n) (AdvertisedPingMS n)
    (SpeedBPS n) (Sessions n) v (LatencySuspicious n) (ProbeAttempts n) (ProbeSuccesses n)
    (PurityGrade n) (PurityScore n) (Status n) (Evidence n) (LastCheckedAt n) (LastError n)
    (CooldownUntil n) (OpenVPNConfig n).
Definition setLatencySuspicious (v : bool) (n : VpnNode) : VpnNode :=
  mkNode (ID n) (NodeIP n) (RemoteHost n) (RemotePort n) (Protocol n) (CountryCode n)
    (Country n) (City n) (ISP n) (ASN n) (ReverseDNS n) (Score n) (AdvertisedPingMS n)
    (SpeedBPS n) (Sessions n) (LatencyMS n) v (ProbeAttempts n) (ProbeSuccesses n)
    (PurityGrade n) (PurityScore n) (Status n) (Evidence n) (LastCheckedAt n) (LastError n)
    (CooldownUntil n) (OpenVPNConfig n).
Definition setProbeAttempts (v : Z) (n : VpnNode) : VpnNode :=
  mkNode (ID n) (NodeIP n) (RemoteHost n) (RemotePort n) (Protocol n) (CountryCode n)
    (Country n) (City n) (ISP n) (ASN n) (ReverseDNS n) (Score n) (AdvertisedPingMS n)
    (SpeedBPS n) (Sessions n) (LatencyMS n) (LatencySuspicious n) v (ProbeSuccesses n)
    (PurityGrade n) (PurityScore n) (Status n) (Evidence n) (LastCheckedAt n) (LastError n)
    (CooldownUntil n) (OpenVPNConfig n).
Definition setProbeSuccesses (v : Z) (n : VpnNode) : VpnNode :=
  mkNode (ID n) (NodeIP n) (RemoteHost n) (RemotePort n) (Protocol n) (CountryCode n)
    (Country n) (City n) (ISP n) (ASN n) (ReverseDNS n) (Score n) (AdvertisedPingMS n)
    (SpeedBPS n) (Sessions n) (LatencyMS n) (LatencySuspicious n) (ProbeAttempts n) v
    (PurityGrade n) (PurityScore n) (Status n) (Evidence n) (LastCheckedAt n) (LastError n)
    (CooldownUntil n) (OpenVPNConfig n).
Definition setPurityGrade (v : Purity) (n : VpnNode) : VpnNode :=
  mkNode (ID n) (NodeIP n) (RemoteHost n) (RemotePort n) (Protocol n) (CountryCode n)
    (Country n) (City n) (ISP n) (ASN n) (ReverseDNS n) (Score n) (AdvertisedPingMS n)
    (SpeedBPS n) (Sessions n) (LatencyMS n) (LatencySuspicious n) (ProbeAttempts n)
    (ProbeSuccesses n) v (PurityScore n) (Status n) (Evidence n) (LastCheckedAt n)
    (LastError n) (CooldownUntil n) (OpenVPNConfig n).
Definition setPurityScore (v : Z) (n : VpnNode) : VpnNode :=
  mkNode (ID n) (NodeIP n) (RemoteHost n) (RemotePort n) (Protocol n) (CountryCode n)
    (Country n) (City n) (ISP n) (ASN n) (ReverseDNS n) (Score n) (AdvertisedPingMS n)
    (SpeedBPS n) (Sessions n) (LatencyMS n) (LatencySuspicious n) (ProbeAttempts n)
    (ProbeSuccesses n) (PurityGrade n) v (Status n) (Evidence n) (LastCheckedAt n)
    (LastError n) (CooldownUntil n) (OpenVPNConfig n).
Definition setStatus (v : NodeStatus) (n : VpnNode) : VpnNode :=
  mkNode (ID n) (NodeIP n) (RemoteHost n) (RemotePort n) (Protocol n) (CountryCode n)
    (Country n) (City n) (ISP n) (ASN n) (ReverseDNS n) (Score n) (AdvertisedPingMS n)
    (SpeedBPS n) (Sessions n) (LatencyMS n) (LatencySuspicious n) (ProbeAttempts n)
    (ProbeSuccesses n) (PurityGrade n) (PurityScore n) v (Evidence n) (LastCheckedAt n)
    (LastError n) (CooldownUntil n) (OpenVPNConfig n).
Definition setEvidence (v : list ResidentialEvidence) (n : VpnNode) : VpnNode :=
  mkNode (ID n) (NodeIP n) (RemoteHost n) (RemotePort n) (Protocol n) (CountryCode n)
    (Country n) (City n) (ISP n) (ASN n) (ReverseDNS n) (Score n) (AdvertisedPingMS n)
    (SpeedBPS n) (Sessions n) (LatencyMS n) (LatencySuspicious n) (ProbeAttempts n)
    (ProbeSuccesses n) (PurityGrade n) (PurityScore n) (Status n) v (LastCheckedAt n)
    (LastError n) (CooldownUntil n) (OpenVPNConfig n).
Definition setLastCheckedAt (v : option Time) (n : VpnNode) : VpnNode :=
  mkNode (ID n) (NodeIP n) (RemoteHost n) (RemotePort n) (Protocol n) (CountryCode n)
    (Country n) (City n) (ISP n) (ASN n) (ReverseDNS n) (Score n) (AdvertisedPingMS n)
    (SpeedBPS n) (Sessions n) (LatencyMS n) (LatencySuspicious n) (ProbeAttempts n)
    (ProbeSuccesses n) (PurityGrade n) (PurityScore n) (Status n) (Evidence n) v (LastError
    n) (CooldownUntil n) (OpenVPNConfig n).
Definition setLastError (v : string) (n : VpnNode) : VpnNode :=
  mkNode (ID n) (NodeIP n) (RemoteHost n) (RemotePort n) (Protocol n) (CountryCode n)
    (Country n) (City n) (ISP n) (ASN n) (ReverseDNS n) (Score n) (AdvertisedPingMS n)
    (SpeedBPS n) (Sessions n) (LatencyMS n) (LatencySuspicious n) (ProbeAttempts n)
    (ProbeSuccesses n) (PurityGrade n) (PurityScore n) (Status n) (Evidence n)
    (LastCheckedAt n) v (CooldownUntil n) (OpenVPNConfig n).
Definition setCooldownUntil (v : option Time) (n : VpnNode) : VpnNode :=
  mkNode (ID n) (NodeIP n) (RemoteHost n) (RemotePort n) (Protocol n) (CountryCode n)
    (Country n) (City n) (ISP n) (ASN n) (ReverseDNS n) (Score n) (AdvertisedPingMS n)
    (SpeedBPS n) (Sessions n) (LatencyMS n) (LatencySuspicious n) (ProbeAttempts n)
    (ProbeSuccesses n) (PurityGrade n) (PurityScore n) (Status n) (Evidence n)
    (LastCheckedAt n) (LastError n) v (OpenVPNConfig n).
Definition setOpenVPNConfig (v : string) (n : VpnNode) : VpnNode :=
  mkNode (ID n) (NodeIP n) (RemoteHost n) (RemotePort n) (Protocol n) (CountryCode n)
    (Country n) (City n) (ISP n) (ASN n) (ReverseDNS n) (Score n) (AdvertisedPingMS n)
    (SpeedBPS n) (Sessions n) (LatencyMS n) (LatencySuspicious n) (ProbeAttempts n)
    (ProbeSuccesses n) (PurityGrade n) (PurityScore n) (Status n) (Evidence n)
    (LastCheckedAt n) (LastError n) (CooldownUntil n) v.

(** Go's zero value of the struct. *)
Definition zeroNode : VpnNode :=
  mkNode "" "" "" 0 "" "" "" "" "" "" "" 0 0 0 0 None false 0 0 (PurityOther "") 0
    (NodeOther "") [] None "" None "".

(** A nil [Metadata] map is [None]. *)
Record ConnectionSnapshot := mkSnapshot {
  State               : ConnectionState;
  Message             : string;
  ActiveNodeID        : string;
  ExitIP              : string;
  ConnectedSince      : option Time;
  LastVerifiedAt      : option Time;
  ConsecutiveFailures : Z;
  Metadata            : option (gmap string string)
}.
#[export] Instance ConnectionSnapshot_eq_dec : EqDecision ConnectionSnapshot.
Proof. solve_decision. Defined.

Definition setState (v : ConnectionState) (n : ConnectionSnapshot) : ConnectionSnapshot :=
  mkSnapshot v (Message n) (ActiveNodeID n) (ExitIP n) (ConnectedSince n) (LastVerifiedAt n)
    (ConsecutiveFailures n) (Metadata n).
Definition setMessage (v : string) (n : ConnectionSnapshot) : ConnectionSnapshot :=
  mkSnapshot (State n) v (ActiveNodeID n) (ExitIP n) (ConnectedSince n) (LastVerifiedAt n)
    (ConsecutiveFailures n) (Metadata n).
Definition setActiveNodeID (v : string) (n : ConnectionSnapshot) : ConnectionSnapshot :=
  mkSnapshot (State n) (Message n) v (ExitIP n) (ConnectedSince n) (LastVerifiedAt n)
    (ConsecutiveFailures n) (Metadata n).
Definition setExitIP (v : string) (n : ConnectionSnapshot) : ConnectionSnapshot :=
  mkSnapshot (State n) (Message n) (ActiveNodeID n) v (ConnectedSince n) (LastVerifiedAt n)
    (ConsecutiveFailures n) (Metadata n).
Definition setConnectedSince (v : option Time) (n : ConnectionSnapshot) : ConnectionSnapshot :=
  mkSnapshot (State n) (Message n) (ActiveNodeID n) (ExitIP n) v (LastVerifiedAt n)
    (ConsecutiveFailures n) (Metadata n).
Definition setLastVerifiedAt (v : option Time) (n : ConnectionSnapshot) : ConnectionSnapshot :=
  mkSnapshot (State n) (Message n) (ActiveNodeID n) (ExitIP n) (ConnectedSince n) v
    (ConsecutiveFailures n) (Metadata n).
Definition setConsecutiveFailures (v : Z) (n : ConnectionSnapshot) : ConnectionSnapshot :=
  mkSnapshot (State n) (Message n) (ActiveNodeID n) (ExitIP n) (ConnectedSince n)
    (LastVerifiedAt n) v (Metadata n).
Definition setMetadata (v : option (gmap string string)) (n : ConnectionSnapshot) : ConnectionSnapshot :=
  mkSnapshot (State n) (Message n) (ActiveNodeID n) (ExitIP n) (ConnectedSince n)
    (LastVerifiedAt n) (ConsecutiveFailures n) v.

Definition InitialSnapshot : ConnectionSnapshot :=
  mkSnapshot StateIdle "准备就绪" "" "" None None 0 (Some ∅).
