(* ===== verification/Failover.v ===== *)
(** * [internal/web/failover.go]: candidate selection and cooldowns

    Which nodes a connection attempt tries and in which order, how a failed
    node enters its cooldown, and how cooldowns survive a refresh of the node
    list. *)

From S2P Require Import Prelude GoSort GoStrings Domain.

(** ** Ranking *)

Definition connectable (node : VpnNode) (now : Time) : bool :=
  if negb (bool_decide (Protocol node = "tcp")) || bool_decide (PurityGrade node = PurityRejected)
  then false
  else if bool_decide (Status node = NodeUnavailable) then false
  else match CooldownUntil node with
       | Some until => negb (timeBefore now until)
       | None => true
       end.

Definition nodeRank (node : VpnNode) : Z :=
  let score := 0%Z in
  let score := if bool_decide (PurityGrade node = PurityStrictHome) then score +i 1000 else score in
  let score := if bool_decide (Status node = NodeAvailable) then score +i 200 else score in
  score +i PurityScore node.

Definition latencyRank (node : VpnNode) : Z :=
  match LatencyMS node, LatencySuspicious node with
  | Some ms, false => ms
  | _, _ => if (0 <? AdvertisedPingMS node)%Z then 100000 +i AdvertisedPingMS node
            else 1000000%Z
  end.

(** The comparator [connectionCandidates] passes to [sort.SliceStable]. *)
Definition candidateLess (x y : VpnNode) : bool :=
  let left := nodeRank x in
  let right := nodeRank y in
  if negb (left =? right)%Z then (right <? left)%Z
  else
    let leftLatency := latencyRank x in
    let rightLatency := latencyRank y in
    if negb (leftLatency =? rightLatency)%Z then (leftLatency <? rightLatency)%Z
    else if negb (Score x =? Score y)%Z then (Score y <? Score x)%Z
    else strLess (ID x) (ID y).

Definition connectionCandidates (nodes : list VpnNode) (requestedID : string)
    (maxAttempts : Z) (now : Time) : list VpnNode :=
  if negb (bool_decide (requestedID = "")) then
    match list_find (λ node, ID node = requestedID ∧ connectable node now = true) nodes with
    | Some (_, node) => [node]
    | None => []
    end
  else
    let candidates := filter (λ node, connectable node now = true) nodes in
    let candidates := sliceStable candidateLess candidates in
    if (maxAttempts <=? 0)%Z || (Z.of_nat (length candidates) <? maxAttempts)%Z
    then candidates
    else take (Z.to_nat maxAttempts) candidates.

(** ** Cooldowns *)

(** The loop of [markNodeFailure] with its [break]: the first node with the ID. *)
Definition failNode (message : string) (cooldown : Duration) (now : Time) (node : VpnNode) : VpnNode :=
  let node := setStatus NodeCooldown node in
  let node := setLastError message node in
  let node := setLastCheckedAt (Some now) node in
  if (0 <? cooldown)%Z then setCooldownUntil (Some (timeAdd now cooldown)) node else node.

Fixpoint markNodeFailure (nodes : list VpnNode) (nodeID message : string)
    (cooldown : Duration) (now : Time) : list VpnNode :=
  match nodes with
  | [] => []
  | node :: rest =>
      if negb (bool_decide (ID node = nodeID))
      then node :: markNodeFailure rest nodeID message cooldown now
      else failNode message cooldown now node :: rest
  end.

(** The node is cooling down at [now]. *)
Definition cooling (now : Time) (node : VpnNode) : bool :=
  match CooldownUntil node with Some until => timeBefore now until | None => false end.

Definition coolingByID (previous : list VpnNode) (now : Time) : gmap string VpnNode :=
  fold_left (λ byID node, if cooling now node then <[ID node := node]> byID else byID) previous ∅.

Definition keepCooldown (byID : gmap string VpnNode) (node : VpnNode) : VpnNode :=
  match byID !! ID node with
  | None => node
  | Some old => setLastError (LastError old)
                  (setCooldownUntil (CooldownUntil old) (setStatus NodeCooldown node))
  end.

Definition preserveNodeCooldowns (nodes previous : list VpnNode) (now : Time) : list VpnNode :=
  let byID := coolingByID previous now in
  keepCooldown byID <$> nodes.

(** ** The comparator is a strict weak order *)

Definition idLess (x y : VpnNode) : bool := strLess (ID x) (ID y).

Lemma strLess_leb s t : strLess s t = negb (String.leb t s).
Proof.
  unfold strLess, String.ltb, String.leb. rewrite (String.compare_antisym s t).
  by destruct (String.compare t s).
Qed.

Lemma leb_le s t : String.leb s t = true ↔ String.le s t.
Proof. unfold String.le. by rewrite Is_true_true. Qed.

Lemma strLess_irrefl s : strLess s s = false.
Proof.
  rewrite strLess_leb. apply negb_false_iff, leb_le. reflexivity.
Qed.

Lemma strLess_incomp s t u : strLess s t = false → strLess t u = false → strLess s u = false.
Proof.
  rewrite !strLess_leb, !negb_false_iff, !leb_le. intros. by etrans.
Qed.

Lemma strLess_total s t : strLess s t = false → strLess t s = false → s = t.
Proof.
  rewrite !strLess_leb, !negb_false_iff, !leb_le. intros. by apply (anti_symm String.le).
Qed.

#[export] Instance idLess_swo : StrictWeakOrder idLess.
Proof.
  split; unfold idLess.
  - intros. apply strLess_irrefl.
  - intros x y z H1 H2. destruct (strLess (ID x) (ID z)) eqn:E; [done|].
    destruct (strLess (ID y) (ID x)) eqn:E'.
    + rewrite strLess_leb, negb_true_iff in H1, E'.
      destruct (String.leb_total (ID x) (ID y)); congruence.
    + by rewrite (strLess_incomp (ID y) (ID x) (ID z)) in H2.
  - intros x y z. apply strLess_incomp.
Qed.

Lemma candidateLess_lex x y :
  candidateLess x y =
  lessThen (lessBy (λ n, (- nodeRank n)%Z))
    (lessThen (lessBy latencyRank)
       (lessThen (lessBy (λ n, (- Score n)%Z)) idLess)) x y.
Proof.
  unfold candidateLess, lessThen, lessBy, idLess.
  repeat match goal with
  | |- context [(?a =? ?b)%Z] => destruct (Z.eqb_spec a b)
  | |- context [(?a <? ?b)%Z] => destruct (Z.ltb_spec a b)
  end; simpl; try lia; done.
Qed.

#[export] Instance candidateLess_swo : StrictWeakOrder candidateLess.
Proof.
  assert (StrictWeakOrder (lessThen (lessBy (λ n, (- nodeRank n)%Z))
    (lessThen (lessBy latencyRank)
       (lessThen (lessBy (λ n, (- Score n)%Z)) idLess)))) as [i t n] by apply _.
  split; setoid_rewrite candidateLess_lex; eauto.
Qed.

(** Ties leave only the same ID. *)
Lemma candidateLess_tied x y : tied candidateLess x y = true → ID x = ID y.
Proof.
  unfold tied. rewrite andb_true_iff, !negb_true_iff, !candidateLess_lex, !lessThen_false.
  unfold lessBy, idLess. rewrite !Z.ltb_lt, !Z.ltb_ge.
  intros [(?&[?|(?&[?|(?&[?|?])])]) (?&[?|(?&[?|(?&[?|?])])])]; try lia.
  by apply strLess_total.
Qed.

(** ** Candidates *)

Section Candidates.
Context (nodes : list VpnNode) (now : Time).

Lemma length_candidates_bound maxAttempts :
  (0 < maxAttempts)%Z →
  (Z.of_nat (length (connectionCandidates nodes "" maxAttempts now)) ≤ maxAttempts)%Z.
Proof.
  intros Hm. unfold connectionCandidates. simpl.
  case_goal; bools; [|rewrite length_take; lia].
  apply orb_true_iff in Heqb as [H|H]; bools; lia.
Qed.

Lemma candidates_prefix maxAttempts :
  connectionCandidates nodes "" maxAttempts now
    `prefix_of` sliceStable candidateLess (filter (λ n, connectable n now = true) nodes).
Proof.
  unfold connectionCandidates. simpl. case_goal; [done|apply prefix_take].
Qed.

Lemma elem_of_candidates_inv requestedID maxAttempts node :
  node ∈ connectionCandidates nodes requestedID maxAttempts now →
  node ∈ nodes ∧ connectable node now = true ∧ (requestedID = "" ∨ ID node = requestedID).
Proof.
  unfold connectionCandidates. destruct (bool_decide_reflect (requestedID = "")); simpl.
  - intros H. pose proof (elem_of_prefix _ _ node H (candidates_prefix maxAttempts)) as Hin.
    apply elem_of_sliceStable, list_elem_of_filter in Hin as [??]. auto.
  - destruct (list_find _ _) as [[i n']|] eqn:E; [|by intros ?%elem_of_nil].
    intros ->%list_elem_of_singleton. apply list_find_Some in E as (Hi & [Hid Hc] & _).
    eauto using list_elem_of_lookup_2.
Qed.

Lemma length_candidates maxAttempts :
  length (connectionCandidates nodes "" maxAttempts now) =
  let connectables := length (filter (λ n, connectable n now = true) nodes) in
  if (maxAttempts <=? 0)%Z then connectables else Nat.min (Z.to_nat maxAttempts) connectables.
Proof.
  unfold connectionCandidates. simpl. rewrite length_sliceStable.
  destruct (Z.leb_spec maxAttempts 0); simpl; [by rewrite length_sliceStable|].
  case_goal; bools; rewrite ?length_take, length_sliceStable; lia.
Qed.

Lemma candidates_sorted maxAttempts :
  StronglySorted (notAfter candidateLess) (connectionCandidates nodes "" maxAttempts now).
Proof.
  destruct (candidates_prefix maxAttempts) as [rest Hrest].
  pose proof (sliceStable_sorted candidateLess (filter (λ n, connectable n now = true) nodes)) as Hs.
  rewrite Hrest in Hs. clear Hrest. revert Hs.
  generalize (connectionCandidates nodes "" maxAttempts now) as l.
  induction l as [|x l IH]; intros Hs; [constructor|].
  inversion_clear Hs as [|? ? Hs' Hx]. apply Forall_app in Hx as [Hx _].
  constructor; auto.
Qed.
End Candidates.

(** ** Theorems *)

(** C15. Soundness of the selection: every candidate is one of the cached nodes,
    a TCP node, not rejected by the classifier, not found unavailable, past its
    cooldown, and the requested node when one was requested. *)
Theorem candidates_sound nodes requestedID maxAttempts now node :
  node ∈ connectionCandidates nodes requestedID maxAttempts now →
  node ∈ nodes ∧ Protocol node = "tcp" ∧ PurityGrade node ≠ PurityRejected ∧
  Status node ≠ NodeUnavailable ∧
  (∀ u, CooldownUntil node = Some u → (u ≤ now)%Z) ∧
  (requestedID ≠ "" → ID node = requestedID).
Proof.
  intros (Hin & Hc & Hid)%elem_of_candidates_inv.
  unfold connectable in Hc. case_hyp Hc; [done|]. case_hyp Hc; [done|]. bools.
  split_and!; [done..| |tauto].
  intros u Hu. rewrite Hu in Hc. unfold timeBefore in Hc. bools. done.
Qed.

Lemma candidates_sound_witness :
  ∃ node, node ∈ connectionCandidates [setProtocol "tcp" (setID "n1" zeroNode)] "" 5 0 ∧
          Protocol node = "tcp".
Proof.
  exists (setProtocol "tcp" (setID "n1" zeroNode)). split; [left|].
  apply (candidates_sound [setProtocol "tcp" (setID "n1" zeroNode)] "" 5 0). left.
Defined.

(** Best first: without a requested node the candidates are ordered by rank,
    then latency, then score, then ID; their number is the number of connectable
    nodes cut at [maxAttempts]; and no connectable node that was left out ranks
    before a candidate. *)
Theorem candidates_best_first nodes maxAttempts now :
  let candidates := connectionCandidates nodes "" maxAttempts now in
  let connectables := filter (λ n, connectable n now = true) nodes in
  StronglySorted (notAfter candidateLess) candidates ∧
  length candidates = (if (maxAttempts <=? 0)%Z then length connectables
                       else Nat.min (Z.to_nat maxAttempts) (length connectables)) ∧
  ∃ rest, candidates ++ rest ≡ₚ connectables ∧
    ∀ c r, c ∈ candidates → r ∈ rest → candidateLess r c = false.
Proof.
  simpl. split_and!; [apply candidates_sorted | apply length_candidates |].
  destruct (candidates_prefix nodes now maxAttempts) as [rest Hrest].
  exists rest. split; [by rewrite <-Hrest, sliceStable_perm|].
  intros c r Hc Hr.
  apply (StronglySorted_app_forall (notAfter candidateLess)
    (connectionCandidates nodes "" maxAttempts now) rest); [|done..].
  rewrite <-Hrest. apply sliceStable_sorted. apply _.
Qed.

(** Determinism: when node IDs are distinct, the candidates do not depend
    on the order of the cached nodes. *)
Theorem candidates_order_irrelevant nodes nodes' maxAttempts now :
  NoDup (ID <$> nodes) → nodes ≡ₚ nodes' →
  connectionCandidates nodes "" maxAttempts now = connectionCandidates nodes' "" maxAttempts now.
Proof.
  intros Hnd Hp. unfold connectionCandidates. simpl.
  assert (sliceStable candidateLess (filter (λ n, connectable n now = true) nodes) =
          sliceStable candidateLess (filter (λ n, connectable n now = true) nodes')) as ->; [|done].
  apply sliceStable_order_irrelevant; [apply _|by rewrite Hp|].
  intros x y. rewrite !list_elem_of_filter. intros [_ Hx] [_ Hy] Ht%candidateLess_tied.
  apply list_elem_of_lookup in Hx as [i Hi], Hy as [j Hj].
  assert (i = j) as ->; [|congruence].
  eapply (NoDup_lookup (ID <$> nodes)); [done|..]; rewrite list_lookup_fmap.
  - by rewrite Hi.
  - rewrite Hj. simpl. by f_equal.
Qed.

Lemma candidates_order_irrelevant_witness :
  let a := setProtocol "tcp" (setID "a" zeroNode) in
  let b := setProtocol "tcp" (setID "b" zeroNode) in
  connectionCandidates [b; a] "" 0 0 = connectionCandidates [a; b] "" 0 0 ∧
  length (connectionCandidates [a; b] "" 0 0) = 2%nat.
Proof.
  intros a b. split; [|reflexivity].
  apply (candidates_order_irrelevant [b; a] [a; b] 0 0); [|apply perm_swap].
  apply (bool_decide_unpack _). vm_compute. exact I.
Defined.

(** ** Ranks *)

Lemma nodeRank_bounds n :
  (0 ≤ PurityScore n ≤ 100)%Z →
  nodeRank n = ((if bool_decide (PurityGrade n = PurityStrictHome) then 1000 else 0)
    + (if bool_decide (Status n = NodeAvailable) then 200 else 0) + PurityScore n)%Z.
Proof.
  intros H. unfold nodeRank.
  destruct (bool_decide (PurityGrade n = PurityStrictHome)),
    (bool_decide (Status n = NodeAvailable));
    try change (0 +i 1000) with 1000%Z; try change (1000 +i 200) with 1200%Z;
    try change (0 +i 200) with 200%Z;
    rewrite wrap64_small; unfold isInt64, minInt64, maxInt64; lia.
Qed.

(** With purity scores between 0 and 100 (the classifier assigns 0, 40 and
    90) a strict-home node is always tried before one that is not, whatever
    their latencies and scores. *)
Theorem strict_home_first x y :
  (0 ≤ PurityScore x ≤ 100)%Z → (0 ≤ PurityScore y ≤ 100)%Z →
  PurityGrade x = PurityStrictHome → PurityGrade y ≠ PurityStrictHome →
  candidateLess x y = true ∧ candidateLess y x = false.
Proof.
  intros Hx Hy Gx Gy.
  assert (nodeRank y < nodeRank x)%Z as Hlt.
  { rewrite (nodeRank_bounds x Hx), (nodeRank_bounds y Hy), Gx.
    repeat case_bool_decide; try done; lia. }
  unfold candidateLess. destruct (Z.eqb_spec (nodeRank x) (nodeRank y)); [lia|].
  destruct (Z.eqb_spec (nodeRank y) (nodeRank x)); [lia|]. simpl.
  split; [by apply Z.ltb_lt|apply Z.ltb_ge; lia].
Qed.

Lemma strict_home_first_witness :
  candidateLess (setPurityScore 90 (setPurityGrade PurityStrictHome zeroNode))
    (setPurityScore 40 (setScore 100 zeroNode)) = true.
Proof.
  apply (strict_home_first (setPurityScore 90 (setPurityGrade PurityStrictHome zeroNode))
    (setPurityScore 40 (setScore 100 zeroNode))); simpl; first [lia | reflexivity | discriminate].
Defined.

(** A trusted measured latency below 100 s beats every advertised one,
    provided the advertised ping is at most 2^63 - 1 - 100000. *)
Theorem measured_latency_first x y ms :
  nodeRank x = nodeRank y →
  LatencyMS x = Some ms → LatencySuspicious x = false → (ms ≤ 100000)%Z →
  LatencyMS y = None ∨ LatencySuspicious y = true →
  (AdvertisedPingMS y ≤ maxInt64 - 100000)%Z →
  candidateLess x y = true.
Proof.
  intros Hr Hx Hsx Hms Hy Hp. unfold candidateLess. rewrite Hr, Z.eqb_refl. simpl.
  assert (latencyRank x < latencyRank y)%Z as Hlt.
  { unfold latencyRank. rewrite Hx, Hsx.
    destruct (LatencyMS y), (LatencySuspicious y); try (by destruct Hy);
      (destruct (Z.ltb_spec 0 (AdvertisedPingMS y));
       [rewrite wrap64_small; unfold isInt64, minInt64, maxInt64 in *; lia | lia]). }
  destruct (Z.eqb_spec (latencyRank x) (latencyRank y)); [lia|]. by apply Z.ltb_lt.
Qed.

Lemma measured_latency_first_witness :
  candidateLess (setLatencyMS (Some 20%Z) zeroNode) (setAdvertisedPingMS 3 zeroNode) = true.
Proof.
  apply (measured_latency_first _ (setAdvertisedPingMS 3 zeroNode) 20);
    [reflexivity..|lia|left; reflexivity|vm_compute; discriminate].
Defined.

(** The bound of C5 is needed: [latencyRank] adds in 64 bits, and an
    advertised ping within 100000 of the largest [int], which the VPNGate list
    may carry, gives a negative rank that beats every measured latency. *)
Theorem advertised_ping_overflow y ping :
  (maxInt64 - 100000 < ping ≤ maxInt64)%Z →
  AdvertisedPingMS y = ping → LatencyMS y = None →
  latencyRank y = (ping + 100000 - 2 ^ 64)%Z ∧
  ∀ x ms, nodeRank x = nodeRank y → LatencyMS x = Some ms → LatencySuspicious x = false →
    (0 ≤ ms)%Z → candidateLess y x = true.
Proof.
  intros Hp Hy Hl. unfold maxInt64 in Hp.
  assert (latencyRank y = (ping + 100000 - 2 ^ 64)%Z) as Hrank.
  { unfold latencyRank. rewrite Hl, Hy. destruct (Z.ltb_spec 0 ping); [|lia].
    unfold wrap64. replace (100000 + ping + 2 ^ 63)%Z
      with (ping + 100000 - 2 ^ 63 + 1 * 2 ^ 64)%Z by lia.
    rewrite Z.mod_add, Z.mod_small by lia. lia. }
  split; [done|]. intros x ms Hr Hx Hs Hms.
  unfold candidateLess. rewrite Hr, Z.eqb_refl. simpl.
  rewrite Hrank. unfold latencyRank at 1 2. rewrite Hx, Hs.
  destruct (Z.eqb_spec (ping + 100000 - 2 ^ 64)%Z ms); [lia|]. apply Z.ltb_lt. lia.
Qed.

Lemma advertised_ping_overflow_witness :
  latencyRank (setAdvertisedPingMS maxInt64 zeroNode) = (-9223372036854675809)%Z.
Proof.
  apply (advertised_ping_overflow (setAdvertisedPingMS maxInt64 zeroNode) maxInt64);
    [unfold maxInt64; lia|reflexivity..].
Defined.

(** ** Cooldowns *)

Lemma markNodeFailure_not_in nodes nodeID message cooldown now :
  nodeID ∉ ID <$> nodes → markNodeFailure nodes nodeID message cooldown now = nodes.
Proof.
  induction nodes as [|n nodes IH]; simpl; [done|].
  rewrite not_elem_of_cons. intros [Hn Hrest].
  rewrite bool_decide_false by congruence. simpl. by rewrite IH.
Qed.

Lemma markNodeFailure_map nodes nodeID message cooldown now :
  NoDup (ID <$> nodes) →
  markNodeFailure nodes nodeID message cooldown now =
  (λ n, if bool_decide (ID n = nodeID) then failNode message cooldown now n else n) <$> nodes.
Proof.
  induction nodes as [|n nodes IH]; simpl; [done|].
  intros [Hn Hnd]%NoDup_cons. destruct (bool_decide_reflect (ID n = nodeID)) as [<-|]; simpl.
  - f_equal. symmetry. rewrite <-(list_fmap_id nodes) at 2. apply list_fmap_ext.
    intros i m Hm. rewrite bool_decide_false; [done|]. intros Heq. apply Hn.
    rewrite <-Heq. apply list_elem_of_fmap. eauto using list_elem_of_lookup_2.
  - by rewrite IH.
Qed.

Lemma ID_failNode message cooldown now n : ID (failNode message cooldown now n) = ID n.
Proof. unfold failNode. by case_goal. Qed.

Lemma connectable_failNode message cooldown now n t :
  (0 < cooldown)%Z →
  connectable (failNode message cooldown now n) t =
  bool_decide (Protocol n = "tcp") && negb (bool_decide (PurityGrade n = PurityRejected))
  && (timeAdd now cooldown <=? t)%Z.
Proof.
  intros Hc. unfold failNode. rewrite (proj2 (Z.ltb_lt 0 cooldown) Hc).
  unfold connectable, timeBefore. cbn.
  destruct (bool_decide (Protocol n = "tcp")), (bool_decide (PurityGrade n = PurityRejected)); try done.
  cbn. by rewrite <-Z.leb_antisym.
Qed.

(** A failed node cools down: [markNodeFailure] with a positive cooldown
    keeps the list's IDs, leaves every other node as it was, and makes the
    failed node unconnectable until the cooldown is over and connectable again
    (if TCP and not rejected) from then on. *)
Theorem failure_cools_down nodes nodeID message cooldown now :
  NoDup (ID <$> nodes) → (0 < cooldown)%Z →
  let nodes' := markNodeFailure nodes nodeID message cooldown now in
  ID <$> nodes' = ID <$> nodes ∧
  (∀ n, ID n ≠ nodeID → n ∈ nodes' ↔ n ∈ nodes) ∧
  (∀ n, n ∈ nodes' → ID n = nodeID →
     Status n = NodeCooldown ∧ LastError n = message ∧
     ∀ t, connectable n t =
       bool_decide (Protocol n = "tcp") && negb (bool_decide (PurityGrade n = PurityRejected))
       && (timeAdd now cooldown <=? t)%Z).
Proof.
  intros Hnd Hc. simpl. rewrite markNodeFailure_map by done. split_and!.
  - rewrite <-list_fmap_compose. apply list_fmap_ext. intros i n _. simpl.
    case_bool_decide; [apply ID_failNode|done].
  - intros n Hn. rewrite list_elem_of_fmap. split.
    + intros (m & -> & Hm). case_bool_decide as E; [|done].
      by rewrite ID_failNode in Hn.
    + intros Hin. exists n. by rewrite bool_decide_false.
  - intros n (m & -> & Hm)%list_elem_of_fmap.
    case_bool_decide as E; [|done]. intros _.
    split_and!; [unfold failNode; by case_goal..|]. intros t.
    rewrite connectable_failNode by done. unfold failNode. by case_goal.
Qed.

Lemma failure_cools_down_witness :
  let n := setProtocol "tcp" (setID "n1" zeroNode) in
  connectable n 0 = true ∧
  ∀ m, m ∈ markNodeFailure [n] "n1" "failed" (300 * Second)%Z 0 → ID m = "n1" →
    connectable m (299 * Second)%Z = false.
Proof.
  intros n. split; [reflexivity|]. intros m Hm Hid.
  assert (NoDup (ID <$> [n])) as Hnd by (apply NoDup_singleton).
  assert (0 < 300 * Second)%Z as Hpos by (vm_compute; reflexivity).
  destruct (failure_cools_down [n] "n1" "failed" (300 * Second)%Z 0 Hnd Hpos) as (_ & _ & H).
  destruct (H m Hm Hid) as (_ & _ & ->). by rewrite andb_false_r.
Defined.

Lemma coolingByID_snoc previous node now :
  coolingByID (previous ++ [node]) now =
  if cooling now node then <[ID node := node]> (coolingByID previous now)
  else coolingByID previous now.
Proof. unfold coolingByID. by rewrite fold_left_app. Qed.

Lemma coolingByID_lookup previous now id old :
  coolingByID previous now !! id = Some old →
  old ∈ previous ∧ ID old = id ∧ cooling now old = true.
Proof.
  induction previous as [|node previous IH] using rev_ind; [done|].
  rewrite coolingByID_snoc, elem_of_app. destruct (cooling now node) eqn:E;
    [|intros (?&?&?)%IH; auto].
  rewrite lookup_insert. case_decide; [|intros (?&?&?)%IH; auto].
  intros [= <-]. split_and!; [right; left|done..].
Qed.

Lemma coolingByID_is_Some previous now node :
  node ∈ previous → cooling now node = true → is_Some (coolingByID previous now !! ID node).
Proof.
  induction previous as [|m previous IH] using rev_ind; [by intros ?%elem_of_nil|].
  intros [Hin| ->%list_elem_of_singleton]%elem_of_app Hc; rewrite coolingByID_snoc.
  - destruct (cooling now m); [|auto]. rewrite lookup_insert. case_decide; [by eexists|auto].
  - rewrite Hc, lookup_insert_eq. by eexists.
Qed.

(** Cooldowns survive a refresh: a node whose ID was cooling down in the
    previous list is in cooldown in the new one, with the deadline and error of
    a cooling node of that ID, and cannot be selected; every other node is
    unchanged, and no node is added or dropped. *)
Theorem refresh_keeps_cooldowns nodes previous now :
  let nodes' := preserveNodeCooldowns nodes previous now in
  ID <$> nodes' = ID <$> nodes ∧
  ∀ i n n', nodes !! i = Some n → nodes' !! i = Some n' →
    ((∃ old, old ∈ previous ∧ ID old = ID n ∧ cooling now old = true) →
       Status n' = NodeCooldown ∧ connectable n' now = false ∧
       ∃ old, old ∈ previous ∧ ID old = ID n ∧ cooling now old = true ∧
              CooldownUntil n' = CooldownUntil old ∧ LastError n' = LastError old) ∧
    ((∀ old, old ∈ previous → ID old = ID n → cooling now old = false) → n' = n).
Proof.
  simpl. unfold preserveNodeCooldowns. split.
  - rewrite <-list_fmap_compose. apply list_fmap_ext. intros i n _. simpl.
    unfold keepCooldown. by case_goal.
  - intros i n n' Hn. rewrite list_lookup_fmap, Hn. simpl. intros [= <-].
    unfold keepCooldown. split.
    + intros (old & Hin & Hid & Hc).
      destruct (coolingByID_is_Some previous now old Hin Hc) as [o Ho]. rewrite Hid in Ho.
      rewrite Ho. apply coolingByID_lookup in Ho as (Hin' & Hid' & Hc').
      cbn. split_and!; [done| |eauto 10].
      unfold connectable, cooling in *. cbn. destruct (CooldownUntil o); [|done].
      rewrite Hc'. by repeat case_goal.
    + intros Hnone. destruct (coolingByID previous now !! ID n) as [o|] eqn:Ho; [|done].
      apply coolingByID_lookup in Ho as (Hin' & Hid' & Hc'). by rewrite Hnone in Hc'.
Qed.
