(* ===== verification/Probe.v ===== *)
(** * [internal/probe]: TCP probing

    [TCPProbe.Probe] measures every TCP node with a few connection attempts,
    one goroutine per node behind a semaphore, then looks for a batch of
    latencies too low to be real.  The network is the parameter [dial]: the
    outcome of the [k]-th attempt for the [i]-th node, a duration or an error. *)

From stdpp Require Import relations.
From S2P Require Import Prelude GoSort GoStrings GoNet Domain.

Record TCPProbe := mkTCPProbe {
  Timeout : Duration;
  MaxConcurrency : Z;
  Samples : Z
}.

Definition minimumTrustedPublicLatencyMS : Z := 5.
Definition batchAnomalyLatencyMS : Z := 15.

Definition ceilMilliseconds (duration : Duration) : Z :=
  if (duration <=? 0)%Z then 1%Z
  else Z.quot ((duration +i Millisecond) -i 1) Millisecond.

Definition isPublicIP (host : string) : bool :=
  match parseIP host with
  | None => false
  | Some ip => isGlobalUnicast ip && negb (isPrivate ip) && negb (isLoopback ip)
  end.

Definition suspiciousPublicLatency (host : string) (latencyMS : Z) : bool :=
  match parseIP host with
  | None => false
  | Some ip => isGlobalUnicast ip && negb (isPrivate ip) && negb (isLoopback ip)
               && (latencyMS <? minimumTrustedPublicLatencyMS)%Z
  end.

(** [sort.Ints]. *)
Definition sortInts (l : list Z) : list Z := sliceStable (lessBy id) l.

(** The sampling loop: the latencies in order and the last error. *)
Fixpoint sampleLoop (attempt : nat → result Duration) (sample : nat) (count : nat)
    (latencies : list Z) (lastErr : option string) : list Z * option string :=
  match count with
  | O => (latencies, lastErr)
  | S count =>
      match attempt sample with
      | Err e => sampleLoop attempt (S sample) count latencies (Some e)
      | Ok d => sampleLoop attempt (S sample) count (latencies ++ [ceilMilliseconds d]) lastErr
      end
  end.

(** Measured, public nodes are what the batch check looks at. *)
Definition measuredPublic (node : VpnNode) : bool :=
  match LatencyMS node with Some _ => isPublicIP (RemoteHost node) | None => false end.

Definition markSuspicious (node : VpnNode) : VpnNode :=
  if measuredPublic node
  then setLastError "多个国家的公网节点同时出现异常低耗时，探测疑似被本机代理或网络扩展接管"
         (setLatencySuspicious true node)
  else node.

(** The counting loop: measured nodes, implausibly fast ones, their countries. *)
Definition countBatch (nodes : list VpnNode) : Z * Z * gset string :=
  fold_left (λ '(measured, fast, countries) node,
    match LatencyMS node with
    | Some ms =>
        if isPublicIP (RemoteHost node)
        then ((measured + 1)%Z,
              (if (ms <? batchAnomalyLatencyMS)%Z then fast + 1 else fast)%Z,
              if bool_decide (CountryCode node = "") then countries
              else {[CountryCode node]} ∪ countries)
        else (measured, fast, countries)
    | None => (measured, fast, countries)
    end) nodes (0%Z, 0%Z, ∅).

Definition markBatchLatencyAnomaly (nodes : list VpnNode) : list VpnNode :=
  let '(measured, implausiblyFast, countries) := countBatch nodes in
  if (measured <? 10)%Z || (Z.of_nat (size countries) <? 2)%Z
     || (implausiblyFast * 100 <? measured * 60)%Z
  then nodes
  else markSuspicious <$> nodes.

(** Where a goroutine is: before [sem <-], holding a token, returned. *)
Inductive phase := Waiting | Running | Finished.
#[export] Instance phase_eq_dec : EqDecision phase.
Proof. solve_decision. Defined.

Section Probing.
Context {U : UnicodeTables}.
Context (dial : Duration → string → nat → nat → result Duration).
Context (clock : nat → Time).

(** The body of the goroutine for the node at [index]. *)
Definition probeNode (timeout : Duration) (samples : Z) (index : nat) (node : VpnNode) : VpnNode :=
  let node := setLastCheckedAt (Some (clock index)) node in
  let node := setProbeAttempts samples node in
  let node := setProbeSuccesses 0 node in
  let node := setLatencyMS None node in
  let node := setLatencySuspicious false node in
  if negb (equalFold (Protocol node) "tcp") then
    setLastError "UDP 节点不适用 TCP 建连探测"
      (setProbeAttempts 0 (setStatus NodeUnknown node))
  else
    let address := joinHostPort (RemoteHost node) (itoa (RemotePort node)) in
    let '(latencies, lastErr) :=
      sampleLoop (dial timeout address index) 0 (Z.to_nat samples) [] None in
    let node := setProbeSuccesses (Z.of_nat (length latencies)) node in
    if bool_decide (length latencies = 0%nat) then
      setLastError (match lastErr with Some e => e | None => "TCP 建连探测失败" end)
        (setStatus NodeUnavailable node)
    else
      let latencies := sortInts latencies in
      let median := default 0%Z (latencies !! (length latencies / 2)%nat) in
      let node := setLastError "" (setStatus NodeAvailable (setLatencyMS (Some median) node)) in
      if suspiciousPublicLatency (RemoteHost node) median
      then setLastError "TCP 建连耗时异常低，疑似被本机代理或网络扩展接管"
             (setLatencySuspicious true node)
      else node.

Definition probeTimeout (p : TCPProbe) : Duration :=
  if (Timeout p <=? 0)%Z then (3 * Second)%Z else Timeout p.
Definition probeLimit (p : TCPProbe) : Z :=
  if (MaxConcurrency p <=? 0)%Z then 32%Z else MaxConcurrency p.
Definition probeSamples (p : TCPProbe) : Z :=
  if (Samples p <=? 0)%Z then 3%Z else Samples p.

(** What the goroutines leave in [result] when [wg.Wait()] returns
    ([probe_confluent] below: whatever their interleaving). *)
Definition probeAll (p : TCPProbe) (nodes : list VpnNode) : list VpnNode :=
  imap (probeNode (probeTimeout p) (probeSamples p)) nodes.

Definition Probe (p : TCPProbe) (nodes : list VpnNode) : list VpnNode :=
  markBatchLatencyAnomaly (probeAll p nodes).

(** ** The goroutines and their semaphore *)

(** [result], the goroutines' phases, and the tokens in the channel [sem]. *)
Record workers := mkWorkers { slots : list VpnNode; phases : list phase; tokens : nat }.

Inductive workerStep (p : TCPProbe) : workers → workers → Prop :=
  | step_acquire w i :
      phases w !! i = Some Waiting → (Z.of_nat (tokens w) < probeLimit p)%Z →
      workerStep p w (mkWorkers (slots w) (<[i := Running]> (phases w)) (S (tokens w)))
  | step_finish w i node :
      phases w !! i = Some Running → slots w !! i = Some node →
      workerStep p w
        (mkWorkers (<[i := probeNode (probeTimeout p) (probeSamples p) i node]> (slots w))
           (<[i := Finished]> (phases w)) (pred (tokens w))).

Definition workersInit (nodes : list VpnNode) : workers :=
  mkWorkers nodes (replicate (length nodes) Waiting) 0.

(** [wg.Wait()] returns. *)
Definition workersDone (w : workers) : Prop := Forall (λ ph, ph = Finished) (phases w).
End Probing.

(** ** Durations and samples *)

Lemma ceilMilliseconds_spec d :
  (0 < d ≤ maxInt64 - Millisecond)%Z →
  ((ceilMilliseconds d - 1) * Millisecond < d ≤ ceilMilliseconds d * Millisecond)%Z.
Proof.
  unfold ceilMilliseconds, maxInt64, Millisecond. intros H.
  destruct (Z.leb_spec d 0); [lia|].
  rewrite (wrap64_small (d + 1000000)), wrap64_small;
    unfold isInt64, minInt64, maxInt64; [|lia..].
  Z.to_euclidean_division_equations. lia.
Qed.

Lemma ceilMilliseconds_pos d : (d ≤ maxInt64 - Millisecond)%Z → (1 ≤ ceilMilliseconds d)%Z.
Proof.
  intros H. destruct (Z.leb_spec d 0).
  - unfold ceilMilliseconds. by rewrite (proj2 (Z.leb_le d 0)).
  - pose proof (ceilMilliseconds_spec d). unfold Millisecond in *. lia.
Qed.

Lemma sampleLoop_length attempt k n acc err :
  (length (sampleLoop attempt k n acc err).1 ≤ length acc + n)%nat.
Proof.
  revert k acc err. induction n as [|n IH]; intros k acc err; simpl; [lia|].
  destruct (attempt k); (etrans; [apply IH|]); rewrite ?length_app; simpl; lia.
Qed.

Lemma sampleLoop_forall (P : Z → Prop) attempt k n acc err :
  (∀ j d, attempt j = Ok d → P (ceilMilliseconds d)) → Forall P acc →
  Forall P (sampleLoop attempt k n acc err).1.
Proof.
  intros HP. revert k acc err. induction n as [|n IH]; intros k acc err Hacc; simpl; [done|].
  destruct (attempt k) eqn:E; apply IH; [|done].
  apply Forall_app. eauto.
Qed.

(** ** The median *)

Lemma sortInts_perm l : sortInts l ≡ₚ l.
Proof. apply sliceStable_perm. Qed.

Lemma sortInts_sorted l : StronglySorted Z.le (sortInts l).
Proof.
  unfold sortInts. pose proof (sliceStable_sorted (lessBy id) l) as H.
  induction H as [|x l' Hs IH Hx]; constructor; [done|].
  eapply Forall_impl; [exact Hx|]. unfold notAfter, lessBy. intros y Hy. bools. done.
Qed.

Lemma sorted_rank l k m :
  StronglySorted Z.le l → l !! k = Some m →
  (k < length (filter (λ x, (x ≤ m)%Z) l))%nat ∧
  (length l ≤ k + length (filter (λ x, (m ≤ x)%Z) l))%nat.
Proof.
  intros Hs. revert k. induction Hs as [|x l Hs IH Hx]; intros k Hk; [done|].
  destruct k as [|k]; simpl in Hk.
  - simplify_eq. rewrite filter_cons_True by lia. simpl. split; [lia|].
    rewrite filter_cons_True by lia. simpl.
    assert (filter (λ x, (m ≤ x)%Z) l = l) as ->; [|lia].
    clear -Hx. induction Hx; [done|]. rewrite filter_cons_True by done. by f_equal.
  - destruct (IH k Hk) as [H1 H2].
    rewrite filter_cons_True.
    2: { rewrite Forall_forall in Hx. by eapply Hx, list_elem_of_lookup_2. }
    split; [simpl; lia|]. rewrite filter_cons. case_decide; simpl; lia.
Qed.

(** The element in the middle of the sorted samples. *)
Definition medianOf (l : list Z) : Z := default 0%Z (sortInts l !! (length (sortInts l) / 2)%nat).

Lemma median_lookup l :
  l ≠ [] → sortInts l !! (length (sortInts l) / 2)%nat = Some (medianOf l).
Proof.
  intros Hne. unfold medianOf.
  destruct (sortInts l !! _) eqn:E; [done|].
  apply lookup_ge_None in E.
  assert (length (sortInts l) ≠ 0)%nat.
  { rewrite sortInts_perm. by destruct l. }
  pose proof (Nat.div_lt (length (sortInts l)) 2). lia.
Qed.

Lemma median_in l : l ≠ [] → medianOf l ∈ l.
Proof.
  intros Hne. rewrite <-(sortInts_perm l) at 2. by eapply list_elem_of_lookup_2, median_lookup.
Qed.

Lemma median_rank l :
  l ≠ [] →
  (length l / 2 < length (filter (λ x, (x ≤ medianOf l)%Z) l))%nat ∧
  (length l ≤ length l / 2 + length (filter (λ x, (medianOf l ≤ x)%Z) l))%nat.
Proof.
  intros Hne. pose proof (median_lookup l Hne) as Hm.
  apply sorted_rank in Hm; [|apply sortInts_sorted].
  by rewrite !sortInts_perm in Hm.
Qed.

(** ** What a probed node looks like *)

(** The fields of a probed node agree: it is available exactly when a latency
    was measured, a latency is at least a millisecond, the counters are in
    range, and only a measured latency is ever marked suspicious. *)
Record probed (n : VpnNode) : Prop := {
  probed_status : Status n = NodeUnknown ∨ Status n = NodeUnavailable ∨ Status n = NodeAvailable;
  probed_available : Status n = NodeAvailable ↔ is_Some (LatencyMS n);
  probed_successes : is_Some (LatencyMS n) ↔ (0 < ProbeSuccesses n)%Z;
  probed_counts : (0 ≤ ProbeSuccesses n ≤ ProbeAttempts n)%Z;
  probed_latency : ∀ ms, LatencyMS n = Some ms → (1 ≤ ms)%Z;
  probed_suspicious : LatencySuspicious n = true → is_Some (LatencyMS n)
}.

(** The fields a probe never touches. *)
Definition sameNode (n m : VpnNode) : Prop :=
  ID n = ID m ∧ NodeIP n = NodeIP m ∧ RemoteHost n = RemoteHost m ∧
  RemotePort n = RemotePort m ∧ Protocol n = Protocol m ∧ CountryCode n = CountryCode m ∧
  Score n = Score m ∧ AdvertisedPingMS n = AdvertisedPingMS m ∧
  PurityGrade n = PurityGrade m ∧ PurityScore n = PurityScore m ∧
  CooldownUntil n = CooldownUntil m ∧ Evidence n = Evidence m ∧
  OpenVPNConfig n = OpenVPNConfig m.

Lemma sameNode_trans a b c : sameNode a b → sameNode b c → sameNode a c.
Proof. unfold sameNode. intuition congruence. Qed.

Lemma markSuspicious_probed n : probed n → probed (markSuspicious n).
Proof.
  intros [Hst Ha Hs Hc Hl Hsus]. unfold markSuspicious, measuredPublic.
  destruct (LatencyMS n) eqn:E; [|by split; rewrite ?E].
  destruct (isPublicIP _); split; cbn; rewrite ?E in *; auto.
Qed.

Lemma markSuspicious_same n : sameNode (markSuspicious n) n.
Proof. unfold markSuspicious. case_goal; by repeat split. Qed.

Lemma markBatch_cases nodes :
  markBatchLatencyAnomaly nodes = nodes ∨
  markBatchLatencyAnomaly nodes = markSuspicious <$> nodes.
Proof. unfold markBatchLatencyAnomaly. destruct (countBatch nodes) as [[??]?]. case_goal; auto. Qed.

Section ProbeTheorems.
Context {U : UnicodeTables}.
Context (dial : Duration → string → nat → nat → result Duration).
Context (clock : nat → Time).

(** A dial does not take longer than a 64-bit duration, less a millisecond. *)
Definition dialBounded : Prop :=
  ∀ timeout address i k d, dial timeout address i k = Ok d → (d ≤ maxInt64 - Millisecond)%Z.

Lemma probeNode_same timeout samples i n : sameNode (probeNode dial clock timeout samples i n) n.
Proof.
  unfold probeNode. case_goal; [by repeat split|].
  destruct (sampleLoop _ _ _ _ _) as [l e].
  case_goal; [by repeat split|]. case_goal; by repeat split.
Qed.

(** Discharges the fields of [probed] on a node whose fields are known. *)
Ltac solve_probed :=
  split; cbn;
  first [ by auto | lia | by intros ms [= <-] | by intros ?
        | split; first [by intros [] | by intros ? | intros; lia | intros; by eexists] ].

Lemma probeNode_probed timeout samples i n :
  dialBounded → (0 ≤ samples)%Z → probed (probeNode dial clock timeout samples i n).
Proof.
  intros Hd Hs. unfold probeNode. case_goal; cbn.
  { solve_probed. }
  set (addr := joinHostPort _ _).
  pose proof (sampleLoop_length (dial timeout addr i) 0 (Z.to_nat samples) [] None) as Hlen.
  assert (Forall (λ ms, 1 ≤ ms)%Z
    (sampleLoop (dial timeout addr i) 0 (Z.to_nat samples) [] None).1) as Hpos.
  { apply sampleLoop_forall; [|constructor].
    intros j d Hj. by eapply ceilMilliseconds_pos, Hd. }
  destruct (sampleLoop _ _ _ _ _) as [l e]. cbn in Hlen, Hpos.
  case_bool_decide as El.
  { rewrite El. solve_probed. }
  assert (l ≠ []) as Hne by (by intros ->).
  change (default 0%Z (sortInts l !! (length (sortInts l) / 2)%nat)) with (medianOf l).
  assert (1 ≤ medianOf l)%Z as Hm.
  { rewrite Forall_forall in Hpos. by apply Hpos, median_in. }
  case_goal; solve_probed.
Qed.

Lemma probeSamples_pos p : (0 < probeSamples p)%Z.
Proof. unfold probeSamples. case_goal; bools; lia. Qed.
Lemma probeLimit_pos p : (0 < probeLimit p)%Z.
Proof. unfold probeLimit. case_goal; bools; lia. Qed.

(** Probing is well formed: it returns one node per input node, in order,
    the same node in every field a probe does not measure (its cooldown
    included), with status, latency and counters that agree. *)
Theorem probe_well_formed p nodes :
  dialBounded →
  Forall2 (λ n' n, probed n' ∧ sameNode n' n) (Probe dial clock p nodes) nodes.
Proof.
  intros Hd. unfold Probe, probeAll.
  assert (∀ f, (∀ i n, probed (f i n) ∧ sameNode (f i n) n) →
    Forall2 (λ n' n, probed n' ∧ sameNode n' n) (imap f nodes) nodes) as Himap.
  { clear. induction nodes as [|n nodes IH]; intros f Hf; constructor; [apply Hf|].
    apply IH. intros i m. apply Hf. }
  pose proof (Himap _ (λ i n, conj
    (probeNode_probed (probeTimeout p) (probeSamples p) i n Hd (Z.lt_le_incl _ _ (probeSamples_pos p)))
    (probeNode_same (probeTimeout p) (probeSamples p) i n))) as H.
  destruct (markBatch_cases (imap (probeNode dial clock (probeTimeout p) (probeSamples p)) nodes))
    as [-> | ->]; [done|].
  apply Forall2_fmap_l. eapply Forall2_impl; [exact H|].
  intros n' n [H1 H2]. split; [by apply markSuspicious_probed|].
  eapply sameNode_trans; [apply markSuspicious_same|done].
Qed.

(** The latencies of the successful attempts among the first [count]. *)
Definition okLatencies (attempt : nat → result Duration) (start count : nat) : list Z :=
  omap (λ k, match attempt k with Ok d => Some (ceilMilliseconds d) | Err _ => None end)
    (seq start count).

Lemma sampleLoop_latencies attempt k n acc err :
  (sampleLoop attempt k n acc err).1 = acc ++ okLatencies attempt k n.
Proof.
  unfold okLatencies. revert k acc err.
  induction n as [|n IH]; intros k acc err; simpl; [by rewrite app_nil_r|].
  destruct (attempt k); rewrite IH; simpl; [|done]. by rewrite <-(assoc_L app).
Qed.

(** The latency of a TCP node is the median of its successful samples: one
    of them, with more than half of the samples at most it and at least half at
    least it; no successful sample means no latency and status unavailable. *)
Theorem probe_median p i n :
  equalFold (Protocol n) "tcp" = true →
  let address := joinHostPort (RemoteHost n) (itoa (RemotePort n)) in
  let latencies := okLatencies (dial (probeTimeout p) address i) 0 (Z.to_nat (probeSamples p)) in
  let n' := probeNode dial clock (probeTimeout p) (probeSamples p) i n in
  ProbeAttempts n' = probeSamples p ∧
  ProbeSuccesses n' = Z.of_nat (length latencies) ∧
  (latencies = [] → LatencyMS n' = None ∧ Status n' = NodeUnavailable) ∧
  (latencies ≠ [] → ∃ m, LatencyMS n' = Some m ∧ Status n' = NodeAvailable ∧ m ∈ latencies ∧
     (length latencies / 2 < length (filter (λ x, (x ≤ m)%Z) latencies))%nat ∧
     (length latencies ≤ length latencies / 2 + length (filter (λ x, (m ≤ x)%Z) latencies))%nat).
Proof.
  intros Htcp address latencies. unfold probeNode. cbn. rewrite Htcp. cbn. fold address.
  pose proof (sampleLoop_latencies (dial (probeTimeout p) address i) 0
    (Z.to_nat (probeSamples p)) [] None) as Hl. simpl in Hl. fold latencies in Hl.
  destruct (sampleLoop _ _ _ _ _) as [l e]. cbn in Hl. subst l.
  case_bool_decide as El.
  { apply nil_length_inv in El. rewrite El. by split_and!. }
  assert (latencies ≠ []) as Hne by (intros E; by rewrite E in El).
  change (default 0%Z (sortInts latencies !! _)) with (medianOf latencies).
  destruct (median_rank latencies Hne) as [H1 H2].
  case_goal; (split_and!; [done..|]; intros _; exists (medianOf latencies);
    by split_and!; [..|apply median_in| |]).
Qed.

(** ** Interleavings of the goroutines *)

Definition running (phs : list phase) : nat := length (filter (λ ph, ph = Running) phs).

Record workersInv (p : TCPProbe) (nodes : list VpnNode) (w : workers) : Prop := {
  inv_phases : length (phases w) = length nodes;
  inv_tokens : tokens w = running (phases w);
  inv_limit : (Z.of_nat (tokens w) ≤ probeLimit p)%Z;
  inv_slots : ∀ i n, nodes !! i = Some n →
    slots w !! i = Some (if bool_decide (phases w !! i = Some Finished)
                         then probeNode dial clock (probeTimeout p) (probeSamples p) i n else n);
  inv_length : length (slots w) = length nodes
}.

Lemma running_none phs : ¬ Exists (λ ph, ph = Running) phs → running phs = 0%nat.
Proof.
  unfold running. induction phs as [|ph phs IH]; [done|]. rewrite Exists_cons, filter_cons.
  case_decide; tauto.
Qed.

Lemma running_insert phs i old new :
  phs !! i = Some old →
  (running (<[i := new]> phs) + (if decide (old = Running) then 1 else 0) =
   running phs + (if decide (new = Running) then 1 else 0))%nat.
Proof.
  unfold running. revert i. induction phs as [|ph phs IH]; intros [|i] Hi; simplify_eq/=.
  - rewrite !filter_cons. repeat case_decide; simpl; lia.
  - rewrite !filter_cons. specialize (IH i Hi). repeat case_decide; simpl; lia.
Qed.

Lemma workersInv_init p nodes : workersInv p nodes (workersInit nodes).
Proof.
  split; simpl; [apply length_replicate| |pose proof (probeLimit_pos p); lia| |done].
  - unfold running. by induction (length nodes).
  - intros i n Hi. rewrite bool_decide_false; [done|].
    intros [[=] _]%lookup_replicate.
Qed.

Lemma workersInv_step p nodes w w' :
  workersInv p nodes w → workerStep dial clock p w w' → workersInv p nodes w'.
Proof.
  intros [Hph Htok Hlim Hsl Hlen] Hstep. destruct Hstep as [w i Hi Hlt | w i n Hi Hn].
  - pose proof (running_insert (phases w) i Waiting Running Hi) as Hr. simpl in Hr.
    split; simpl; [by rewrite length_insert|lia|lia| |done].
    intros j m Hj. rewrite (Hsl j m Hj). f_equal.
    destruct (decide (i = j)) as [<-|]; [|by rewrite list_lookup_insert_ne].
    rewrite list_lookup_insert_eq by (by eapply lookup_lt_Some). by rewrite Hi.
  - pose proof (running_insert (phases w) i Running Finished Hi) as Hr. simpl in Hr.
    split; simpl; [by rewrite length_insert|lia|lia| |by rewrite length_insert].
    intros j m Hj. destruct (decide (i = j)) as [<-|].
    + rewrite !list_lookup_insert_eq by (by eapply lookup_lt_Some).
      rewrite bool_decide_true by done. rewrite (Hsl i m Hj), Hi in Hn.
      rewrite bool_decide_false in Hn by done. by simplify_eq.
    + rewrite !list_lookup_insert_ne by done. by apply Hsl.
Qed.

Lemma workersInv_reachable p nodes w :
  rtc (workerStep dial clock p) (workersInit nodes) w → workersInv p nodes w.
Proof.
  revert w. apply rtc_ind_r; [apply workersInv_init|].
  intros w1 w2 _ Hs Hi. by eapply workersInv_step.
Qed.

(** C27. Confluence and bounded concurrency: whatever order the goroutines take
    the semaphore and finish in, at most [probeLimit] probes run at a time, and
    once all have finished the slice holds exactly the sequential result. *)
Theorem probe_confluent p nodes w :
  rtc (workerStep dial clock p) (workersInit nodes) w →
  (Z.of_nat (running (phases w)) ≤ probeLimit p)%Z ∧
  (workersDone w → slots w = probeAll dial clock p nodes).
Proof.
  intros [Hph Htok Hlim Hsl Hlen]%workersInv_reachable. split; [lia|]. intros Hdone.
  apply list_eq. intros i. unfold probeAll. rewrite list_lookup_imap.
  destruct (nodes !! i) as [n|] eqn:Hi; simpl.
  - rewrite (Hsl i n Hi), bool_decide_true; [done|].
    assert (is_Some (phases w !! i)) as [ph Hph'].
    { apply lookup_lt_is_Some. rewrite Hph. by eapply lookup_lt_Some. }
    unfold workersDone in Hdone. rewrite Forall_lookup in Hdone.
    by rewrite Hph', (Hdone i ph Hph').
  - apply lookup_ge_None in Hi. apply lookup_ge_None. by rewrite Hlen.
Qed.

(** Steps left: two for a waiting goroutine, one for a running one. *)
Definition stepsLeft (phs : list phase) : nat :=
  sum_list_with (λ ph, match ph with Waiting => 2 | Running => 1 | Finished => 0 end)%nat phs.

Lemma stepsLeft_insert phs i old new :
  phs !! i = Some old →
  (stepsLeft (<[i := new]> phs) + match old with Waiting => 2 | Running => 1 | Finished => 0 end =
   stepsLeft phs + match new with Waiting => 2 | Running => 1 | Finished => 0 end)%nat.
Proof.
  revert i. induction phs as [|ph phs IH]; intros [|i] Hi; simplify_eq/=; [lia|].
  specialize (IH i Hi). lia.
Qed.

Lemma not_done_cases w :
  ¬ workersDone w → ∃ i, phases w !! i = Some Waiting ∨ phases w !! i = Some Running.
Proof.
  intros H. apply not_Forall_Exists, Exists_exists in H as (ph & Hin & Hne); [|apply _].
  apply list_elem_of_lookup in Hin as [i Hi]. exists i. destruct ph; naive_solver.
Qed.

(** [wg.Wait()] returns: no reachable state short of the end is stuck (the
    semaphore cannot deadlock), and every step sequence ends within two steps
    per node. *)
Theorem probe_terminates p nodes :
  (∀ w, rtc (workerStep dial clock p) (workersInit nodes) w → ¬ workersDone w →
     ∃ w', workerStep dial clock p w w') ∧
  (∀ k w, nsteps (workerStep dial clock p) k (workersInit nodes) w → (k ≤ 2 * length nodes)%nat).
Proof.
  split.
  - intros w Hw%workersInv_reachable Hnd. destruct Hw as [Hph Htok Hlim Hsl Hlen].
    destruct (decide (Exists (λ ph, ph = Running) (phases w))) as [Hrun|Hnone].
    + apply Exists_exists in Hrun as (ph & Hin & ->).
      apply list_elem_of_lookup in Hin as [i Hi].
      assert (is_Some (slots w !! i)) as [n Hn].
      { apply lookup_lt_is_Some. rewrite Hlen, <-Hph. by eapply lookup_lt_Some. }
      eexists. by eapply step_finish.
    + destruct (not_done_cases w Hnd) as [i [Hi|Hi]].
      * eexists. eapply step_acquire; [done|]. rewrite Htok, running_none by done.
        apply (probeLimit_pos p).
      * exfalso. apply Hnone, Exists_exists. eauto using list_elem_of_lookup_2.
  - assert (∀ k w w', nsteps (workerStep dial clock p) k w w' →
      (k + stepsLeft (phases w') ≤ stepsLeft (phases w))%nat) as Hk.
    { intros k w w' H. induction H as [|k w1 w2 w3 Hs Hn IH]; [lia|].
      destruct Hs as [w1 i Hi _ | w1 i n Hi _]; simpl in IH.
      - pose proof (stepsLeft_insert _ i _ Running Hi). simpl in *. lia.
      - pose proof (stepsLeft_insert _ i _ Finished Hi). simpl in *. lia. }
    intros k w Hn%Hk. simpl in Hn.
    assert (stepsLeft (replicate (length nodes) Waiting) = 2 * length nodes)%nat as Heq.
    { clear. unfold stepsLeft. induction (length nodes); simpl in *; lia. }
    lia.
Qed.
End ProbeTheorems.

(** ** The batch check *)

Definition isFast (node : VpnNode) : bool :=
  match LatencyMS node with Some ms => (ms <? batchAnomalyLatencyMS)%Z | None => false end.

Definition batchCountries (measured : list VpnNode) : gset string :=
  list_to_set (filter (λ c, c ≠ "") (CountryCode <$> measured)).

Lemma countBatch_snoc nodes node :
  countBatch (nodes ++ [node]) =
  let '(m, f, cs) := countBatch nodes in
  match LatencyMS node with
  | Some ms =>
      if isPublicIP (RemoteHost node)
      then ((m + 1)%Z, (if (ms <? batchAnomalyLatencyMS)%Z then f + 1 else f)%Z,
            if bool_decide (CountryCode node = "") then cs else {[CountryCode node]} ∪ cs)
      else (m, f, cs)
  | None => (m, f, cs)
  end.
Proof. unfold countBatch. rewrite fold_left_app. simpl. by destruct (fold_left _ nodes _) as [[??]?]. Qed.

Lemma countBatch_spec nodes :
  let measured := filter (λ n, measuredPublic n = true) nodes in
  countBatch nodes =
  (Z.of_nat (length measured),
   Z.of_nat (length (filter (λ n, isFast n = true) measured)),
   batchCountries measured).
Proof.
  simpl. induction nodes as [|n nodes IH] using rev_ind; [done|].
  rewrite countBatch_snoc, IH, filter_app. clear IH.
  destruct (measuredPublic n) eqn:Em; unfold measuredPublic in Em;
    destruct (LatencyMS n) as [ms|] eqn:E; try done.
  - rewrite (filter_cons_True _ n) by (unfold measuredPublic; by rewrite E).
    rewrite Em, filter_app, !length_app, filter_cons. unfold batchCountries.
    rewrite fmap_app, filter_app, list_to_set_app_L. simpl. rewrite filter_cons.
    assert (isFast n = (ms <? batchAnomalyLatencyMS)%Z) as Hf by (unfold isFast; by rewrite E).
    rewrite Hf. f_equal; [f_equal; [simpl; lia|]|].
    + destruct (ms <? batchAnomalyLatencyMS)%Z; simpl; lia.
    + case_bool_decide; case_decide; try done; set_solver.
  - rewrite (filter_cons_False _ n) by (unfold measuredPublic; by rewrite E, Em).
    by rewrite Em, app_nil_r.
  - rewrite (filter_cons_False _ n) by (unfold measuredPublic; by rewrite E).
    by rewrite app_nil_r.
Qed.

(** The batch check is all or nothing: with at least ten measured public
    nodes from at least two countries of which at least 60% answered in under
    15 ms, every measured public node (and no other) is marked suspicious;
    otherwise the list is unchanged. *)
Theorem batch_anomaly nodes :
  let measured := filter (λ n, measuredPublic n = true) nodes in
  let fast := filter (λ n, isFast n = true) measured in
  let anomalous := (10 ≤ length measured)%nat ∧ (2 ≤ size (batchCountries measured))%nat ∧
                   (60 * length measured ≤ 100 * length fast)%nat in
  (anomalous → markBatchLatencyAnomaly nodes = markSuspicious <$> nodes ∧
     ∀ n, n ∈ markBatchLatencyAnomaly nodes → measuredPublic n = true →
       LatencySuspicious n = true) ∧
  (¬ anomalous → markBatchLatencyAnomaly nodes = nodes).
Proof.
  simpl. unfold markBatchLatencyAnomaly. rewrite countBatch_spec.
  set (measured := filter _ nodes). set (fast := filter _ measured). split.
  - intros (H1 & H2 & H3).
    destruct (_ || _ || _) eqn:E.
    { apply orb_true_iff in E as [E|E]; [apply orb_true_iff in E as [E|E]|]; bools; lia. }
    split; [done|]. intros n (m & -> & Hm)%list_elem_of_fmap.
    unfold markSuspicious. destruct (measuredPublic m) eqn:Em; [done|congruence].
  - intros Hn. destruct (_ || _ || _) eqn:E; [done|exfalso]. bools. apply Hn. lia.
Qed.

(** ** Concrete runs *)

(** Every attempt answers after 20, 30 and 10 ms in turn. *)
Definition steadyDial (_ : Duration) (_ : string) (_ k : nat) : result Duration :=
  Ok (match k with O => 20 | S O => 30 | _ => 10 end * Millisecond)%Z.

Definition tcpNode : VpnNode :=
  setRemotePort 443 (setRemoteHost "203.0.113.1" (setProtocol "TCP" (setID "n1" zeroNode))).

Example probe_run :
  LatencyMS <$> Probe (U := asciiTables) steadyDial (λ _, 7%Z) (mkTCPProbe 0 0 0) [tcpNode]
  = [Some 20%Z].
Proof. vm_compute. reflexivity. Qed.

Lemma probe_well_formed_witness :
  dialBounded steadyDial ∧
  Forall2 (λ n' n, probed n' ∧ sameNode n' n)
    (Probe (U := asciiTables) steadyDial (λ _, 7%Z) (mkTCPProbe 0 0 0) [tcpNode]) [tcpNode].
Proof.
  assert (dialBounded steadyDial) as H.
  { intros t a i k d [= <-]. destruct k as [|[|k]]; vm_compute; discriminate. }
  split; [exact H|]. apply (probe_well_formed (U := asciiTables)). exact H.
Defined.

Lemma probe_median_witness :
  ∃ m, LatencyMS (probeNode (U := asciiTables) steadyDial (λ _, 7%Z) (3 * Second)%Z 3 0 tcpNode)
       = Some m.
Proof.
  destruct (probe_median (U := asciiTables) steadyDial (λ _, 7%Z) (mkTCPProbe 0 0 0) 0 tcpNode)
    as (_ & _ & _ & H); [vm_compute; reflexivity|].
  destruct H as (m & Hm & _); [vm_compute; discriminate|]. exists m. exact Hm.
Defined.

Lemma probe_confluent_witness :
  let p := mkTCPProbe 0 1 3 in
  let w1 := mkWorkers [tcpNode] [Running] 1 in
  let w2 := mkWorkers (probeAll (U := asciiTables) steadyDial (λ _, 7%Z) p [tcpNode]) [Finished] 0 in
  rtc (workerStep (U := asciiTables) steadyDial (λ _, 7%Z) p) (workersInit [tcpNode]) w2 ∧
  slots w2 = probeAll (U := asciiTables) steadyDial (λ _, 7%Z) p [tcpNode].
Proof.
  intros p w1 w2.
  assert (rtc (workerStep (U := asciiTables) steadyDial (λ _, 7%Z) p) (workersInit [tcpNode]) w2)
    as Hrun.
  { apply (rtc_l _ _ w1).
    - apply (step_acquire _ _ p (workersInit [tcpNode]) 0); [reflexivity|].
      vm_compute. reflexivity.
    - apply rtc_once. apply (step_finish _ _ p w1 0 tcpNode); reflexivity. }
  split; [exact Hrun|].
  apply (probe_confluent (U := asciiTables) steadyDial (λ _, 7%Z) p [tcpNode] w2 Hrun).
  repeat constructor.
Defined.
