(* ===== verification/Classify.v ===== *)
(** * [internal/classify]: residential classification

    [StrictClassifier.Classify] asks ip-api about the distinct addresses of the
    nodes, a hundred at a time, and grades each node from the record returned
    for its address.  The HTTP exchange is the parameter [post]: for a batch of
    addresses, a transport error, or the status code and the decoded body. *)

From S2P Require Import Prelude GoStrings Domain.

Definition ipAPIBatchSize : nat := 100.

Definition allowKeywords : list string :=
  ["ais fibre"; "ais-fibre"; "biglobe"; "cable"; "chubu telecommunications"; "cnci";
   "comcast"; "community network center"; "fios"; "frontier"; "k-opticom"; "kddi";
   "korea telecom"; "kornet"; "lg powercomm"; "ntt"; "open computer network"; "optage";
   "qtnet"; "residential"; "rostelecom"; "sk broadband"; "softbank"; "sony network";
   "telecom"; "verizon"; "xfinity"; "xpeed"].

Definition denyKeywords : list string :=
  ["backbone"; "cloud"; "colo"; "colocation"; "data center"; "datacenter"; "digitalocean";
   "hosting"; "internet initiative japan"; "leaseweb"; "linode"; "proxy"; "server";
   "servers"; "transit"; "vps"; "vpn"; "amazon"; "aws"; "azure"; "google cloud";
   "microsoft"; "oracle"; "ovh"; "hetzner"].

Record ipAPIRecord := mkRecord {
  recStatus : string;
  recMessage : string;
  recQuery : string;
  recCountry : string;
  recCountryCode : string;
  recCity : string;
  recISP : string;
  recOrg : string;
  recAS : string;
  recASName : string;
  recProxy : bool;
  recHosting : bool;
  recMobile : bool
}.

Fixpoint containsAny (value : string) (keywords : list string) : bool :=
  match keywords with
  | [] => false
  | keyword :: rest => if contains value keyword then true else containsAny value rest
  end.

Definition compact (value : string) : string :=
  let value := join " " (fields value) in
  if (180 <? String.length value)%nat then l2s (take 180 (s2l value)) +:+ "..." else value.

(** The addresses of the nodes, each once, in order of first appearance. *)
Definition dedupIPs (nodes : list VpnNode) : list string :=
  (fold_left (λ '(ips, seen) node,
     if bool_decide (NodeIP node ∈ (seen : gset string)) then (ips, seen)
     else (ips ++ [NodeIP node], {[NodeIP node]} ∪ seen)) nodes ([], ∅)).1.

(** [byIP]: the last record for a query wins. *)
Definition indexByIP (records : list ipAPIRecord) : gmap string ipAPIRecord :=
  fold_left (λ byIP record, <[recQuery record := record]> byIP) records ∅.

Definition addEvidence (e : ResidentialEvidence) (n : VpnNode) : VpnNode :=
  setEvidence (Evidence n ++ [e]) n.

Section Classifier.
Context {U : UnicodeTables}.
Context (post : list string → result (Z * result (list ipAPIRecord))).

Definition fetchIPAPIBatch (ips : list string) : result (list ipAPIRecord) :=
  let? (status, body) := post ips in
  if (status <? 200)%Z || (300 <=? status)%Z
  then Err ("ip-api returned HTTP " +:+ itoa status)
  else body.

(** The batch loop; every iteration takes a non-empty batch off [ips], so
    [length ips] iterations are enough. *)
Fixpoint fetchLoop (fuel : nat) (ips : list string) (records : list ipAPIRecord)
    : result (list ipAPIRecord) :=
  match ips, fuel with
  | [], _ | _, O => Ok records
  | _, S fuel =>
      let? batch := fetchIPAPIBatch (take ipAPIBatchSize ips) in
      fetchLoop fuel (drop ipAPIBatchSize ips) (records ++ batch)
  end.

Definition fetchIPAPI (nodes : list VpnNode) : result (list ipAPIRecord) :=
  let ips := dedupIPs nodes in
  fetchLoop (length ips) ips [].

(** The text the keywords are looked for in. *)
Definition identityOf (record : ipAPIRecord) (node : VpnNode) : string :=
  toLower (join " " [recISP record; recOrg record; recAS record; recASName record; ReverseDNS node]).

Definition isDenied (record : ipAPIRecord) (identity : string) : bool :=
  recProxy record || recHosting record || recMobile record || containsAny identity denyKeywords.

(** The body of the grading loop. *)
Definition classifyNode (byIP : gmap string ipAPIRecord) (now : Time) (node : VpnNode) : VpnNode :=
  let unusable :=
    addEvidence (mkEvidence "ip-api" false "未返回可用分类结果" now)
      (setPurityGrade PurityCandidate node) in
  match byIP !! NodeIP node with
  | None => unusable
  | Some record =>
      if negb (bool_decide (recStatus record = "success")) then unusable
      else
        let node := setCountry (valueOrBlank (recCountry record) (Country node)) node in
        let node := setCountryCode (valueOrBlank (recCountryCode record) (CountryCode node)) node in
        let node := setCity (valueOrBlank (recCity record) (City node)) node in
        let node := setISP (valueOrBlank (recISP record) (ISP node)) node in
        let node := setASN (valueOrBlank (recAS record) (ASN node)) node in
        let identity := identityOf record node in
        let denied := isDenied record identity in
        let allowed := containsAny identity allowKeywords in
        if denied then
          addEvidence (mkEvidence "ip-api" false
            ("拒绝证据 proxy=" +:+ fmtBool (recProxy record) +:+ " hosting="
             +:+ fmtBool (recHosting record) +:+ " mobile=" +:+ fmtBool (recMobile record)
             +:+ " identity=" +:+ compact identity) now)
            (setPurityScore 0 (setPurityGrade PurityRejected node))
        else if allowed then
          addEvidence (mkEvidence "ip-api" true ("命中家庭宽带运营商证据: " +:+ compact identity) now)
            (setPurityScore 90 (setPurityGrade PurityStrictHome node))
        else
          addEvidence (mkEvidence "ip-api" false ("无明确家庭宽带证据: " +:+ compact identity) now)
            (setPurityScore 40 (setPurityGrade PurityCandidate node))
  end.

(** The body of the loop run when the fetch failed. *)
Definition classifyFailed (err : string) (now : Time) (node : VpnNode) : VpnNode :=
  let node := addEvidence (mkEvidence "ip-api" false ("分类源不可用: " +:+ err) now) node in
  if bool_decide (PurityGrade node = PurityOther "") then setPurityGrade PurityCandidate node
  else node.

Definition Classify (now : Time) (nodes : list VpnNode) : list VpnNode :=
  if bool_decide (length nodes = 0%nat) then nodes
  else match fetchIPAPI nodes with
  | Err err => classifyFailed err now <$> nodes
  | Ok records => classifyNode (indexByIP records) now <$> nodes
  end.
End Classifier.

(** ** Keywords, records and batches *)

#[global] Arguments containsAny : simpl never.
#[global] Arguments allowKeywords : simpl never.
#[global] Arguments denyKeywords : simpl never.
#[global] Arguments isDenied : simpl never.
#[global] Arguments identityOf : simpl never.
#[global] Arguments compact : simpl never.

Lemma containsAny_iff value keywords :
  containsAny value keywords = true ↔ ∃ k, k ∈ keywords ∧ contains value k = true.
Proof.
  induction keywords as [|k ks IH]; unfold containsAny; fold containsAny.
  - split; [done|]. by intros (k & ?%elem_of_nil & _).
  - setoid_rewrite elem_of_cons. destruct (contains value k) eqn:E.
    + split; [eauto|done].
    + rewrite IH. split; [intros (k' & ? & ?); eauto|].
      intros (k' & [->|?] & ?); [congruence|eauto].
Qed.

Lemma indexByIP_lookup records ip :
  indexByIP records !! ip = last (filter (λ r, recQuery r = ip) records).
Proof.
  unfold indexByIP. induction records as [|r records IH] using rev_ind; [done|].
  rewrite fold_left_app, filter_app. simpl. rewrite filter_cons.
  rewrite lookup_insert, filter_nil. repeat case_decide; try done.
  - by rewrite (last_snoc r).
  - by rewrite app_nil_r.
Qed.

Lemma dedupIPs_fold nodes ips (seen : gset string) :
  NoDup ips → (∀ ip, ip ∈ seen ↔ ip ∈ ips) →
  let r := fold_left (λ '(ips, seen) node,
     if bool_decide (NodeIP node ∈ (seen : gset string)) then (ips, seen)
     else (ips ++ [NodeIP node], {[NodeIP node]} ∪ seen)) nodes (ips, seen) in
  NoDup r.1 ∧ ∀ ip, ip ∈ r.1 ↔ ip ∈ ips ∨ ip ∈ NodeIP <$> nodes.
Proof.
  revert ips seen. induction nodes as [|n nodes IH]; intros ips seen Hnd Hseen; simpl.
  - split; [done|]. intros ip. split; [auto|]. by intros [?|?%elem_of_nil].
  - destruct (bool_decide_reflect (NodeIP n ∈ seen)) as [Hin|Hin].
    + destruct (IH ips seen Hnd Hseen) as [H1 H2]. split; [done|].
      intros ip. rewrite H2, elem_of_cons. split; [tauto|].
      intros [?|[->|?]]; [tauto|left; by apply Hseen|tauto].
    + destruct (IH (ips ++ [NodeIP n]) ({[NodeIP n]} ∪ seen)) as [H1 H2].
      * apply NoDup_app. split_and!; [done| |apply NoDup_singleton].
        intros ip Hip ->%list_elem_of_singleton. by apply Hin, Hseen.
      * intros ip. rewrite elem_of_union, elem_of_singleton, elem_of_app,
          list_elem_of_singleton, Hseen. tauto.
      * split; [done|]. intros ip.
        rewrite H2, elem_of_app, list_elem_of_singleton, elem_of_cons. tauto.
Qed.

Lemma dedupIPs_spec nodes :
  NoDup (dedupIPs nodes) ∧ ∀ ip, ip ∈ dedupIPs nodes ↔ ip ∈ NodeIP <$> nodes.
Proof.
  destruct (dedupIPs_fold nodes [] ∅) as [H1 H2]; [constructor|set_solver|].
  split; [done|]. intros ip. rewrite (H2 ip). split; [|auto]. by intros [?%elem_of_nil|?].
Qed.

(** The reference splitting of a list into chunks of a hundred. *)
Fixpoint chunks (fuel : nat) (ips : list string) : list (list string) :=
  match ips, fuel with
  | [], _ | _, O => []
  | _, S fuel => take ipAPIBatchSize ips :: chunks fuel (drop ipAPIBatchSize ips)
  end.

Lemma chunks_spec fuel ips :
  (length ips ≤ fuel)%nat →
  concat (chunks fuel ips) = ips ∧
  Forall (λ c, 0 < length c ≤ ipAPIBatchSize)%nat (chunks fuel ips).
Proof.
  revert ips. induction fuel as [|fuel IH]; intros [|ip ips] Hlen;
    try (split; [done|constructor]); [simpl in Hlen; lia|].
  cbn [chunks].
  destruct (IH (drop ipAPIBatchSize (ip :: ips))) as [H1 H2].
  { rewrite length_drop. unfold ipAPIBatchSize. simpl in *. lia. }
  split.
  - cbn [concat]. by rewrite H1, take_drop.
  - constructor; [|done]. rewrite length_take. unfold ipAPIBatchSize. cbn [length]. lia.
Qed.

Section ClassifyTheorems.
Context {U : UnicodeTables}.
Context (post : list string → result (Z * result (list ipAPIRecord))).

(** All batches in order; the first error ends it. *)
Fixpoint fetchAll (batches : list (list string)) : result (list ipAPIRecord) :=
  match batches with
  | [] => Ok []
  | b :: bs => let? r := fetchIPAPIBatch post b in let? rs := fetchAll bs in Ok (r ++ rs)
  end.

Lemma fetchLoop_chunks fuel ips records :
  fetchLoop post fuel ips records =
  match fetchAll (chunks fuel ips) with Ok rs => Ok (records ++ rs) | Err e => Err e end.
Proof.
  revert ips records. induction fuel as [|fuel IH]; intros [|ip ips] records;
    try (simpl; by rewrite app_nil_r).
  cbn [fetchLoop chunks fetchAll].
  destruct (fetchIPAPIBatch _ _) as [b|e]; [|done]. rewrite IH.
  destruct (fetchAll _); [|done]. by rewrite (assoc_L app).
Qed.

(** Batching: the classifier asks about every distinct address of the nodes
    exactly once, in requests of one to a hundred addresses, and the answer is
    the concatenation of the answers, or the first error. *)
Theorem fetch_batches nodes :
  ∃ batches,
    fetchIPAPI post nodes = fetchAll batches ∧
    Forall (λ b, 0 < length b ≤ 100)%nat batches ∧
    NoDup (concat batches) ∧
    ∀ ip, ip ∈ concat batches ↔ ip ∈ NodeIP <$> nodes.
Proof.
  exists (chunks (length (dedupIPs nodes)) (dedupIPs nodes)).
  destruct (chunks_spec (length (dedupIPs nodes)) (dedupIPs nodes)) as [-> H2]; [done|].
  destruct (dedupIPs_spec nodes) as [H3 H4].
  split_and!; [|done..]. unfold fetchIPAPI. rewrite fetchLoop_chunks. by destruct (fetchAll _).
Qed.

(** The fields classification never touches. *)
Definition sameEndpoint (n m : VpnNode) : Prop :=
  ID n = ID m ∧ NodeIP n = NodeIP m ∧ RemoteHost n = RemoteHost m ∧
  RemotePort n = RemotePort m ∧ Protocol n = Protocol m ∧ Status n = Status m ∧
  LatencyMS n = LatencyMS m ∧ CooldownUntil n = CooldownUntil m ∧
  LastError n = LastError m ∧ OpenVPNConfig n = OpenVPNConfig m.

(** What a classified node owes to the record of its address. *)
Definition graded (r : ipAPIRecord) (n n' : VpnNode) : Prop :=
  let identity := identityOf r n in
  let denied := recProxy r = true ∨ recHosting r = true ∨ recMobile r = true ∨
                ∃ k, k ∈ denyKeywords ∧ contains identity k = true in
  let allowed := ∃ k, k ∈ allowKeywords ∧ contains identity k = true in
  (denied ∧ PurityGrade n' = PurityRejected ∧ PurityScore n' = 0%Z) ∨
  (¬ denied ∧ allowed ∧ PurityGrade n' = PurityStrictHome ∧ PurityScore n' = 90%Z) ∨
  (¬ denied ∧ ¬ allowed ∧ PurityGrade n' = PurityCandidate ∧ PurityScore n' = 40%Z).

Lemma isDenied_iff r identity :
  isDenied r identity = true ↔
  recProxy r = true ∨ recHosting r = true ∨ recMobile r = true ∨
  ∃ k, k ∈ denyKeywords ∧ contains identity k = true.
Proof. unfold isDenied. rewrite !orb_true_iff, containsAny_iff. tauto. Qed.

Lemma classifyNode_same byIP now n :
  sameEndpoint (classifyNode byIP now n) n ∧
  ∃ e, Evidence (classifyNode byIP now n) = Evidence n ++ [e].
Proof.
  unfold classifyNode. repeat case_goal; (split; [by repeat split|by eexists]).
Qed.

Lemma classifyFailed_same err now n :
  sameEndpoint (classifyFailed err now n) n ∧
  ∃ e, Evidence (classifyFailed err now n) = Evidence n ++ [e].
Proof. unfold classifyFailed. case_goal; (split; [by repeat split|by eexists]). Qed.

Lemma classifyNode_graded byIP now n r :
  byIP !! NodeIP n = Some r → recStatus r = "success" →
  graded r n (classifyNode byIP now n).
Proof.
  intros Hr Hs. unfold classifyNode. rewrite Hr, Hs, bool_decide_true by done. simpl.
  unfold graded. change (identityOf r _) with (identityOf r n).
  destruct (isDenied r (identityOf r n)) eqn:Ed; [left; by rewrite <-isDenied_iff|].
  destruct (containsAny (identityOf r n) allowKeywords) eqn:Ea; right; [left|right];
    rewrite <-isDenied_iff, <-containsAny_iff, Ed, Ea; split_and!; try done; congruence.
Qed.

(** The verdict: when ip-api answered, each node is graded by the last
    record for its address: rejected (score 0) on a proxy, hosting or mobile
    flag or a deny keyword, strict home (90) on an allow keyword and no reason
    to reject, candidate (40) otherwise; without a usable record it becomes a
    candidate. *)
Theorem classify_verdict now nodes records i n :
  fetchIPAPI post nodes = Ok records → nodes !! i = Some n →
  ∃ n', Classify post now nodes !! i = Some n' ∧
    match last (filter (λ r, recQuery r = NodeIP n) records) with
    | Some r => if bool_decide (recStatus r = "success") then graded r n n'
                else PurityGrade n' = PurityCandidate
    | None => PurityGrade n' = PurityCandidate
    end.
Proof.
  intros Hf Hi. unfold Classify. rewrite bool_decide_false by (by intros ->%nil_length_inv).
  rewrite Hf, list_lookup_fmap, Hi. simpl. eexists. split; [done|].
  rewrite <-indexByIP_lookup.
  destruct (indexByIP records !! NodeIP n) as [r|] eqn:Hr.
  - case_bool_decide as Hs; [by apply classifyNode_graded|].
    unfold classifyNode. rewrite Hr, bool_decide_false by done. done.
  - unfold classifyNode. by rewrite Hr.
Qed.

(** C30. Classification keeps the nodes: same number and order, endpoint,
    status, latency, cooldown and profile unchanged, one piece of evidence
    added; and a node is strict home afterwards only if it was before (when
    ip-api failed) or a successful record of its address says so. *)
Theorem classify_sound now nodes :
  Forall2 (λ n' n,
    sameEndpoint n' n ∧ (∃ e, Evidence n' = Evidence n ++ [e]) ∧
    (PurityGrade n' = PurityStrictHome →
       (∃ err, fetchIPAPI post nodes = Err err ∧ PurityGrade n = PurityStrictHome) ∨
       (∃ records r, fetchIPAPI post nodes = Ok records ∧ r ∈ records ∧ recQuery r = NodeIP n ∧
          recStatus r = "success" ∧ recProxy r = false ∧ recHosting r = false ∧
          recMobile r = false ∧
          (∀ k, k ∈ denyKeywords → contains (identityOf r n) k = false) ∧
          ∃ k, k ∈ allowKeywords ∧ contains (identityOf r n) k = true)))
    (Classify post now nodes) nodes.
Proof.
  unfold Classify. case_bool_decide as El; [by apply nil_length_inv in El as ->|].
  destruct (fetchIPAPI post nodes) as [records|err]; apply Forall2_fmap_l;
    apply Forall2_same_length_lookup; (split; [done|]);
    intros i n n2 Hi Hi2; assert (n2 = n) as -> by congruence.
  - destruct (classifyNode_same (indexByIP records) now n) as [H1 H2].
    split_and!; [done..|]. intros Hg. right. exists records.
    unfold classifyNode in Hg.
    destruct (indexByIP records !! NodeIP n) as [r|] eqn:Hr; [|done].
    case_bool_decide as Hs; [|done]. exists r.
    pose proof (classifyNode_graded _ now n r Hr Hs) as Hgr.
    unfold graded, classifyNode in Hgr. rewrite Hr, bool_decide_true in Hgr by done.
    rewrite indexByIP_lookup in Hr. apply last_Some_elem_of, list_elem_of_filter in Hr as [Hq Hin].
    cbn in Hgr, Hg.
    destruct Hgr as [(_ & Hx & _)|[(Hnd & Ha & _)|(_ & _ & Hx & _)]]; [congruence| |congruence].
    rewrite <-isDenied_iff in Hnd. apply not_true_iff_false in Hnd.
    unfold isDenied in Hnd. bools. split_and!; [done..| |done].
    intros k Hk. apply not_true_iff_false. intros Hc.
    assert (containsAny (identityOf r n) denyKeywords = true) by (apply containsAny_iff; eauto).
    congruence.
  - destruct (classifyFailed_same err now n) as [H1 H2]. split_and!; [done..|].
    intros Hg. left. exists err. split; [done|].
    unfold classifyFailed in Hg. case_bool_decide; [done|]. exact Hg.
Qed.
End ClassifyTheorems.

(** ** A concrete run: the repository's own test input *)

Definition comcast : ipAPIRecord :=
  mkRecord "success" "" "8.8.8.8" "United States" "US" "" "Comcast Cable" "Comcast Cable"
    "AS7922 Comcast Cable" "COMCAST" false false false.

Definition comcastPost (_ : list string) : result (Z * result (list ipAPIRecord)) :=
  Ok (200%Z, Ok [comcast]).

Definition homeNode : VpnNode :=
  setPurityGrade PurityCandidate (setNodeIP "8.8.8.8" (setID "n1" zeroNode)).

Lemma classify_verdict_witness :
  fetchIPAPI comcastPost [homeNode] = Ok [comcast] ∧
  ∃ n', Classify (U := asciiTables) comcastPost 0 [homeNode] !! 0%nat = Some n' ∧
        PurityGrade n' = PurityStrictHome.
Proof.
  assert (fetchIPAPI comcastPost [homeNode] = Ok [comcast]) as Hf by (vm_compute; reflexivity).
  split; [exact Hf|].
  destruct (classify_verdict (U := asciiTables) comcastPost 0 [homeNode] [comcast] 0 homeNode Hf
    eq_refl) as (n' & Hn' & _).
  exists n'. split; [exact Hn'|].
  assert (Classify (U := asciiTables) comcastPost 0 [homeNode] !! 0%nat = Some n') as H by exact Hn'.
  vm_compute in H. injection H as <-. reflexivity.
Defined.
