(* ===== verification/OvpnConfig.v ===== *)
(** * [internal/tunnel/ovpn_config.go]: sanitizing VPNGate profiles

    VPNGate profiles are untrusted.  [SanitizeOpenVPNConfig] removes directives
    that run programs and directives the gateway sets itself, with their inline
    blocks and continuation lines; [RenderOpenVPNConfig] appends the gateway's
    own directives. *)

From S2P Require Import Prelude GoStrings GoNet.

Definition executionDirectives : list string :=
  ["auth-user-pass-verify"; "client-connect"; "client-disconnect"; "down"; "engine";
   "ipchange"; "iproute"; "learn-address"; "plugin"; "providers"; "pkcs11-providers";
   "route-pre-down"; "route-up"; "script-security"; "tls-crypt-v2-verify"; "tls-verify"; "up"].

Definition replacedDirectives : list string :=
  ["auth-user-pass"; "block-outside-dns"; "http-proxy"; "http-proxy-retry";
   "http-proxy-user-pass"; "management"; "management-client"; "management-client-auth";
   "management-client-group"; "management-client-pf"; "management-client-user";
   "management-external-cert"; "management-external-key"; "management-hold";
   "management-log-cache"; "management-query-passwords"; "management-signal";
   "management-up-down"; "socks-proxy"; "socks-proxy-retry"; "register-dns"].

Record RenderOpenVPNOptions := mkRenderOptions {
  AuthPath : string;
  UseProxy : bool;
  ProxyHost : string;
  ProxyPort : Z;
  BypassIPs : list string;
  GOOS : string
}.

Definition normalizeNewlines (s : string) : string :=
  replaceAll (replaceAll s (cr +:+ nl) nl) cr nl.

(** [strings.TrimRight(line, " \t")]. *)
Definition blanks : string := " " +:+ tab.
Definition trimTail (line : string) : string := trimRightSet line blanks.
Definition endsBackslash (line : string) : bool := hasSuffix (trimTail line) "\".

Section Sanitize.
Context {U : UnicodeTables}.

Definition directiveName (line : string) : string :=
  if bool_decide (line = "") || hasPrefix line "#" || hasPrefix line ";" || hasPrefix line "<"
  then ""
  else match fields line with
       | [] => ""
       | f :: _ => trimPrefix (toLower f) "--"
       end.

(** The name of the inline block [line] opens, if it is one to be dropped. *)
Definition opensSkippedBlock (lower : string) : option string :=
  if hasPrefix lower "<" && hasSuffix lower ">" && negb (hasPrefix lower "</") then
    match fields (trimSet lower "<>") with
    | b :: _ => if bool_decide (b = "auth-user-pass") || bool_decide (b = "http-proxy-user-pass")
                then Some b else None
    | [] => None
    end
  else None.

(** The loop's variables: [skippedBlock], [skipContinuation], [lines]. *)
Record sanState := mkSan { skippedBlock : string; skipContinuation : bool; kept : list string }.

(** One iteration. *)
Definition sanStep (st : sanState) (rawLine : string) : sanState :=
  let stripped := trimSpace rawLine in
  let lower := toLower stripped in
  if negb (bool_decide (skippedBlock st = "")) then
    if bool_decide (lower = "</" +:+ skippedBlock st +:+ ">")
    then mkSan "" (skipContinuation st) (kept st) else st
  else match opensSkippedBlock lower with
  | Some block => mkSan block (skipContinuation st) (kept st)
  | None =>
      if skipContinuation st then mkSan "" (endsBackslash rawLine) (kept st)
      else
        let name := directiveName stripped in
        if bool_decide (name ∈ executionDirectives) then mkSan "" (endsBackslash rawLine) (kept st)
        else if bool_decide (name ∈ replacedDirectives) then mkSan "" (endsBackslash rawLine) (kept st)
        else mkSan "" false (kept st ++ [trimTail rawLine])
  end.

Definition isBlank (line : string) : bool := bool_decide (trimSpace line = "").

(** The loop that removes blank lines at the end. *)
Fixpoint dropBlankHead (l : list string) : list string :=
  match l with [] => [] | s :: l' => if isBlank s then dropBlankHead l' else l end.
Definition dropBlankTail (l : list string) : list string := reverse (dropBlankHead (reverse l)).

Definition isContent (line : string) : bool :=
  let trimmed := trimSpace line in
  negb (bool_decide (trimmed = "")) && negb (hasPrefix trimmed "#") && negb (hasPrefix trimmed ";").

Definition SanitizeOpenVPNConfig (configText : string) : result string :=
  let normalized := normalizeNewlines configText in
  let lines := kept (fold_left sanStep (splitLines normalized) (mkSan "" false [])) in
  let lines := dropBlankTail lines in
  if existsb isContent lines then Ok (join nl lines +:+ nl)
  else Err "OpenVPN config is empty after sanitization".

(** ** Rendering *)

Context (runtimeGOOS : string).

(** [filepath.ToSlash]: the separator is a backslash on Windows only. *)
Definition toSlash (path : string) : string :=
  if bool_decide (runtimeGOOS = "windows") then replaceAll path "\" "/" else path.
Definition openvpnPath (path : string) : string :=
  replaceAll (toSlash path) dquote ("\" +:+ dquote).

Fixpoint bypassLines (raws : list string) (lines : list string) : result (list string) :=
  match raws with
  | [] => Ok lines
  | raw :: rest =>
      match parseIP (trimSpace raw) with
      | None => Err ("bypass IP must be public: " +:+ raw)
      | Some ip =>
          if negb (isGlobalUnicast ip) || isPrivate ip || isLoopback ip
          then Err ("bypass IP must be public: " +:+ raw)
          else match to4 ip with
          | Some _ => bypassLines rest
                        (lines ++ ["route " +:+ ipString ip +:+ " 255.255.255.255 net_gateway"])
          | None => bypassLines rest (lines ++ ["route-ipv6 " +:+ ipString ip +:+ "/128 net_gateway"])
          end
      end
  end.

Definition proxyLines (options : RenderOpenVPNOptions) : result (list string) :=
  if UseProxy options then
    match parseIP (ProxyHost options) with
    | None => Err "proxy host must be a loopback IP"
    | Some proxyIP =>
        if negb (isLoopback proxyIP) then Err "proxy host must be a loopback IP"
        else if (ProxyPort options <? 1)%Z || (65535 <? ProxyPort options)%Z
        then Err "proxy port must be between 1 and 65535"
        else Ok [""; "# Optional local proxy relay";
                 "socks-proxy " +:+ ipString proxyIP +:+ " " +:+ itoa (ProxyPort options);
                 "socks-proxy-retry"]
    end
  else Ok [].

Definition RenderOpenVPNConfig (configText : string) (options : RenderOpenVPNOptions) : result string :=
  let? cleaned := SanitizeOpenVPNConfig configText in
  fail_if bool_decide (AuthPath options = "") with Err "auth path is required" ;;
  let goos := if bool_decide (GOOS options = "") then runtimeGOOS else GOOS options in
  let lines := [""; "# Managed by Residential IP Manager";
                "auth-user-pass " +:+ dquote +:+ openvpnPath (AuthPath options) +:+ dquote;
                "auth-nocache"] in
  let? proxy := proxyLines options in
  let lines := lines ++ proxy in
  let lines := if bool_decide (goos = "windows")
               then lines ++ [""; "# Windows DNS leak protection"; "block-outside-dns"; "register-dns"]
               else lines in
  let? lines := bypassLines (BypassIPs options) lines in
  Ok (cleaned +:+ join nl lines +:+ nl).
End Sanitize.

(** ** What survives *)

Lemma trimSpace_blanks l d :
  Forall (λ c, c ∈ s2l blanks) d → trimSpace (l2s (l ++ d)) = trimSpace (l2s l).
Proof.
  induction d as [|x d IH] using rev_ind; intros Hb; [by rewrite app_nil_r|].
  apply Forall_app in Hb as [Hb Hx]. inversion_clear Hx as [|? ? Hx' _].
  rewrite (assoc_L app), trimSpace_blank_tail by done. by apply IH.
Qed.

Lemma trimSpace_trimTail line : trimSpace (trimTail line) = trimSpace line.
Proof.
  destruct (trimRightSet_split line blanks) as (d & Hd & Hb).
  rewrite <-(l2s_s2l (trimTail line)), <-(trimSpace_blanks _ d Hb).
  unfold trimTail. by rewrite <-Hd, l2s_s2l.
Qed.

Lemma dropBlankHead_split l : ∃ d, l = d ++ dropBlankHead l ∧ Forall (λ s, isBlank s = true) d.
Proof.
  induction l as [|s l (d & Hd & Hb)]; [by exists []|]. simpl.
  destruct (isBlank s) eqn:E; [|by exists []].
  exists (s :: d). split; [by rewrite Hd at 1|by constructor].
Qed.

Lemma dropBlankTail_split l :
  ∃ d, l = dropBlankTail l ++ d ∧ Forall (λ s, isBlank s = true) d.
Proof.
  unfold dropBlankTail. destruct (dropBlankHead_split (reverse l)) as (d & Hd & Hb).
  exists (reverse d). split; [|by apply Forall_reverse].
  by rewrite <-reverse_app, <-Hd, reverse_involutive.
Qed.

Lemma dropBlankTail_snoc l s : isBlank s = true → dropBlankTail (l ++ [s]) = dropBlankTail l.
Proof. intros H. unfold dropBlankTail. rewrite reverse_app. simpl. by rewrite H. Qed.

Lemma dropBlankTail_idemp l : dropBlankTail (dropBlankTail l) = dropBlankTail l.
Proof.
  unfold dropBlankTail. rewrite reverse_involutive. f_equal.
  induction (reverse l) as [|s l' IH]; simpl; [done|].
  destruct (isBlank s) eqn:E; simpl; [done|by rewrite E].
Qed.

Lemma normalizeNewlines_lacks s : lacks (byte_of 13) (normalizeNewlines s).
Proof.
  unfold normalizeNewlines, replaceAll, lacks. rewrite s2l_l2s.
  apply replaceb_removes. intros H%list_elem_of_singleton. discriminate H.
Qed.

Lemma normalizeNewlines_id s : lacks (byte_of 13) s → normalizeNewlines s = s.
Proof.
  intros H. unfold normalizeNewlines, replaceAll. rewrite s2l_app, !s2l_l2s.
  change (s2l cr) with [byte_of 13]. cbn [app].
  rewrite (replaceb_absent (byte_of 13) (s2l nl)) by done.
  rewrite (replaceb_absent (byte_of 13) []) by done. apply l2s_s2l.
Qed.

Section SanitizeTheorems.
Context {U : UnicodeTables}.

(** A line the sanitizer leaves alone. *)
Record clean (line : string) : Prop := {
  clean_exec : directiveName (trimSpace line) ∉ executionDirectives;
  clean_replaced : directiveName (trimSpace line) ∉ replacedDirectives;
  clean_block : opensSkippedBlock (toLower (trimSpace line)) = None
}.

Lemma clean_trimTail line : clean line → clean (trimTail line).
Proof. intros [H1 H2 H3]. by split; rewrite trimSpace_trimTail. Qed.

Lemma clean_empty : clean "".
Proof. split; [..|reflexivity]; apply (bool_decide_unpack _); reflexivity. Qed.

Lemma sanStep_clean k line :
  clean line → sanStep (mkSan "" false k) line = mkSan "" false (k ++ [trimTail line]).
Proof.
  intros [H1 H2 H3]. unfold sanStep. simpl. rewrite H3.
  by rewrite !bool_decide_false.
Qed.

(** Each step keeps the line, trimmed, when it is clean, or drops it. *)
Lemma sanStep_kept st line :
  kept (sanStep st line) = kept st ∨
  (kept (sanStep st line) = kept st ++ [trimTail line] ∧ clean line).
Proof.
  unfold sanStep. repeat case_goal; simpl; auto.
  right. bools. split; [done|]. by split.
Qed.

Lemma sanFold_kept lines st :
  ∃ ks, kept (fold_left sanStep lines st) = kept st ++ ks ∧
    ks `sublist_of` (trimTail <$> lines) ∧ Forall clean ks.
Proof.
  revert st. induction lines as [|line lines IH]; intros st; simpl.
  - exists []. rewrite app_nil_r. split_and!; [done|constructor|constructor].
  - destruct (IH (sanStep st line)) as (ks & Hk & Hsub & Hc). rewrite Hk.
    destruct (sanStep_kept st line) as [-> | [-> Hcl]].
    + exists ks. split_and!; [done|by apply sublist_cons|done].
    + exists (trimTail line :: ks). split_and!.
      * by rewrite <-(assoc_L app).
      * by apply sublist_skip.
      * constructor; [by apply clean_trimTail|done].
Qed.

Lemma sanFold_clean lines k :
  Forall clean lines →
  kept (fold_left sanStep lines (mkSan "" false k)) = k ++ (trimTail <$> lines).
Proof.
  intros H. revert k. induction H as [|line lines Hl Hls IH]; intros k; simpl.
  - by rewrite app_nil_r.
  - rewrite sanStep_clean, IH by done. by rewrite <-(assoc_L app).
Qed.

(** The lines of the output of a successful run. *)
Lemma sanitize_lines text out :
  SanitizeOpenVPNConfig text = Ok out →
  ∃ lines, out = join nl lines +:+ nl ∧
    lines `sublist_of` (trimTail <$> splitLines (normalizeNewlines text)) ∧
    Forall clean lines ∧ dropBlankTail lines = lines ∧ existsb isContent lines = true.
Proof.
  unfold SanitizeOpenVPNConfig.
  destruct (sanFold_kept (splitLines (normalizeNewlines text)) (mkSan "" false []))
    as (ks & -> & Hsub & Hc). simpl.
  destruct (existsb isContent (dropBlankTail ks)) eqn:E; [|done]. intros [= <-].
  exists (dropBlankTail ks).
  destruct (dropBlankTail_split ks) as (d & Hd & _). rewrite Hd in Hsub, Hc.
  apply Forall_app in Hc as [Hc _].
  split_and!; [done| |done|by apply dropBlankTail_idemp|done].
  etrans; [|exact Hsub]. by apply sublist_inserts_r.
Qed.

Lemma lines_lack c text lines :
  lacks c (normalizeNewlines text) ∨ c = byte_of 10 →
  lines `sublist_of` (trimTail <$> splitLines (normalizeNewlines text)) →
  Forall (lacks c) lines.
Proof.
  intros Hc Hsub. apply Forall_forall. intros line Hl.
  apply (sublist_subseteq _ _ Hsub) in Hl.
  apply list_elem_of_fmap in Hl as (raw & -> & Hraw).
  apply trimRightSet_lacks. destruct Hc as [Hc| ->]; [|by eapply splitLines_lacks].
  unfold lacks in *. intros Hin. apply Hc. by eapply splitLines_elem.
Qed.

Lemma sanitize_split text out lines :
  out = join nl lines +:+ nl →
  lines `sublist_of` (trimTail <$> splitLines (normalizeNewlines text)) →
  existsb isContent lines = true → splitLines out = lines ++ [""].
Proof.
  intros -> Hsub Hne.
  assert (join nl lines +:+ nl = join nl lines +:+ nl +:+ "") as -> by done.
  rewrite splitLines_join by (eapply lines_lack; eauto). by destruct lines.
Qed.


(** Sanitizing is idempotent: a sanitized profile is a fixed point. *)
Theorem sanitize_idempotent text out :
  SanitizeOpenVPNConfig text = Ok out → SanitizeOpenVPNConfig out = Ok out.
Proof.
  intros (lines & Hout & Hsub & Hc & Hdrop & Hne)%sanitize_lines.
  pose proof (sanitize_split text out lines Hout Hsub Hne) as Hsplit.
  assert (normalizeNewlines out = out) as Hnorm.
  { apply normalizeNewlines_id. unfold lacks. intros Hin.
    assert (Forall (lacks (byte_of 13)) (lines ++ [""])) as Hl.
    { apply Forall_app; split; [|repeat constructor; apply not_elem_of_nil].
      eapply lines_lack; [|done]. left. apply normalizeNewlines_lacks. }
    rewrite <-Hsplit in Hl. discriminate (splitLines_lacks_all _ _ Hl Hin). }
  unfold SanitizeOpenVPNConfig. rewrite Hnorm, Hsplit.
  rewrite sanFold_clean by (apply Forall_app; split; [done|repeat constructor; apply clean_empty]).
  assert (trimTail <$> lines ++ [""] = lines ++ [""]) as ->.
  { rewrite fmap_app. f_equal. clear -Hsub. 
    rewrite <-(list_fmap_id lines) at 2. apply list_fmap_ext. intros i line Hi.
    apply list_elem_of_lookup_2, (sublist_subseteq _ _ Hsub), list_elem_of_fmap in Hi
      as (raw & -> & _). apply trimRightSet_idemp. }
  simpl. rewrite dropBlankTail_snoc by done. by rewrite Hdrop, Hne, <-Hout.
Qed.

(** Transparency: a profile none of whose lines is a forbidden directive or
    opens a credential block loses nothing but trailing blanks on its lines and
    blank lines at its end; it is refused only when it has no content at all. *)
Theorem sanitize_transparent text :
  Forall clean (splitLines (normalizeNewlines text)) →
  let lines := dropBlankTail (trimTail <$> splitLines (normalizeNewlines text)) in
  SanitizeOpenVPNConfig text =
    if existsb isContent lines then Ok (join nl lines +:+ nl)
    else Err "OpenVPN config is empty after sanitization".
Proof. intros H. unfold SanitizeOpenVPNConfig. by rewrite sanFold_clean. Qed.

(** ** Rendering *)

Lemma bypassLines_public raws lines lines' :
  bypassLines raws lines = Ok lines' →
  (∃ more, lines' = lines ++ more ∧ length more = length raws) ∧
  Forall (λ raw, ∃ ip, parseIP (trimSpace raw) = Some ip ∧ publicIP ip = true) raws.
Proof.
  revert lines. induction raws as [|raw raws IH]; intros lines; simpl.
  - intros [= <-]. split; [exists []; by rewrite app_nil_r|constructor].
  - destruct (parseIP (trimSpace raw)) as [ip|] eqn:Ep; [|done].
    destruct (negb (isGlobalUnicast ip) || isPrivate ip || isLoopback ip) eqn:E; [done|].
    assert (publicIP ip = true) as Hpub.
    { unfold publicIP. bools. by rewrite H, H1, H0. }
    destruct (to4 ip); intros [(more & -> & Hlen) Hall]%IH;
      (split; [|constructor; eauto]); rewrite <-(assoc_L app); eexists; (split; [done|]); simpl; lia.
Qed.

(** Rendering starts from the sanitized profile, needs an auth path, lets
    only a loopback proxy on a valid port and only public bypass addresses
    through, and appends one route line per bypass address. *)
Theorem render_checked runtimeGOOS text options out :
  RenderOpenVPNConfig runtimeGOOS text options = Ok out →
  ∃ cleaned lines, SanitizeOpenVPNConfig text = Ok cleaned ∧
    out = cleaned +:+ join nl lines +:+ nl ∧
    AuthPath options ≠ "" ∧
    ("auth-user-pass " +:+ dquote +:+ openvpnPath runtimeGOOS (AuthPath options) +:+ dquote) ∈ lines ∧
    (UseProxy options = true →
       (1 ≤ ProxyPort options ≤ 65535)%Z ∧
       ∃ ip, parseIP (ProxyHost options) = Some ip ∧ isLoopback ip = true ∧
         ("socks-proxy " +:+ ipString ip +:+ " " +:+ itoa (ProxyPort options)) ∈ lines) ∧
    Forall (λ raw, ∃ ip, parseIP (trimSpace raw) = Some ip ∧ publicIP ip = true) (BypassIPs options).
Proof.
  unfold RenderOpenVPNConfig. intros H.
  destruct (SanitizeOpenVPNConfig text) as [cleaned|] eqn:Es; [|done].
  case_bool_decide as Ea; [done|].
  destruct (proxyLines options) as [proxy|] eqn:Ep; [|done].
  destruct (bypassLines _ _) as [lines|] eqn:Eb; [|done]. simplify_eq.
  apply bypassLines_public in Eb as [(more & -> & _) Hall].
  eexists cleaned, _. split_and!; [done..| | |done].
  - apply elem_of_app. left. case_bool_decide; rewrite ?elem_of_app; set_solver.
  - intros Hp. unfold proxyLines in Ep. rewrite Hp in Ep.
    destruct (parseIP (ProxyHost options)) as [ip|]; [|done].
    destruct (isLoopback ip) eqn:El; [|done]. simpl in Ep.
    destruct (_ || _) eqn:E; [done|]. simplify_eq. bools.
    split; [lia|]. exists ip. split_and!; [done..|].
    apply elem_of_app. left. case_bool_decide; rewrite ?elem_of_app; set_solver.
Qed.
End SanitizeTheorems.

(** ** A hostile profile *)

Definition hostile : string :=
  join nl ["client"; "  --UP /bin/sh \"; "still the up line"; "remote 1.2.3.4 443  ";
           "<auth-user-pass>"; "user"; "</AUTH-USER-PASS>"; "proto tcp"; "  "].
Definition hostileClean : string := join nl ["client"; "remote 1.2.3.4 443"; "proto tcp"] +:+ nl.


Lemma sanitize_idempotent_witness :
  SanitizeOpenVPNConfig (U := asciiTables) hostileClean = Ok hostileClean.
Proof.
  apply (sanitize_idempotent (U := asciiTables) hostile). vm_compute. reflexivity.
Defined.

Lemma sanitize_transparent_witness :
  SanitizeOpenVPNConfig (U := asciiTables) ("client" +:+ nl) = Ok ("client" +:+ nl).
Proof.
  etransitivity; [apply (sanitize_transparent (U := asciiTables) ("client" +:+ nl))|].
  - repeat constructor; first [vm_compute; reflexivity | apply (bool_decide_unpack _); vm_compute; exact I].
  - vm_compute. reflexivity.
Defined.

Lemma render_checked_witness :
  ∃ out, RenderOpenVPNConfig (U := asciiTables) "linux" hostile
    (mkRenderOptions "/run/auth.txt" true "127.0.0.1" 1080 ["203.0.113.9"] "linux") = Ok out ∧
  ∃ cleaned lines, out = cleaned +:+ join nl lines +:+ nl.
Proof.
  eexists. split; [vm_compute; reflexivity|].
  destruct (render_checked (U := asciiTables) "linux" hostile
    (mkRenderOptions "/run/auth.txt" true "127.0.0.1" 1080 ["203.0.113.9"] "linux") _
    ltac:(vm_compute; reflexivity)) as (c & l & _ & Ho & _).
  exists c, l. exact Ho.
Defined.
