(* ===== verification/Verify.v ===== *)
(** * [internal/verify]: verification of the public exit

    [ExitVerifier.Verify] asks ip-api, through the tunnel, where the traffic
    comes out, and [compare] checks the answer against the node.  The HTTP
    exchange is the parameter [get]: a transport error, or the status code and
    the decoded body. *)

From S2P Require Import Prelude GoStrings Domain.

(** ** The pattern [(?i)\bAS\s*(\d+)\b] *)

Definition isDigit (c : ascii) : bool := bool_decide (48 ≤ code c ≤ 57)%N.
Definition isWord (c : ascii) : bool :=
  isDigit c || bool_decide (65 ≤ code c ≤ 90)%N || bool_decide (97 ≤ code c ≤ 122)%N
  || bool_decide (code c = 95)%N.
(** [\s] of RE2: no vertical tab. *)
Definition isReSpace (c : ascii) : bool :=
  bool_decide (code c = 9)%N || bool_decide (code c = 10)%N || bool_decide (code c = 12)%N
  || bool_decide (code c = 13)%N || bool_decide (code c = 32)%N.

Fixpoint spanDigits (l : bytes) : bytes * bytes :=
  match l with
  | c :: l' => if isDigit c then let '(d, r) := spanDigits l' in (c :: d, r) else ([], l)
  | [] => ([], [])
  end.

(** After the letters: spaces, digits, then no word character.  Both
    repetitions are greedy, and giving a digit back would leave the word
    boundary between two digits, so no backtracking can succeed. *)
Definition asnTail (l : bytes) : option bytes :=
  let '(d, r) := spanDigits (dropWhileb isReSpace l) in
  match d, r with
  | [], _ => None
  | _, c :: _ => if isWord c then None else Some d
  | _, [] => Some d
  end.

(** A match at the head of [l]: case folding also takes U+017F for [S]. *)
Definition asnAt (l : bytes) : option bytes :=
  match l with
  | a :: l1 =>
      if bool_decide (code a = 65)%N || bool_decide (code a = 97)%N then
        match l1 with
        | s :: l2 =>
            if bool_decide (code s = 83)%N || bool_decide (code s = 115)%N then asnTail l2
            else match l2 with
            | s' :: l3 => if bool_decide (code s = 197)%N && bool_decide (code s' = 191)%N
                          then asnTail l3 else None
            | [] => None
            end
        | [] => None
        end
      else None
  | [] => None
  end.

(** The leftmost match; [inWord]: the byte before is a word character. *)
Fixpoint asnFind (inWord : bool) (l : bytes) : option bytes :=
  match (if inWord then None else asnAt l) with
  | Some d => Some d
  | None => match l with [] => None | c :: l' => asnFind (isWord c) l' end
  end.

Definition asnNumber (value : string) : string :=
  match asnFind false (s2l value) with Some d => l2s d | None => "" end.

(** ** Comparing *)

Record Result := mkResult {
  resPassed : bool;
  resExitIP : string;
  resCountry : string;
  resCountryCode : string;
  resISP : string;
  resASN : string;
  resProxy : bool;
  resHosting : bool;
  resMobile : bool;
  resMessage : string
}.

Definition zeroResult : Result := mkResult false "" "" "" "" "" false false false "".

Record ipAPIResponse := mkResponse {
  rspStatus : string;
  rspMessage : string;
  rspQuery : string;
  rspCountry : string;
  rspCountryCode : string;
  rspISP : string;
  rspAS : string;
  rspASName : string;
  rspProxy : bool;
  rspHosting : bool;
  rspMobile : bool
}.

Section Verifier.
Context {U : UnicodeTables}.

(** The reasons [compare] collects, in order. *)
Definition flagReason (r : Result) : list string :=
  if resProxy r || resHosting r || resMobile r
  then ["出口情报包含代理/托管/移动标记 proxy=" +:+ fmtBool (resProxy r) +:+ " hosting="
        +:+ fmtBool (resHosting r) +:+ " mobile=" +:+ fmtBool (resMobile r)]
  else [].
Definition countryReason (node : VpnNode) (r : Result) : list string :=
  if negb (bool_decide (CountryCode node = "")) && negb (bool_decide (resCountryCode r = ""))
     && negb (equalFold (CountryCode node) (resCountryCode r))
  then ["国家不匹配：节点 " +:+ CountryCode node +:+ "，出口 " +:+ resCountryCode r]
  else [].
Definition asnReason (node : VpnNode) (r : Result) : list string :=
  let nodeASN := asnNumber (ASN node) in
  let exitASN := asnNumber (resASN r) in
  if negb (bool_decide (nodeASN = "")) && negb (bool_decide (exitASN = ""))
     && negb (bool_decide (nodeASN = exitASN))
  then ["ASN 不匹配：节点 AS" +:+ nodeASN +:+ "，出口 AS" +:+ exitASN]
  else [].

Definition compare (node : VpnNode) (r : Result) : bool * string :=
  let reasons := flagReason r ++ countryReason node r ++ asnReason node r in
  if bool_decide (0 < length reasons)%nat then (false, join "；" reasons)
  else (true, "出口 IP、国家和 ASN 复核通过").

Definition defaultVerifyURL : string :=
  "http://ip-api.com/json/?fields=status,message,query,country,countryCode,isp,as,asname,proxy,hosting,mobile".

Context (get : string → result (Z * result ipAPIResponse)).

Definition Verify (apiURL : string) (node : VpnNode) : result Result :=
  let apiURL := if bool_decide (apiURL = "") then defaultVerifyURL else apiURL in
  let? (status, body) := get apiURL in
  fail_if (status <? 200)%Z || (300 <=? status)%Z
    with Err ("exit verifier returned HTTP " +:+ itoa status) ;;
  let? payload := body in
  fail_if negb (bool_decide (rspStatus payload = "success"))
    with Err ("exit verifier failed: " +:+ rspMessage payload) ;;
  let r := mkResult false (rspQuery payload) (rspCountry payload)
             (toUpper (rspCountryCode payload)) (rspISP payload) (rspAS payload)
             (rspProxy payload) (rspHosting payload) (rspMobile payload) "" in
  let '(passed, message) := compare node r in
  Ok (mkResult passed (resExitIP r) (resCountry r) (resCountryCode r) (resISP r) (resASN r)
        (resProxy r) (resHosting r) (resMobile r) message).
End Verifier.

#[global] Arguments asnNumber : simpl never.

(** ** Theorems *)

Lemma spanDigits_spec l d r :
  spanDigits l = (d, r) →
  l = d ++ r ∧ Forall (λ c, isDigit c = true) d ∧ (∀ c r', r = c :: r' → isDigit c = false).
Proof.
  revert d r. induction l as [|c l IH]; intros d r; simpl.
  - intros [= <- <-]. split_and!; [done|constructor|done].
  - destruct (isDigit c) eqn:E.
    + destruct (spanDigits l) as [d' r']. intros [= <- <-].
      destruct (IH d' r' eq_refl) as (-> & Hd & Hr). split_and!; [done|by constructor|done].
    + intros [= <- <-]. split_and!; [done|constructor|]. by intros c' r' [= <- <-].
Qed.

Lemma spanDigits_app d r :
  Forall (λ c, isDigit c = true) d → (∀ c r', r = c :: r' → isDigit c = false) →
  spanDigits (d ++ r) = (d, r).
Proof.
  intros Hd Hr. induction Hd as [|c d Hc Hd IH]; simpl.
  - destruct r as [|c r]; [done|]. simpl. by rewrite (Hr c r).
  - by rewrite Hc, IH.
Qed.

(** Digits that end at a word boundary, after optional spaces. *)
Definition asnDigits (d r : bytes) : Prop :=
  d ≠ [] ∧ Forall (λ c, isDigit c = true) d ∧ (∀ c r', r = c :: r' → isWord c = false).

Lemma asnTail_sound l d :
  asnTail l = Some d → ∃ sp r, l = sp ++ d ++ r ∧ Forall (λ c, isReSpace c = true) sp ∧ asnDigits d r.
Proof.
  unfold asnTail. destruct (dropWhileb_split isReSpace l) as (sp & Hsp & Hs).
  destruct (spanDigits (dropWhileb isReSpace l)) as [d' r] eqn:E.
  apply spanDigits_spec in E as (Hl & Hd & Hr). rewrite Hl in Hsp.
  destruct d' as [|x d']; [done|]. intros H. exists sp, r.
  destruct r as [|c r].
  - simplify_eq. split_and!; [done..|]. by split_and!.
  - destruct (isWord c) eqn:Ew; [done|]. simplify_eq.
    split_and!; [done..|]. split_and!; [done..|]. by intros c' r' [= <- <-].
Qed.

Lemma asnFind_sound w l d :
  asnFind w l = Some d →
  ∃ pre s sp r, l = pre ++ s ++ sp ++ d ++ r ∧
    (s2l "AS" = s ∨ s2l "As" = s ∨ s2l "aS" = s ∨ s2l "as" = s ∨ length s = 3%nat) ∧
    Forall (λ c, isReSpace c = true) sp ∧ asnDigits d r.
Proof.
  revert w. induction l as [|c l IH]; intros w; cbn [asnFind].
  - by destruct w.
  - destruct (if w then None else asnAt (c :: l)) as [d'|] eqn:E.
    + intros [= <-]. destruct w; [done|]. exists []. unfold asnAt in E.
      destruct (bool_decide (code c = 65)%N || bool_decide (code c = 97)%N) eqn:Ea; [|done].
      destruct l as [|x l2]; [done|].
      destruct (bool_decide (code x = 83)%N || bool_decide (code x = 115)%N) eqn:Es.
      * apply asnTail_sound in E as (sp & r & -> & Hsp & Hd).
        exists [c; x], sp, r. split_and!; [done| |done..].
        assert (∀ y n, code y = n → y = byte_of n) as Hcode.
        { intros y n <-. symmetry. apply Ascii.ascii_N_embedding. }
        apply orb_true_iff in Ea as [Ea|Ea], Es as [Es|Es]; bools;
          apply Hcode in Ea, Es; subst; auto.
      * destruct l2 as [|y l3]; [done|]. case_hyp E; [|done].
        apply asnTail_sound in E as (sp & r & -> & Hsp & Hd).
        exists [c; x; y], sp, r. split_and!; [done| |done..]. by repeat right.
    + intros (pre & s & sp & r & -> & H)%IH. exists (c :: pre), s, sp, r. done.
Qed.

Lemma isDigit_not_space c : isDigit c = true → isReSpace c = false.
Proof. unfold isDigit, isReSpace. intros H. bools. by rewrite !bool_decide_false by lia. Qed.

(** AS numbers: what [asnNumber] returns is, when not empty, a run of digits
    that ends at a word boundary and follows the letters AS in any case (U+017F
    counts as an s) and optional spaces; and on the announcements ip-api sends,
    [AS<digits>] alone or followed by a name, it returns exactly the digits. *)
Theorem asn_number_spec :
  (∀ value, asnNumber value ≠ "" →
     ∃ pre s sp d r, s2l value = pre ++ s ++ sp ++ d ++ r ∧ asnNumber value = l2s d ∧
       (s2l "AS" = s ∨ s2l "As" = s ∨ s2l "aS" = s ∨ s2l "as" = s ∨ length s = 3%nat) ∧
       Forall (λ c, isReSpace c = true) sp ∧ asnDigits d r) ∧
  (∀ d name, d ≠ [] → Forall (λ c, isDigit c = true) d →
     asnNumber ("AS" +:+ l2s d) = l2s d ∧
     asnNumber ("AS" +:+ l2s d +:+ " " +:+ name) = l2s d).
Proof.
  split.
  - intros value. unfold asnNumber. destruct (asnFind false (s2l value)) as [d|] eqn:E; [|done].
    intros _. apply asnFind_sound in E as (pre & s & sp & r & H). exists pre, s, sp, d, r. tauto.
  - intros d name Hne Hd.
    assert (∀ r, (∀ c r', r = c :: r' → isWord c = false) →
      asnFind false (byte_of 65 :: byte_of 83 :: d ++ r) = Some d) as Hfind.
    { intros r Hr. cbn [asnFind].
      assert (asnAt (byte_of 65 :: byte_of 83 :: d ++ r) = Some d) as ->; [|done].
      change (asnTail (d ++ r) = Some d). unfold asnTail.
      assert (dropWhileb isReSpace (d ++ r) = d ++ r) as ->.
      { destruct Hd as [|c d Hc Hd]; [done|]. cbn [app dropWhileb].
        by rewrite isDigit_not_space. }
      rewrite spanDigits_app; [|done|].
      - destruct d; [done|]. destruct r as [|c r]; [done|]. by rewrite (Hr c r).
      - intros c r' Hc. specialize (Hr c r' Hc). unfold isWord in Hr. by bools. }
    unfold asnNumber. rewrite !s2l_app, !s2l_l2s. split.
    + specialize (Hfind []). rewrite app_nil_r in Hfind. change (s2l "AS") with [byte_of 65; byte_of 83].
      cbn [app]. by rewrite Hfind.
    + change (s2l "AS") with [byte_of 65; byte_of 83]. cbn [app].
      rewrite Hfind; [done|]. by intros c r' [= <- _].
Qed.

Section VerifyTheorems.
Context {U : UnicodeTables}.

Lemma compare_spec node r :
  (compare node r).1 = true ↔
  resProxy r = false ∧ resHosting r = false ∧ resMobile r = false ∧
  (CountryCode node = "" ∨ resCountryCode r = "" ∨
     equalFold (CountryCode node) (resCountryCode r) = true) ∧
  (asnNumber (ASN node) = "" ∨ asnNumber (resASN r) = "" ∨
     asnNumber (ASN node) = asnNumber (resASN r)).
Proof.
  assert ((compare node r).1 = true ↔
    flagReason r = [] ∧ countryReason node r = [] ∧ asnReason node r = []) as ->.
  { unfold compare. case_bool_decide as E.
    - split; [done|]. intros (E1 & E2 & E3). rewrite E1, E2, E3 in E. simpl in E. lia.
    - split; [intros _|done]. destruct (flagReason r), (countryReason node r), (asnReason node r);
        simpl in *; by try lia. }
  unfold flagReason, countryReason, asnReason.
  assert (∀ (b : bool) (x : string), (if b then [x] else []) = [] ↔ b = false) as Hif
    by (intros []; naive_solver).
  rewrite !Hif, !orb_false_iff, !andb_false_iff, !negb_false_iff, !bool_decide_eq_true. tauto.
Qed.

(** Verification is sound and complete for its criteria: [Verify] succeeds
    exactly when ip-api answers with a 2xx status and a success body, reports
    that body's address, and passes exactly when no proxy, hosting or mobile
    flag is set and neither the country nor the AS number contradicts the
    node's (a side that is missing contradicts nothing). *)
Theorem verify_spec get apiURL node r :
  Verify get apiURL node = Ok r ↔
  ∃ status payload,
    get (if bool_decide (apiURL = "") then defaultVerifyURL else apiURL) = Ok (status, Ok payload) ∧
    (200 ≤ status < 300)%Z ∧ rspStatus payload = "success" ∧
    resExitIP r = rspQuery payload ∧ resCountry r = rspCountry payload ∧
    resCountryCode r = toUpper (rspCountryCode payload) ∧ resISP r = rspISP payload ∧
    resASN r = rspAS payload ∧ resProxy r = rspProxy payload ∧
    resHosting r = rspHosting payload ∧ resMobile r = rspMobile payload ∧
    (resPassed r, resMessage r) = compare node r ∧
    (resPassed r = true ↔
       rspProxy payload = false ∧ rspHosting payload = false ∧ rspMobile payload = false ∧
       (CountryCode node = "" ∨ resCountryCode r = "" ∨
          equalFold (CountryCode node) (resCountryCode r) = true) ∧
       (asnNumber (ASN node) = "" ∨ asnNumber (rspAS payload) = "" ∨
          asnNumber (ASN node) = asnNumber (rspAS payload))).
Proof.
  unfold Verify. split.
  - intros H. destruct (get _) as [[status body]|] eqn:Eg; [|done].
    destruct (_ || _) eqn:Es; [done|]. destruct body as [payload|]; [|done].
    case_bool_decide as Ep; [|done]. simpl in H.
    exists status, payload.
    set (r0 := mkResult _ _ _ _ _ _ _ _ _ _) in H.
    pose proof (compare_spec node r0) as Hc.
    destruct (compare node r0) as [passed message] eqn:Ec. bools.
    injection H as <-. simpl in *. split_and!; try done.
  - intros (status & payload & Hg & Hst & Hs & ? & ? & ? & ? & ? & ? & ? & ? & Hc & _).
    rewrite Hg. destruct (_ || _) eqn:Es.
    { apply orb_true_iff in Es as [Es|Es]; bools; lia. }
    rewrite Hs. rewrite bool_decide_true by done. simpl.
    assert (compare node (mkResult false (rspQuery payload) (rspCountry payload)
      (toUpper (rspCountryCode payload)) (rspISP payload) (rspAS payload) (rspProxy payload)
      (rspHosting payload) (rspMobile payload) "") = compare node r) as ->.
    { destruct r; simpl in *; subst; done. }
    rewrite <-Hc. destruct r; simpl in *; by subst.
Qed.

(** The same answer with another address. *)
Definition reportsIP (ip : string) (get : string → result (Z * result ipAPIResponse))
    (url : string) : result (Z * result ipAPIResponse) :=
  match get url with
  | Ok (status, Ok p) =>
      Ok (status, Ok (mkResponse (rspStatus p) (rspMessage p) ip (rspCountry p) (rspCountryCode p)
                        (rspISP p) (rspAS p) (rspASName p) (rspProxy p) (rspHosting p) (rspMobile p)))
  | other => other
  end.

(** The address of the exit is never compared: if a node's exit passes, it
    passes with the same message whatever address ip-api reports, although that
    message says the exit IP was verified. *)
Theorem verify_ignores_exit_ip get apiURL node r ip :
  Verify get apiURL node = Ok r →
  ∃ r', Verify (reportsIP ip get) apiURL node = Ok r' ∧ resExitIP r' = ip ∧
        resPassed r' = resPassed r ∧ resMessage r' = resMessage r.
Proof.
  unfold Verify, reportsIP.
  destruct (get _) as [[status [payload|]]|]; simpl; [|by destruct (_ || _)|done].
  destruct (_ || _); [done|]. case_bool_decide; [simpl|done].
  set (r1 := mkResult _ (rspQuery payload) _ _ _ _ _ _ _ _).
  set (r2 := mkResult _ ip _ _ _ _ _ _ _ _).
  assert (compare node r2 = compare node r1) as -> by reflexivity.
  destruct (compare node r1) as [passed message]. intros [= <-]. by eexists.
Qed.
End VerifyTheorems.

Definition tokyo : ipAPIResponse :=
  mkResponse "success" "" "203.0.113.7" "Japan" "jp" "NTT" "AS4713 NTT" "OCN" false false false.
Definition tokyoGet (_ : string) : result (Z * result ipAPIResponse) := Ok (200%Z, Ok tokyo).
Definition tokyoNode : VpnNode :=
  setASN "as 4713" (setCountryCode "JP" (setNodeIP "203.0.113.7" zeroNode)).
Definition tokyoResult : Result :=
  mkResult true "203.0.113.7" "Japan" "JP" "NTT" "AS4713 NTT" false false false
    "出口 IP、国家和 ASN 复核通过".

Lemma verify_ignores_exit_ip_witness :
  Verify (U := asciiTables) tokyoGet "" tokyoNode = Ok tokyoResult ∧
  ∃ r', Verify (U := asciiTables) (reportsIP "198.51.100.1" tokyoGet) "" tokyoNode = Ok r' ∧
        resExitIP r' ≠ NodeIP tokyoNode ∧ resPassed r' = true.
Proof.
  assert (Verify (U := asciiTables) tokyoGet "" tokyoNode = Ok tokyoResult) as H
    by (vm_compute; reflexivity).
  split; [exact H|].
  destruct (verify_ignores_exit_ip (U := asciiTables) tokyoGet "" tokyoNode tokyoResult
    "198.51.100.1" H) as (r' & Hr & Hip & Hp & _).
  exists r'. split; [exact Hr|]. rewrite Hip, Hp. split; [discriminate|reflexivity].
Defined.
