(* ===== verification/Config.v ===== *)
(** * [internal/config]: configuration

    The configuration structs, their defaults, [Validate], [Load] and [Init].
    The operating system is the record [OS] of parameters: its files, the
    faults of its calls, its random source and the text form of
    [encoding/json]. *)

From S2P Require Import Prelude GoStrings GoNet.

Record DeploymentConfig := mkDeploymentConfig {
  depMode : string;
  depAutoStartVMESS : bool;
  depAutoConnectExit : bool
}.
Record ServerConfig := mkServerConfig {
  srvListen : string;
  srvSessionSecret : string
}.
Record AuthConfig := mkAuthConfig {
  authUsername : string;
  authPassword : string
}.
Record DataConfig := mkDataConfig {
  dataDir : string
}.
Record VPNGateConfig := mkVPNGateConfig {
  gateAPIURL : string;
  gateMaxNodes : Z
}.
Record ClassifierConfig := mkClassifierConfig {
  clsEnabled : bool;
  clsStrictHomeOnly : bool;
  clsTimeoutMS : Z;
  clsMaxConcurrency : Z
}.
Record ProbeConfig := mkProbeConfig {
  prbTimeoutMS : Z;
  prbMaxConcurrency : Z;
  prbSamples : Z
}.
Record FailoverConfig := mkFailoverConfig {
  foEnabled : bool;
  foMaxAttempts : Z;
  foCooldownSeconds : Z;
  foHealthCheckSeconds : Z;
  foFailureThreshold : Z
}.
Record VerifyConfig := mkVerifyConfig {
  verEnabled : bool;
  verAPIURL : string;
  verTimeoutMS : Z
}.
Record OpenVPNSettings := mkOpenVPNSettings {
  ovpnUsername : string;
  ovpnPassword : string;
  ovpnConnectTimeoutMS : Z;
  ovpnMTU : Z;
  ovpnDNSServers : list string
}.
Record SubscriptionConfig := mkSubscriptionConfig {
  subEnabled : bool;
  subListen : string;
  subToken : string;
  subHost : string;
  subPort : Z;
  subUUID : string;
  subAlterID : Z;
  subSecurity : string;
  subNetwork : string
}.
Record ProxyCoreConfig := mkProxyCoreConfig {
  coreEnabled : bool;
  coreType : string;
  coreListen : string;
  coreLogLevel : string;
  coreLocalSOCKSEnabled : bool;
  coreLocalSOCKSListen : string
}.

Record Config := mkConfig {
  cfgDeployment : DeploymentConfig;
  cfgServer : ServerConfig;
  cfgAuth : AuthConfig;
  cfgData : DataConfig;
  cfgVPNGate : VPNGateConfig;
  cfgClassifier : ClassifierConfig;
  cfgProbe : ProbeConfig;
  cfgFailover : FailoverConfig;
  cfgVerify : VerifyConfig;
  cfgOpenVPN : OpenVPNSettings;
  cfgSubscription : SubscriptionConfig;
  cfgProxyCore : ProxyCoreConfig
}.

Definition Default : Config := {|
  cfgDeployment := mkDeploymentConfig "gateway" true true;
  cfgServer := mkServerConfig "127.0.0.1:8899" "";
  cfgAuth := mkAuthConfig "admin" "";
  cfgData := mkDataConfig "";
  cfgVPNGate := mkVPNGateConfig "https://www.vpngate.net/api/iphone/" 300;
  cfgClassifier := mkClassifierConfig true true 10000 50;
  cfgProbe := mkProbeConfig 3000 64 3;
  cfgFailover := mkFailoverConfig true 5 300 20 2;
  cfgVerify := mkVerifyConfig true
    "http://ip-api.com/json/?fields=status,message,query,country,countryCode,isp,as,asname,proxy,hosting,mobile"
    10000;
  cfgOpenVPN := mkOpenVPNSettings "vpn" "vpn" 45000 1420 ["1.1.1.1"; "8.8.8.8"];
  cfgSubscription := mkSubscriptionConfig true "0.0.0.0:8898" "" "auto" 10086 "" 0 "auto" "tcp";
  cfgProxyCore := mkProxyCoreConfig true "embedded" "0.0.0.0" "warning" true "127.0.0.1:1080"
|}.

(** Assignments [Init] makes. *)
Definition setPassword (v : string) (c : Config) : Config :=
  mkConfig (cfgDeployment c) (cfgServer c) (mkAuthConfig (authUsername (cfgAuth c)) v) (cfgData c)
    (cfgVPNGate c) (cfgClassifier c) (cfgProbe c) (cfgFailover c) (cfgVerify c) (cfgOpenVPN c)
    (cfgSubscription c) (cfgProxyCore c).
Definition setSessionSecret (v : string) (c : Config) : Config :=
  mkConfig (cfgDeployment c) (mkServerConfig (srvListen (cfgServer c)) v) (cfgAuth c) (cfgData c)
    (cfgVPNGate c) (cfgClassifier c) (cfgProbe c) (cfgFailover c) (cfgVerify c) (cfgOpenVPN c)
    (cfgSubscription c) (cfgProxyCore c).
Definition setSubscription (v : SubscriptionConfig) (c : Config) : Config :=
  mkConfig (cfgDeployment c) (cfgServer c) (cfgAuth c) (cfgData c)
    (cfgVPNGate c) (cfgClassifier c) (cfgProbe c) (cfgFailover c) (cfgVerify c) (cfgOpenVPN c)
    v (cfgProxyCore c).
Definition setToken (v : string) (c : Config) : Config :=
  let s := cfgSubscription c in
  setSubscription (mkSubscriptionConfig (subEnabled s) (subListen s) v (subHost s) (subPort s)
    (subUUID s) (subAlterID s) (subSecurity s) (subNetwork s)) c.
Definition setUUID (v : string) (c : Config) : Config :=
  let s := cfgSubscription c in
  setSubscription (mkSubscriptionConfig (subEnabled s) (subListen s) (subToken s) (subHost s)
    (subPort s) v (subAlterID s) (subSecurity s) (subNetwork s)) c.

(** The first address of the list that is not an IP. *)
Fixpoint firstInvalidIP (servers : list string) : option string :=
  match servers with
  | [] => None
  | s :: rest => match parseIP s with None => Some s | Some _ => firstInvalidIP rest end
  end.

Section Validate.
Context {U : UnicodeTables}.

(** The error of [Validate], [None] for nil. *)
Definition validateSubscription (s : SubscriptionConfig) : option string :=
  match (if bool_decide (subListen s = "") then None
         else match splitHostPort (subListen s) with
              | Err e => Some ("subscription.listen is invalid: " +:+ e)
              | Ok _ => None
              end) with
  | Some e => Some e
  | None =>
  fail_if bool_decide (subToken s = "")
    with Some "subscription.token is required when subscription is enabled" ;;
  fail_if (subPort s <? 1)%Z || (65535 <? subPort s)%Z with Some "subscription port is required" ;;
  fail_if bool_decide (subUUID s = "") with Some "subscription.uuid is required" ;;
  None
  end.

Definition validateProxyCore (p : ProxyCoreConfig) : option string :=
  fail_if bool_decide (coreType p = "")
    with Some "proxy_core.type is required when proxy core is enabled" ;;
  fail_if negb (bool_decide (coreType p = "embedded")) with Some "proxy_core.type must be embedded" ;;
  fail_if bool_decide (coreListen p = "")
    with Some "proxy_core.listen is required when proxy core is enabled" ;;
  fail_if bool_decide (parseIP (coreListen p) = None)
    with Some "proxy_core.listen must be an IP address" ;;
  if coreLocalSOCKSEnabled p then
    match splitHostPort (coreLocalSOCKSListen p) with
    | Err e => Some ("proxy_core.local_socks_listen is invalid: " +:+ e)
    | Ok (host, _) =>
        match parseIP host with
        | None => Some "proxy_core.local_socks_listen must use a loopback IP"
        | Some ip => if negb (isLoopback ip)
                     then Some "proxy_core.local_socks_listen must use a loopback IP" else None
        end
    end
  else None.

Definition Validate (cfg : Config) : option string :=
  let mode := depMode (cfgDeployment cfg) in
  let server := cfgServer cfg in
  let probe := cfgProbe cfg in
  let failover := cfgFailover cfg in
  let verify := cfgVerify cfg in
  let openvpn := cfgOpenVPN cfg in
  fail_if negb (bool_decide (mode = "") || bool_decide (mode = "gateway"))
    with Some "deployment.mode must be gateway" ;;
  fail_if bool_decide (srvListen server = "") with Some "server.listen is required" ;;
  match splitHostPort (srvListen server) with
  | Err e => Some ("server.listen is invalid: " +:+ e)
  | Ok _ =>
  fail_if bool_decide (srvSessionSecret server = "") with Some "server.session_secret is required" ;;
  fail_if bool_decide (authUsername (cfgAuth cfg) = "") || bool_decide (authPassword (cfgAuth cfg) = "")
    with Some "auth.username and auth.password are required" ;;
  fail_if bool_decide (gateAPIURL (cfgVPNGate cfg) = "") with Some "vpngate.api_url is required" ;;
  fail_if (clsTimeoutMS (cfgClassifier cfg) <? 0)%Z || (clsMaxConcurrency (cfgClassifier cfg) <? 0)%Z
    with Some "classifier timeout and concurrency must not be negative" ;;
  fail_if (prbTimeoutMS probe <? 0)%Z || (prbMaxConcurrency probe <? 0)%Z || (prbSamples probe <? 0)%Z
    with Some "probe timeout, concurrency, and samples must not be negative" ;;
  fail_if (foMaxAttempts failover <? 0)%Z || (foCooldownSeconds failover <? 0)%Z
          || (foHealthCheckSeconds failover <? 0)%Z || (foFailureThreshold failover <? 0)%Z
    with Some "failover values must not be negative" ;;
  fail_if verEnabled verify && bool_decide (verAPIURL verify = "")
    with Some "verify.api_url is required when verify is enabled" ;;
  fail_if (verTimeoutMS verify <? 0)%Z with Some "verify.timeout_ms must not be negative" ;;
  fail_if bool_decide (mode = "gateway") && negb (subEnabled (cfgSubscription cfg))
    with Some "subscription.enabled must be true in gateway mode" ;;
  fail_if bool_decide (mode = "gateway") && negb (coreEnabled (cfgProxyCore cfg))
    with Some "proxy_core.enabled must be true in gateway mode" ;;
  fail_if (ovpnConnectTimeoutMS openvpn <? 0)%Z
    with Some "openvpn.connect_timeout_ms must not be negative" ;;
  fail_if negb (ovpnMTU openvpn =? 0)%Z && ((ovpnMTU openvpn <? 576)%Z || (9000 <? ovpnMTU openvpn)%Z)
    with Some "openvpn.mtu must be between 576 and 9000" ;;
  match firstInvalidIP (ovpnDNSServers openvpn) with
  | Some server => Some ("openvpn.dns_servers contains invalid IP " +:+ quote server)
  | None =>
  match (if subEnabled (cfgSubscription cfg) then validateSubscription (cfgSubscription cfg) else None) with
  | Some e => Some e
  | None => if coreEnabled (cfgProxyCore cfg) then validateProxyCore (cfgProxyCore cfg) else None
  end end end.
End Validate.

(** ** The operating system *)

(** Files by path. *)
Abbreviation FS := (gmap string string).

(** The faults of the file calls (an error text when the call fails; a failed
    write says what it left in the file), the not-exist text, the random source, the configuration
    directory and [path/filepath]'s functions of the platform. *)
Record OS := {
  osGOOS : string;
  osStatFault : string → option string;
  osReadFault : string → option string;
  osNotExist : string → string;
  osMkdirFault : string → option string;
  osWriteFault : string → option (string * option string);
  osRenameFault : string → string → option string;
  osRandom : nat → nat → result bytes;
  osUserConfigDir : result string;
  osTempDir : string;
  osDir : string → string;
  osJoin : string → string → string
}.

(** [encoding/json] on a type: [MarshalIndent] and [Unmarshal] into a value. *)
Record JSON (A : Type) := { jsonMarshal : A → result string; jsonUnmarshal : string → A → A * option string }.
Arguments jsonMarshal {A} _ _.
Arguments jsonUnmarshal {A} _ _ _.

(** [os.WriteFile]. *)
Definition writeFile (os : OS) (fs : FS) (path data : string) : option string * FS :=
  match osWriteFault os path with
  | None => (None, <[path := data]> fs)
  | Some (e, None) => (Some e, fs)
  | Some (e, Some partial) => (Some e, <[path := partial]> fs)
  end.

(** ** Credentials *)

Definition hexEncode (l : bytes) : bytes := l ≫= λ c, hexPad 2 (code c).

(** [rand.Read] is the [k]-th of the run. *)
Definition randomHex (os : OS) (k n : nat) : result string :=
  let? buffer := osRandom os k n in Ok (l2s (hexEncode buffer)).

Definition setBits (c : ascii) (keep force : N) : ascii :=
  byte_of (N.lor (N.land (code c) keep) force).

Definition uuidBytes (buffer : bytes) : bytes :=
  alter (λ c, setBits c 63 128) 8%nat (alter (λ c, setBits c 15 64) 6%nat buffer).

Definition randomUUID (os : OS) (k : nat) : result string :=
  let? buffer := osRandom os k 16 in
  let b := uuidBytes buffer in
  let part i j := l2s (hexEncode (take (j - i) (drop i b))) in
  Ok (part 0 4 +:+ "-" +:+ part 4 6 +:+ "-" +:+ part 6 8 +:+ "-" +:+ part 8 10 +:+ "-" +:+ part 10 16)%nat.

Section Files.
Context {U : UnicodeTables} (os : OS) (json : JSON Config).

(** [Load]: the configuration (as far as it was read) and the error. *)
Definition Load (fs : FS) (path : string) : Config * option string :=
  let cfg := Default in
  fail_if bool_decide (path = "") with (cfg, Validate cfg) ;;
  match osReadFault os path, fs !! path with
  | Some e, _ => (cfg, Some e)
  | None, None => (cfg, Some (osNotExist os path))
  | None, Some data =>
      let '(cfg, err) := jsonUnmarshal json data cfg in
      match err with Some e => (cfg, Some e) | None => (cfg, Validate cfg) end
  end.

(** [os.Stat]: no error, not-exist, or another error. *)
Definition statError (fs : FS) (path : string) : option (option string) :=
  match osStatFault os path with
  | Some e => Some (Some e)
  | None => match fs !! path with Some _ => None | None => Some None end
  end.

(** The four credentials, in the order they are drawn. *)
Definition generateSecrets (cfg : Config) : result Config :=
  let wrap {A} (what : string) (r : result A) : result A :=
    match r with Ok a => Ok a | Err e => Err ("generate " +:+ what +:+ ": " +:+ e) end in
  let? password := wrap "admin password" (randomHex os 0 12) in
  let cfg := setPassword password cfg in
  let? secret := wrap "session secret" (randomHex os 1 32) in
  let cfg := setSessionSecret secret cfg in
  let? token := wrap "subscription token" (randomHex os 2 24) in
  let cfg := setToken token cfg in
  let? uuid := wrap "VMESS UUID" (randomUUID os 3) in
  Ok (setUUID uuid cfg).

Definition Init (fs : FS) (path : string) : result Config * FS :=
  let path := if bool_decide (path = "") then "config.json" else path in
  match statError fs path with
  | None => (Err (path +:+ " already exists"), fs)
  | Some (Some e) => (Err e, fs)
  | Some None =>
  match generateSecrets Default with
  | Err e => (Err e, fs)
  | Ok cfg =>
  match Validate cfg with
  | Some e => (Err e, fs)
  | None =>
  match jsonMarshal json cfg with
  | Err e => (Err e, fs)
  | Ok data =>
  match (if bool_decide (osDir os path = ".") then None else osMkdirFault os (osDir os path)) with
  | Some e => (Err e, fs)
  | None =>
      let '(err, fs) := writeFile os fs path (data +:+ nl) in
      match err with Some e => (Err e, fs) | None => (Ok cfg, fs) end
  end end end end end.

Definition DataDir (cfg : Config) : string :=
  fail_if negb (bool_decide (dataDir (cfgData cfg) = "")) with dataDir (cfgData cfg) ;;
  match osUserConfigDir os with
  | Ok dir => if bool_decide (dir = "") then
                osJoin os (osTempDir os) (if bool_decide (osGOOS os = "windows")
                  then "ResidentialIPManagerGo" else "residential-ip-manager-go")
              else osJoin os dir "ResidentialIPManagerGo"
  | Err _ => osJoin os (osTempDir os) (if bool_decide (osGOOS os = "windows")
               then "ResidentialIPManagerGo" else "residential-ip-manager-go")
  end.
End Files.

(** ** What [Validate] accepts *)

Record validConfig (cfg : Config) : Prop := {
  valid_mode : depMode (cfgDeployment cfg) = "" ∨ depMode (cfgDeployment cfg) = "gateway";
  valid_listen : isOk (splitHostPort (srvListen (cfgServer cfg))) = true;
  valid_secret : srvSessionSecret (cfgServer cfg) ≠ "";
  valid_auth : authUsername (cfgAuth cfg) ≠ "" ∧ authPassword (cfgAuth cfg) ≠ "";
  valid_vpngate : gateAPIURL (cfgVPNGate cfg) ≠ "";
  valid_classifier : (0 ≤ clsTimeoutMS (cfgClassifier cfg))%Z ∧ (0 ≤ clsMaxConcurrency (cfgClassifier cfg))%Z;
  valid_probe : (0 ≤ prbTimeoutMS (cfgProbe cfg))%Z ∧ (0 ≤ prbMaxConcurrency (cfgProbe cfg))%Z ∧
    (0 ≤ prbSamples (cfgProbe cfg))%Z;
  valid_failover : (0 ≤ foMaxAttempts (cfgFailover cfg))%Z ∧ (0 ≤ foCooldownSeconds (cfgFailover cfg))%Z ∧
    (0 ≤ foHealthCheckSeconds (cfgFailover cfg))%Z ∧ (0 ≤ foFailureThreshold (cfgFailover cfg))%Z;
  valid_verify : (verEnabled (cfgVerify cfg) = true → verAPIURL (cfgVerify cfg) ≠ "") ∧
    (0 ≤ verTimeoutMS (cfgVerify cfg))%Z;
  valid_gateway : depMode (cfgDeployment cfg) = "gateway" →
    subEnabled (cfgSubscription cfg) = true ∧ coreEnabled (cfgProxyCore cfg) = true;
  valid_openvpn : (0 ≤ ovpnConnectTimeoutMS (cfgOpenVPN cfg))%Z ∧
    (ovpnMTU (cfgOpenVPN cfg) = 0 ∨ 576 ≤ ovpnMTU (cfgOpenVPN cfg) ≤ 9000)%Z ∧
    Forall (λ s, is_Some (parseIP s)) (ovpnDNSServers (cfgOpenVPN cfg));
  valid_subscription : subEnabled (cfgSubscription cfg) = true →
    let s := cfgSubscription cfg in
    (subListen s = "" ∨ isOk (splitHostPort (subListen s)) = true) ∧ subToken s ≠ "" ∧
    (1 ≤ subPort s ≤ 65535)%Z ∧ subUUID s ≠ "";
  valid_proxy : coreEnabled (cfgProxyCore cfg) = true →
    let p := cfgProxyCore cfg in
    coreType p = "embedded" ∧ is_Some (parseIP (coreListen p)) ∧
    (coreLocalSOCKSEnabled p = true → ∃ host port ip,
       splitHostPort (coreLocalSOCKSListen p) = Ok (host, port) ∧ parseIP host = Some ip ∧
       isLoopback ip = true)
}.

Lemma firstInvalidIP_None servers :
  firstInvalidIP servers = None ↔ Forall (λ s, is_Some (parseIP s)) servers.
Proof.
  induction servers as [|s servers IH]; simpl; [by split|].
  rewrite Forall_cons, <-IH. destruct (parseIP s); [|by split; [|intros [[? [=]] ?]]].
  split; [by split|by intros [_ ?]].
Qed.

Lemma fail_if_None {A} (b : bool) (m : A) (k : option A) :
  (if b then Some m else k) = None ↔ b = false ∧ k = None.
Proof. destruct b; naive_solver. Qed.

Lemma match_result_None {A B} (r : result A) (f : string → B) (k : option B) :
  match r with Err e => Some (f e) | Ok _ => k end = None ↔ isOk r = true ∧ k = None.
Proof. destruct r; naive_solver. Qed.
Lemma match_option_None {A B} (o : option A) (f : A → B) (k : option B) :
  match o with Some e => Some (f e) | None => k end = None ↔ o = None ∧ k = None.
Proof. destruct o; naive_solver. Qed.
Lemma if_None {A} (b : bool) (k : option A) :
  (if b then k else None) = None ↔ (b = true → k = None).
Proof. destruct b; naive_solver. Qed.

Lemma validateSubscription_None s :
  validateSubscription s = None ↔
  (subListen s = "" ∨ isOk (splitHostPort (subListen s)) = true) ∧ subToken s ≠ "" ∧
  (1 ≤ subPort s ≤ 65535)%Z ∧ subUUID s ≠ "".
Proof.
  unfold validateSubscription.
  assert ((if bool_decide (subListen s = "") then None
           else match splitHostPort (subListen s) with
                | Err e => Some ("subscription.listen is invalid: " +:+ e) | Ok _ => None end) = None
          ↔ subListen s = "" ∨ isOk (splitHostPort (subListen s)) = true) as Hl.
  { case_bool_decide; destruct (splitHostPort _); naive_solver. }
  rewrite <-Hl. destruct (if bool_decide _ then _ else _) as [e|]; [naive_solver|].
  rewrite !fail_if_None, orb_false_iff, !bool_decide_eq_false, !Z.ltb_ge. intuition lia.
Qed.

Lemma parseIP_empty : parseIP "" = None.
Proof. reflexivity. Qed.

Lemma validateProxyCore_None p :
  validateProxyCore p = None ↔
  coreType p = "embedded" ∧ is_Some (parseIP (coreListen p)) ∧
  (coreLocalSOCKSEnabled p = true → ∃ host port ip,
     splitHostPort (coreLocalSOCKSListen p) = Ok (host, port) ∧ parseIP host = Some ip ∧
     isLoopback ip = true).
Proof.
  unfold validateProxyCore.
  rewrite !fail_if_None, negb_false_iff, !bool_decide_eq_false, bool_decide_eq_true.
  rewrite <-not_eq_None_Some.
  assert (coreType p = "embedded" → coreType p ≠ "") by congruence.
  assert (parseIP (coreListen p) ≠ None → coreListen p ≠ "").
  { intros Hp Heq. by rewrite Heq, parseIP_empty in Hp. }
  match goal with |- context [(if coreLocalSOCKSEnabled p then ?k else None) = None] =>
    assert (k = None ↔ ∃ host port ip, splitHostPort (coreLocalSOCKSListen p) = Ok (host, port) ∧
              parseIP host = Some ip ∧ isLoopback ip = true) as Hk end.
  { destruct (splitHostPort (coreLocalSOCKSListen p)) as [[host port]|];
      [|split; [done|by intros (? & ? & ? & ? & ?)]].
    destruct (parseIP host) as [ip|] eqn:Ep;
      [|split; [done|intros (? & ? & ? & [= <- <-] & ? & ?); congruence]].
    destruct (isLoopback ip) eqn:El; simpl; split; try done; eauto 10.
    intros (? & ? & ? & [= <- <-] & ? & ?); congruence. }
  rewrite if_None, Hk. tauto.
Qed.

Lemma splitHostPort_empty : isOk (splitHostPort "") = false.
Proof. reflexivity. Qed.

Lemma validate_valid {U : UnicodeTables} cfg : Validate cfg = None ↔ validConfig cfg.
Proof.
  unfold Validate. cbv zeta.
  repeat first [rewrite fail_if_None | rewrite match_result_None | rewrite match_option_None
               | rewrite if_None].
  rewrite firstInvalidIP_None, validateSubscription_None, validateProxyCore_None.
  assert (isOk (splitHostPort (srvListen (cfgServer cfg))) = true → srvListen (cfgServer cfg) ≠ "").
  { intros Hs Heq. by rewrite Heq, splitHostPort_empty in Hs. }
  rewrite !negb_false_iff, !andb_false_iff, !negb_false_iff, !orb_false_iff, orb_true_iff,
    !bool_decide_eq_false, !bool_decide_eq_true, !Z.ltb_ge, Z.eqb_eq.
  split.
  - intros Hv. destruct_and! Hv.
    constructor; try done; repeat split; try done; try tauto; try lia;
      intros; intuition congruence.
  - intros []. destruct_and?.
    repeat match goal with |- _ ∧ _ => split end; try done; try tauto; try lia.
    1: destruct (verEnabled (cfgVerify cfg)); tauto.
    all: destruct (decide (depMode (cfgDeployment cfg) = "gateway")); tauto.
Qed.

(** ** Generated credentials *)

Definition hexDigits : bytes := s2l "0123456789abcdef".

(** The text form of an RFC 4122 version 4 UUID, as the characters allowed at
    each of its 36 positions. *)
Definition uuidPattern : list bytes :=
  replicate 8 hexDigits ++ [s2l "-"] ++ replicate 4 hexDigits ++ [s2l "-"; s2l "4"] ++
  replicate 3 hexDigits ++ [s2l "-"; s2l "89ab"] ++ replicate 3 hexDigits ++ [s2l "-"] ++
  replicate 12 hexDigits.
Definition isUUIDv4 (s : string) : Prop := Forall2 (λ set c, c ∈ set) uuidPattern (s2l s).
Definition isHexString (n : nat) (s : string) : Prop :=
  length (s2l s) = n ∧ Forall (λ c, c ∈ hexDigits) (s2l s).

(** [crypto/rand.Read] fills the whole buffer or fails. *)
Class RandomSource (os : OS) : Prop :=
  random_length : ∀ k n b, osRandom os k n = Ok b → length b = n.

Lemma hexPad_byte c : ∃ hi lo, hexPad 2 (code c) = [hi; lo] ∧ hi ∈ hexDigits ∧ lo ∈ hexDigits.
Proof.
  eexists _, _. split; [reflexivity|].
  destruct c as [[] [] [] [] [] [] [] []]; split; decided.
Qed.

Lemma hexPad_version c :
  ∃ lo, hexPad 2 (code (setBits c 15 64)) = [byte_of 52; lo] ∧ lo ∈ hexDigits.
Proof.
  eexists.
  destruct c as [[] [] [] [] [] [] [] []]; (split; [reflexivity|decided]).
Qed.

Lemma hexPad_variant c :
  ∃ hi lo, hexPad 2 (code (setBits c 63 128)) = [hi; lo] ∧ hi ∈ s2l "89ab" ∧ lo ∈ hexDigits.
Proof.
  eexists _, _. split; [reflexivity|].
  destruct c as [[] [] [] [] [] [] [] []]; split; decided.
Qed.

Lemma hexEncode_spec l : isHexString (2 * length l) (l2s (hexEncode l)).
Proof.
  unfold isHexString. rewrite s2l_l2s. unfold hexEncode.
  induction l as [|c l [IHn IHf]]; [by split|].
  destruct (hexPad_byte c) as (hi & lo & E & ? & ?).
  cbn [mbind list_bind length]. rewrite E, length_app, Forall_app, IHn. simpl.
  split; [lia|]. split; [|done]. apply Forall_cons; split; [done|]. by apply Forall_singleton.
Qed.

Lemma randomHex_spec os `{!RandomSource os} k n s :
  randomHex os k n = Ok s → isHexString (2 * n) s.
Proof.
  unfold randomHex. destruct (osRandom os k n) as [b|e] eqn:E; [|done].
  intros [= <-]. rewrite <-(random_length _ _ _ E). apply hexEncode_spec.
Qed.

Lemma isHexString_nonempty n s : isHexString (S n) s → s ≠ "".
Proof. intros [Hn _] ->. by cbv in Hn. Qed.

Lemma randomUUID_shape buffer : length buffer = 16%nat →
  ∃ body, uuidBytes buffer = body ∧ isUUIDv4 (let part i j := l2s (hexEncode (take (j - i) (drop i body))) in
    part 0 4 +:+ "-" +:+ part 4 6 +:+ "-" +:+ part 6 8 +:+ "-" +:+ part 8 10 +:+ "-" +:+ part 10 16)%nat.
Proof.
  intros Hn. do 16 (destruct buffer as [|? buffer]; [done|]). destruct buffer; [|done].
  eexists; split; [reflexivity|]. unfold isUUIDv4. cbv zeta. rewrite !s2l_app, !s2l_l2s.
  unfold uuidBytes, hexEncode. cbn [alter list_alter take drop Nat.sub mbind list_bind].
  pose proof hexPad_byte as Hb; pose proof hexPad_version as Hv; pose proof hexPad_variant as Hr.
  repeat match goal with
  | |- context [hexPad 2 (code (setBits ?c 15 64))] =>
      let lo := fresh "lo" in destruct (Hv c) as (lo & -> & ?)
  | |- context [hexPad 2 (code (setBits ?c 63 128))] =>
      let hi := fresh "hi" in let lo := fresh "lo" in destruct (Hr c) as (hi & lo & -> & ? & ?)
  | |- context [hexPad 2 (code ?c)] =>
      let hi := fresh "hi" in let lo := fresh "lo" in destruct (Hb c) as (hi & lo & -> & ? & ?)
  end.
  unfold uuidPattern. simpl. repeat (constructor; [first [assumption|by left]|]). constructor.
Qed.

Lemma randomUUID_spec os `{!RandomSource os} k s : randomUUID os k = Ok s → isUUIDv4 s.
Proof.
  unfold randomUUID. destruct (osRandom os k 16) as [b|e] eqn:E; [|done].
  intros [= <-]. destruct (randomUUID_shape b (random_length _ _ _ E)) as (body & <- & ?). done.
Qed.

(** ** [Init] and [Load] *)

Definition initPath (path : string) : string :=
  if bool_decide (path = "") then "config.json" else path.

(** What a configuration [Init] generates looks like: the defaults with
    credentials of the documented lengths and a version 4 UUID. *)
Record generated (cfg : Config) : Prop := {
  gen_defaults : cfg = setUUID (subUUID (cfgSubscription cfg))
    (setToken (subToken (cfgSubscription cfg))
    (setSessionSecret (srvSessionSecret (cfgServer cfg))
    (setPassword (authPassword (cfgAuth cfg)) Default)));
  gen_password : isHexString 24 (authPassword (cfgAuth cfg));
  gen_secret : isHexString 64 (srvSessionSecret (cfgServer cfg));
  gen_token : isHexString 48 (subToken (cfgSubscription cfg));
  gen_uuid : isUUIDv4 (subUUID (cfgSubscription cfg))
}.

Lemma generateSecrets_spec os `{!RandomSource os} cfg :
  generateSecrets os Default = Ok cfg → generated cfg.
Proof.
  unfold generateSecrets. intros H.
  destruct (randomHex os 0 12) as [password|] eqn:E0; [|done].
  destruct (randomHex os 1 32) as [secret|] eqn:E1; [|done].
  destruct (randomHex os 2 24) as [token|] eqn:E2; [|done].
  destruct (randomUUID os 3) as [uuid|] eqn:E3; [|done].
  injection H as <-. constructor; [done|..]; simpl.
  - by apply (randomHex_spec os) in E0.
  - by apply (randomHex_spec os) in E1.
  - by apply (randomHex_spec os) in E2.
  - by apply (randomUUID_spec os) in E3.
Qed.

Lemma isUUIDv4_nonempty s : isUUIDv4 s → s ≠ "".
Proof. intros H ->. apply Forall2_length in H. by cbv in H. Qed.

Lemma generated_valid {U : UnicodeTables} cfg : generated cfg → Validate cfg = None.
Proof.
  intros [-> Hp%isHexString_nonempty Hs%isHexString_nonempty Ht%isHexString_nonempty
    Hu%isUUIDv4_nonempty]. apply validate_valid.
  constructor; simpl; try done; try lia; auto.
  - repeat split; try lia. repeat constructor; by eexists.
  - intros _. repeat split; try done; lia || auto.
  - intros _. split_and!; [done|by eexists|]. intros _. by eexists _, _, _.
Qed.

(** [Validate] accepts exactly the configurations the other components
    rely on: [validConfig], field by field. *)
Theorem validate_iff {U : UnicodeTables} cfg : Validate cfg = None ↔ validConfig cfg.
Proof. apply validate_valid. Qed.

Section InitLoad.
Context {U : UnicodeTables} (os : OS) (json : JSON Config).

Lemma Init_inv fs path r fs' :
  Init os json fs path = (r, fs') →
  fs' = fs ∨ fs !! initPath path = None ∧ ∃ data, fs' = <[initPath path := data]> fs.
Proof.
  unfold Init, statError, writeFile. fold (initPath path). intros H.
  destruct (osStatFault os _); [by simplify_eq; left|].
  destruct (fs !! initPath path) eqn:Ef; [by simplify_eq; left|].
  destruct (osWriteFault os (initPath path)) as [[e [partial|]]|];
    repeat case_hyp H; simplify_eq; eauto.
Qed.

(** [Init] never changes a file that exists: whatever it returns and
    whatever fails, every file of the file system before the call is there
    after it with the same content, and an existing configuration file makes
    it fail. *)
Theorem init_never_overwrites fs path r fs' :
  Init os json fs path = (r, fs') →
  fs ⊆ fs' ∧ (is_Some (fs !! initPath path) → isOk r = false).
Proof.
  intros H. split.
  - destruct (Init_inv _ _ _ _ H) as [->|[Hn [data ->]]]; [done|by apply insert_subseteq].
  - intros [d Hd]. unfold Init, statError in H. fold (initPath path) in H. rewrite Hd in H.
    destruct (osStatFault os _); by simplify_eq.
Qed.

(** [Load] without error has read a configuration that satisfies
    [validConfig]; the empty path (the defaults, which hold no credentials)
    and a missing file are always errors. *)
Theorem load_valid fs path cfg :
  Load os json fs path = (cfg, None) →
  validConfig cfg ∧ path ≠ "" ∧ ∃ data, fs !! path = Some data ∧ jsonUnmarshal json data Default = (cfg, None).
Proof.
  unfold Load. case_bool_decide as Hp; [by intros [= <-]|].
  destruct (osReadFault os path); [done|]. destruct (fs !! path) as [data|] eqn:Ef; [|done].
  destruct (jsonUnmarshal json data Default) as [c err] eqn:Ej.
  destruct err as [e|]; [done|]. intros [= <- Hv]. split_and!; [by apply validate_valid|done|eauto].
Qed.

(** What [Init] relies on to succeed: no call of the operating system fails,
    the random source fills its buffers and the JSON encoder accepts the
    generated configuration. *)
Record initPossible (path : string) : Prop := {
  ip_random : ∀ k n, isOk (osRandom os k n) = true;
  ip_stat : osStatFault os path = None;
  ip_mkdir : osMkdirFault os (osDir os path) = None;
  ip_write : osWriteFault os path = None;
  ip_marshal : ∀ cfg, generateSecrets os Default = Ok cfg → isOk (jsonMarshal json cfg) = true
}.

Lemma randomHex_ok k n : isOk (osRandom os k n) = true → ∃ s, randomHex os k n = Ok s.
Proof. unfold randomHex. destruct (osRandom os k n); [eauto|done]. Qed.
Lemma randomUUID_ok k : isOk (osRandom os k 16) = true → ∃ s, randomUUID os k = Ok s.
Proof. unfold randomUUID. destruct (osRandom os k 16); [eauto|done]. Qed.

Lemma generateSecrets_ok : (∀ k n, isOk (osRandom os k n) = true) → ∃ cfg, generateSecrets os Default = Ok cfg.
Proof.
  intros Hr. unfold generateSecrets.
  destruct (randomHex_ok 0 12 (Hr _ _)) as [? ->], (randomHex_ok 1 32 (Hr _ _)) as [? ->],
    (randomHex_ok 2 24 (Hr _ _)) as [? ->], (randomUUID_ok 3 (Hr _ _)) as [? ->]. eauto.
Qed.

Lemma Init_ok `{!RandomSource os} fs path :
  initPossible (initPath path) → fs !! initPath path = None →
  ∃ cfg data, Init os json fs path = (Ok cfg, <[initPath path := data +:+ nl]> fs) ∧
    generated cfg ∧ jsonMarshal json cfg = Ok data.
Proof.
  intros [Hr Hs Hm Hw Hj] Hf. unfold Init, statError, writeFile. fold (initPath path).
  rewrite Hs, Hf. destruct (generateSecrets_ok Hr) as [cfg Hc]. rewrite Hc.
  pose proof (generateSecrets_spec os cfg Hc) as Hg.
  rewrite (generated_valid cfg Hg). specialize (Hj cfg Hc).
  destruct (jsonMarshal json cfg) as [data|] eqn:Ed; [|done].
  rewrite Hw, Hm. exists cfg, data. by case_bool_decide.
Qed.

(** On a system without faults [Init] succeeds on a fresh path: the
    configuration is the defaults plus a 24-digit password, a 64-digit session
    secret, a 48-digit token and a version 4 UUID, it passes [Validate], and
    the file written is its JSON text and a newline. *)
Theorem init_generates `{!RandomSource os} fs path :
  initPossible (initPath path) → fs !! initPath path = None →
  ∃ cfg data, Init os json fs path = (Ok cfg, <[initPath path := data +:+ nl]> fs) ∧
    generated cfg ∧ validConfig cfg ∧ jsonMarshal json cfg = Ok data.
Proof.
  intros Hi Hf. destruct (Init_ok fs path Hi Hf) as (cfg & data & ? & ? & ?).
  exists cfg, data. split_and!; try done. by apply validate_valid, generated_valid.
Qed.

(** The documented round trip of [encoding/json] on the structs of this
    package, which have no omitted or unexported fields. *)
Definition jsonRoundTrips : Prop :=
  ∀ cfg data, jsonMarshal json cfg = Ok data → jsonUnmarshal json (data +:+ nl) Default = (cfg, None).

(** [Load] reads back the configuration [Init] returned. *)
Theorem init_load `{!RandomSource os} fs path :
  initPossible (initPath path) → osReadFault os (initPath path) = None → jsonRoundTrips →
  fs !! initPath path = None →
  ∃ cfg fs', Init os json fs path = (Ok cfg, fs') ∧ Load os json fs' (initPath path) = (cfg, None).
Proof.
  intros Hi Hrd Hrt Hf. destruct (Init_ok fs path Hi Hf) as (cfg & data & HI & Hg & Hd).
  eexists _, _. split; [exact HI|]. unfold Load. rewrite Hrd, lookup_insert_eq.
  rewrite (Hrt _ _ Hd), (generated_valid cfg Hg).
  case_bool_decide as Hp; [|done]. unfold initPath in Hp. by case_bool_decide.
Qed.
End InitLoad.

(** ** A concrete system *)

Definition quietOS : OS := {|
  osGOOS := "linux"; osStatFault := λ _, None; osReadFault := λ _, None;
  osNotExist := λ p, "open " +:+ p +:+ ": no such file or directory";
  osMkdirFault := λ _, None; osWriteFault := λ _, None; osRenameFault := λ _ _, None;
  osRandom := λ k n, Ok (replicate n (byte_of (N.of_nat k + 7)));
  osUserConfigDir := Ok "/root/.config"; osTempDir := "/tmp";
  osDir := λ _, "."; osJoin := λ a b, a +:+ "/" +:+ b
|}.

#[export] Instance quietOS_random : RandomSource quietOS.
Proof. intros k n b [= <-]. apply length_replicate. Qed.

#[export] Instance Config_eq_dec : EqDecision Config.
Proof. intros a b. unfold Decision. repeat (decide equality || apply string_eq_dec || apply Z.eq_dec || apply bool_dec). Defined.

Definition quietConfig : Config :=
  match generateSecrets quietOS Default with Ok cfg => cfg | Err _ => Default end.

(** A codec for that one configuration. *)
Definition quietJSON : JSON Config := {|
  jsonMarshal := λ cfg, if decide (cfg = quietConfig) then Ok "{}" else Err "json: unsupported value";
  jsonUnmarshal := λ data cfg, if decide (data = "{}" +:+ nl) then (quietConfig, None)
                               else (cfg, Some "unexpected end of JSON input")
|}.

Lemma quiet_possible : initPossible quietOS quietJSON "config.json".
Proof.
  constructor; try done. intros cfg Hc. simpl.
  assert (cfg = quietConfig) as -> by (unfold quietConfig; by rewrite Hc).
  by rewrite decide_True.
Qed.

Lemma quiet_round_trips : jsonRoundTrips quietJSON.
Proof. intros cfg data. simpl. by case_decide; [intros [= <-]; subst|]. Qed.

Lemma init_never_overwrites_witness :
  ∃ r fs', Init (U := asciiTables) quietOS quietJSON {[ "config.json" := "old" ]} "" = (r, fs') ∧
    fs' !! "config.json" = Some "old" ∧ isOk r = false.
Proof.
  eexists _, _. split; [reflexivity|].
  edestruct (init_never_overwrites (U := asciiTables) quietOS quietJSON
               {[ "config.json" := "old" ]} "") as [_ H]; [reflexivity|].
  split; [reflexivity|]. apply H. by eexists.
Defined.

Lemma load_valid_witness :
  validConfig (Load (U := asciiTables) quietOS quietJSON {[ "config.json" := "{}" +:+ nl ]} "config.json").1.
Proof.
  refine (proj1 (load_valid (U := asciiTables) quietOS quietJSON
    {[ "config.json" := "{}" +:+ nl ]} "config.json" _ _)).
  vm_compute. reflexivity.
Defined.

Lemma init_generates_witness :
  ∃ cfg data, Init (U := asciiTables) quietOS quietJSON ∅ "" = (Ok cfg, {[ "config.json" := data +:+ nl ]}) ∧
    validConfig cfg.
Proof.
  destruct (init_generates (U := asciiTables) quietOS quietJSON ∅ "" quiet_possible (lookup_empty _))
    as (cfg & data & H & _ & Hv & _).
  exists cfg, data. split; [exact H|exact Hv].
Defined.

Lemma init_load_witness :
  ∃ cfg fs', Init (U := asciiTables) quietOS quietJSON ∅ "" = (Ok cfg, fs') ∧
    Load (U := asciiTables) quietOS quietJSON fs' "config.json" = (cfg, None).
Proof.
  exact (init_load (U := asciiTables) quietOS quietJSON ∅ "" quiet_possible eq_refl quiet_round_trips
    (lookup_empty _)).
Defined.
