(* ===== verification/ProxyCore.v ===== *)
(** * [internal/proxycore]: the embedded VMESS core

    The configuration [RenderXrayConfig] hands to xray and the [Manager] that
    starts and stops it. xray itself is a parameter: what [core.StartInstance]
    and [Instance.Close] answer, and the process-wide alternative dialer. Each
    operation writes the calls it makes on xray, in order, so that the states
    between two calls can be reasoned about as well. *)

From S2P Require Import Prelude GoStrings GoNet Config.

(** ** The rendered configuration *)

Record xrayClient := mkClient { clientID : string; clientAlterID : Z; clientSecurity : string }.
Inductive xraySettings :=
  | xrayVMESSInboundSettings (clients : list xrayClient)
  | xraySOCKSInboundSettings (auth : string) (udp : bool) (ip : string).
Record xrayInbound := mkInbound {
  inTag : string;
  inListen : string;
  inPort : Z;
  inProtocol : string;
  inSettings : xraySettings;
  inNetwork : string
}.
Record xrayOutbound := mkOutbound { outProtocol : string; outTag : string }.
Record xrayConfig := mkXrayConfig {
  xrayLogLevel : string;
  xrayInbounds : list xrayInbound;
  xrayOutbounds : list xrayOutbound
}.

Definition RenderXrayConfig (coreConfig : ProxyCoreConfig) (sub : SubscriptionConfig)
    : result xrayConfig :=
  fail_if bool_decide (subUUID sub = "") with Err "subscription uuid is required" ;;
  fail_if (subPort sub <? 1)%Z || (65535 <? subPort sub)%Z
    with Err "subscription port must be between 1 and 65535" ;;
  fail_if negb (bool_decide (valueOr (subNetwork sub) "tcp" = "tcp"))
    with Err "embedded VMESS currently supports tcp transport" ;;
  let inbounds := [mkInbound "vmess-in" (valueOr (coreListen coreConfig) "0.0.0.0") (subPort sub) "vmess"
    (xrayVMESSInboundSettings
       [mkClient (subUUID sub) (subAlterID sub) (valueOr (subSecurity sub) "auto")]) "tcp"] in
  let? inbounds :=
    (if coreLocalSOCKSEnabled coreConfig then
      match splitHostPort (coreLocalSOCKSListen coreConfig) with
      | Err e => Err ("invalid local SOCKS listen address: " +:+ e)
      | Ok (host, rawPort) =>
          let '(port, ok) := atoi rawPort in
          fail_if negb ok || (port <? 1)%Z || (65535 <? port)%Z with Err "invalid local SOCKS port" ;;
          Ok (inbounds ++ [mkInbound "socks-in" host port "socks"
                             (xraySOCKSInboundSettings "noauth" true host) ""])
      end
    else Ok inbounds) in
  Ok (mkXrayConfig (valueOr (coreLogLevel coreConfig) "warning") inbounds
        [mkOutbound "freedom" "vpngate-exit"]).

(** ** The manager *)

Record Status := mkStatus {
  stEnabled : bool;
  stType : string;
  stBuiltIn : bool;
  stRunning : bool;
  stConfigPath : string;
  stLocalSOCKS : string;
  stMessage : string
}.

Section Manager.
(** Dialers ([ContextDialer]) and xray instances. *)
Context {D I : Type}.

Record Manager := mkManager {
  mgrCfg : ProxyCoreConfig;
  mgrSub : SubscriptionConfig;
  mgrDialer : option D;
  mgrInstance : option I
}.
Definition setInstance (i : option I) (m : Manager) : Manager :=
  mkManager (mgrCfg m) (mgrSub m) (mgrDialer m) i.

Definition NewManager (cfg : ProxyCoreConfig) (sub : SubscriptionConfig) (dialer : option D) : Manager :=
  mkManager cfg sub dialer None.

(** The calls on xray. *)
Inductive event :=
  | UseAlternativeSystemDialer (d : option D)
  | StartInstance (data : string) (r : result I)
  | CloseInstance (i : I) (err : option string).

Definition isSome {A} (o : option A) : bool := match o with Some _ => true | None => false end.

Definition statusLocked (m : Manager) (message : string) : Status :=
  let message :=
    if negb (bool_decide (message = "")) then message
    else if negb (coreEnabled (mgrCfg m)) then "VMESS 服务未启用"
    else if negb (isSome (mgrInstance m)) then "内置 VMESS 服务未运行"
    else "内置 VMESS 服务运行中" in
  mkStatus (coreEnabled (mgrCfg m)) "embedded-vmess" true (isSome (mgrInstance m)) "in-memory"
    (if coreLocalSOCKSEnabled (mgrCfg m) then coreLocalSOCKSListen (mgrCfg m) else "") message.

(** [json.Marshal] of the rendered configuration. *)
Context (marshal : xrayConfig → result string).

(** An operation: the manager after it, the status and error returned, and the
    calls made on xray, whose answer is an argument of the operation. The mutex makes each operation atomic for the others. *)
Definition outcome : Type := Manager * (Status * option string) * list event.

Definition Status_ (m : Manager) : outcome := (m, (statusLocked m "", None), []).

Definition Start (startInstance : string → result I) (ctxErr : option string) (m : Manager) : outcome :=
  fail_if negb (coreEnabled (mgrCfg m))
    with (m, (statusLocked m "VMESS 服务未启用", Some "proxy core is disabled"), []) ;;
  match mgrInstance m with
  | Some _ => (m, (statusLocked m "内置 VMESS 服务已运行", None), [])
  | None =>
  match mgrDialer m with
  | None => (m, (statusLocked m "未配置 VPNGate 出口拨号器", Some "proxy dialer is required"), [])
  | Some dialer =>
  match ctxErr with
  | Some e => (m, (statusLocked m "VMESS 服务启动已取消", Some e), [])
  | None =>
  match RenderXrayConfig (mgrCfg m) (mgrSub m) with
  | Err e => (m, (statusLocked m "VMESS 配置生成失败", Some e), [])
  | Ok rendered =>
  match marshal rendered with
  | Err e => (m, (statusLocked m "VMESS 配置序列化失败", Some e), [])
  | Ok data =>
      let started := startInstance data in
      let calls := [UseAlternativeSystemDialer (Some dialer); StartInstance data started] in
      match started with
      | Err e => (m, (statusLocked m "内置 VMESS 服务启动失败", Some e),
                  calls ++ [UseAlternativeSystemDialer None])
      | Ok i => let m := setInstance (Some i) m in
                (m, (statusLocked m "内置 VMESS 服务已启动", None), calls)
      end
  end end end end end.

Definition Stop (closeInstance : I → option string) (m : Manager) : outcome :=
  match mgrInstance m with
  | None => (m, (statusLocked m "内置 VMESS 服务未运行", None), [])
  | Some i =>
      let err := closeInstance i in
      let m := setInstance None m in
      (m, (statusLocked m "内置 VMESS 服务已停止", err),
       [CloseInstance i err; UseAlternativeSystemDialer None])
  end.

(** Requests in the order the mutex serves them. *)
Inductive request :=
  | ReqStatus
  | ReqStart (startInstance : string → result I) (ctxErr : option string)
  | ReqStop (closeInstance : I → option string).
Definition serve (r : request) (m : Manager) : outcome :=
  match r with
  | ReqStatus => Status_ m
  | ReqStart answer e => Start answer e m
  | ReqStop answer => Stop answer m
  end.
Fixpoint serveAll (rs : list request) (m : Manager) : Manager * list event :=
  match rs with
  | [] => (m, [])
  | r :: rs => let '(m, _, calls) := serve r m in
               let '(m, calls') := serveAll rs m in (m, calls ++ calls')
  end.
End Manager.
Arguments Manager : clear implicits.
Arguments event : clear implicits.
Arguments request : clear implicits.

(** ** What xray sees *)

(** The process-wide dialer and the instances that run. *)
Record xray (D I : Type) := mkXray { altDialer : option D; liveInstances : list I }.
Arguments mkXray {D I} _ _.
Arguments altDialer {D I} _.
Arguments liveInstances {D I} _.

Section Xray.
Context {D I : Type} `{EqDecision I}.

Definition xrayCall (w : xray D I) (e : event D I) : xray D I :=
  match e with
  | UseAlternativeSystemDialer d => mkXray d (liveInstances w)
  | StartInstance _ (Ok i) => mkXray (altDialer w) (i :: liveInstances w)
  | StartInstance _ (Err _) => w
  | CloseInstance i _ => mkXray (altDialer w) (filter (λ j, j ≠ i) (liveInstances w))
  end.
Definition xrayCalls : xray D I → list (event D I) → xray D I := foldl xrayCall.

(** Between two operations: the manager's instance is the one that runs, and
    the VPN dialer is installed exactly while it runs. *)
Record quiescent (m : Manager D I) (w : xray D I) : Prop := {
  q_live : liveInstances w = option_list (mgrInstance m);
  q_dialer : altDialer w = (if isSome (mgrInstance m) then mgrDialer m else None);
  q_has_dialer : isSome (mgrInstance m) = true → isSome (mgrDialer m) = true
}.

(** At every moment: at most one instance runs, and only over dialer [d]. *)
Definition leakFree (d : option D) (w : xray D I) : Prop :=
  (length (liveInstances w) ≤ 1)%nat ∧ (liveInstances w ≠ [] → altDialer w = d ∧ isSome d = true).

Context (marshal : xrayConfig → result string).

Lemma quiescent_leakFree m w : quiescent m w → leakFree (mgrDialer m) w.
Proof.
  intros [Hl Hd Hh]. unfold leakFree. rewrite Hl, Hd. destruct (mgrInstance m); simpl in *; [|split; [lia|done]].
  split; [lia|]. auto.
Qed.

(** [P] holds before, between and after the calls. *)
Fixpoint always (P : xray D I → Prop) (w : xray D I) (calls : list (event D I)) : Prop :=
  P w ∧ match calls with [] => True | e :: calls => always P (xrayCall w e) calls end.

Lemma always_prefix P w calls tr : always P w calls → tr `prefix_of` calls → P (xrayCalls w tr).
Proof.
  revert w tr. induction calls as [|e calls IH]; intros w tr [Hw Hc] Hp.
  - by apply prefix_nil_inv in Hp as ->.
  - destruct tr as [|e' tr]; [done|]. apply prefix_cons_inv_1 in Hp as Heq; subst.
    apply prefix_cons_inv_2 in Hp. exact (IH _ _ Hc Hp).
Qed.

Lemma always_app P w calls calls' :
  always P w calls → always P (xrayCalls w calls) calls' → always P w (calls ++ calls').
Proof. revert w. induction calls as [|e calls IH]; intros w; [done|]. intros [? ?] ?. split; auto. Qed.

Lemma Start_quiescent answer e m w m' ans calls :
  quiescent m w → Start marshal answer e m = (m', ans, calls) →
  quiescent m' (xrayCalls w calls) ∧ mgrDialer m' = mgrDialer m ∧
  stRunning ans.1 = isSome (mgrInstance m') ∧ always (leakFree (mgrDialer m)) w calls.
Proof.
  intros Q. pose proof (quiescent_leakFree m w Q) as HL. unfold Start. intros H.
  repeat case_hyp H; simplify_eq; try (split_and!; by try split).
  all: match goal with m : Manager D I |- _ => destruct m as [cfg sub dialer inst] end;
    destruct Q as [Hl Hd Hh], w as [alt live]; simplify_eq/=;
    unfold leakFree; simpl; (split_and!; [constructor| ..]); simpl; try done; try lia; apply HL.
Qed.

Lemma Stop_quiescent answer m w m' ans calls :
  quiescent m w → Stop answer m = (m', ans, calls) →
  quiescent m' (xrayCalls w calls) ∧ mgrDialer m' = mgrDialer m ∧
  stRunning ans.1 = isSome (mgrInstance m') ∧ always (leakFree (mgrDialer m)) w calls.
Proof.
  destruct m as [cfg sub dialer inst]. intros Q.
  pose proof (quiescent_leakFree _ w Q) as HL. unfold Stop. intros H.
  case_hyp H; simplify_eq; [|split; [done|split; [done|split; [done|by split]]]].
  destruct Q as [Hl Hd Hh], w as [alt live]; simplify_eq/=.
  rewrite filter_cons_False by tauto. unfold leakFree.
  (split_and!; [constructor|..]); simpl; try done; try lia; auto.
Qed.

Lemma serveAll_quiescent rs m w m' calls :
  quiescent m w → serveAll marshal rs m = (m', calls) →
  quiescent m' (xrayCalls w calls) ∧ mgrDialer m' = mgrDialer m ∧ always (leakFree (mgrDialer m)) w calls.
Proof.
  revert m w m' calls. induction rs as [|r rs IH]; intros m w m' calls Q H; simpl in H.
  { simplify_eq. split_and!; try done. by split; [apply quiescent_leakFree|]. }
  destruct (serve marshal r m) as [[m1 ans] calls1] eqn:E1.
  destruct (serveAll marshal rs m1) as [m2 calls2] eqn:E2. simplify_eq.
  assert (quiescent m1 (xrayCalls w calls1) ∧ mgrDialer m1 = mgrDialer m ∧
          always (leakFree (mgrDialer m)) w calls1) as (Q1 & Hd & Ha).
  { destruct r as [|answer e|answer]; simpl in E1.
    - injection E1 as <- <- <-. split_and!; try done. by split; [apply quiescent_leakFree|].
    - by apply (Start_quiescent _ _ _ w) in E1 as (? & ? & ? & ?).
    - by apply (Stop_quiescent _ _ w) in E1 as (? & ? & ? & ?). }
  destruct (IH _ _ _ _ Q1 E2) as (Q2 & Hd2 & Ha2). unfold xrayCalls. rewrite foldl_app.
  split_and!; [done|congruence|]. rewrite Hd in Ha2. by apply always_app.
Qed.

(** However starts, stops and status requests interleave and whatever
    xray answers, at every moment between two calls on xray at most one
    instance runs, and it only runs while the VPN dialer is installed: no
    proxied connection is ever dialled outside the tunnel. Afterwards the
    manager reports a running core exactly when an instance runs. *)
Theorem proxy_never_leaks cfg sub dialer rs m calls :
  serveAll marshal rs (NewManager cfg sub dialer) = (m, calls) →
  (∀ tr, tr `prefix_of` calls → leakFree dialer (xrayCalls (mkXray None []) tr)) ∧
  quiescent m (xrayCalls (mkXray None []) calls).
Proof.
  intros H.
  assert (quiescent (NewManager cfg sub dialer) (mkXray (D := D) (I := I) None [])) as Q by by constructor.
  destruct (serveAll_quiescent _ _ _ _ _ Q H) as (? & _ & Ha). split; [|done].
  intros tr Ht. exact (always_prefix _ _ _ _ Ha Ht).
Qed.
End Xray.

(** ** What is rendered *)

(** The port of the local SOCKS listener is a number xray accepts. *)
Definition numericSOCKSPort (p : ProxyCoreConfig) : Prop :=
  coreLocalSOCKSEnabled p = true →
  ∃ host rawPort port, splitHostPort (coreLocalSOCKSListen p) = Ok (host, rawPort) ∧
    atoi rawPort = (port, true) ∧ (1 ≤ port ≤ 65535)%Z.

Definition tcpNetwork (s : SubscriptionConfig) : Prop := subNetwork s = "" ∨ subNetwork s = "tcp".

Lemma valueOr_tcp s : valueOr (subNetwork s) "tcp" = "tcp" ↔ tcpNetwork s.
Proof. unfold valueOr, tcpNetwork. case_bool_decide; tauto. Qed.

Lemma render_ok core sub :
  isOk (RenderXrayConfig core sub) = true ↔
  subUUID sub ≠ "" ∧ (1 ≤ subPort sub ≤ 65535)%Z ∧ tcpNetwork sub ∧ numericSOCKSPort core.
Proof.
  unfold RenderXrayConfig, numericSOCKSPort. rewrite <-valueOr_tcp.
  case_bool_decide; [split; [done|tauto]|].
  destruct (_ || _) eqn:Ep; [apply orb_true_iff in Ep; split; [done|intros (_ & ? & _); destruct Ep; bools; lia]|].
  bools. case_bool_decide; [|split; [done|tauto]]. simpl.
  destruct (coreLocalSOCKSEnabled core); [|split; [intros _; split_and!; done || lia|done]].
  destruct (splitHostPort (coreLocalSOCKSListen core)) as [[host raw]|e];
    [|split; [done|intros (_ & _ & _ & Hs); by destruct Hs as (? & ? & ? & ? & _)]].
  destruct (atoi raw) as [port ok] eqn:Ea. simpl. split.
  - destruct ok, (port <? 1)%Z eqn:E1, (65535 <? port)%Z eqn:E2; try done. intros _. bools.
    split_and!; try done; try lia. intros _. exists host, raw, port. split_and!; try done; lia.
  - intros (_ & _ & _ & Hs). destruct Hs as (? & ? & p & [= <- <-] & Hp & ?); [done|].
    rewrite Ea in Hp. injection Hp as -> ->.
    destruct (p <? 1)%Z eqn:E1, (65535 <? p)%Z eqn:E2; bools; try lia. done.
Qed.

Lemma Render_inv core sub x :
  RenderXrayConfig core sub = Ok x →
  ∃ socks,
    x = mkXrayConfig (valueOr (coreLogLevel core) "warning")
      (mkInbound "vmess-in" (valueOr (coreListen core) "0.0.0.0") (subPort sub) "vmess"
         (xrayVMESSInboundSettings [mkClient (subUUID sub) (subAlterID sub) (valueOr (subSecurity sub) "auto")])
         "tcp" :: socks) [mkOutbound "freedom" "vpngate-exit"] ∧
    match socks with
    | [] => coreLocalSOCKSEnabled core = false
    | [i] => coreLocalSOCKSEnabled core = true ∧ ∃ raw, splitHostPort (coreLocalSOCKSListen core) = Ok (inListen i, raw)
        ∧ atoi raw = (inPort i, true) ∧ inSettings i = xraySOCKSInboundSettings "noauth" true (inListen i)
        ∧ inProtocol i = "socks"
    | _ => False
    end.
Proof.
  unfold RenderXrayConfig. intros H. do 3 (case_hyp H; [done|]).
  destruct (coreLocalSOCKSEnabled core) eqn:Es; [|simplify_eq; by exists []].
  destruct (splitHostPort (coreLocalSOCKSListen core)) as [[host raw]|e]; [|done].
  destruct (atoi raw) as [port ok] eqn:Ea. case_hyp H; [done|]. bools. simplify_eq.
  eexists [_]. split; [reflexivity|]. simpl. eauto 10.
Qed.

(** [RenderXrayConfig] succeeds exactly when the UUID is set, the port is
    in range, the transport is TCP and the local SOCKS address, if enabled, has
    a numeric port in range. *)
Theorem render_ok_iff core sub :
  isOk (RenderXrayConfig core sub) = true ↔
  subUUID sub ≠ "" ∧ (1 ≤ subPort sub ≤ 65535)%Z ∧ tcpNetwork sub ∧ numericSOCKSPort core.
Proof. apply render_ok. Qed.

(** The core of a valid configuration listens where the configuration
    says and nowhere else: one VMESS inbound on the configured address and
    port, for the one configured UUID, and, if enabled, one unauthenticated
    SOCKS inbound that is bound to a loopback address. Its only outbound is the
    one that dials through the alternative dialer. *)
Theorem render_exposes_only cfg x :
  validConfig cfg → coreEnabled (cfgProxyCore cfg) = true →
  RenderXrayConfig (cfgProxyCore cfg) (cfgSubscription cfg) = Ok x →
  ∃ vmess socks,
    xrayInbounds x = vmess :: socks ∧ inProtocol vmess = "vmess" ∧
    inListen vmess = coreListen (cfgProxyCore cfg) ∧ inPort vmess = subPort (cfgSubscription cfg) ∧
    inSettings vmess = xrayVMESSInboundSettings
      [mkClient (subUUID (cfgSubscription cfg)) (subAlterID (cfgSubscription cfg))
         (valueOr (subSecurity (cfgSubscription cfg)) "auto")] ∧
    (length socks ≤ 1)%nat ∧
    (∀ i, i ∈ socks → ∃ ip, parseIP (inListen i) = Some ip ∧ isLoopback ip = true) ∧
    xrayOutbounds x = [mkOutbound "freedom" "vpngate-exit"].
Proof.
  intros Hv He Hr. destruct (Render_inv _ _ _ Hr) as (socks & -> & Hs).
  destruct (valid_proxy _ Hv He) as (_ & Hl & Hsocks).
  eexists _, socks. split_and!; try reflexivity; simpl.
  - unfold valueOr. case_bool_decide as Hc; [|done]. rewrite Hc, parseIP_empty in Hl. by destruct Hl.
  - destruct socks as [|i [|]]; simpl; [lia..|done].
  - intros i Hi. destruct socks as [|j [|]]; [by apply elem_of_nil in Hi| |done].
    apply list_elem_of_singleton in Hi as ->. destruct Hs as (Hen & raw & Hsp & _).
    destruct (Hsocks Hen) as (host & port & ip & Hsp' & ? & ?). rewrite Hsp in Hsp'. simplify_eq. eauto.
Qed.

(** With a valid configuration that uses TCP and a numeric SOCKS port,
    starting a stopped core succeeds whenever xray does. *)
Theorem start_runs {D I} (marshal : xrayConfig → result string) (answer : string → result I) cfg (dialer : D) i :
  validConfig cfg → coreEnabled (cfgProxyCore cfg) = true → subEnabled (cfgSubscription cfg) = true →
  tcpNetwork (cfgSubscription cfg) → numericSOCKSPort (cfgProxyCore cfg) →
  (∀ x, isOk (marshal x) = true) → (∀ data, answer data = Ok i) →
  let '(m, (status, err), _) :=
    Start marshal answer None (NewManager (cfgProxyCore cfg) (cfgSubscription cfg) (Some dialer)) in
  err = None ∧ stRunning status = true ∧ mgrInstance m = Some i.
Proof.
  intros Hv He Hs Ht Hn Hm Ha. destruct (valid_subscription _ Hv Hs) as (_ & _ & Hp & Hu).
  assert (isOk (RenderXrayConfig (cfgProxyCore cfg) (cfgSubscription cfg)) = true) as Hr.
  { by apply render_ok. }
  unfold Start. simpl. rewrite He. simpl.
  destruct (RenderXrayConfig _ _) as [x|]; [|done]. specialize (Hm x).
  destruct (marshal x) as [data|]; [|done]. by rewrite Ha.
Qed.

(** The default configuration with credentials, as [Init] writes it, with
    another SOCKS address. *)
Definition withSOCKS (listen : string) (c : Config) : Config :=
  mkConfig (cfgDeployment c) (cfgServer c) (cfgAuth c) (cfgData c) (cfgVPNGate c) (cfgClassifier c)
    (cfgProbe c) (cfgFailover c) (cfgVerify c) (cfgOpenVPN c) (cfgSubscription c)
    (let p := cfgProxyCore c in mkProxyCoreConfig (coreEnabled p) (coreType p) (coreListen p)
       (coreLogLevel p) (coreLocalSOCKSEnabled p) listen).

(** [Validate] does not rule out every core that can never start: the
    generated configuration with the SOCKS address [127.0.0.1:socks] passes
    [Validate], and [RenderXrayConfig] rejects it. *)
Theorem valid_but_unstartable :
  let cfg := withSOCKS "127.0.0.1:socks" quietConfig in
  Validate (U := asciiTables) cfg = None ∧
  RenderXrayConfig (cfgProxyCore cfg) (cfgSubscription cfg) = Err "invalid local SOCKS port".
Proof. split; vm_compute; reflexivity. Qed.

(** ** Concrete runs *)

Definition sampleRequests : list (request nat) :=
  [ReqStart (λ _, Ok 7%nat) None; ReqStatus; ReqStart (λ _, Ok 8%nat) None;
   ReqStop (λ _, Some "close failed"); ReqStart (λ _, Err "port in use") None].
Definition sampleRun : Manager nat nat * list (event nat nat) :=
  serveAll (λ _, Ok "{}") sampleRequests
    (NewManager (cfgProxyCore quietConfig) (cfgSubscription quietConfig) (Some 1%nat)).

Lemma proxy_never_leaks_witness :
  length sampleRun.2 = 7%nat ∧ leakFree (Some 1%nat) (xrayCalls (mkXray None []) (take 2 sampleRun.2)).
Proof.
  split; [vm_compute; reflexivity|].
  exact (proj1 (proxy_never_leaks _ _ _ _ sampleRequests sampleRun.1 sampleRun.2 (surjective_pairing sampleRun)) _
           (prefix_take _ _)).
Defined.

Lemma quietConfig_valid : validConfig quietConfig.
Proof. apply (validate_valid (U := asciiTables)). vm_compute. reflexivity. Qed.

Lemma render_exposes_only_witness :
  ∃ x vmess socks, RenderXrayConfig (cfgProxyCore quietConfig) (cfgSubscription quietConfig) = Ok x ∧
    xrayInbounds x = vmess :: socks ∧ inPort vmess = 10086%Z.
Proof.
  destruct (RenderXrayConfig (cfgProxyCore quietConfig) (cfgSubscription quietConfig)) as [x|] eqn:E;
    [|by vm_compute in E].
  destruct (render_exposes_only quietConfig x quietConfig_valid eq_refl E) as (v & s & ? & ? & ? & ? & _).
  exists x, v, s. by split_and!.
Defined.

Lemma start_runs_witness :
  let '(m, (status, err), _) :=
    Start (D := nat) (λ _, Ok "{}") (λ _, Ok 7%nat) None
      (NewManager (cfgProxyCore quietConfig) (cfgSubscription quietConfig) (Some 1%nat)) in
  err = None ∧ stRunning status = true ∧ mgrInstance m = Some 7%nat.
Proof.
  apply (start_runs (λ _, Ok "{}") (λ _, Ok 7%nat) quietConfig 1%nat 7%nat quietConfig_valid); try reflexivity.
  - by right.
  - intros _. eexists _, _, _. split_and!; [vm_compute; reflexivity..| |]; vm_compute; done.
Defined.
