(* ===== verification/Subscription.v ===== *)
(** * [internal/subscription]: client subscriptions

    The three subscription formats, the address they advertise and the helpers
    of [vmess.go]. The network interfaces of the host ([net.InterfaceAddrs]) are
    a parameter. *)

From S2P Require Import Prelude GoStrings GoNet GoCodec Domain Config ProxyCore.

Record vmessLink := mkLink {
  Version : string;
  Name : string;
  Address : string;
  Port : string;
  ID_ : string;
  AlterID : string;
  Security : string;
  Network : string;
  Type_ : string;
  Host : string;
  Path : string;
  TLS : string;
  SNI : string
}.

(** The JSON members of a link, in the order of the struct. *)
Definition linkMembers (l : vmessLink) : list (string * string) :=
  [("v", Version l); ("ps", Name l); ("add", Address l); ("port", Port l); ("id", ID_ l);
   ("aid", AlterID l); ("scy", Security l); ("net", Network l); ("type", Type_ l);
   ("host", Host l); ("path", Path l); ("tls", TLS l); ("sni", SNI l)].

(** [json.Marshal] of a struct of strings; it cannot fail. *)
Definition jsonMember (kv : string * string) : bytes := jsonString kv.1 ++ s2l ":" ++ jsonString kv.2.
Fixpoint jsonMembers (l : list (string * string)) : bytes :=
  match l with
  | [] => []
  | [kv] => jsonMember kv
  | kv :: l => jsonMember kv ++ s2l "," ++ jsonMembers l
  end.
Definition jsonObject (l : list (string * string)) : bytes := s2l "{" ++ jsonMembers l ++ s2l "}".

(** ** The advertised address *)

(** [net.Addr]: the two kinds [extractIP] knows, and any other. *)
Inductive Addr := IPNet (ip : IP) | IPAddr (ip : IP) | OtherAddr.

Definition extractIP (addr : Addr) : option IP :=
  match addr with IPNet ip => Some ip | IPAddr ip => Some ip | OtherAddr => None end.

Definition skipAddr (ip : IP) : bool :=
  negb (isGlobalUnicast ip) || isLoopback ip || isUnspecified ip || bool_decide (to4 ip = None).

Fixpoint detectLoop (addrs : list Addr) (private public : string) : string * string :=
  match addrs with
  | [] => (private, public)
  | addr :: addrs =>
      match extractIP addr with
      | None => detectLoop addrs private public
      | Some ip =>
          if skipAddr ip then detectLoop addrs private public
          else if isPrivate ip then
            detectLoop addrs (if bool_decide (private = "") then ipString ip else private) public
          else detectLoop addrs private (if bool_decide (public = "") then ipString ip else public)
      end
  end.

Definition detectLocalHostCandidates (addrs : result (list Addr)) : string * string :=
  match addrs with Err _ => ("", "") | Ok addrs => detectLoop addrs "" "" end.

Definition resolveHostFromCandidates (private public : string) : string :=
  if negb (bool_decide (private = "")) then private
  else if negb (bool_decide (public = "")) then public
  else "127.0.0.1".

(** ** The formats *)

Section Formats.
Context {U : UnicodeTables} (addrs : result (list Addr)).

Definition ResolveHost (host : string) : string :=
  let trimmed := trimSpace host in
  fail_if negb (bool_decide (trimmed = "")) && negb (equalFold trimmed "auto") with trimmed ;;
  let '(private, public) := detectLocalHostCandidates addrs in
  resolveHostFromCandidates private public.

(** The counters of the loop; a slice has fewer than 2^63 elements. *)
Fixpoint countNodes (nodes : list VpnNode) (strict available : Z) : Z * Z :=
  match nodes with
  | [] => (strict, available)
  | node :: nodes =>
      countNodes nodes
        (if decide (PurityGrade node = PurityStrictHome) then (strict + 1)%Z else strict)
        (if decide (Domain.Status node = NodeAvailable) then (available + 1)%Z else available)
  end.

Definition subscriptionName (nodes : list VpnNode) : string :=
  let '(strict, available) := countNodes nodes 0 0 in
  if (0 <? strict)%Z || (0 <? available)%Z
  then "Residential IP Manager " +:+ itoa strict +:+ " strict " +:+ itoa available +:+ " available"
  else "Residential IP Manager".

Fixpoint joinLinesFrom (out : string) (lines : list string) : string :=
  match lines with [] => out | line :: lines => joinLinesFrom (out +:+ nl +:+ line) lines end.
Definition joinLines (lines : list string) : string :=
  match lines with [] => "" | line :: lines => joinLinesFrom line lines end.

Definition yamlQuote (value : string) : string := replaceAll value dquote ("\" +:+ dquote).

Definition vmessPayload (cfg : SubscriptionConfig) (nodes : list VpnNode) : vmessLink :=
  mkLink "2" (subscriptionName nodes) (ResolveHost (subHost cfg)) (itoa (subPort cfg)) (subUUID cfg)
    (itoa (subAlterID cfg)) (valueOr (subSecurity cfg) "auto") (valueOr (subNetwork cfg) "tcp")
    "none" "" "" "" "".

Definition VMESS (cfg : SubscriptionConfig) (nodes : list VpnNode) : result string :=
  fail_if negb (subEnabled cfg) with Err "subscription is disabled" ;;
  let data := jsonObject (linkMembers (vmessPayload cfg nodes)) in
  let links := ["vmess://" +:+ encodeToString data] in
  Ok (encodeToString (s2l (joinLines links))).

Definition yamlField (key value : string) : string := key +:+ ": " +:+ dquote +:+ value +:+ dquote.
Definition ClashYAML (cfg : SubscriptionConfig) (nodes : list VpnNode) : result string :=
  fail_if negb (subEnabled cfg) with Err "subscription is disabled" ;;
  Ok ("proxies:" +:+ nl +:+
      "  - { " +:+ yamlField "name" (yamlQuote (subscriptionName nodes)) +:+
      ", type: vmess, " +:+ yamlField "server" (yamlQuote (ResolveHost (subHost cfg))) +:+
      ", port: " +:+ itoa (subPort cfg) +:+
      ", " +:+ yamlField "uuid" (yamlQuote (subUUID cfg)) +:+
      ", alterId: " +:+ itoa (subAlterID cfg) +:+
      ", " +:+ yamlField "cipher" (yamlQuote (valueOr (subSecurity cfg) "auto")) +:+
      ", " +:+ yamlField "network" (yamlQuote (valueOr (subNetwork cfg) "tcp")) +:+
      ", udp: true }" +:+ nl).

(** [strings.NewReplacer] of comma, LF and CR by a space. *)
Definition blankSeparators (s : string) : string :=
  l2s ((λ c, if bool_decide (c ∈ [byte_of 44; byte_of 10; byte_of 13]) then byte_of 32 else c) <$> s2l s).

Definition quantumultMethod (security : string) : string :=
  let method := toLower (trimSpace security) in
  if bool_decide (method ∈ ["aes-128-gcm"; "chacha20-poly1305"; "none"]) then method
  else "chacha20-poly1305".

Definition QuantumultX (cfg : SubscriptionConfig) (nodes : list VpnNode) : result string :=
  fail_if negb (subEnabled cfg) with Err "subscription is disabled" ;;
  fail_if negb (equalFold (valueOr (subNetwork cfg) "tcp") "tcp")
    with Err "Quantumult X subscription currently supports tcp transport" ;;
  Ok ("vmess=" +:+ ResolveHost (subHost cfg) +:+ ":" +:+ itoa (subPort cfg) +:+
      ", method=" +:+ quantumultMethod (subSecurity cfg) +:+ ", password=" +:+ subUUID cfg +:+
      ", obfs=none, fast-open=false, udp-relay=true, tag=" +:+
      blankSeparators (subscriptionName nodes) +:+ nl).
End Formats.

(** [splitLines]: by runes, empty lines dropped. *)
Fixpoint splitRunes (current : string) (rs : list N) : list string :=
  match rs with
  | [] => if bool_decide (current = "") then [] else [current]
  | r :: rs =>
      if bool_decide (r = 10)%N
      then (if bool_decide (current = "") then [] else [current]) ++ splitRunes "" rs
      else splitRunes (current +:+ l2s (encodeRune r)) rs
  end.
Definition splitNonEmptyLines (value : string) : list string := splitRunes "" (runes (s2l value)).

(** ** Reading a subscription as a client does *)

Fixpoint readMembers (fuel : nat) (l : bytes) : option (list (string * string)) :=
  match fuel with
  | O => None
  | S fuel =>
      match jsonReadString l with
      | Some (k, c :: l1) =>
          if bool_decide (code c = 58)%N then
            match jsonReadString l1 with
            | Some (v, d :: l2) =>
                if bool_decide (code d = 44)%N then cons (k, v) <$> readMembers fuel l2
                else if bool_decide (code d = 125)%N && bool_decide (l2 = []) then Some [(k, v)]
                else None
            | _ => None
            end
          else None
      | _ => None
      end
  end.

(** A JSON object of strings; a member takes at least one byte. *)
Definition readObject (l : bytes) : option (list (string * string)) :=
  match l with
  | c :: l => if bool_decide (code c = 123)%N then readMembers (length l) l else None
  | [] => None
  end.

Definition readLink (line : string) : option (list (string * string)) :=
  if hasPrefix line "vmess://"
  then decodeString (trimPrefix line "vmess://") ≫= readObject else None.
Definition readSubscription (s : string) : option (list (list (string * string))) :=
  decodeString s ≫= λ l, mapM readLink (GoStrings.splitLines (l2s l)).

Definition asciiMembers (l : list (string * string)) : Prop :=
  Forall (λ kv, isASCII kv.1 ∧ isASCII kv.2) l.

Local Opaque jsonString jsonReadString.

Lemma readMembers_spec kvs fuel :
  asciiMembers kvs → kvs ≠ [] → (length kvs ≤ fuel)%nat →
  readMembers fuel (jsonMembers kvs ++ s2l "}") = Some kvs.
Proof.
  intros Ha. revert fuel. induction Ha as [|[k v] kvs [Hk Hv] Ha IH]; intros fuel Hne Hf; [done|].
  destruct fuel as [|fuel]; simpl in Hf; [lia|]. cbn [readMembers]. simpl in Hk, Hv.
  destruct kvs as [|kv kvs].
  - cbn [jsonMembers]. unfold jsonMember. cbn [fst snd].
    rewrite <-!app_assoc, jsonReadString_jsonString by done. simpl (s2l ":" ++ _). cbn iota.
    rewrite bool_decide_true by done. by rewrite jsonReadString_jsonString.
  - change (jsonMembers ((k, v) :: kv :: kvs)) with (jsonMember (k, v) ++ s2l "," ++ jsonMembers (kv :: kvs)).
    unfold jsonMember at 1. cbn [fst snd].
    rewrite <-!app_assoc, jsonReadString_jsonString by done. simpl (s2l ":" ++ _). cbn iota.
    rewrite bool_decide_true by done. rewrite jsonReadString_jsonString by done.
    simpl (s2l "," ++ _). cbn iota. rewrite bool_decide_true by done.
    rewrite IH; [done|done|lia].
Qed.

Lemma jsonMembers_length kvs : (length kvs ≤ length (jsonMembers kvs))%nat.
Proof.
  induction kvs as [|kv kvs IH]; [simpl; lia|]. destruct kvs as [|kv' kvs].
  { cbn [jsonMembers]. unfold jsonMember. rewrite !length_app. simpl. lia. }
  change (jsonMembers (kv :: kv' :: kvs)) with (jsonMember kv ++ s2l "," ++ jsonMembers (kv' :: kvs)).
  rewrite !length_app. simpl in *. lia.
Qed.

Lemma readObject_spec kvs : asciiMembers kvs → kvs ≠ [] → readObject (jsonObject kvs) = Some kvs.
Proof.
  intros Ha Hne. unfold jsonObject. simpl. apply readMembers_spec; [done|done|].
  rewrite length_app. pose proof (jsonMembers_length kvs). lia.
Qed.

Lemma readLink_spec kvs : asciiMembers kvs → kvs ≠ [] →
  readLink ("vmess://" +:+ encodeToString (jsonObject kvs)) = Some kvs.
Proof.
  intros. unfold readLink. rewrite hasPrefix_app, trimPrefix_app, decodeString_encodeToString.
  simpl. by apply readObject_spec.
Qed.

Lemma digit_ascii c : is_Some (digit c) → (code c < 128)%N.
Proof. unfold digit. intros [d Hd]. case_bool_decide; [lia|done]. Qed.
Lemma itoa_ascii z : isASCII (itoa z).
Proof. apply Forall_forall. intros c [->|Hd]%itoa_elem; [done|by apply digit_ascii]. Qed.
Lemma isASCII_app s t : isASCII (s +:+ t) ↔ isASCII s ∧ isASCII t.
Proof. unfold isASCII. by rewrite s2l_app, Forall_app. Qed.
Lemma subscriptionName_ascii nodes : isASCII (subscriptionName nodes).
Proof.
  unfold subscriptionName. destruct (countNodes nodes 0 0). case_goal; [|decided].
  rewrite !isASCII_app. split_and!; apply itoa_ascii || decided.
Qed.
Lemma valueOr_ascii s d : isASCII s → isASCII d → isASCII (valueOr s d).
Proof. unfold valueOr. by case_bool_decide. Qed.

(** ** What a client gets *)

Section Client.
Context {U : UnicodeTables} (addrs : result (list Addr)).

(** The configured strings that reach the link are ASCII, as host names,
    UUIDs and cipher names are. *)
Record asciiSubscription (cfg : SubscriptionConfig) : Prop := {
  as_host : isASCII (ResolveHost addrs (subHost cfg));
  as_uuid : isASCII (subUUID cfg);
  as_security : isASCII (subSecurity cfg);
  as_network : isASCII (subNetwork cfg)
}.

Lemma vmess_read cfg nodes :
  subEnabled cfg = true → asciiSubscription cfg →
  ∃ s, VMESS addrs cfg nodes = Ok s ∧ readSubscription s = Some [linkMembers (vmessPayload addrs cfg nodes)].
Proof.
  intros He [Hh Hu Hs Hn]. unfold VMESS. rewrite He. eexists. split; [reflexivity|].
  unfold readSubscription. rewrite decodeString_encodeToString. cbn [mbind option_bind]. rewrite l2s_s2l.
  cbn [joinLines joinLinesFrom]. match goal with |- context [GoStrings.splitLines ?l] => set (line := l) end.
  assert (GoStrings.splitLines line = [line]) as ->.
  { unfold GoStrings.splitLines. rewrite splitb_single; [cbn; by rewrite l2s_s2l|].
    unfold line. rewrite s2l_app. intros [Hin|Hin]%elem_of_app.
    - revert Hin. decided.
    - unfold encodeToString in Hin. rewrite s2l_l2s in Hin. by eapply b64Encode_lacks in Hin. }
  cbn [mapM]. unfold line. rewrite readLink_spec; [done| |done].
  repeat (apply Forall_cons; split); [..|apply Forall_nil; done];
    (split; [decided|]); unfold vmessPayload;
    cbn [fst snd Version Name Address Port ID_ AlterID Security Network Type_ Host Path TLS SNI];
    first [ assumption | apply subscriptionName_ascii | apply itoa_ascii
          | apply valueOr_ascii; [assumption|decided] | decided ].
Qed.


(** The link a client reads names the port, the UUID, the alter id, the
    cipher and the transport of the VMESS inbound the core serves. *)
Theorem vmess_link_matches_core core cfg nodes x :
  subEnabled cfg = true → asciiSubscription cfg → RenderXrayConfig core cfg = Ok x →
  ∃ s link vmess client,
    VMESS addrs cfg nodes = Ok s ∧ readSubscription s = Some [link] ∧
    head (xrayInbounds x) = Some vmess ∧ inSettings vmess = xrayVMESSInboundSettings [client] ∧
    [("port", itoa (inPort vmess)); ("id", clientID client); ("aid", itoa (clientAlterID client));
     ("scy", clientSecurity client); ("net", inNetwork vmess)] ⊆ link.
Proof.
  intros He Ha Hr. destruct (vmess_read cfg nodes He Ha) as (s & Hs & Hread).
  assert (tcpNetwork cfg) as Ht%valueOr_tcp by (apply (render_ok core); by rewrite Hr).
  destruct (Render_inv _ _ _ Hr) as (socks & -> & _).
  eexists s, _, _, _. split_and!; [exact Hs|exact Hread|reflexivity..|].
  unfold linkMembers, vmessPayload. cbn. rewrite Ht. intros kv. rewrite !elem_of_cons. tauto.
Qed.

(** ** The other formats *)

Lemma splitb_join sep parts : parts ≠ [] → Forall (lacks sep) parts →
  splitb sep (s2l (join (l2s [sep]) parts)) = s2l <$> parts.
Proof.
  intros Hne Hf. induction Hf as [|p parts Hp Hf IH]; [done|].
  destruct parts as [|q parts]; [by apply splitb_single|].
  change (join (l2s [sep]) (p :: q :: parts)) with (p +:+ l2s [sep] +:+ join (l2s [sep]) (q :: parts)).
  rewrite !s2l_app, s2l_l2s. change ([sep] ++ ?l) with (sep :: l).
  rewrite splitb_app_sep, IH; done.
Qed.

Lemma lacks_app c s t : lacks c (s +:+ t) ↔ lacks c s ∧ lacks c t.
Proof. unfold lacks. rewrite s2l_app, elem_of_app. tauto. Qed.
Lemma itoa_lacks c z : c ≠ byte_of 45 → digit c = None → lacks c (itoa z).
Proof. intros ? Hd [?|[d E]]%itoa_elem; congruence. Qed.
Lemma blankSeparators_lacks c s : c ∈ [byte_of 44; byte_of 10; byte_of 13] → lacks c (blankSeparators s).
Proof.
  unfold lacks, blankSeparators. rewrite s2l_l2s. intros Hc (d & E & _)%list_elem_of_fmap.
  case_bool_decide; [|congruence]. subst. revert Hc. decided.
Qed.
Lemma quantumultMethod_lacks c s : c ∈ [byte_of 44; byte_of 10] → lacks c (quantumultMethod s).
Proof.
  unfold quantumultMethod. intros Hc.
  assert (∀ m, m ∈ ["aes-128-gcm"; "chacha20-poly1305"; "none"] → lacks c m) as Hm.
  { intros m Hin. rewrite !elem_of_cons, elem_of_nil in Hc. rewrite !elem_of_cons, elem_of_nil in Hin.
    unfold lacks. destruct_or? Hc; try done; destruct_or? Hin; try done; subst; decided. }
  case_bool_decide; [by apply Hm|]. apply Hm. decided.
Qed.

(** The parts of a Quantumult X line. *)
Definition quantumultParts (cfg : SubscriptionConfig) (nodes : list VpnNode) : list string :=
  ["vmess=" +:+ ResolveHost addrs (subHost cfg) +:+ ":" +:+ itoa (subPort cfg);
   " method=" +:+ quantumultMethod (subSecurity cfg); " password=" +:+ subUUID cfg;
   " obfs=none"; " fast-open=false"; " udp-relay=true";
   " tag=" +:+ blankSeparators (subscriptionName nodes)].

Lemma quantumultParts_lack c cfg nodes : c ∈ [byte_of 44; byte_of 10] →
  lacks c (ResolveHost addrs (subHost cfg)) → lacks c (subUUID cfg) →
  Forall (lacks c) (quantumultParts cfg nodes).
Proof.
  intros Hc Hh Hu. pose proof (quantumultMethod_lacks c (subSecurity cfg) Hc) as Hm.
  assert (lacks c (blankSeparators (subscriptionName nodes))) as Hb.
  { apply blankSeparators_lacks. rewrite !elem_of_cons in *. tauto. }
  rewrite !elem_of_cons, elem_of_nil in Hc. unfold quantumultParts.
  destruct_or? Hc; try done; subst;
    repeat (apply Forall_cons; split); try apply Forall_nil; try done; rewrite ?lacks_app; split_and?;
    first [ assumption | apply itoa_lacks; done | unfold lacks; decided ].
Qed.

(** A Quantumult X subscription is one line with exactly the seven
    comma-separated parts it is meant to have, when host and UUID hold no comma
    or newline: the part that depends on the nodes cannot add any. *)
Theorem quantumult_parts cfg nodes s :
  lacks (byte_of 44) (ResolveHost addrs (subHost cfg)) → lacks (byte_of 44) (subUUID cfg) →
  lacks (byte_of 10) (ResolveHost addrs (subHost cfg)) → lacks (byte_of 10) (subUUID cfg) →
  QuantumultX addrs cfg nodes = Ok s →
  ∃ line, s = line +:+ nl ∧ lacks (byte_of 10) line ∧
    l2s <$> splitb (byte_of 44) (s2l line) = quantumultParts cfg nodes.
Proof.
  intros Hh Hu Hh' Hu' H. unfold QuantumultX in H. repeat case_hyp H; simplify_eq.
  exists (join (l2s [byte_of 44]) (quantumultParts cfg nodes)). split_and!.
  - apply s2l_inj. unfold quantumultParts. cbn [join]. rewrite !s2l_app, <-?app_assoc. reflexivity.
  - apply join_lacks; [unfold lacks; decided|]. apply quantumultParts_lack; [decided|done..].
  - rewrite splitb_join; [|done|apply quantumultParts_lack; [decided|done..]].
    rewrite <-list_fmap_compose, (list_fmap_ext _ id) by (intros; apply l2s_s2l). by rewrite list_fmap_id.
Qed.

(** The addresses [detectLocalHostCandidates] considers: IPv4, global unicast. *)
Definition usableIPs (l : list Addr) : list IP :=
  filter (λ ip, skipAddr ip = false) (omap extractIP l).

Lemma join_nonempty sep a b l : sep ≠ "" → join sep (a :: b :: l) ≠ "".
Proof.
  intros Hs E. apply (f_equal s2l) in E.
  change (join sep (a :: b :: l)) with (a +:+ sep +:+ join sep (b :: l)) in E.
  rewrite !s2l_app in E. apply app_eq_nil in E as [_ [E _]%app_eq_nil]. by destruct sep.
Qed.

Lemma ipString_nonempty ip : skipAddr ip = false → ipString ip ≠ "".
Proof.
  unfold skipAddr, ipString, to4. intros H.
  destruct (bool_decide (length ip = 16%nat)) eqn:El; simpl in *; [|by rewrite orb_true_r in H].
  destruct (bool_decide (take 12 ip = v4prefix)); simpl in *; [|by rewrite orb_true_r in H].
  apply bool_decide_eq_true in El. do 16 (destruct ip as [|? ip]; [done|]). by apply join_nonempty.
Qed.

Definition firstString (l : list IP) (dflt : string) : string :=
  match l with [] => dflt | ip :: _ => ipString ip end.

Lemma detectLoop_spec l private public :
  detectLoop l private public =
  (if bool_decide (private = "") then firstString (filter (λ ip, isPrivate ip = true) (usableIPs l)) "" else private,
   if bool_decide (public = "") then firstString (filter (λ ip, isPrivate ip = false) (usableIPs l)) "" else public).
Proof.
  revert private public. induction l as [|a l IH]; intros private public.
  { simpl. do 2 case_bool_decide; by subst. }
  cbn [detectLoop]. unfold usableIPs. cbn [omap list_omap].
  destruct (extractIP a) as [ip|]; [|apply IH]. rewrite filter_cons.
  destruct (skipAddr ip) eqn:Es; [rewrite decide_False by done; apply IH|].
  rewrite decide_True by done. pose proof (ipString_nonempty ip Es) as Hne. fold (usableIPs l).
  rewrite !filter_cons. destruct (isPrivate ip) eqn:Ep; rewrite IH;
    repeat case_decide; try congruence; repeat case_bool_decide; try congruence; done.
Qed.

(** [ResolveHost] keeps an explicit host, trimmed; for an empty host or
    [auto] it is the first private IPv4 address of the host's interfaces, else
    the first other global one, else the loopback address. *)
Theorem resolve_host_spec host :
  ResolveHost addrs host =
  let trimmed := trimSpace host in
  if negb (bool_decide (trimmed = "")) && negb (equalFold trimmed "auto") then trimmed
  else match addrs with
  | Err _ => "127.0.0.1"
  | Ok l =>
      firstString (filter (λ ip, isPrivate ip = true) (usableIPs l))
        (firstString (filter (λ ip, isPrivate ip = false) (usableIPs l)) "127.0.0.1")
  end.
Proof.
  unfold ResolveHost. cbv zeta. case_goal; [done|]. destruct addrs as [l|e]; [|done].
  unfold detectLocalHostCandidates. rewrite detectLoop_spec, !bool_decide_true by done.
  assert (∀ p ip rest, filter (λ ip, isPrivate ip = p) (usableIPs l) = ip :: rest → ipString ip ≠ "") as Hne.
  { intros p ip rest E. apply ipString_nonempty.
    assert (ip ∈ filter (λ ip, isPrivate ip = p) (usableIPs l)) as Hin by (rewrite E; by left).
    apply list_elem_of_filter in Hin as [_ Hin]. by apply list_elem_of_filter in Hin as [? _]. }
  unfold resolveHostFromCandidates.
  destruct (filter (λ ip, isPrivate ip = true) (usableIPs l)) as [|ip1 r1] eqn:E1; simpl.
  - destruct (filter (λ ip, isPrivate ip = false) (usableIPs l)) as [|ip2 r2] eqn:E2; simpl; [done|].
    by rewrite bool_decide_false by eauto.
  - by rewrite bool_decide_false by eauto.
Qed.
End Client.

(** ** YAML scalars *)

Definition backslash : ascii := byte_of 92.

(** The body of a double-quoted YAML scalar up to its closing quote: the value
    and the text behind it; of the escapes only the quote and the backslash. *)
Fixpoint yamlScalar (l : bytes) : option (bytes * bytes) :=
  match l with
  | [] => None
  | c :: l1 =>
      if bool_decide (code c = 34)%N then Some ([], l1)
      else if bool_decide (c = backslash) then
        match l1 with
        | e :: l2 => if bool_decide (code e = 34)%N || bool_decide (e = backslash)
                     then prod_map (cons e) id <$> yamlScalar l2 else None
        | [] => None
        end
      else prod_map (cons c) id <$> yamlScalar l1
  end.

Lemma yamlScalar_quoted l rest : backslash ∉ l →
  yamlScalar (replaceb [byte_of 34] [backslash; byte_of 34] 0 l ++ rest) =
  prod_map (app l) id <$> yamlScalar rest.
Proof.
  induction l as [|c l IH]; intros Hl.
  { simpl. by destruct (yamlScalar rest) as [[]|]. }
  apply not_elem_of_cons in Hl as [Hc Hl]. cbn [replaceb prefixb]. rewrite andb_true_r.
  case_bool_decide as Hq.
  - subst c. cbn [app yamlScalar length Nat.sub].
    rewrite (bool_decide_false (code backslash = 34)%N), bool_decide_true by done.
    rewrite (bool_decide_true (code (byte_of 34) = 34)%N) by done. cbn [orb].
    rewrite IH by done. by destruct (yamlScalar rest) as [[]|].
  - cbn [app yamlScalar]. rewrite bool_decide_false, bool_decide_false by
      (done || intros E; apply Hq; rewrite <-(byte_of_code c), E; done).
    rewrite IH by done. by destruct (yamlScalar rest) as [[]|].
Qed.

Lemma s2l_yamlQuote v : s2l (yamlQuote v) = replaceb [byte_of 34] [backslash; byte_of 34] 0 (s2l v).
Proof. unfold yamlQuote, replaceAll. by rewrite s2l_l2s. Qed.

(** Every value of the Clash document that has no backslash is read back
    by a YAML reader: the scalar ends at the quote the document puts behind it,
    whatever quotes the value contains. *)
Theorem clash_scalar_reads_back v rest :
  lacks backslash v → yamlScalar (s2l (yamlQuote v +:+ dquote +:+ rest)) = Some (s2l v, s2l rest).
Proof.
  intros Hv. rewrite s2l_app, s2l_yamlQuote, yamlScalar_quoted by done.
  rewrite s2l_app. simpl. by rewrite app_nil_r.
Qed.

(** [yamlQuote] does not escape backslashes: the scalar of a value that
    ends in one does not end at its closing quote, it runs on into the rest of
    the document. *)
Theorem clash_scalar_backslash v rest :
  lacks backslash v →
  yamlScalar (s2l (yamlQuote (v +:+ "\") +:+ dquote +:+ rest)) =
  prod_map (app (s2l v ++ [byte_of 34])) id <$> yamlScalar (s2l rest).
Proof.
  intros Hv. rewrite s2l_app, s2l_yamlQuote, s2l_app.
  assert (∀ l, backslash ∉ l → replaceb [byte_of 34] [backslash; byte_of 34] 0 (l ++ [backslash]) =
    replaceb [byte_of 34] [backslash; byte_of 34] 0 l ++ [backslash]) as Hr.
  { induction l as [|c l IH]; intros Hl; [done|]. apply not_elem_of_cons in Hl as [? ?].
    cbn [app replaceb prefixb]. rewrite andb_true_r. case_bool_decide; cbn [length Nat.sub]; by rewrite IH. }
  change (s2l "\") with [backslash]. rewrite Hr by done. rewrite <-app_assoc, yamlScalar_quoted by done.
  rewrite s2l_app. change (s2l dquote) with [byte_of 34]. cbn [app yamlScalar].
  rewrite (bool_decide_false (code backslash = 34)%N) by done. rewrite bool_decide_true by done.
  rewrite (bool_decide_true (code (byte_of 34) = 34)%N) by done. cbn [orb].
  destruct (yamlScalar (s2l rest)) as [[a b]|]; [|done]. cbn. by rewrite <-app_assoc.
Qed.

(** ** [joinLines] and [splitLines] *)

Lemma joinLinesFrom_app out lines :
  s2l (joinLinesFrom out lines) = s2l out ++ (lines ≫= λ line, byte_of 10 :: s2l line).
Proof.
  revert out. induction lines as [|line lines IH]; intros out; cbn [joinLinesFrom mbind list_bind].
  - by rewrite app_nil_r.
  - by rewrite IH, !s2l_app, s2l_nl, <-!app_assoc.
Qed.

Definition plainLine (line : string) : Prop := isASCII line ∧ lacks (byte_of 10) line ∧ line ≠ "".

Lemma splitRunes_line cur l rs : Forall (λ c, (code c < 128)%N) l → byte_of 10 ∉ l →
  splitRunes cur ((code <$> l) ++ rs) = splitRunes (cur +:+ l2s l) rs.
Proof.
  intros Ha. revert cur. induction Ha as [|c l Hc Ha IH]; intros cur Hl.
  { f_equal. apply s2l_inj. by rewrite s2l_app, s2l_l2s, app_nil_r. }
  apply not_elem_of_cons in Hl as [Hn Hl]. cbn [fmap list_fmap app splitRunes].
  rewrite bool_decide_false; [|intros E; apply Hn; by rewrite <-(byte_of_code c), E].
  rewrite IH by done. f_equal. unfold encodeRune. rewrite bool_decide_true, byte_of_code by done.
  apply s2l_inj. by rewrite !s2l_app, !s2l_l2s, <-app_assoc.
Qed.

Lemma runes_ascii l : Forall (λ c, (code c < 128)%N) l → runes l = code <$> l.
Proof. intros Ha. unfold runes. rewrite decodeRunes_ascii by done. by rewrite <-list_fmap_compose. Qed.

(** [splitLines] undoes [joinLines] on non-empty ASCII lines. *)
Theorem split_join_lines lines : Forall plainLine lines → splitNonEmptyLines (joinLines lines) = lines.
Proof.
  intros Hf. destruct Hf as [|line lines (Ha & Hn & He) Hf]; [done|].
  unfold splitNonEmptyLines. cbn [joinLines]. rewrite joinLinesFrom_app.
  rewrite runes_ascii.
  2: { apply Forall_app; split; [done|]. apply Forall_bind. eapply Forall_impl; [exact Hf|].
       intros w (Hw & _ & _). constructor; [decided|exact Hw]. }
  rewrite fmap_app, splitRunes_line, l2s_s2l by done. change ("" +:+ line) with line.
  revert line Ha Hn He. induction Hf as [|w lines (Ha' & Hn' & He') Hf IH]; intros line Ha Hn He.
  { cbn. by rewrite bool_decide_false. }
  cbn [mbind list_bind]. rewrite fmap_app, fmap_cons.
  cbn [app splitRunes]. rewrite (bool_decide_true (code (byte_of 10) = 10)%N), (bool_decide_false (line = "")) by done.
  rewrite splitRunes_line, l2s_s2l by done. cbn [app]. f_equal. by apply IH.
Qed.

(** ** Concrete subscriptions *)

Definition sampleAddrs : result (list Addr) :=
  Ok [IPNet (default [] (parseIP "127.0.0.1")); IPNet (default [] (parseIP "203.0.113.8"));
      OtherAddr; IPAddr (default [] (parseIP "192.168.1.20"))].
Definition sampleSub : SubscriptionConfig := cfgSubscription quietConfig.

Example resolve_auto : ResolveHost (U := asciiTables) sampleAddrs " Auto " = "192.168.1.20".
Proof. vm_compute. reflexivity. Qed.

Lemma sampleSub_ascii : asciiSubscription (U := asciiTables) sampleAddrs sampleSub.
Proof. constructor; decided. Qed.


Lemma vmess_link_matches_core_witness :
  ∃ x s link, RenderXrayConfig (cfgProxyCore quietConfig) sampleSub = Ok x ∧
    VMESS (U := asciiTables) sampleAddrs sampleSub [] = Ok s ∧ readSubscription s = Some [link].
Proof.
  destruct (RenderXrayConfig (cfgProxyCore quietConfig) sampleSub) as [x|] eqn:E; [|by vm_compute in E].
  destruct (vmess_link_matches_core (U := asciiTables) sampleAddrs (cfgProxyCore quietConfig) sampleSub [] x
              eq_refl sampleSub_ascii E) as (s & link & v & c & ? & ? & _).
  exists x, s, link. by split_and!.
Defined.

Lemma quantumult_parts_witness :
  ∃ s line, QuantumultX (U := asciiTables) sampleAddrs sampleSub [] = Ok s ∧ s = line +:+ nl.
Proof.
  destruct (QuantumultX (U := asciiTables) sampleAddrs sampleSub []) as [s|] eqn:E; [|by vm_compute in E].
  destruct (quantumult_parts (U := asciiTables) sampleAddrs sampleSub [] s) as (line & ? & _);
    [unfold lacks; decided..|exact E|].
  by exists s, line.
Defined.

Lemma clash_scalar_reads_back_witness :
  yamlScalar (s2l (yamlQuote (dquote +:+ "x" +:+ dquote) +:+ dquote +:+ ", udp: true")) =
  Some (s2l (dquote +:+ "x" +:+ dquote), s2l ", udp: true").
Proof. apply (clash_scalar_reads_back (dquote +:+ "x" +:+ dquote) ", udp: true"). unfold lacks. decided. Defined.

Lemma clash_scalar_backslash_witness :
  yamlScalar (s2l (yamlQuote ("id" +:+ "\") +:+ dquote +:+ ", alterId: 0")) = None.
Proof.
  rewrite (clash_scalar_backslash "id" ", alterId: 0"); [vm_compute; reflexivity|].
  unfold lacks. decided.
Defined.

Lemma split_join_lines_witness : splitNonEmptyLines (joinLines ["vmess://a"; "vmess://b"]) = ["vmess://a"; "vmess://b"].
Proof.
  apply (split_join_lines ["vmess://a"; "vmess://b"]).
  repeat (apply Forall_cons; split); [..|by apply Forall_nil]; (split_and!; [decided|unfold lacks; decided|done]).
Defined.
