(* ===== verification/Storage.v ===== *)
(** * [internal/storage]: the saved state

    [JSONStore.Load] and [JSONStore.Save] over the files of [Config.OS], and,
    for crashes and concurrent savers, the same [Save] as the system calls it is
    made of, on a disk with inodes. [encoding/json] on [State] is a parameter. *)

From S2P Require Import Prelude GoStrings Domain Config.

Record StoredState := mkState {
  Version : Z;
  Nodes : list VpnNode;
  Snapshot : ConnectionSnapshot;
  UpdatedAt : Time
}.

(** The zero value [Load] decodes into. *)
Definition zeroSnapshot : ConnectionSnapshot := mkSnapshot (StateOther "") "" "" "" None None 0 None.
Definition zeroState : StoredState := mkState 0 [] zeroSnapshot zeroTime.

Definition setSnapshot (v : ConnectionSnapshot) (s : StoredState) : StoredState :=
  mkState (Version s) (Nodes s) v (UpdatedAt s).

Record JSONStore := mkStore { storePath : string }.
Definition NewJSONStore (os : OS) (dataDir : string) : JSONStore := mkStore (osJoin os dataDir "state.json").

Section Store.
Context (os : OS) (json : JSON StoredState).

Definition LoadState (fs : FS) (s : JSONStore) : StoredState * option string :=
  match osReadFault os (storePath s), fs !! storePath s with
  | Some e, _ => (zeroState, Some e)
  | None, None => (mkState 1 [] InitialSnapshot zeroTime, None)
  | None, Some data =>
      let '(state, err) := jsonUnmarshal json data zeroState in
      match err with
      | Some e => (state, Some e)
      | None =>
          let state :=
            if decide (State (Snapshot state) = StateIdle) then state
            else setSnapshot (setMessage "已恢复节点缓存，请重新连接" InitialSnapshot) state in
          let state :=
            match Metadata (Snapshot state) with
            | None => setSnapshot (setMetadata (Some ∅) (Snapshot state)) state
            | Some _ => state
            end in
          (state, None)
      end
  end.

(** [os.Rename]. *)
Definition rename (fs : FS) (old new : string) : option string * FS :=
  match osRenameFault os old new, fs !! old with
  | Some e, _ => (Some e, fs)
  | None, None => (Some (osNotExist os old), fs)
  | None, Some data => (None, <[new := data]> (delete old fs))
  end.

Definition Save (fs : FS) (s : JSONStore) (nodes : list VpnNode) (snapshot : ConnectionSnapshot)
    (now : Time) : option string * FS :=
  match osMkdirFault os (osDir os (storePath s)) with
  | Some e => (Some e, fs)
  | None =>
  match jsonMarshal json (mkState 1 nodes snapshot now) with
  | Err e => (Some e, fs)
  | Ok data =>
      let tmp := storePath s +:+ ".tmp" in
      let '(err, fs) := writeFile os fs tmp (data +:+ nl) in
      match err with
      | Some e => (Some e, fs)
      | None => rename fs tmp (storePath s)
      end
  end end.

(** ** Atomicity *)

Lemma tmp_ne (path : string) : path +:+ ".tmp" ≠ path.
Proof.
  intros E. apply (f_equal (length ∘ s2l)) in E. unfold compose in E. rewrite s2l_app, length_app in E.
  simpl in E. lia.
Qed.

(** Whatever fails, [Save] leaves in the state file either what was there
    or the complete new text, the latter exactly when it reports success, and
    touches no other file but its temporary one. *)
Theorem save_all_or_nothing fs s nodes snapshot now err fs' :
  Save fs s nodes snapshot now = (err, fs') →
  match err with
  | Some _ => fs' !! storePath s = fs !! storePath s
  | None => ∃ data, jsonMarshal json (mkState 1 nodes snapshot now) = Ok data ∧
              fs' !! storePath s = Some (data +:+ nl)
  end ∧
  ∀ p, p ≠ storePath s → p ≠ storePath s +:+ ".tmp" → fs' !! p = fs !! p.
Proof.
  pose proof (tmp_ne (storePath s)) as Hne. unfold Save, writeFile, rename. intros H.
  destruct (osMkdirFault os _); [by simplify_eq|].
  destruct (jsonMarshal json _) as [data|e]; [|by simplify_eq].
  destruct (osWriteFault os _) as [[e [partial|]]|];
    simplify_eq; try (split; [|intros]; by rewrite ?lookup_insert_ne by done).
  rewrite lookup_insert_eq in H. destruct (osRenameFault os _ _); simplify_eq.
  - split; [|intros]; by rewrite lookup_insert_ne by done.
  - split; [exists data; by rewrite lookup_insert_eq|].
    intros p Hp Hp'. by rewrite lookup_insert_ne, lookup_delete_ne, lookup_insert_ne by done.
Qed.

(** ** Save and load *)

(** What survives the JSON form: everything but the fields tagged [json:"-"]. *)
Definition forgetNode (n : VpnNode) : VpnNode := setOpenVPNConfig "" n.
Definition forget (s : StoredState) : StoredState :=
  mkState (Version s) (forgetNode <$> Nodes s) (Snapshot s) (UpdatedAt s).

(** The documented round trip of [encoding/json]: the states [good] describes
    (valid UTF-8, times with a four-digit year) are encoded, and read back up
    to the fields that are not written. *)
Definition stateRoundTrips (good : StoredState → Prop) : Prop :=
  ∀ st, good st → ∃ data, jsonMarshal json st = Ok data ∧
    jsonUnmarshal json (data +:+ nl) zeroState = (forget st, None).

(** The snapshot a restart begins with. *)
Definition restored (snapshot : ConnectionSnapshot) : ConnectionSnapshot :=
  if decide (State snapshot = StateIdle) then
    match Metadata snapshot with None => setMetadata (Some ∅) snapshot | Some _ => snapshot end
  else setMessage "已恢复节点缓存，请重新连接" InitialSnapshot.

Definition noFaults (s : JSONStore) : Prop :=
  osMkdirFault os (osDir os (storePath s)) = None ∧ osWriteFault os (storePath s +:+ ".tmp") = None ∧
  osRenameFault os (storePath s +:+ ".tmp") (storePath s) = None ∧ osReadFault os (storePath s) = None.

Lemma load_after_save good fs s nodes snapshot now :
  noFaults s → stateRoundTrips good → good (mkState 1 nodes snapshot now) →
  ∃ fs', Save fs s nodes snapshot now = (None, fs') ∧
    LoadState fs' s = (mkState 1 (forgetNode <$> nodes) (restored snapshot) now, None).
Proof.
  intros (Hm & Hw & Hr & Hrd) Hj Hg. destruct (Hj _ Hg) as (data & Hd & Hu).
  unfold Save, writeFile, rename. rewrite Hm, Hd, Hw, Hr, lookup_insert_eq. eexists. split; [reflexivity|].
  unfold LoadState. rewrite Hrd, lookup_insert_eq, Hu. unfold forget, restored. simpl.
  destruct (decide (State snapshot = StateIdle)); [|done]. simpl. by destruct (Metadata snapshot).
Qed.

(** Loading after a save gives the saved nodes without their OpenVPN
    configuration; a snapshot that was not idle is reset, so no restart comes up
    in a connected state. *)
Theorem save_load good fs s nodes snapshot now :
  noFaults s → stateRoundTrips good → good (mkState 1 nodes snapshot now) →
  ∃ fs' st, Save fs s nodes snapshot now = (None, fs') ∧ LoadState fs' s = (st, None) ∧
    Nodes st = forgetNode <$> nodes ∧ State (Snapshot st) = StateIdle ∧
    is_Some (Metadata (Snapshot st)) ∧ (State snapshot = StateIdle → Message (Snapshot st) = Message snapshot) ∧
    (State snapshot ≠ StateIdle → ActiveNodeID (Snapshot st) = "").
Proof.
  intros Hn Hj Hg. destruct (load_after_save good fs s nodes snapshot now Hn Hj Hg) as (fs' & Hs & Hl).
  exists fs'. eexists. split_and!; [exact Hs|exact Hl|done|..]; simpl; unfold restored;
    destruct (decide (State snapshot = StateIdle)); try destruct (Metadata snapshot) eqn:E; simpl;
    try done; rewrite ?E; eauto.
Qed.
End Store.

(** ** [Save] as system calls

    [os.WriteFile] opens (and truncates) the temporary file, then writes in as
    many pieces as the system likes; [os.Rename] is one atomic call. A disk has
    names for inodes, so that a file being written keeps its identity when it is
    renamed. *)
Record Disk := mkDisk { names : gmap string nat; contents : gmap nat bytes }.
Definition readDisk (d : Disk) (p : string) : option bytes := names d !! p ≫= λ i, contents d !! i.

Inductive phase :=
  | Opening
  | Writing (inode offset : nat)
  | Renaming
  | Finished (ok : bool).
Record Saver := mkSaver { svData : bytes; svPhase : phase }.

(** A write of [chunk] at [offset]; a gap behind the end is filled with zeros. *)
Definition writeAt (chunk : bytes) (offset : nat) (l : bytes) : bytes :=
  take offset (l ++ replicate (offset - length l) (byte_of 0)) ++ chunk ++ drop (offset + length chunk) l.

Section Steps.
Context (path : string).
Let tmp : string := path +:+ ".tmp".

(** The inode [open] gives: that of the temporary file, or a new one. *)
Definition tmpInode (d : Disk) : nat :=
  match names d !! tmp with Some i => i | None => fresh (dom (contents d)) end.

(** One system call; [n] is how many bytes the next write accepts, less one. *)
Definition saverStep (n : nat) (s : Saver) (d : Disk) : Saver * Disk :=
  match svPhase s with
  | Opening =>
      let i := tmpInode d in
      (mkSaver (svData s) (Writing i 0),
       mkDisk (<[tmp := i]> (names d)) (<[i := []]> (contents d)))
  | Writing i offset =>
      if (offset <? length (svData s))%nat then
        let chunk := take (S n) (drop offset (svData s)) in
        (mkSaver (svData s) (Writing i (offset + length chunk)),
         mkDisk (names d) (alter (writeAt chunk offset) i (contents d)))
      else (mkSaver (svData s) Renaming, d)
  | Renaming =>
      match names d !! tmp with
      | Some i => (mkSaver (svData s) (Finished true), mkDisk (<[path := i]> (delete tmp (names d))) (contents d))
      | None => (mkSaver (svData s) (Finished false), d)
      end
  | Finished _ => (s, d)
  end.

(** A run of one saver: the sizes of its writes. *)
Fixpoint saverRun (ns : list nat) (s : Saver) (d : Disk) : Saver * Disk :=
  match ns with [] => (s, d) | n :: ns => let '(s, d) := saverStep n s d in saverRun ns s d end.

(** Two savers; the schedule says who moves. *)
Fixpoint saversRun (sched : list (bool * nat)) (a b : Saver) (d : Disk) : Saver * Saver * Disk :=
  match sched with
  | [] => (a, b, d)
  | (true, n) :: sched => let '(a, d) := saverStep n a d in saversRun sched a b d
  | (false, n) :: sched => let '(b, d) := saverStep n b d in saversRun sched a b d
  end.

(** A name per file, and every name has one. *)
Record wfDisk (d : Disk) : Prop := {
  wf_inj : ∀ p q i, names d !! p = Some i → names d !! q = Some i → p = q;
  wf_dom : ∀ p i, names d !! p = Some i → is_Some (contents d !! i)
}.

(** The saver has written [offset] bytes of its text to the temporary file. *)
Definition progress (s : Saver) (d : Disk) : Prop :=
  match svPhase s with
  | Opening => True
  | Writing i offset => (offset ≤ length (svData s))%nat ∧ names d !! tmp = Some i ∧
      contents d !! i = Some (take offset (svData s))
  | Renaming => readDisk d tmp = Some (svData s)
  | Finished ok => ok = true
  end.

Record saverInv (old : option bytes) (s : Saver) (d : Disk) : Prop := {
  si_wf : wfDisk d;
  si_progress : progress s d;
  si_path : match svPhase s with
            | Finished _ => readDisk d path = Some (svData s)
            | _ => readDisk d path = old
            end
}.

(** Steps left: at most one per byte and one per other call. *)
Definition saverMeasure (s : Saver) : nat :=
  match svPhase s with
  | Opening => length (svData s) + 3
  | Writing _ offset => length (svData s) - offset + 2
  | Renaming => 1
  | Finished _ => 0
  end.

Lemma writeAt_end chunk l : writeAt chunk (length l) l = l ++ chunk.
Proof.
  unfold writeAt. rewrite Nat.sub_diag, app_nil_r, take_ge by lia.
  by rewrite drop_ge, app_nil_r by lia.
Qed.

Lemma readDisk_Some d p l : readDisk d p = Some l ↔ ∃ i, names d !! p = Some i ∧ contents d !! i = Some l.
Proof. unfold readDisk. destruct (names d !! p); simpl; naive_solver. Qed.

Lemma tmp_path : tmp ≠ path.
Proof. apply tmp_ne. Qed.

(** Writing to the inode of the temporary file does not change another name. *)
Lemma readDisk_other (f : bytes → bytes) d i p q :
  wfDisk d → names d !! q = Some i → p ≠ q →
  readDisk (mkDisk (names d) (alter f i (contents d))) p = readDisk d p.
Proof.
  intros [Hinj _] Hq Hne. unfold readDisk. simpl. destruct (names d !! p) as [j|] eqn:Ep; [|done].
  simpl. rewrite lookup_alter_ne; [done|]. intros ->. eauto.
Qed.

Lemma open_inode d : wfDisk d → ∀ p, names d !! p = Some (tmpInode d) → p = tmp.
Proof.
  intros [Hinj Hdom] p Hp. unfold tmpInode in Hp. destruct (names d !! tmp) as [j|] eqn:Et; [eauto|].
  destruct (Hdom _ _ Hp) as [l Hl]. apply elem_of_dom_2 in Hl. by apply is_fresh in Hl.
Qed.

Lemma open_wf d i : (∀ p, names d !! p = Some i → p = tmp) → wfDisk d →
  wfDisk (mkDisk (<[tmp := i]> (names d)) (<[i := []]> (contents d))).
Proof.
  intros Hi [Hinj Hdom]. constructor; simpl.
  - intros p q j. rewrite !lookup_insert_Some. naive_solver.
  - intros p j. rewrite lookup_insert_Some. intros [[_ <-]|[_ Hp]]; [by rewrite lookup_insert_eq|].
    destruct (decide (i = j)) as [->|]; [by rewrite lookup_insert_eq|].
    rewrite lookup_insert_ne by done. eauto.
Qed.

Lemma open_read d i : (∀ p, names d !! p = Some i → p = tmp) →
  readDisk (mkDisk (<[tmp := i]> (names d)) (<[i := []]> (contents d))) path = readDisk d path.
Proof.
  intros Hi. unfold readDisk. simpl. rewrite lookup_insert_ne by apply tmp_path.
  destruct (names d !! path) as [j|] eqn:Ep; [|done]. simpl. rewrite lookup_insert_ne; [done|].
  intros ->. by apply tmp_path, eq_sym, Hi.
Qed.

Lemma rename_wf d i : names d !! tmp = Some i → wfDisk d →
  wfDisk (mkDisk (<[path := i]> (delete tmp (names d))) (contents d)).
Proof.
  intros Ht [Hinj Hdom].
  assert (∀ p j, <[path := i]> (delete tmp (names d)) !! p = Some j →
    p = path ∧ j = i ∨ p ≠ path ∧ p ≠ tmp ∧ names d !! p = Some j) as Hl.
  { intros p j. rewrite lookup_insert_Some, lookup_delete_Some. naive_solver. }
  constructor; simpl.
  - intros p q j [[-> ->]|(? & ? & Hp)]%Hl [[-> Hj]|(? & ? & Hq)]%Hl; subst; eauto; exfalso; eauto.
  - intros p j [[-> ->]|(? & ? & Hp)]%Hl; eauto.
Qed.

Lemma chunk_next n offset (data : bytes) : (offset < length data)%nat →
  let chunk := take (S n) (drop offset data) in
  (0 < length chunk)%nat ∧ (offset + length chunk ≤ length data)%nat ∧
  take (offset + length chunk) data = take offset data ++ chunk.
Proof.
  intros Hlt chunk. assert (length chunk = S n `min` (length data - offset))%nat as Hn.
  { unfold chunk. by rewrite length_take, length_drop. }
  split_and!; [lia..|]. rewrite <-take_take_drop, Hn. f_equal. unfold chunk.
  destruct (Nat.min_spec (S n) (length data - offset)) as [[_ ->]|[? ->]]; [done|].
  by rewrite !take_ge by (rewrite length_drop; lia).
Qed.

Lemma saverStep_inv old n s d s' d' :
  saverInv old s d → saverStep n s d = (s', d') →
  saverInv old s' d' ∧ svData s' = svData s ∧
  (saverMeasure s' ≤ saverMeasure s - 1)%nat.
Proof.
  intros [Hwf Hp Ho] H. destruct s as [data ph]. unfold saverStep, progress in *.
  destruct ph as [|i offset| |ok]; simpl in *.
  - pose proof (open_inode d Hwf) as Hi.
    injection H as <- <-. split; [|split; [done|unfold saverMeasure; simpl; lia]].
    constructor; [by apply open_wf| |simpl; by rewrite open_read].
    unfold progress. simpl. split_and!; [lia|by rewrite lookup_insert_eq..].
  - destruct Hp as (Hle & Ht & Hc). destruct (Nat.ltb_spec offset (length data)) as [Hlt|Hge]; injection H as <- <-.
    + destruct (chunk_next n offset data Hlt) as (Hpos & Hfit & Htake).
      set (chunk := take (S n) (drop offset data)) in *.
      split; [|split; [done|unfold saverMeasure; simpl; lia]]. constructor; simpl.
      * constructor; simpl; [apply Hwf|]. intros p j Hpj.
        destruct (wf_dom _ Hwf _ _ Hpj) as [l Hl].
        destruct (decide (i = j)) as [->|]; [rewrite lookup_alter_eq|rewrite lookup_alter_ne by done];
          rewrite Hl; by eexists.
      * unfold progress. simpl. split_and!; [lia|done|]. rewrite lookup_alter_eq, Hc, Htake. simpl. f_equal.
        replace offset with (length (take offset data)) at 1 by (rewrite length_take; lia). apply writeAt_end.
      * rewrite <-Ho. apply (readDisk_other _ _ _ _ tmp); try done. apply not_eq_sym, tmp_path.
    + split; [|split; [done|unfold saverMeasure; simpl; lia]]. constructor; [done| |done].
      unfold progress. simpl. apply readDisk_Some. exists i. split; [done|].
      by rewrite Hc, take_ge by lia.
  - apply readDisk_Some in Hp as (i & Ht & Hc). rewrite Ht in H. injection H as <- <-.
    split; [|split; [done|unfold saverMeasure; simpl; lia]].
    constructor; [by apply rename_wf|done|]. simpl. apply readDisk_Some. exists i. simpl.
    by rewrite lookup_insert_eq.
  - injection H as <- <-. split; [by constructor|]. split; [done|unfold saverMeasure; simpl; lia].
Qed.

Lemma saverRun_inv old ns s d s' d' :
  saverInv old s d → saverRun ns s d = (s', d') →
  saverInv old s' d' ∧ svData s' = svData s ∧ (saverMeasure s' ≤ saverMeasure s - length ns)%nat.
Proof.
  revert s d. induction ns as [|n ns IH]; intros s d Hi H; simpl in H.
  { simplify_eq. split_and!; [done..|simpl; lia]. }
  destruct (saverStep n s d) as [s1 d1] eqn:E1.
  destruct (saverStep_inv old n s d s1 d1 Hi E1) as (Hi1 & Hd1 & Hm1).
  destruct (IH _ _ Hi1 H) as (? & ? & ?). split_and!; [done|congruence|simpl; lia].
Qed.


(** Another saver, between the last write and the rename of the first. *)
Definition racySchedule (data : bytes) : list (bool * nat) :=
  [(true, 0); (true, length data); (true, 0); (false, 0); (true, 0)]%nat.

(** Two saves that overlap, as [AppState.persist] allows by saving without
    the lock, are not safe: there is a schedule after which the first save has
    reported success and the state file is empty. *)
Theorem overlapping_saves_lose_state a b d :
  wfDisk d → a ≠ [] →
  let '(sa, _, d') := saversRun (racySchedule a) (mkSaver a Opening) (mkSaver b Opening) d in
  svPhase sa = Finished true ∧ readDisk d' path = Some [].
Proof.
  intros Hwf Ha. unfold racySchedule. cbn [saversRun saverStep svPhase svData names contents].
  assert ((0 <? length a)%nat = true) as -> by (apply Nat.ltb_lt; destruct a; [done|simpl; lia]).
  rewrite drop_0, take_ge by lia. cbn [saverStep svPhase svData names contents].
  rewrite (proj2 (Nat.ltb_ge (0 + length a) (length a))) by lia.
  cbn [saverStep svPhase svData names contents].
  match goal with |- context [tmpInode (mkDisk ?n ?c)] =>
    assert (tmpInode (mkDisk n c) = tmpInode d) as ->
      by (unfold tmpInode at 1; simpl; by rewrite lookup_insert_eq) end.
  rewrite !lookup_insert_eq. cbn [svPhase]. split; [done|]. unfold readDisk. cbn [names contents].
  rewrite lookup_insert_eq. simpl. by rewrite lookup_insert_eq.
Qed.
End Steps.

(** ** Concrete states *)

Definition emptyDisk : Disk := mkDisk ∅ ∅.
Lemma emptyDisk_wf : wfDisk emptyDisk.
Proof. constructor; simpl; intros *; by rewrite lookup_empty. Qed.


Lemma overlapping_saves_lose_state_witness :
  let '(sa, _, d') := saversRun "s" (racySchedule (s2l "{}")) (mkSaver (s2l "{}") Opening)
    (mkSaver (s2l "[]") Opening) emptyDisk in
  svPhase sa = Finished true ∧ readDisk d' "s" = Some [].
Proof. apply (overlapping_saves_lose_state "s" (s2l "{}") (s2l "[]") emptyDisk emptyDisk_wf). done. Defined.

Definition sampleNode : VpnNode := setOpenVPNConfig "remote 203.0.113.8 443" (setID "n1" zeroNode).
Definition sampleStored : StoredState := mkState 1 [sampleNode] (setState StateConnected InitialSnapshot) 5.
#[export] Instance StoredState_eq_dec : EqDecision StoredState.
Proof. solve_decision. Defined.

(** A codec for that one state. *)
Definition sampleStateJSON : JSON StoredState := {|
  jsonMarshal := λ st, if decide (st = sampleStored) then Ok "{}" else Err "json: unsupported value";
  jsonUnmarshal := λ data st, if decide (data = "{}" +:+ nl) then (forget sampleStored, None)
                              else (st, Some "unexpected end of JSON input")
|}.
Lemma sampleState_round_trips : stateRoundTrips sampleStateJSON (λ st, st = sampleStored).
Proof. intros st ->. by exists "{}". Qed.

Lemma save_all_or_nothing_witness :
  (Save quietOS sampleStateJSON {[ "state.json" := "old" ]} (mkStore "state.json") [] InitialSnapshot 0).2
    !! "state.json" = Some "old".
Proof.
  refine (proj1 (save_all_or_nothing quietOS sampleStateJSON {[ "state.json" := "old" ]} (mkStore "state.json")
    [] InitialSnapshot 0 (Some "json: unsupported value") _ _)). vm_compute. reflexivity.
Defined.

Lemma save_load_witness :
  ∃ fs' st, Save quietOS sampleStateJSON ∅ (mkStore "state.json") [sampleNode]
      (setState StateConnected InitialSnapshot) 5 = (None, fs') ∧
    LoadState quietOS sampleStateJSON fs' (mkStore "state.json") = (st, None) ∧
    State (Snapshot st) = StateIdle.
Proof.
  destruct (save_load quietOS sampleStateJSON (λ st, st = sampleStored) ∅ (mkStore "state.json") [sampleNode]
    (setState StateConnected InitialSnapshot) 5) as (fs' & st & H1 & H2 & _ & H3 & _);
    [by split_and!|exact sampleState_round_trips|reflexivity|].
  exists fs', st. split_and!; [exact H1|exact H2|exact H3].
Defined.
