(* ===== verification/TunnelSession.v ===== *)
(** * [internal/tunnel]: the connections of a VPN session

    [vpnSession.dialContext], [trackedConn.Close], [closeConnections] and
    [waitConnections] as steps between which any other goroutine may run: a step
    is a critical section of [connMu] or a call on the network stack. The stack
    decides whether a dial succeeds; it gives a connection nobody holds yet. *)

From S2P Require Import Prelude.
From stdpp Require Import gmap fin_sets relations.

(** Where a goroutine in [dialContext] is: dialling, holding the outcome of the
    dial, or about to give its place up after a failure. *)
Inductive dialPC :=
  | Dialing
  | Dialed (conn : option nat)
  | Abandoning (conn : option nat)
  | Leaving.

(** Where the goroutine in [close] is: before it, closing the connections it
    copied ([Close] done on the first one or not), waiting, or past the wait. *)
Inductive closePC :=
  | NotClosing
  | ClosingConns (todo : list nat) (headClosed : bool)
  | WaitingConns
  | ConnsGone.

Record session := mkSession {
  closing : bool;
  activeDials : nat;
  connections : gset nat;
  openConns : gset nat;
  dials : gmap nat dialPC;
  untracking : gset nat;
  closer : closePC
}.

Definition newSession : session := mkSession false 0 ∅ ∅ ∅ ∅ NotClosing.

Definition holds (pc : dialPC) (c : nat) : Prop := pc = Dialed (Some c) ∨ pc = Abandoning (Some c).

(** The connections [close] copied and has not untracked yet. *)
Definition todoOf (pc : closePC) : list nat :=
  match pc with ClosingConns todo _ => todo | _ => [] end.

(** A connection no goroutine has a pointer to. *)
Definition freshConn (s : session) (c : nat) : Prop :=
  (c ∉ openConns s) ∧ (c ∉ connections s) ∧ (c ∉ untracking s) ∧ (c ∉ todoOf (closer s)) ∧
  (∀ t pc, dials s !! t = Some pc → ¬ holds pc c).

(** One step of some goroutine. *)
Inductive sessionStep : session → session → Prop :=
  (** [dialContext], first critical section. *)
  | step_dial_enter s t :
      closing s = false → dials s !! t = None →
      sessionStep s (mkSession (closing s) (S (activeDials s)) (connections s) (openConns s)
                       (<[t := Dialing]> (dials s)) (untracking s) (closer s))
  (** [network.DialContext] returns a new connection or an error. *)
  | step_dial_ok s t c :
      dials s !! t = Some Dialing → freshConn s c →
      sessionStep s (mkSession (closing s) (activeDials s) (connections s) ({[c]} ∪ openConns s)
                       (<[t := Dialed (Some c)]> (dials s)) (untracking s) (closer s))
  | step_dial_err s t :
      dials s !! t = Some Dialing →
      sessionStep s (mkSession (closing s) (activeDials s) (connections s) (openConns s)
                       (<[t := Dialed None]> (dials s)) (untracking s) (closer s))
  (** [dialContext], second critical section: track the connection, or give up. *)
  | step_track s t c :
      dials s !! t = Some (Dialed (Some c)) → closing s = false →
      sessionStep s (mkSession (closing s) (activeDials s - 1) ({[c]} ∪ connections s) (openConns s)
                       (delete t (dials s)) (untracking s) (closer s))
  | step_abandon s t oc :
      dials s !! t = Some (Dialed oc) → (closing s = true ∨ oc = None) →
      sessionStep s (mkSession (closing s) (activeDials s) (connections s) (openConns s)
                       (<[t := Abandoning oc]> (dials s)) (untracking s) (closer s))
  (** [conn.Close] of a connection that is not returned. *)
  | step_abandon_close s t oc :
      dials s !! t = Some (Abandoning oc) →
      sessionStep s (mkSession (closing s) (activeDials s) (connections s)
                       (openConns s ∖ match oc with Some c => {[c]} | None => ∅ end)
                       (<[t := Leaving]> (dials s)) (untracking s) (closer s))
  | step_leave s t :
      dials s !! t = Some Leaving →
      sessionStep s (mkSession (closing s) (activeDials s - 1) (connections s) (openConns s)
                       (delete t (dials s)) (untracking s) (closer s))
  (** [trackedConn.Close] by the user of a connection. *)
  | step_user_close s c :
      c ∈ connections s → c ∉ untracking s →
      sessionStep s (mkSession (closing s) (activeDials s) (connections s) (openConns s ∖ {[c]})
                       (dials s) ({[c]} ∪ untracking s) (closer s))
  | step_user_untrack s c :
      c ∈ untracking s →
      sessionStep s (mkSession (closing s) (activeDials s) (connections s ∖ {[c]}) (openConns s)
                       (dials s) (untracking s ∖ {[c]}) (closer s))
  (** [closeConnections]: the critical section, then [Close] and [untrackConnection] per connection. *)
  | step_close_begin s :
      closer s = NotClosing →
      sessionStep s (mkSession true (activeDials s) (connections s) (openConns s) (dials s) (untracking s)
                       (ClosingConns (elements (connections s)) false))
  | step_close_conn s c todo :
      closer s = ClosingConns (c :: todo) false →
      sessionStep s (mkSession (closing s) (activeDials s) (connections s) (openConns s ∖ {[c]})
                       (dials s) (untracking s) (ClosingConns (c :: todo) true))
  | step_close_untrack s c todo :
      closer s = ClosingConns (c :: todo) true →
      sessionStep s (mkSession (closing s) (activeDials s) (connections s ∖ {[c]}) (openConns s)
                       (dials s) (untracking s) (ClosingConns todo false))
  | step_close_end s :
      closer s = ClosingConns [] false →
      sessionStep s (mkSession (closing s) (activeDials s) (connections s) (openConns s) (dials s)
                       (untracking s) WaitingConns)
  (** [waitConnections]: the condition holds when the goroutine looks at it. *)
  | step_wait_done s :
      closer s = WaitingConns → connections s = ∅ → activeDials s = 0%nat →
      sessionStep s (mkSession (closing s) (activeDials s) (connections s) (openConns s) (dials s)
                       (untracking s) ConnsGone).

Definition reachableSession : session → Prop := rtc sessionStep newSession.

(** ** The invariant *)

Record sessionInv (s : session) : Prop := {
  inv_dials : activeDials s = size (dials s);
  inv_open : ∀ c, c ∈ openConns s → c ∈ connections s ∨ ∃ t pc, dials s !! t = Some pc ∧ holds pc c;
  inv_closing : closing s = false ↔ closer s = NotClosing;
  inv_pending : closing s = true → connections s ⊆ list_to_set (todoOf (closer s));
  inv_untracking : ∀ c, c ∈ untracking s → c ∉ openConns s;
  inv_head : ∀ c todo, closer s = ClosingConns (c :: todo) true → c ∉ openConns s;
  inv_shape : closer s ≠ ClosingConns [] true;
  inv_gone : closer s = ConnsGone → activeDials s = 0%nat
}.

Definition held (s : session) (c : nat) : Prop := ∃ t pc, dials s !! t = Some pc ∧ holds pc c.

(** A dial that moves on keeps what the others hold, and what it still holds. *)
Lemma held_insert (m : gmap nat dialPC) t pc pc' c :
  m !! t = Some pc → (holds pc c → holds pc' c) →
  (∃ u q, m !! u = Some q ∧ holds q c) → ∃ u q, <[t := pc']> m !! u = Some q ∧ holds q c.
Proof.
  intros Ht Hh (u & q & Hu & Hq). destruct (decide (t = u)) as [->|Hne].
  - assert (q = pc) as -> by congruence. exists u, pc'. rewrite lookup_insert_eq. auto.
  - exists u, q. by rewrite lookup_insert_ne.
Qed.
Lemma held_delete (m : gmap nat dialPC) t pc c :
  m !! t = Some pc → ¬ holds pc c →
  (∃ t pc, m !! t = Some pc ∧ holds pc c) → ∃ u pc, delete t m !! u = Some pc ∧ holds pc c.
Proof.
  intros Ht Hh (u & q & Hu & Hq). destruct (decide (t = u)) as [->|Hne].
  { assert (q = pc) as -> by congruence. done. }
  exists u, q. by rewrite lookup_delete_ne.
Qed.

Lemma holds_Dialing c : ¬ holds Dialing c.
Proof. by intros [|]. Qed.
Lemma holds_Leaving c : ¬ holds Leaving c.
Proof. by intros [|]. Qed.
#[local] Hint Resolve holds_Dialing holds_Leaving : core.

(** The fields of the invariant, one by one. *)
Lemma step_inv_dials s s' : sessionInv s → sessionStep s s' → activeDials s' = size (dials s').
Proof.
  intros [Hd _ _ _ _ _ _ _] Hstep. destruct Hstep; simpl;
    first [ done | rewrite map_size_insert_None by done; lia | rewrite map_size_insert_Some by done; done
          | rewrite map_size_delete_Some by done; lia ].
Qed.

Lemma step_inv_open s s' : sessionInv s → sessionStep s s' →
  ∀ c, c ∈ openConns s' → c ∈ connections s' ∨ held s' c.
Proof.
  intros [_ Ho _ _ Hu Hh _ _] Hstep d Hd. unfold held. destruct Hstep; simpl in *.
  - destruct (Ho d Hd) as [?|Hx]; [by left|right]. destruct Hx as (u & q & Hq & ?). exists u, q.
    rewrite lookup_insert_ne; [done|congruence].
  - apply elem_of_union in Hd as [->%elem_of_singleton|Hd].
    + right. exists t, (Dialed (Some c)). rewrite lookup_insert_eq. split; [done|by left].
    + destruct (Ho d Hd) as [?|Hx]; [by left|right]. eapply held_insert; [done| |exact Hx].
      by intros ?%holds_Dialing.
  - destruct (Ho d Hd) as [?|Hx]; [by left|right]. eapply held_insert; [done| |exact Hx].
    by intros ?%holds_Dialing.
  - destruct (Ho d Hd) as [?|Hx]; [set_solver|]. destruct (decide (d = c)) as [->|Hne]; [set_solver|right].
    eapply held_delete; [done| |exact Hx]. intros [[=]|[=]]. congruence.
  - destruct (Ho d Hd) as [?|Hx]; [by left|right]. eapply held_insert; [done| |exact Hx].
    intros [[= ->]|[=]]. by right.
  - apply elem_of_difference in Hd as [Hd Hn]. destruct (Ho d Hd) as [?|Hx]; [by left|right].
    eapply held_insert; [done| |exact Hx]. intros [[=]|[= ->]]. set_solver.
  - destruct (Ho d Hd) as [?|Hx]; [by left|right]. eapply held_delete; [done|done|exact Hx].
  - apply Ho. set_solver.
  - destruct (Ho d Hd) as [?|Hx]; [left|by right]. apply elem_of_difference. split; [done|].
    intros ->%elem_of_singleton. by eapply Hu.
  - by apply Ho.
  - apply Ho. set_solver.
  - destruct (Ho d Hd) as [?|Hx]; [left|by right]. apply elem_of_difference. split; [done|].
    intros ->%elem_of_singleton. by eapply Hh.
  - by apply Ho.
  - by apply Ho.
Qed.

Lemma step_inv_closing s s' : sessionInv s → sessionStep s s' →
  (closing s' = false ↔ closer s' = NotClosing) ∧
  (closing s' = true → connections s' ⊆ list_to_set (todoOf (closer s'))).
Proof.
  intros [_ _ Hc Hp _ _ _ _] Hstep.
  destruct Hstep; simpl in *; try exact (conj Hc Hp);
    repeat match goal with H : closer _ = _ |- _ => rewrite H in Hc, Hp; clear H end; simpl in *.
  - split; [done|congruence].
  - split; [done|]. intros E d [Hd _]%elem_of_difference. by apply Hp.
  - split; [done|]. intros _ d. by rewrite elem_of_list_to_set, elem_of_elements.
  - split; [|exact Hp]. split; [intros E; by apply Hc in E|done].
  - split; [split; [intros E; by apply Hc in E|done]|].
    intros E d [Hd Hn]%elem_of_difference. specialize (Hp E d Hd).
    apply elem_of_union in Hp as [?|?]; [by destruct Hn|done].
  - split; [split; [intros E; by apply Hc in E|done]|exact Hp].
  - split; [split; [intros E; by apply Hc in E|done]|exact Hp].
Qed.

Lemma step_inv_closed s s' : sessionInv s → sessionStep s s' →
  (∀ c, c ∈ untracking s' → c ∉ openConns s') ∧
  (∀ c todo, closer s' = ClosingConns (c :: todo) true → c ∉ openConns s').
Proof.
  intros [_ _ _ _ Hu Hh _ _] Hstep.
  destruct Hstep as [| s t c Ht (Ho & Hc & Hun & Htodo & _)| | | | | | | | | | | |]; simpl in *;
    try exact (conj Hu Hh).
  - split.
    + intros d Hd [->%elem_of_singleton|Hx]%elem_of_union; [done|by eapply Hu].
    + intros d todo Hd [->%elem_of_singleton|Hx]%elem_of_union; [|by eapply Hh].
      rewrite Hd in Htodo. apply Htodo. by left.
  - split; [intros d Hd [? _]%elem_of_difference; by eapply Hu|].
    intros d todo Hd [? _]%elem_of_difference. by eapply Hh.
  - split.
    + intros d [->%elem_of_singleton|Hd]%elem_of_union [Hx Hn]%elem_of_difference;
        [by apply Hn, elem_of_singleton|by eapply Hu].
    + intros d todo Hd [? _]%elem_of_difference. by eapply Hh.
  - split; [|exact Hh]. intros d [Hd _]%elem_of_difference. by apply Hu.
  - split; [exact Hu|done].
  - split; [intros d Hd [? _]%elem_of_difference; by eapply Hu|].
    intros d todo' [= <- <-] [_ Hn]%elem_of_difference. by apply Hn, elem_of_singleton.
  - split; [exact Hu|done].
  - split; [exact Hu|done].
  - split; [exact Hu|done].
Qed.

Lemma step_inv_gone s s' : sessionInv s → sessionStep s s' → closer s' = ConnsGone → activeDials s' = 0%nat.
Proof.
  intros [_ _ Hc _ _ _ _ Hg] Hstep. destruct Hstep; simpl in *; try done; intros E; try (by apply Hg).
  - by rewrite E in Hc; apply Hc in H.
  - rewrite Hg by done. done.
  - rewrite Hg by done. done.
Qed.

Lemma step_inv_shape s s' : sessionInv s → sessionStep s s' → closer s' ≠ ClosingConns [] true.
Proof. intros [_ _ _ _ _ _ Hs _] Hstep. by destruct Hstep. Qed.

Lemma sessionInv_step s s' : sessionInv s → sessionStep s s' → sessionInv s'.
Proof.
  intros Hi Hs. destruct (step_inv_closing s s' Hi Hs), (step_inv_closed s s' Hi Hs).
  constructor; eauto using step_inv_dials, step_inv_open, step_inv_shape, step_inv_gone.
Qed.

Lemma sessionInv_new : sessionInv newSession.
Proof. constructor; simpl; try done; try set_solver. Qed.

Lemma sessionInv_reachable s : reachableSession s → sessionInv s.
Proof.
  intros H. pose proof sessionInv_new as Hi. induction H as [|s s1 s2 H1 H2 IH]; [done|].
  apply IH. by eapply sessionInv_step.
Qed.

Lemma reachable_trans s s' : reachableSession s → rtc sessionStep s s' → reachableSession s'.
Proof. unfold reachableSession. intros H1 H2. by etrans. Qed.

Lemma gone_step s s' : closer s = ConnsGone → sessionStep s s' → closer s' = ConnsGone.
Proof. intros Hc Hstep. destruct Hstep; simpl; congruence. Qed.

Lemma gone_rtc s s' : closer s = ConnsGone → rtc sessionStep s s' → closer s' = ConnsGone.
Proof. intros Hc H. induction H as [|s s1 s2 H1 H2 IH]; eauto using gone_step. Qed.

(** C6. Once [close] is past [waitConnections], no goroutine is dialling, no
    connection is tracked and none is open, and that stays so: a closed session
    never carries traffic again. *)
Theorem session_close_safe s s' :
  reachableSession s → closer s = ConnsGone → rtc sessionStep s s' →
  closing s' = true ∧ openConns s' = ∅ ∧ connections s' = ∅ ∧ activeDials s' = 0%nat ∧ dials s' = ∅.
Proof.
  intros Hr Hc Hs. pose proof (gone_rtc _ _ Hc Hs) as Hc'.
  destruct (sessionInv_reachable s' (reachable_trans _ _ Hr Hs)) as [Hd Ho Hcl Hp _ _ _ Hg].
  specialize (Hg Hc'). rewrite Hg in Hd. symmetry in Hd. apply map_size_empty_inv in Hd.
  assert (closing s' = true) as Ht.
  { destruct (closing s'); [done|]. rewrite (proj1 Hcl eq_refl) in Hc'. done. }
  assert (connections s' = ∅) as Hconn.
  { specialize (Hp Ht). rewrite Hc' in Hp. simpl in Hp. set_solver. }
  split_and!; try done. apply elem_of_equiv_empty_L. intros c [Hx|(t & pc & Hl & _)]%Ho.
  - by rewrite Hconn in Hx.
  - by rewrite Hd, lookup_empty in Hl.
Qed.

(** ** Termination of [close] *)

Definition dialWeight (pc : dialPC) : nat :=
  match pc with Dialing => 4 | Dialed _ => 3 | Abandoning _ => 2 | Leaving => 1 end.
Definition dialsWeight (m : gmap nat dialPC) : nat := map_fold (λ _ pc n, (dialWeight pc + n)%nat) 0%nat m.
Definition closerWeight (pc : closePC) : nat :=
  match pc with
  | NotClosing => 0
  | ClosingConns todo headClosed => 2 * length todo + (if headClosed then 1 else 2)
  | WaitingConns => 1
  | ConnsGone => 0
  end.
(** The steps left once [closing] is set: those of the dials that were under
    way, of the users that close a connection, and of [close] itself. *)
Definition closeMeasure (s : session) : nat :=
  dialsWeight (dials s) + (2 * size (connections s ∖ untracking s) + size (untracking s)) + closerWeight (closer s).

Lemma dialsWeight_delete m t pc : m !! t = Some pc → dialsWeight m = (dialWeight pc + dialsWeight (delete t m))%nat.
Proof.
  intros Ht. unfold dialsWeight.
  rewrite <-(insert_delete_id m t pc Ht) at 1. 
  rewrite map_fold_insert_L; [done|intros; lia|apply lookup_delete_eq].
Qed.
Lemma dialsWeight_insert m t pc pc' : m !! t = Some pc →
  (dialsWeight (<[t := pc']> m) + dialWeight pc = dialsWeight m + dialWeight pc')%nat.
Proof.
  intros Ht. rewrite (dialsWeight_delete m t pc Ht).
  rewrite (dialsWeight_delete (<[t := pc']> m) t pc') by apply lookup_insert_eq.
  rewrite delete_insert_eq. lia.
Qed.

Lemma size_insert_fresh (c : nat) (X : gset nat) : c ∉ X → size ({[c]} ∪ X) = S (size X).
Proof. intros Hc. pose proof (size_union {[c]} X ltac:(set_solver)) as E. by rewrite size_singleton in E. Qed.

Lemma closeMeasure_step s s' : sessionInv s → closing s = true → sessionStep s s' →
  closing s' = true ∧ (closeMeasure s' < closeMeasure s)%nat.
Proof.
  intros Hi Hc Hstep. apply inv_closing in Hi. unfold closeMeasure. destruct Hstep as
    [s t Hf|s t c Ht _|s t Ht|s t c Ht Hf|s t oc Ht _|s t oc Ht|s t Ht|s c Hin Hun|s c Hin|s Hn|s c todo Hn|s c todo Hn|s Hn|s Hn _ _];
    simpl; try congruence; try (apply Hi in Hn; congruence).
  - pose proof (dialsWeight_insert _ _ _ (Dialed (Some c)) Ht). simpl in *. split; [done|lia].
  - pose proof (dialsWeight_insert _ _ _ (Dialed None) Ht). simpl in *. split; [done|lia].
  - pose proof (dialsWeight_insert _ _ _ (Abandoning oc) Ht). simpl in *. split; [done|lia].
  - pose proof (dialsWeight_insert _ _ _ Leaving Ht). simpl in *. split; [done|lia].
  - pose proof (dialsWeight_delete _ _ _ Ht). simpl in *. split; [done|lia].
  - split; [done|].
    assert (connections s ∖ untracking s = {[c]} ∪ connections s ∖ ({[c]} ∪ untracking s)) as ->.
    { apply set_eq. intros x. destruct (decide (x = c)) as [->|]; set_solver. }
    rewrite !size_insert_fresh by set_solver. lia.
  - split; [done|].
    assert ((connections s ∖ {[c]}) ∖ (untracking s ∖ {[c]}) = connections s ∖ untracking s) as -> by set_solver.
    pose proof (size_insert_fresh c (untracking s ∖ {[c]}) ltac:(set_solver)) as Hz.
    rewrite <-(union_difference_singleton_L c (untracking s) Hin) in Hz. lia.
  - rewrite Hn. simpl. split; [done|lia].
  - rewrite Hn. simpl. split; [done|].
    pose proof (subseteq_size ((connections s ∖ {[c]}) ∖ untracking s) (connections s ∖ untracking s) ltac:(set_solver)). lia.
  - rewrite Hn. simpl. split; [done|lia].
  - rewrite Hn. simpl. split; [done|lia].
Qed.

Lemma close_progress s : sessionInv s → closing s = true → closer s ≠ ConnsGone → ∃ s', sessionStep s s'.
Proof.
  intros [Hd _ Hcl Hp _ _ Hsh _] Hc Hg. destruct (closer s) as [|[|c todo] []| |] eqn:E; [|done|..].
  - assert (closing s = false) by tauto. congruence.
  - eexists. by apply step_close_end.
  - eexists. by eapply step_close_untrack.
  - eexists. by eapply step_close_conn.
  - destruct (decide (activeDials s = 0%nat)) as [Hz|Hz].
    + eexists. apply step_wait_done; [done| |done]. specialize (Hp Hc). simpl in Hp. set_solver.
    + destruct (map_choose (dials s)) as (t & pc & Ht).
      { intros He. apply Hz. by rewrite Hd, He, map_size_empty. }
      destruct pc as [|oc|oc|]; eexists;
        [eapply step_dial_err|eapply step_abandon|eapply step_abandon_close|eapply step_leave]; eauto.
  - done.
Qed.


(** ** A concrete session: a dial is under way when the session is closed *)

Definition dialingSession : session := mkSession false 1 ∅ ∅ {[ 7%nat := Dialing ]} ∅ NotClosing.
Definition closingSession : session := mkSession true 1 ∅ ∅ {[ 7%nat := Dialing ]} ∅ (ClosingConns [] false).
Definition goneSession : session := mkSession true 0 ∅ ∅ ∅ ∅ ConnsGone.

Lemma closingSession_reachable : reachableSession closingSession.
Proof.
  apply rtc_l with dialingSession; [exact (step_dial_enter newSession 7 eq_refl eq_refl)|].
  apply rtc_once. exact (step_close_begin dialingSession eq_refl).
Qed.

Lemma goneSession_reachable : reachableSession goneSession.
Proof.
  apply rtc_l with (mkSession true 0 ∅ ∅ ∅ ∅ (ClosingConns [] false)); [exact (step_close_begin newSession eq_refl)|].
  apply rtc_l with (mkSession true 0 ∅ ∅ ∅ ∅ WaitingConns).
  { exact (step_close_end (mkSession true 0 ∅ ∅ ∅ ∅ (ClosingConns [] false)) eq_refl). }
  apply rtc_once. exact (step_wait_done (mkSession true 0 ∅ ∅ ∅ ∅ WaitingConns) eq_refl eq_refl eq_refl).
Qed.

Lemma session_close_safe_witness : openConns goneSession = ∅ ∧ dials goneSession = ∅.
Proof.
  destruct (session_close_safe goneSession goneSession goneSession_reachable eq_refl (rtc_refl _ _))
    as (_ & H1 & _ & _ & H2). exact (conj H1 H2).
Defined.

