(* ===== verification/Tunnel.v ===== *)
(** * [internal/tunnel]: the OpenVPN controller

    [connect] (profile, handshake, network stack), the functions around it, and
    the [OpenVPNController] as actions of its goroutines: [Connect] in its two
    critical sections, [Disconnect], [watch] and the bridge errors. The OpenVPN
    engine and the userspace network stack are parameters. *)

From S2P Require Import Prelude GoStrings GoNet GoCodec Domain Config OvpnConfig Storage.

(** ** [netip.ParseAddr] *)

Inductive netipAddr := Addr4 (v4 : list N) | Addr6 (ip : IP) (zone : string).
Definition parseAddr (s : string) : option netipAddr :=
  let l := s2l s in
  match parseAddrKind l with
  | Some true => Addr4 <$> parseIPv4 l
  | Some false =>
      match indexByte (byte_of 37) l with
      | None => (λ ip, Addr6 ip "") <$> parseIPv6 l
      | Some i => let zone := l2s (drop (S i) l) in
                  if bool_decide (zone = "") then None
                  else (λ ip, Addr6 ip zone) <$> parseIPv6 (take i l)
      end
  | None => None
  end.
Definition is4 (a : netipAddr) : bool := match a with Addr4 _ => true | Addr6 _ _ => false end.

(** ** Helpers *)

Definition defaultHandshakeTimeout : Duration := (45 * Second)%Z.
Definition defaultTunnelMTU : Z := 1420.

Fixpoint parseDNS {U : UnicodeTables} (values : list string) : result (list netipAddr) :=
  match values with
  | [] => Ok []
  | value :: values =>
      match parseAddr value with
      | None => Err ("invalid openvpn.dns_servers address " +:+ quote value)
      | Some ip => let? servers := parseDNS values in Ok (ip :: servers)
      end
  end.
Definition configuredDNS {U : UnicodeTables} (values : list string) : result (list netipAddr) :=
  match values with
  | [] => Ok [Addr4 [1; 1; 1; 1]%N; Addr4 [8; 8; 8; 8]%N]
  | _ => parseDNS values
  end.

Definition safeRune (r : N) : N :=
  if bool_decide (97 ≤ r ≤ 122)%N || bool_decide (65 ≤ r ≤ 90)%N || bool_decide (48 ≤ r ≤ 57)%N
     || bool_decide (r = 45)%N || bool_decide (r = 95)%N || bool_decide (r = 46)%N
  then r else 95%N.
Definition safeFilename (value : string) : string :=
  if bool_decide (value = "") then "node"
  else l2s (runes (s2l value) ≫= λ r, encodeRune (safeRune r)).

(** ** [connect] *)

Record vpnSession := mkVpnSession {
  ses_nodeID : string;
  ses_localIP : string;
  ses_gateway : string;
  ses_packetsOut : N;
  ses_packetsIn : N;
  ses_bytesOut : N;
  ses_bytesIn : N
}.

(** The engine's calls [connect] makes, in order. *)
Inductive engineCall := EngineStart (timeout : Duration) | EngineClose.

Section Connect.
Context {U : UnicodeTables} (os : OS).

(** minivpn: options of a profile file and their fields, the running tunnel and
    its addresses; netstack: whether the device could be created. *)
Context {Options VPN : Type}.
Context (readConfigFile : FS → string → result Options).
Context (optRemote optPort optCipher optAuth : Options → string).
Context (withCredentials : string → string → Options → Options) (hasAuthInfo : Options → bool).
Context (startVPN : Options → Duration → result VPN) (localAddr remoteAddr : VPN → string).
Context (createNetTUN : netipAddr → list netipAddr → Z → option string).
Context (addrString : netipAddr → string).

Definition handshakeTimeout (cfg : OpenVPNSettings) : Duration :=
  let timeout := (ovpnConnectTimeoutMS cfg *i Millisecond)%go in
  if (timeout <=? 0)%Z then defaultHandshakeTimeout else timeout.
Definition tunnelMTU (cfg : OpenVPNSettings) : Z :=
  if (ovpnMTU cfg <=? 0)%Z then defaultTunnelMTU else ovpnMTU cfg.

(** After the handshake: every failure closes the tunnel again. *)
Definition attach (cfg : OpenVPNSettings) (node : VpnNode) (vpn : VPN) : result vpnSession * list engineCall :=
  match parseAddr (localAddr vpn) with
  | Some ((Addr4 _) as localIP) =>
      match configuredDNS (ovpnDNSServers cfg) with
      | Err e => (Err e, [EngineClose])
      | Ok dnsServers =>
          match createNetTUN localIP dnsServers (tunnelMTU cfg) with
          | Some e => (Err ("create userspace network stack: " +:+ e), [EngineClose])
          | None => (Ok (mkVpnSession (ID node) (addrString localIP) (remoteAddr vpn) 0 0 0 0), [])
          end
      end
  | _ => (Err ("VPNGate supplied invalid tunnel address " +:+ quote (localAddr vpn)), [EngineClose])
  end.

Definition connect (cfg : OpenVPNSettings) (runtimeDir : string) (fs : FS) (node : VpnNode)
    : result vpnSession * list engineCall * FS :=
  fail_if bool_decide (OpenVPNConfig node = "")
    with (Err "node does not contain OpenVPN config", [], fs) ;;
  match osMkdirFault os runtimeDir with
  | Some e => (Err e, [], fs)
  | None =>
  match SanitizeOpenVPNConfig (OpenVPNConfig node) with
  | Err e => (Err e, [], fs)
  | Ok cleaned =>
  let configPath := osJoin os runtimeDir (safeFilename (ID node) +:+ ".ovpn") in
  let '(err, fs) := writeFile os fs configPath cleaned in
  match err with
  | Some e => (Err e, [], fs)
  | None =>
  match readConfigFile fs configPath with
  | Err e => (Err ("parse VPNGate profile: " +:+ e), [], fs)
  | Ok options =>
  let options := withCredentials (valueOr (ovpnUsername cfg) "vpn") (valueOr (ovpnPassword cfg) "vpn") options in
  fail_if bool_decide (optRemote options = "") || bool_decide (optPort options = "")
    with (Err "VPNGate profile does not contain a valid remote", [], fs) ;;
  fail_if bool_decide (optCipher options = "")
    with (Err "VPNGate profile does not declare a supported cipher", [], fs) ;;
  fail_if bool_decide (optAuth options = "")
    with (Err "VPNGate profile does not declare a supported auth digest", [], fs) ;;
  fail_if negb (hasAuthInfo options)
    with (Err "VPNGate profile does not contain usable credentials or certificates", [], fs) ;;
  match startVPN options (handshakeTimeout cfg) with
  | Err e => (Err ("built-in OpenVPN handshake: " +:+ e), [EngineStart (handshakeTimeout cfg)], fs)
  | Ok vpn =>
      let '(r, calls) := attach cfg node vpn in
      (r, EngineStart (handshakeTimeout cfg) :: calls, fs)
  end end end end end.

(** ** What [connect] does *)

Lemma handshakeTimeout_pos cfg : (0 < handshakeTimeout cfg)%Z.
Proof.
  unfold handshakeTimeout. destruct (_ <=? 0)%Z eqn:E; bools; [reflexivity|lia].
Qed.

Lemma attach_calls cfg node vpn r calls : attach cfg node vpn = (r, calls) →
  calls = if isOk r then [] else [EngineClose].
Proof. unfold attach. intros H. by repeat case_hyp H; simplify_eq. Qed.

Definition profilePath (dir : string) (node : VpnNode) : string :=
  osJoin os dir (safeFilename (ID node) +:+ ".ovpn").

(** The two ways through [connect]: it fails before the engine is started, or
    it has written the sanitized profile and started the engine. *)
Lemma connect_inv cfg dir fs node r calls fs' :
  connect cfg dir fs node = (r, calls, fs') →
  (isOk r = false ∧ calls = [] ∧ (fs' = fs ∨ ∃ data, fs' = <[profilePath dir node := data]> fs)) ∨
  ∃ cleaned options, SanitizeOpenVPNConfig (OpenVPNConfig node) = Ok cleaned ∧
    fs' = <[profilePath dir node := cleaned]> fs ∧
    match startVPN options (handshakeTimeout cfg) with
    | Err e => isOk r = false ∧ calls = [EngineStart (handshakeTimeout cfg)]
    | Ok vpn => r = (attach cfg node vpn).1 ∧
                calls = EngineStart (handshakeTimeout cfg) :: (attach cfg node vpn).2
    end.
Proof.
  unfold connect, writeFile. fold (profilePath dir node).
  case_bool_decide; [intros [= <- <- <-]; auto|].
  destruct (osMkdirFault os dir); [intros [= <- <- <-]; auto|].
  destruct (SanitizeOpenVPNConfig _) as [cleaned|]; [|intros [= <- <- <-]; auto].
  destruct (osWriteFault os _) as [[e [partial|]]|]; [intros [= <- <- <-]; eauto 10..|].
  destruct (readConfigFile _ _) as [options|]; [|intros [= <- <- <-]; eauto 10].
  set (opts := withCredentials _ _ options).
  destruct (_ || _); [intros [= <- <- <-]; eauto 10|].
  case_bool_decide; [intros [= <- <- <-]; eauto 10|].
  case_bool_decide; [intros [= <- <- <-]; eauto 10|].
  destruct (negb _); [intros [= <- <- <-]; eauto 10|].
  intros E. right. exists cleaned, opts. split; [done|].
  destruct (startVPN opts _) as [vpn|e]; [|by injection E as <- <- <-].
  destruct (attach cfg node vpn) as [r' calls']. by injection E as <- <- <-.
Qed.

(** C7. [connect] never leaves a tunnel running that it does not return: it
    starts the engine at most once, with a positive timeout, and on every error
    after a successful handshake closes it. *)
Theorem connect_never_leaks cfg dir fs node r calls fs' :
  connect cfg dir fs node = (r, calls, fs') →
  (0 < handshakeTimeout cfg)%Z ∧
  match r with
  | Ok s => calls = [EngineStart (handshakeTimeout cfg)] ∧ ses_nodeID s = ID node
  | Err _ => calls = [] ∨ calls = [EngineStart (handshakeTimeout cfg); EngineClose] ∨
      (calls = [EngineStart (handshakeTimeout cfg)] ∧
       ∃ options e, startVPN options (handshakeTimeout cfg) = Err e)
  end.
Proof.
  intros H. split; [apply handshakeTimeout_pos|].
  apply connect_inv in H as [(Hr & -> & _)|(cleaned & options & _ & _ & H)].
  { destruct r; [done|by left]. }
  destruct (startVPN options _) as [vpn|e] eqn:Es.
  - destruct H as [-> ->]. destruct (attach cfg node vpn) as [r calls'] eqn:Ea. simpl.
    rewrite (attach_calls _ _ _ _ _ Ea). destruct r as [s|]; simpl; [|by auto].
    split; [done|]. unfold attach in Ea. by repeat case_hyp Ea; simplify_eq.
  - destruct H as [Hr ->]. destruct r; [done|]. right; right. eauto.
Qed.

(** The only file [connect] writes is the node's profile in the runtime
    directory, and the profile it hands to the engine is the sanitized one. *)
Theorem connect_writes_profile cfg dir fs node r calls fs' :
  connect cfg dir fs node = (r, calls, fs') →
  let configPath := osJoin os dir (safeFilename (ID node) +:+ ".ovpn") in
  (∀ p, p ≠ configPath → fs' !! p = fs !! p) ∧
  (calls ≠ [] → ∃ cleaned, SanitizeOpenVPNConfig (OpenVPNConfig node) = Ok cleaned ∧
     fs' !! configPath = Some cleaned).
Proof.
  intros H configPath. apply connect_inv in H as [(_ & -> & Hf)|(cleaned & options & Hs & -> & _)].
  - split; [|done]. intros p Hp. destruct Hf as [->|[data ->]]; [done|]. by rewrite lookup_insert_ne.
  - split; [intros p Hp; by rewrite lookup_insert_ne|]. intros _. exists cleaned. by rewrite lookup_insert_eq.
Qed.

(** Restored nodes cannot be connected: the OpenVPN profile of a node is
    not part of the saved state, so after a restart [connect] refuses every
    cached node before it even starts the engine. *)
Theorem restored_nodes_refused json good fs store nodes snapshot now st fs1 cfg dir fs2 node :
  noFaults os store → stateRoundTrips json good → good (mkState 1 nodes snapshot now) →
  Save os json fs store nodes snapshot now = (None, fs1) → LoadState os json fs1 store = (st, None) →
  node ∈ Nodes st →
  connect cfg dir fs2 node = (Err "node does not contain OpenVPN config", [], fs2).
Proof.
  intros Hn Hj Hg Hs Hl Hin.
  destruct (load_after_save os json good fs store nodes snapshot now Hn Hj Hg) as (fs' & Hs' & Hl').
  rewrite Hs in Hs'. injection Hs' as <-. rewrite Hl in Hl'. injection Hl' as ->. simpl in Hin.
  apply list_elem_of_fmap in Hin as (n & -> & _). done.
Qed.
End Connect.

(** ** File names and DNS servers *)

Definition safeBytes : bytes := s2l "abcdefghijklmnopqrstuvwxyzABCDEFGHIJKLMNOPQRSTUVWXYZ0123456789-_.".

Lemma safeRune_byte r : ∃ c, encodeRune (safeRune r) = [c] ∧ c ∈ safeBytes.
Proof.
  assert (∀ n, (n < 128)%N → safeRune n = n → encodeRune n = [byte_of n] ∧ byte_of n ∈ safeBytes) as Hall.
  { apply (forall_below (λ n, safeRune n = n → encodeRune n = [byte_of n] ∧ byte_of n ∈ safeBytes) 128).
    vm_compute. reflexivity. }
  assert (safeRune r < 128 ∧ safeRune (safeRune r) = safeRune r)%N as [Hlt Hidem].
  { assert (safeRune r = 95 ∨ safeRune r = r ∧ r < 128)%N as [E|[E ?]]; [|rewrite !E; done..].
    unfold safeRune. destruct (_ || _) eqn:E; [right; split; [done|]|by left].
    repeat (apply orb_true_iff in E as [E|E]); bools; lia. }
  destruct (Hall _ Hlt Hidem) as [-> ?]. eauto.
Qed.

(** A profile is written under a name made of letters, digits, [-], [_]
    and [.] only, and never empty: no node ID can reach another directory. *)
Theorem safe_filename value :
  safeFilename value ≠ "" ∧ Forall (λ c, c ∈ safeBytes) (s2l (safeFilename value)).
Proof.
  unfold safeFilename. case_bool_decide as Hv; [split; [done|decided]|].
  assert (runes (s2l value) ≠ []) as Hne.
  { destruct value as [|c v]; [done|]. unfold runes. intros E. apply fmap_nil_inv in E. revert E.
    change (s2l (String c v)) with (c :: s2l v). cbn [decodeRunes]. repeat case_goal; done. }
  rewrite s2l_l2s. split.
  - destruct (runes (s2l value)) as [|r rs]; [done|]. cbn [mbind list_bind].
    destruct (safeRune_byte r) as (c & -> & _). done.
  - apply Forall_bind, Forall_forall. intros r _. unfold compose. destruct (safeRune_byte r) as (c & -> & ?).
    by apply Forall_singleton.
Qed.

Lemma indexByte_None c l : indexByte c l = None ↔ c ∉ l.
Proof.
  induction l as [|d l IH]; simpl; [split; [intros _; apply not_elem_of_nil|done]|].
  rewrite not_elem_of_cons. case_bool_decide as E; [split; [done|intros [? _]; congruence]|].
  destruct (indexByte c l); simpl; [split; [done|intros [_ ?]; by apply IH in H]|].
  split; [|done]. intros _. split; [congruence|by apply IH].
Qed.

Lemma parseIP_parseAddr s : is_Some (parseIP s) → is_Some (parseAddr s).
Proof.
  unfold parseIP, parseAddr. destruct (parseAddrKind (s2l s)) as [[]|]; [..|by intros [? [=]]].
  - destruct (parseIPv4 (s2l s)); [by eexists|by intros [? [=]]].
  - case_bool_decide as Hz; [intros [? [=]]|]. apply indexByte_None in Hz. rewrite Hz.
    destruct (parseIPv6 (s2l s)); [by eexists|by intros [? [=]]].
Qed.

(** A valid configuration never fails for its DNS servers: every entry
    [Validate] accepts is an address for the network stack, in the same order,
    and an empty list gives the two public defaults. *)
Theorem configured_dns_valid {U : UnicodeTables} cfg :
  validConfig cfg → let servers := ovpnDNSServers (cfgOpenVPN cfg) in
  ∃ addrs, configuredDNS servers = Ok addrs ∧ addrs ≠ [] ∧
    (servers ≠ [] → Forall2 (λ s a, parseAddr s = Some a) servers addrs).
Proof.
  intros Hv servers. destruct (valid_openvpn _ Hv) as (_ & _ & Hf). fold servers in Hf.
  assert (∃ addrs, parseDNS servers = Ok addrs ∧ Forall2 (λ s a, parseAddr s = Some a) servers addrs) as
    (addrs & Hp & H2).
  { clear Hv. induction Hf as [|s l Hs _ (addrs & Hp & H2)]; [by exists []|].
    apply parseIP_parseAddr in Hs as [a Ha]. exists (a :: addrs). simpl. rewrite Ha, Hp. auto. }
  unfold configuredDNS. destruct servers as [|s l]; [by eexists|].
  exists addrs. split_and!; [done| |done]. by inversion H2.
Qed.

(** ** The controller *)

(** The controller and what its goroutines hold: [inflight] is the [Connect]
    between its critical sections, with the session once [connect] returned one;
    [alive] the sessions whose bridge runs; [toClose] those some goroutine took
    out of the controller and is closing; [doneErr] the error buffered in a
    session's [done] channel (capacity one); [watched] the sessions whose [watch]
    has not returned. *)
Record Controller := mkController {
  connecting : bool;
  current : option nat;
  lastError : string;
  inflight : option (option nat);
  alive : gset nat;
  toClose : gset nat;
  doneErr : gmap nat string;
  watched : gset nat
}.
Definition NewOpenVPNController : Controller := mkController false None "" None ∅ ∅ ∅ ∅.

Inductive action :=
  | ConnectBegin
  | ConnectEstablished (session : nat)
  | ConnectFailed (err : string)
  | ConnectPublish
  | BridgeError (session : nat) (err : string)
  | WatchError (session : nat)
  | WatchClosed (session : nat)
  | Disconnect
  | CloseSession (session : nat).

(** [Connect]'s first critical section: the error that refuses it. *)
Definition connectRefused (c : Controller) : option string :=
  match current c with
  | Some _ => Some "VPNGate tunnel is already connected"
  | None => if connecting c then Some "VPNGate tunnel connection is already in progress" else None
  end.

(** One action; [None] when no goroutine is where it could do it. *)
Definition act (a : action) (c : Controller) : option Controller :=
  match a with
  | ConnectBegin =>
      match connectRefused c with
      | Some _ => Some c
      | None => Some (mkController true (current c) "" (Some None) (alive c) (toClose c) (doneErr c) (watched c))
      end
  | ConnectEstablished s =>
      match inflight c with
      | Some None =>
          if bool_decide (s ∈ alive c) || bool_decide (s ∈ watched c) || bool_decide (is_Some (doneErr c !! s))
          then None
          else Some (mkController (connecting c) (current c) (lastError c) (Some (Some s)) ({[s]} ∪ alive c)
                       (toClose c) (doneErr c) (watched c))
      | _ => None
      end
  | ConnectFailed err =>
      match inflight c with
      | Some None => Some (mkController false (current c) err None (alive c) (toClose c) (doneErr c) (watched c))
      | _ => None
      end
  | ConnectPublish =>
      match inflight c with
      | Some (Some s) => Some (mkController false (Some s) (lastError c) None (alive c) (toClose c) (doneErr c)
                                 ({[s]} ∪ watched c))
      | _ => None
      end
  | BridgeError s err =>
      if bool_decide (s ∈ alive c) then
        match doneErr c !! s with
        | None => Some (mkController (connecting c) (current c) (lastError c) (inflight c) (alive c) (toClose c)
                          (<[s := err]> (doneErr c)) (watched c))
        | Some _ => Some c
        end
      else None
  | WatchError s =>
      match doneErr c !! s with
      | Some err =>
          if bool_decide (s ∈ watched c) then
            let mine := bool_decide (current c = Some s) in
            Some (mkController (connecting c) (if mine then None else current c)
                    (if mine then "tunnel data path stopped: " +:+ err else lastError c) (inflight c) (alive c)
                    (({[s]} ∩ alive c) ∪ toClose c) (delete s (doneErr c)) (watched c ∖ {[s]}))
          else None
      | None => None
      end
  | WatchClosed s =>
      if bool_decide (s ∈ watched c) && bool_decide (s ∉ alive c)
      then Some (mkController (connecting c) (current c) (lastError c) (inflight c) (alive c) (toClose c)
                   (doneErr c) (watched c ∖ {[s]}))
      else None
  | Disconnect =>
      Some (mkController (connecting c) None "" (inflight c) (alive c)
              (match current c with Some s => {[s]} ∪ toClose c | None => toClose c end) (doneErr c) (watched c))
  | CloseSession s =>
      if bool_decide (s ∈ toClose c)
      then Some (mkController (connecting c) (current c) (lastError c) (inflight c) (alive c ∖ {[s]})
                   (toClose c ∖ {[s]}) (doneErr c) (watched c))
      else None
  end.

Fixpoint runActions (l : list action) (c : Controller) : option Controller :=
  match l with [] => Some c | a :: l => act a c ≫= runActions l end.

Record EnvironmentReport := mkEnv {
  envOS : string;
  Engine : string;
  BuiltIn : bool;
  RuntimeDir : string;
  PrivilegeHint : string;
  Ready : bool;
  Running : bool;
  Connecting : bool;
  LocalIP : string;
  Gateway : string;
  NodeID : string;
  PacketsOut : N;
  PacketsIn : N;
  BytesOut : N;
  BytesIn : N;
  envMessage : string
}.

(** [CheckEnvironment]; [lookup] gives the fields of a session. *)
Definition CheckEnvironment (os : OS) (runtimeDir : string) (lookup : nat → vpnSession) (c : Controller)
    : EnvironmentReport :=
  let report := mkEnv (osGOOS os) "minivpn-go+gvisor-netstack" true runtimeDir
    "用户态模式无需管理员权限，也无需安装 OpenVPN 或 TUN 驱动" true in
  match current c with
  | Some s =>
      let ses := lookup s in
      report true (connecting c) (ses_localIP ses) (ses_gateway ses) (ses_nodeID ses) (ses_packetsOut ses)
        (ses_packetsIn ses) (ses_bytesOut ses) (ses_bytesIn ses) "内置 OpenVPN 隧道已连接"
  | None =>
      report false (connecting c) "" "" "" 0%N 0%N 0%N 0%N
        (if negb (bool_decide (lastError c = "")) then "上次连接失败: " +:+ lastError c
         else if connecting c then "正在建立 VPNGate 隧道" else "内置 OpenVPN 协议引擎就绪")
  end.

(** [DialContext]: the session a connection is dialled over. *)
Definition DialContext (c : Controller) : result nat :=
  match current c with Some s => Ok s | None => Err "VPNGate exit is not connected" end.

(** The session a [Connect] has established and not published. *)
Definition inflightSession (c : Controller) : option nat :=
  match inflight c with Some o => o | None => None end.

Record controllerInv (c : Controller) : Prop := {
  ci_connecting : connecting c = true ↔ inflight c ≠ None;
  ci_exclusive : inflight c ≠ None → current c = None;
  ci_current : ∀ s, current c = Some s → s ∈ alive c ∧ (s ∉ toClose c);
  ci_inflight : ∀ s, inflightSession c = Some s → s ∈ alive c ∧ (s ∉ toClose c) ∧ (s ∉ watched c);
  ci_toClose : toClose c ⊆ alive c;
  ci_owned : ∀ s, s ∈ alive c → current c = Some s ∨ inflightSession c = Some s ∨ s ∈ toClose c
}.

Lemma controllerInv_new : controllerInv NewOpenVPNController.
Proof. constructor; simpl; try done; set_solver. Qed.

(** A live session that is owned neither by the controller nor by a [Connect]
    is being closed; the first two owners are the only thing the actions move. *)
Lemma inflightSession_None c : inflight c = None ∨ inflight c = Some None → inflightSession c = None.
Proof. unfold inflightSession. by intros [-> | ->]. Qed.

Lemma begin_inv c : controllerInv c → connectRefused c = None →
  controllerInv (mkController true (current c) "" (Some None) (alive c) (toClose c) (doneErr c) (watched c)).
Proof.
  intros [Hc He Hcur Hin Ht Ho] Hr. unfold connectRefused in Hr.
  destruct (current c) eqn:Ec; [done|]. destruct (connecting c) eqn:Ei; [done|].
  assert (inflight c = None) as En.
  { destruct (inflight c); [|done]. assert (false = true) by by apply Hc. done. }
  constructor; simpl; try done. intros s Hs. rewrite (inflightSession_None c) in Ho by auto.
  destruct (Ho s Hs) as [?|[?|?]]; [done..|by right; right].
Qed.

Lemma established_inv c s : controllerInv c → inflight c = Some None → s ∉ alive c → s ∉ watched c →
  controllerInv (mkController (connecting c) (current c) (lastError c) (Some (Some s)) ({[s]} ∪ alive c)
                   (toClose c) (doneErr c) (watched c)).
Proof.
  intros [Hc He Hcur Hin Ht Ho] Ei Hs Hw. rewrite (inflightSession_None c) in Ho by auto.
  assert (current c = None) as Ec by (apply He; congruence). assert (s ∉ toClose c) by set_solver.
  constructor; simpl; [rewrite Hc, Ei; done|done|intros x; by rewrite Ec| |set_solver|].
  - intros x [= <-]. split_and!; [set_solver|done|done].
  - intros x [->%elem_of_singleton|Hx]%elem_of_union; [by right; left|].
    destruct (Ho x Hx) as [?|[?|?]]; [by left|done|by right; right].
Qed.

Lemma failed_inv c err : controllerInv c → inflight c = Some None →
  controllerInv (mkController false (current c) err None (alive c) (toClose c) (doneErr c) (watched c)).
Proof.
  intros [Hc He Hcur Hin Ht Ho] Ei. rewrite (inflightSession_None c) in Ho by auto.
  constructor; simpl; done.
Qed.

Lemma publish_inv c s : controllerInv c → inflight c = Some (Some s) →
  controllerInv (mkController false (Some s) (lastError c) None (alive c) (toClose c) (doneErr c)
                   ({[s]} ∪ watched c)).
Proof.
  intros [Hc He Hcur Hin Ht Ho] Ei.
  assert (inflightSession c = Some s) as Es by (unfold inflightSession; by rewrite Ei).
  assert (current c = None) as Ec by (apply He; congruence). destruct (Hin s Es) as (? & ? & ?).
  constructor; simpl; try done; [by intros x [= <-]|]. intros x Hx.
  destruct (Ho x Hx) as [?|[?|?]]; [congruence|left; congruence|by right; right].
Qed.

(** Some goroutine takes session [s] out of the controller, if it is there. *)
Lemma detach_inv c s err de w : controllerInv c → inflightSession c ≠ Some s → w ⊆ watched c →
  controllerInv (mkController (connecting c) (if bool_decide (current c = Some s) then None else current c)
                   err (inflight c) (alive c) (({[s]} ∩ alive c) ∪ toClose c) de w).
Proof.
  intros [Hc He Hcur Hin Ht Ho] Hns Hw. constructor; simpl; [done| | | |set_solver|].
  - intros E. apply He in E. rewrite E. by case_goal.
  - intros x Hx. case_bool_decide; [done|]. destruct (Hcur x Hx). assert (x ≠ s) by congruence. set_solver.
  - intros x Hx. destruct (Hin x Hx) as (? & ? & ?). assert (x ≠ s) by (intros ->; by apply Hns). set_solver.
  - intros x Hx. destruct (decide (x = s)) as [->|Hne]; [right; right; set_solver|].
    destruct (Ho x Hx) as [E|[?|?]]; [left|by right; left|right; right; set_solver].
    case_bool_decide; [congruence|done].
Qed.

Lemma close_inv c s : controllerInv c → s ∈ toClose c →
  controllerInv (mkController (connecting c) (current c) (lastError c) (inflight c) (alive c ∖ {[s]})
                   (toClose c ∖ {[s]}) (doneErr c) (watched c)).
Proof.
  intros [Hc He Hcur Hin Ht Ho] Hs. constructor; simpl; [done|done| | |set_solver|].
  - intros x Hx. destruct (Hcur x Hx). assert (x ≠ s) by set_solver. set_solver.
  - intros x Hx. destruct (Hin x Hx) as (? & ? & ?). assert (x ≠ s) by set_solver. set_solver.
  - intros x [Hx Hn]%elem_of_difference. destruct (Ho x Hx) as [?|[?|?]]; [by left|by right; left|].
    right; right. set_solver.
Qed.

Lemma disconnect_inv c : controllerInv c →
  controllerInv (mkController (connecting c) None "" (inflight c) (alive c)
    (match current c with Some s => {[s]} ∪ toClose c | None => toClose c end) (doneErr c) (watched c)).
Proof.
  intros Hi. destruct (current c) as [s|] eqn:Ec.
  - assert (inflightSession c ≠ Some s) as Hns.
    { unfold inflightSession. destruct (inflight c) eqn:Ei; [|done].
      rewrite (ci_exclusive _ Hi) in Ec by congruence. done. }
    pose proof (detach_inv c s "" (doneErr c) (watched c) Hi Hns ltac:(done)) as Hd.
    rewrite bool_decide_true in Hd by done. destruct (ci_current _ Hi s Ec) as [Hal _].
    assert ({[s]} ∩ alive c = {[s]}) as E by set_solver. by rewrite E in Hd.
  - destruct Hi as [Hc He Hcur Hin Ht Ho]. rewrite Ec in *. by constructor.
Qed.

Lemma act_inv a c c' : controllerInv c → act a c = Some c' → controllerInv c'.
Proof.
  intros Hi H. destruct a as [|s|err| |s err|s|s| |s]; simpl in H.
  - destruct (connectRefused c) eqn:Er; simplify_eq; [done|by apply begin_inv].
  - destruct (inflight c) as [[|]|] eqn:Ei; [done| |done]. case_hyp H; [done|]. bools. simplify_eq.
    by apply established_inv.
  - destruct (inflight c) as [[|]|] eqn:Ei; [done| |done]. simplify_eq. by apply failed_inv.
  - destruct (inflight c) as [[s|]|] eqn:Ei; [|done..]. simplify_eq. by apply publish_inv.
  - case_hyp H; [|done]. case_hyp H; simplify_eq; [done|]. destruct Hi. by constructor.
  - destruct (doneErr c !! s) as [err|]; [|done]. case_hyp H; [|done]. bools. simplify_eq.
    apply detach_inv; [done| |set_solver].
    intros E. by apply (ci_inflight _ Hi) in E as (_ & _ & ?).
  - case_hyp H; [|done]. simplify_eq. destruct Hi as [Hc He Hcur Hin Ht Ho]. constructor; simpl; try done.
    intros x Hx. destruct (Hin x Hx) as (? & ? & ?). split_and!; set_solver.
  - simplify_eq. by apply disconnect_inv.
  - case_hyp H; [|done]. bools. simplify_eq. by apply close_inv.
Qed.

Lemma runActions_inv l c c' : controllerInv c → runActions l c = Some c' → controllerInv c'.
Proof.
  revert c. induction l as [|a l IH]; intros c Hi H; simpl in H; [by simplify_eq|].
  destruct (act a c) as [c1|] eqn:E; [|done]. by eapply IH; [eapply act_inv|].
Qed.


(** A disconnect while a connection attempt is under way is lost: the
    attempt is not stopped, and the tunnel it establishes afterwards is published
    and carries traffic although nobody asked for it again. *)
Theorem disconnect_while_connecting_lost s :
  ∃ c, runActions [ConnectBegin; Disconnect; ConnectEstablished s; ConnectPublish] NewOpenVPNController = Some c ∧
    DialContext c = Ok s ∧ s ∈ alive c ∧ (s ∉ toClose c).
Proof.
  eexists. split; [reflexivity|]. simpl. split_and!; [done|set_solver|set_solver].
Qed.

(** When the data path of the current tunnel fails, its watcher takes it
    out of the controller, so that new connections are refused instead of being
    lost, and hands it to be closed. *)
Theorem watch_detaches c s err :
  controllerInv c → current c = Some s → doneErr c !! s = Some err → s ∈ watched c →
  ∃ c', act (WatchError s) c = Some c' ∧ DialContext c' = Err "VPNGate exit is not connected" ∧
    s ∈ toClose c' ∧ lastError c' = "tunnel data path stopped: " +:+ err ∧
    ∃ c'', act (CloseSession s) c' = Some c'' ∧ s ∉ alive c''.
Proof.
  intros Hi Hc Hd Hw. destruct (ci_current _ Hi s Hc) as [Ha _]. simpl.
  rewrite Hd, bool_decide_true by done. eexists. split; [reflexivity|]. unfold DialContext. simpl.
  rewrite (bool_decide_true (current c = Some s)) by done. split_and!; [done|set_solver|done|].
  rewrite bool_decide_true by set_solver. eexists. split; [reflexivity|]. set_solver.
Qed.

(** ** Concrete runs *)

(** An engine that accepts every profile. *)
Definition sampleConnect : OpenVPNSettings → string → FS → VpnNode → result vpnSession * list engineCall * FS :=
  connect (U := asciiTables) quietOS (Options := string * string) (VPN := string)
    (λ fs p, match fs !! p with Some text => Ok ("", "") | None => Err "no such file" end)
    (λ _, "203.0.113.8") (λ _, "443") (λ _, "AES-128-CBC") (λ _, "SHA1") (λ u p _, (u, p)) (λ _, true)
    (λ _ _, Ok "10.8.0.2") id (λ _, "10.8.0.1") (λ _ _ _, None) (λ _, "10.8.0.2").

Definition vpnNode : VpnNode :=
  setOpenVPNConfig ("client" +:+ nl +:+ "remote 203.0.113.8 443" +:+ nl +:+ "up /bin/sh" +:+ nl)
    (setID "../203.0.113.8:443" zeroNode).

#[local] Instance engineCall_eq_dec : EqDecision engineCall.
Proof. solve_decision. Defined.

Lemma sampleConnect_ok : isOk (sampleConnect (cfgOpenVPN Default) "run" ∅ vpnNode).1.1 = true.
Proof. vm_compute. reflexivity. Qed.
Lemma sampleConnect_calls :
  bool_decide ((sampleConnect (cfgOpenVPN Default) "run" ∅ vpnNode).1.2 = []) = false.
Proof. vm_compute. reflexivity. Qed.

Lemma connect_never_leaks_witness :
  (sampleConnect (cfgOpenVPN Default) "run" ∅ vpnNode).1.2 = [EngineStart (45 * Second)].
Proof.
  pose proof sampleConnect_ok as Hok.
  destruct (sampleConnect (cfgOpenVPN Default) "run" ∅ vpnNode) as [[r calls] fs'] eqn:E.
  pose proof (connect_never_leaks (U := asciiTables) _ _ _ _ _ _ _ _ _ _ _ _ _ _ _ _ _ _ _ _ E) as [_ H].
  destruct r; [exact (proj1 H)|done].
Defined.

Lemma connect_writes_profile_witness :
  (sampleConnect (cfgOpenVPN Default) "run" ∅ vpnNode).2 !! "run/.._203.0.113.8_443.ovpn" =
  Some ("client" +:+ nl +:+ "remote 203.0.113.8 443" +:+ nl).
Proof.
  pose proof sampleConnect_calls as Hcalls.
  destruct (sampleConnect (cfgOpenVPN Default) "run" ∅ vpnNode) as [[r calls] fs'] eqn:E.
  destruct (connect_writes_profile (U := asciiTables) _ _ _ _ _ _ _ _ _ _ _ _ _ _ _ _ _ _ _ _ E) as [_ H].
  destruct H as (cleaned & Hc & Hf); [by apply bool_decide_eq_false in Hcalls|].
  vm_compute in Hc. injection Hc as <-. exact Hf.
Defined.

Lemma restored_nodes_refused_witness :
  sampleConnect (cfgOpenVPN Default) "run" ∅ (forgetNode sampleNode) =
  (Err "node does not contain OpenVPN config", [], ∅).
Proof.
  destruct (load_after_save quietOS sampleStateJSON (λ st, st = sampleStored) ∅ (mkStore "state.json") [sampleNode]
    (setState StateConnected InitialSnapshot) 5 ltac:(by split_and!) sampleState_round_trips eq_refl)
    as (fs1 & Hs & Hl).
  eapply (restored_nodes_refused (U := asciiTables) quietOS _ _ _ _ _ _ _ _ _ _ _ _ sampleStateJSON
    (λ st, st = sampleStored) ∅ (mkStore "state.json") [sampleNode] (setState StateConnected InitialSnapshot) 5);
    [by split_and!|exact sampleState_round_trips|reflexivity|exact Hs|exact Hl|by left].
Defined.

Lemma configured_dns_valid_witness :
  ∃ addrs, configuredDNS (U := asciiTables) (ovpnDNSServers (cfgOpenVPN quietConfig)) = Ok addrs ∧ addrs ≠ [].
Proof.
  assert (validConfig quietConfig) as Hv by (apply (validate_valid (U := asciiTables)); vm_compute; reflexivity).
  destruct (configured_dns_valid (U := asciiTables) quietConfig Hv) as (addrs & H1 & H2 & _).
  exists addrs. exact (conj H1 H2).
Defined.

Definition brokenController : Controller :=
  mkController false (Some 1%nat) "" None {[1%nat]} ∅ {[1%nat := "timeout"]} {[1%nat]}.


Lemma watch_detaches_witness :
  ∃ c', act (WatchError 1) brokenController = Some c' ∧ DialContext c' = Err "VPNGate exit is not connected".
Proof.
  destruct (watch_detaches brokenController 1%nat "timeout") as (c' & H1 & H2 & _).
  - apply (runActions_inv [ConnectBegin; ConnectEstablished 1; ConnectPublish; BridgeError 1 "timeout"]
             NewOpenVPNController); [apply controllerInv_new|reflexivity].
  - reflexivity.
  - reflexivity.
  - set_solver.
  - exists c'. exact (conj H1 H2).
Defined.
