(* ===== verification/TunnelBridge.v ===== *)
(** * [internal/tunnel]: the data path of a session

    The three goroutines of [startBridge] between the userspace network stack (the
    device) and the OpenVPN engine, [reportBridgeError], and the part of [close]
    that stops them, as steps between which any other may run. The engine's end is
    [TUN] of [minivpn/internal/tun/tun.go] with the two workers of
    [minivpn/internal/datachannel/service.go] behind its unbuffered channels; no
    deadline is ever set on the tunnel in this program. The device returns packets
    in order, and any error at any time. *)

From S2P Require Import Prelude GoStrings Config Tunnel.
From stdpp Require Import relations.

(** ** The engine's end: [TUN] and the workers of the data channel *)

(** [moveUpWorker] between two packets, blocked in the send to [tunUp], or over. *)
Inductive upState := UpIdle | UpOffers (p : bytes) | UpDone.
(** [moveDownWorker] between two packets, holding the slice it received from
    [tunDown] (of the bridge's buffer, or the ping payload), or over. *)
Inductive slice := OfBuffer (n : nat) | OfPing.
Inductive downState := DownIdle | DownHas (data : slice) | DownDone.

(** [hangup] is closed by [Close], [shutdown] by the first worker that ends. *)
Record TUN := mkTUN { hangup : bool; shutdown : bool; readBuffer : bytes; upWorker : upState; downWorker : downState }.

Definition setUp w t := mkTUN (hangup t) (shutdown t) (readBuffer t) w (downWorker t).
Definition setDown w t := mkTUN (hangup t) (shutdown t) (readBuffer t) (upWorker t) w.
Definition setReadBuffer b t := mkTUN (hangup t) (shutdown t) b (upWorker t) (downWorker t).

(** The errors the bridge tells apart: [net.ErrClosed], [os.ErrClosed], others. *)
Inductive bridgeErr := NetErrClosed | OsErrClosed | ErrOther (e : string).

(** ** State *)

Inductive outState :=
  | OutRead
  | OutHave (p : bytes)
  | OutWrite (p : bytes)
  | OutCountPackets (p : bytes)
  | OutCountBytes (p : bytes)
  | OutFailed (e : bridgeErr)
  | OutReport (e : bridgeErr)
  | OutDone.
Inductive inState :=
  | InRead
  | InCountPackets (p : bytes)
  | InCountBytes (p : bytes)
  | InWrite (p : bytes)
  | InReport (e : bridgeErr)
  | InDone.
Inductive pingState := PingWait | PingWrite | PingReport (e : bridgeErr) | PingDone.

(** [close]: before [closeConnections], after [cancel], in and after [vpn.Close],
    after [device.Close], and at its end. *)
Inductive closePhase := Open | Cancelled | VpnClosing | VpnClosed | DeviceClosed | Closed.

(** From the stack to the engine; [taken] and [written] record what was read from
    the device and passed to [TUN.Write]. *)
Record outSide := mkOut {
  outPC : outState; devIn : list bytes; taken : list bytes; written : list bytes; packetsOut : N; bytesOut : N
}.
(** From the engine to the stack; [filled], [received] and [delivered] record what
    came out of [tunUp], out of [TUN.Read], and was written to the device. *)
Record inSide := mkIn {
  inPC : inState; filled : list bytes; received : list bytes; delivered : list bytes; packetsIn : N; bytesIn : N
}.
(** What all share: [buffer] is the one buffer the device is read into, whose slices
    the engine is handed. [deviceErrs] records the errors the device returned,
    [encrypted] what the engine encrypted but for the pings. *)
Record shared := mkShared {
  ctxDone : bool; tun : TUN; devClosed : bool; doneBuf : option string; deviceErrs : list string;
  buffer : bytes; encrypted : list bytes
}.
Record bridge := mkBridge { shr : shared; out : outSide; inn : inSide; pingPC : pingState; phase : closePhase }.

Definition add64 (a b : N) : N := ((a + b) mod 18446744073709551616)%N.
Definition packetSize (mtu : Z) : nat := Z.to_nat (Z.max (mtu +i 256)%go 2048).
Definition openVPNPingPayload : bytes :=
  byte_of <$> [42; 24; 123; 243; 100; 30; 180; 203; 7; 237; 45; 10; 152; 31; 199; 72]%N.

Definition setTun t s := mkShared (ctxDone s) t (devClosed s) (doneBuf s) (deviceErrs s) (buffer s) (encrypted s).
Definition setDone d s := mkShared (ctxDone s) (tun s) (devClosed s) d (deviceErrs s) (buffer s) (encrypted s).
Definition setBuffer b s := mkShared (ctxDone s) (tun s) (devClosed s) (doneBuf s) (deviceErrs s) b (encrypted s).
Definition addDeviceErr (e : bridgeErr) (s : shared) : shared :=
  mkShared (ctxDone s) (tun s) (devClosed s) (doneBuf s)
    (match e with ErrOther e => e :: deviceErrs s | _ => deviceErrs s end) (buffer s) (encrypted s).

(** [device.Read] into the buffer. *)
Definition overwrite (p buf : bytes) : bytes := p ++ drop (length p) buf.

(** ** Steps *)

(** [reportBridgeError]: a select takes any ready case, the default if none is. *)
Inductive reportBridgeError (s : shared) : bridgeErr → shared → Prop :=
  | report_net_closed : reportBridgeError s NetErrClosed s
  | report_os_closed : reportBridgeError s OsErrClosed s
  | report_cancelled e : ctxDone s = true → reportBridgeError s (ErrOther e) s
  | report_sent e : doneBuf s = None → reportBridgeError s (ErrOther e) (setDone (Some e) s)
  | report_default e : ctxDone s = false → doneBuf s ≠ None → reportBridgeError s (ErrOther e) s.

Section Steps.
Context (mtu : Z).

Definition setOutPC pc o := mkOut pc (devIn o) (taken o) (written o) (packetsOut o) (bytesOut o).
Definition setInPC pc i := mkIn pc (filled i) (received i) (delivered i) (packetsIn i) (bytesIn i).

Inductive outStep : shared → outSide → shared → outSide → Prop :=
  | out_read s o p rest :
      outPC o = OutRead → devIn o = p :: rest →
      outStep s o (setBuffer (overwrite (take (packetSize mtu) p) (buffer s)) s)
        (mkOut (OutHave (take (packetSize mtu) p)) rest (taken o ++ [take (packetSize mtu) p]) (written o) (packetsOut o) (bytesOut o))
  | out_read_err s o e : outPC o = OutRead → outStep s o (addDeviceErr e s) (setOutPC (OutReport e) o)
  | out_skip s o p : outPC o = OutHave p → ctxDone s = true → outStep s o s (setOutPC OutRead o)
  | out_check s o p : outPC o = OutHave p → ctxDone s = false → outStep s o s (setOutPC (OutWrite p) o)
  | out_write s o p :
      outPC o = OutWrite p → downWorker (tun s) = DownIdle →
      outStep s o (setTun (setDown (DownHas (OfBuffer (length p))) (tun s)) s)
        (mkOut (OutCountPackets p) (devIn o) (taken o) (written o ++ [p]) (packetsOut o) (bytesOut o))
  | out_write_err s o p :
      outPC o = OutWrite p → hangup (tun s) = true → outStep s o s (setOutPC (OutFailed NetErrClosed) o)
  | out_count_packets s o p :
      outPC o = OutCountPackets p →
      outStep s o s (mkOut (OutCountBytes p) (devIn o) (taken o) (written o) (add64 (packetsOut o) 1) (bytesOut o))
  | out_count_bytes s o p :
      outPC o = OutCountBytes p →
      outStep s o s (mkOut OutRead (devIn o) (taken o) (written o) (packetsOut o) (add64 (bytesOut o) (N.of_nat (length p))))
  | out_failed_skip s o e : outPC o = OutFailed e → ctxDone s = true → outStep s o s (setOutPC OutRead o)
  | out_failed s o e : outPC o = OutFailed e → ctxDone s = false → outStep s o s (setOutPC (OutReport e) o)
  | out_report s o e s' : outPC o = OutReport e → reportBridgeError s e s' → outStep s o s' (setOutPC OutDone o).

(** [TUN.Read] returns what is buffered; it fills an empty buffer from [tunUp], and
    fails when it is empty and [hangup] is closed. *)
Inductive inStep : shared → inSide → shared → inSide → Prop :=
  | in_fill s i extra :
      inPC i = InRead → readBuffer (tun s) = [] → upWorker (tun s) = UpOffers extra →
      inStep s i (setTun (setReadBuffer extra (setUp UpIdle (tun s))) s)
        (mkIn InRead (filled i ++ [extra]) (received i) (delivered i) (packetsIn i) (bytesIn i))
  | in_read s i :
      inPC i = InRead → readBuffer (tun s) ≠ [] →
      inStep s i (setTun (setReadBuffer (drop (packetSize mtu) (readBuffer (tun s))) (tun s)) s)
        (mkIn (InCountPackets (take (packetSize mtu) (readBuffer (tun s)))) (filled i)
           (received i ++ [take (packetSize mtu) (readBuffer (tun s))]) (delivered i) (packetsIn i) (bytesIn i))
  | in_read_err s i :
      inPC i = InRead → readBuffer (tun s) = [] → hangup (tun s) = true → inStep s i s (setInPC (InReport NetErrClosed) i)
  | in_count_packets s i p :
      inPC i = InCountPackets p →
      inStep s i s (mkIn (InCountBytes p) (filled i) (received i) (delivered i) (add64 (packetsIn i) 1) (bytesIn i))
  | in_count_bytes s i p :
      inPC i = InCountBytes p →
      inStep s i s (mkIn (InWrite p) (filled i) (received i) (delivered i) (packetsIn i) (add64 (bytesIn i) (N.of_nat (length p))))
  | in_write s i p :
      inPC i = InWrite p → inStep s i s (mkIn InRead (filled i) (received i) (delivered i ++ [p]) (packetsIn i) (bytesIn i))
  | in_write_err s i p e : inPC i = InWrite p → inStep s i (addDeviceErr e s) (setInPC (InReport e) i)
  | in_report s i e s' : inPC i = InReport e → reportBridgeError s e s' → inStep s i s' (setInPC InDone i).

Inductive pingStep : shared → pingState → shared → pingState → Prop :=
  | ping_cancelled s : ctxDone s = true → pingStep s PingWait s PingDone
  | ping_tick s : pingStep s PingWait s PingWrite
  | ping_write s :
      downWorker (tun s) = DownIdle → pingStep s PingWrite (setTun (setDown (DownHas OfPing) (tun s)) s) PingWait
  | ping_write_err s : hangup (tun s) = true → pingStep s PingWrite s (PingReport NetErrClosed)
  | ping_report s e s' : reportBridgeError s e s' → pingStep s (PingReport e) s' PingDone.

(** [close]; [waitConnections] is between [VpnClosed] and [DeviceClosed], and
    [WaitWorkersShutdown] ends [vpn.Close]. *)
Inductive closeStep : bridge → closePhase → shared → Prop :=
  | close_cancel b :
      phase b = Open →
      closeStep b Cancelled (mkShared true (tun (shr b)) (devClosed (shr b)) (doneBuf (shr b)) (deviceErrs (shr b))
                               (buffer (shr b)) (encrypted (shr b)))
  | close_vpn b :
      phase b = Cancelled →
      closeStep b VpnClosing (setTun (mkTUN true true (readBuffer (tun (shr b))) (upWorker (tun (shr b))) (downWorker (tun (shr b)))) (shr b))
  | close_vpn_done b :
      phase b = VpnClosing → upWorker (tun (shr b)) = UpDone → downWorker (tun (shr b)) = DownDone →
      closeStep b VpnClosed (shr b)
  | close_device b :
      phase b = VpnClosed →
      closeStep b DeviceClosed (mkShared (ctxDone (shr b)) (tun (shr b)) true (doneBuf (shr b)) (deviceErrs (shr b))
                                  (buffer (shr b)) (encrypted (shr b)))
  | close_wait b :
      phase b = DeviceClosed → outPC (out b) = OutDone → inPC (inn b) = InDone → pingPC b = PingDone →
      closeStep b Closed (shr b).

(** What the network stack, the engine's workers and [watch] do meanwhile. *)
Inductive envStep : shared → outSide → shared → outSide → Prop :=
  | env_stack_sends s o p :
      devClosed s = false →
      envStep s o s (mkOut (outPC o) (devIn o ++ [p]) (taken o) (written o) (packetsOut o) (bytesOut o))
  | env_worker_fails s o :
      shutdown (tun s) = false →
      envStep s o (setTun (mkTUN (hangup (tun s)) true (readBuffer (tun s)) (upWorker (tun s)) (downWorker (tun s))) s) o
  | env_up_offers s o p : upWorker (tun s) = UpIdle → envStep s o (setTun (setUp (UpOffers p) (tun s)) s) o
  | env_up_stops s o :
      upWorker (tun s) = UpIdle → shutdown (tun s) = true → envStep s o (setTun (setUp UpDone (tun s)) s) o
  | env_down_encrypts s o d :
      downWorker (tun s) = DownHas d →
      envStep s o (mkShared (ctxDone s) (setDown DownIdle (tun s)) (devClosed s) (doneBuf s) (deviceErrs s) (buffer s)
                     (match d with OfBuffer n => encrypted s ++ [take n (buffer s)] | OfPing => encrypted s end)) o
  | env_down_stops s o :
      downWorker (tun s) = DownIdle → shutdown (tun s) = true → envStep s o (setTun (setDown DownDone (tun s)) s) o
  | env_watch s o : doneBuf s ≠ None → envStep s o (setDone None s) o.

Inductive bridgeStep : bridge → bridge → Prop :=
  | step_out b s o : outStep (shr b) (out b) s o → bridgeStep b (mkBridge s o (inn b) (pingPC b) (phase b))
  | step_in b s i : inStep (shr b) (inn b) s i → bridgeStep b (mkBridge s (out b) i (pingPC b) (phase b))
  | step_ping b s p : pingStep (shr b) (pingPC b) s p → bridgeStep b (mkBridge s (out b) (inn b) p (phase b))
  | step_close b ph s : closeStep b ph s → bridgeStep b (mkBridge s (out b) (inn b) (pingPC b) ph)
  | step_env b s o : envStep (shr b) (out b) s o → bridgeStep b (mkBridge s o (inn b) (pingPC b) (phase b)).

Definition startBridge : bridge :=
  mkBridge (mkShared false (mkTUN false false [] UpIdle DownIdle) false None [] (replicate (packetSize mtu) (byte_of 0)) [])
    (mkOut OutRead [] [] [] 0 0) (mkIn InRead [] [] [] 0 0) PingWait Open.
Definition reachableBridge : bridge → Prop := rtc bridgeStep startBridge.
End Steps.

(** The error [close] returns: the engine's unless it says [net.ErrClosed], else the
    device's unless it says [os.ErrClosed]. *)
Definition closeError (vpnErr deviceErr : option bridgeErr) : option bridgeErr :=
  let closeErr := match vpnErr with Some NetErrClosed => None | e => e end in
  match deviceErr, closeErr with
  | Some OsErrClosed, _ | None, _ | _, Some _ => closeErr
  | Some e, None => Some e
  end.

(** ** What the bridge carries *)

Definition total (l : list bytes) : N := N.of_nat (length (concat l)).
Definition mod64 (n : N) : N := (n mod 18446744073709551616)%N.

Lemma add64_mod a b : add64 (mod64 a) b = mod64 (a + b).
Proof. unfold add64, mod64. by rewrite N.Div0.add_mod_idemp_l. Qed.
Lemma total_snoc l p : total (l ++ [p]) = (total l + N.of_nat (length p))%N.
Proof. unfold total. rewrite concat_app, length_app. cbn. rewrite app_nil_r. lia. Qed.
Lemma length_snoc {A} (l : list A) x : N.of_nat (length (l ++ [x])) = (N.of_nat (length l) + 1)%N.
Proof. rewrite length_app. cbn. lia. Qed.

(** The packet the sending goroutine has in hand. *)
Definition held (pc : outState) : list bytes := match pc with OutHave p | OutWrite p => [p] | _ => [] end.
Definition stopped (pc : outState) : Prop := match pc with OutFailed _ | OutReport _ | OutDone => True | _ => False end.
Record outInv (ctx : bool) (o : outSide) : Prop := {
  oi_sub : written o ++ held (outPC o) `sublist_of` taken o;
  oi_all : ctx = false → ¬ stopped (outPC o) → taken o = written o ++ held (outPC o);
  oi_counts : match outPC o with
    | OutCountPackets p => ∃ w, written o = w ++ [p] ∧ packetsOut o = mod64 (N.of_nat (length w)) ∧ bytesOut o = mod64 (total w)
    | OutCountBytes p => ∃ w, written o = w ++ [p] ∧ packetsOut o = mod64 (N.of_nat (length (written o))) ∧ bytesOut o = mod64 (total w)
    | _ => packetsOut o = mod64 (N.of_nat (length (written o))) ∧ bytesOut o = mod64 (total (written o))
    end
}.

Lemma reportBridgeError_keeps s e s' : reportBridgeError s e s' → s' = setDone (doneBuf s') s.
Proof. destruct 1; destruct s; done. Qed.

Lemma reportBridgeError_tun s e s' : reportBridgeError s e s' → tun s' = tun s.
Proof. by destruct 1. Qed.

(** What a step of the sending goroutine does to the shared state. *)
Lemma outStep_shared mtu s o s' o' : outStep mtu s o s' o' →
  ctxDone s' = ctxDone s ∧ devClosed s' = devClosed s ∧ hangup (tun s') = hangup (tun s) ∧ shutdown (tun s') = shutdown (tun s) ∧
  readBuffer (tun s') = readBuffer (tun s) ∧ upWorker (tun s') = upWorker (tun s) ∧ encrypted s' = encrypted s ∧
  deviceErrs s ⊆ deviceErrs s' ∧ (downWorker (tun s) = DownDone → downWorker (tun s') = DownDone).
Proof.
  destruct 1 as [| | | |s o p E Ed| | | | | |s o e s' E Hr]; try (by split_and!).
  - split_and!; try done. destruct e; cbn; [done..|by apply list_subseteq_cons].
  - split_and!; try done. cbn. by rewrite Ed.
  - rewrite (reportBridgeError_keeps _ _ _ Hr). by split_and!.
Qed.

Lemma inStep_shared mtu s i s' i' : inStep mtu s i s' i' →
  ctxDone s' = ctxDone s ∧ devClosed s' = devClosed s ∧ hangup (tun s') = hangup (tun s) ∧ shutdown (tun s') = shutdown (tun s) ∧
  downWorker (tun s') = downWorker (tun s) ∧ encrypted s' = encrypted s ∧ buffer s' = buffer s ∧
  deviceErrs s ⊆ deviceErrs s' ∧ (upWorker (tun s) = UpDone → upWorker (tun s') = UpDone).
Proof.
  destruct 1 as [s i extra E Eb Eu| | | | | |s i p e E|s i e s' E Hr]; try (by split_and!).
  - split_and!; try done. by rewrite Eu.
  - split_and!; try done. destruct e; cbn; [done..|by apply list_subseteq_cons].
  - rewrite (reportBridgeError_keeps _ _ _ Hr). by split_and!.
Qed.

Lemma pingStep_shared s p s' p' : pingStep s p s' p' →
  ctxDone s' = ctxDone s ∧ devClosed s' = devClosed s ∧ hangup (tun s') = hangup (tun s) ∧ shutdown (tun s') = shutdown (tun s) ∧
  readBuffer (tun s') = readBuffer (tun s) ∧ upWorker (tun s') = upWorker (tun s) ∧ encrypted s' = encrypted s ∧ buffer s' = buffer s ∧
  deviceErrs s' = deviceErrs s ∧ (downWorker (tun s') = downWorker (tun s) ∨ downWorker (tun s) = DownIdle ∧ downWorker (tun s') = DownHas OfPing).
Proof.
  destruct 1 as [| |s E| |s e s' Hr]; try (by split_and!; try left).
  - split_and!; try done. by right.
  - rewrite (reportBridgeError_keeps _ _ _ Hr). split_and!; try done. by left.
Qed.

Lemma outInv_step mtu s o s' o' : outInv (ctxDone s) o → outStep mtu s o s' o' → outInv (ctxDone s') o'.
Proof.
  intros [Hsub Hall Hc] Hstep. destruct (outStep_shared _ _ _ _ _ Hstep) as (-> & _).
  destruct Hstep as [s o p rest E Ed|s o e E|s o p E Ec|s o p E Ec|s o p E Eu|s o p E Eh|s o p E|s o p E|s o e E Ec|s o e E Ec|s o e s' E Hr];
    rewrite E in *; cbn [held stopped] in *; rewrite ?app_nil_r in *; split; cbn [outPC written taken packetsOut bytesOut setOutPC held stopped];
    rewrite ?app_nil_r; try done; try (by intros _ []); try (by intros Hx; congruence).
  - by apply sublist_app.
  - intros Hx _. by rewrite <-Hall by tauto.
  - etrans; [|exact Hsub]. by apply sublist_inserts_r.
  - destruct Hc as [-> ->]. by exists (written o).
  - etrans; [|exact Hsub]. by apply sublist_inserts_r.
  - destruct Hc as (w & Hw & -> & ->). exists w. split_and!; [done| |done]. by rewrite add64_mod, Hw, length_snoc.
  - destruct Hc as (w & Hw & -> & ->). split; [done|]. by rewrite add64_mod, Hw, total_snoc.
Qed.

(** The sizes of what the engine encrypts. *)
Definition pendingSizes (w : downState) : list nat := match w with DownHas (OfBuffer n) => [n] | _ => [] end.
Record encInv (mtu : Z) (s : shared) (o : outSide) : Prop := {
  en_buffer : length (buffer s) = packetSize mtu;
  en_held : Forall (λ p, (length p ≤ packetSize mtu)%nat) (held (outPC o));
  en_pending : Forall (λ n, (n ≤ packetSize mtu)%nat) (pendingSizes (downWorker (tun s)));
  en_sizes : (length <$> encrypted s) ++ pendingSizes (downWorker (tun s)) = length <$> written o
}.

Lemma encInv_out mtu s o s' o' : encInv mtu s o → outStep mtu s o s' o' → encInv mtu s' o'.
Proof.
  intros [Hb Hh Hp Hs] Hstep.
  destruct Hstep as [s o p rest E Ed|s o e E|s o p E Ec|s o p E Ec|s o p E Eu|s o p E Eh|s o p E|s o p E|s o e E Ec|s o e E Ec|s o e s' E Hr];
    rewrite ?E in *; cbn [held] in *; try rewrite (reportBridgeError_keeps _ _ _ Hr); try (split; cbn; try done; by constructor).
  - assert (length (take (packetSize mtu) p) ≤ packetSize mtu)%nat by (rewrite length_take; lia).
    split; cbn; [|by constructor|done|done]. unfold overwrite. rewrite length_app, length_drop, Hb. lia.
  - apply Forall_cons in Hh as [Hh _]. rewrite Eu in *. cbn in *. rewrite app_nil_r in Hs.
    split; cbn; [done|constructor|by constructor|]. by rewrite fmap_app, Hs.
Qed.

Lemma encInv_shared mtu s o s' :
  encInv mtu s o → buffer s' = buffer s → encrypted s' = encrypted s →
  (downWorker (tun s') = downWorker (tun s) ∨ pendingSizes (downWorker (tun s)) = [] ∧ pendingSizes (downWorker (tun s')) = []) →
  encInv mtu s' o.
Proof. intros [Hb Hh Hp Hs] Eb Ee [Ed|[E1 E2]]; split; rewrite ?Eb, ?Ee, ?Ed, ?E2; try done. by rewrite E1 in Hs. Qed.

Definition heldIn (pc : inState) : list bytes := match pc with InCountPackets p | InCountBytes p | InWrite p => [p] | _ => [] end.
Definition stoppedIn (pc : inState) : Prop := match pc with InReport _ | InDone => True | _ => False end.
Definition nonEmpty (l : list bytes) : list bytes := filter (.≠ []) l.

Record inInv (mtu : Z) (buf : bytes) (i : inSide) : Prop := {
  ii_prefix : delivered i ++ heldIn (inPC i) `prefix_of` received i;
  ii_all : ¬ stoppedIn (inPC i) → received i = delivered i ++ heldIn (inPC i);
  ii_counts : match inPC i with
    | InCountPackets p => packetsIn i = mod64 (N.of_nat (length (delivered i))) ∧ bytesIn i = mod64 (total (delivered i))
    | InCountBytes p => packetsIn i = mod64 (N.of_nat (length (received i))) ∧ bytesIn i = mod64 (total (delivered i))
    | _ => packetsIn i = mod64 (N.of_nat (length (received i))) ∧ bytesIn i = mod64 (total (received i))
    end;
  ii_stream : concat (filled i) = concat (received i) ++ buf;
  ii_whole : Forall (λ p, (length p ≤ packetSize mtu)%nat) (filled i) →
    (length buf ≤ packetSize mtu)%nat ∧ nonEmpty (filled i) = received i ++ nonEmpty [buf]
}.

Lemma nonEmpty_app a b : nonEmpty (a ++ b) = nonEmpty a ++ nonEmpty b.
Proof. apply filter_app. Qed.
Lemma nonEmpty_cons b : b ≠ [] → nonEmpty [b] = [b].
Proof. intros Hb. unfold nonEmpty. by rewrite filter_cons_True. Qed.

Lemma inInv_step mtu s i s' i' : inInv mtu (readBuffer (tun s)) i → inStep mtu s i s' i' → inInv mtu (readBuffer (tun s')) i'.
Proof.
  intros [Hp Ha Hc Hs Hw] Hstep.
  destruct Hstep as [s i extra E Eb Eu|s i E Eb|s i E Eb Eh|s i p E|s i p E|s i p E|s i p e E|s i e s' E Hr];
    rewrite E in *; cbn [heldIn stoppedIn] in *; rewrite ?app_nil_r in *;
    try rewrite (reportBridgeError_keeps _ _ _ Hr); cbn [tun setTun setReadBuffer setUp readBuffer setDone addDeviceErr];
    split; cbn [inPC filled received delivered packetsIn bytesIn setInPC heldIn stoppedIn]; rewrite ?app_nil_r; try done; try (by intros []).
  - rewrite concat_app, Hs, Eb, app_nil_r. cbn. by rewrite app_nil_r.
  - intros [Hf Hx]%Forall_app. apply Forall_cons in Hx as [Hx _]. split; [done|]. destruct (Hw Hf) as [_ Hn].
    rewrite nonEmpty_app, Hn, Eb. cbn. by rewrite app_nil_r.
  - by rewrite <-Ha by tauto.
  - intros _. by rewrite <-Ha by tauto.
  - rewrite Ha in Hc by tauto. done.
  - rewrite concat_app, <-app_assoc. cbn. by rewrite app_nil_r, take_drop.
  - intros Hf. destruct (Hw Hf) as [Hl Hn]. rewrite drop_ge, take_ge by done. split; [cbn; lia|].
    rewrite Hn, (nonEmpty_cons _ Eb). cbn. by rewrite app_nil_r.
  - rewrite Ha by tauto. destruct Hc as [-> ->]. split; [|done]. by rewrite add64_mod, length_snoc.
  - destruct Hc as [-> ->]. split; [done|]. by rewrite Ha, add64_mod, total_snoc by tauto.
  - etrans; [|exact Hp]. by apply prefix_app_r.
Qed.

(** ** Errors *)

Definition fromDevice (s : shared) (e : bridgeErr) : Prop := match e with ErrOther e => e ∈ deviceErrs s | _ => True end.
Definition fromEngine (e : bridgeErr) : Prop := match e with ErrOther _ => False | _ => True end.

(** Every error that is on its way to [watch] came from the device. *)
Definition outErr (s : shared) (pc : outState) : Prop :=
  match pc with OutFailed e => fromEngine e | OutReport e => fromDevice s e | _ => True end.
Definition inErr (s : shared) (pc : inState) : Prop := match pc with InReport e => fromDevice s e | _ => True end.
Record errInv (b : bridge) : Prop := {
  ei_done : ∀ e, doneBuf (shr b) = Some e → e ∈ deviceErrs (shr b);
  ei_out : outErr (shr b) (outPC (out b));
  ei_in : inErr (shr b) (inPC (inn b));
  ei_ping : match pingPC b with PingReport e => fromEngine e | _ => True end
}.

Lemma fromEngine_device s e : fromEngine e → fromDevice s e.
Proof. by destruct e. Qed.
Lemma outErr_mono s s' pc : deviceErrs s ⊆ deviceErrs s' → outErr s pc → outErr s' pc.
Proof. intros Hm. destruct pc as [| | | | | |e|]; try done. destruct e; simpl; auto. Qed.
Lemma inErr_mono s s' pc : deviceErrs s ⊆ deviceErrs s' → inErr s pc → inErr s' pc.
Proof. intros Hm. destruct pc as [| | | |e|]; try done. destruct e; simpl; auto. Qed.

Lemma reportBridgeError_done s e s' :
  reportBridgeError s e s' → fromDevice s e → (∀ e, doneBuf s = Some e → e ∈ deviceErrs s) →
  ∀ e, doneBuf s' = Some e → e ∈ deviceErrs s'.
Proof. destruct 1; simpl; intros Hd Hs e'; auto. by intros [= <-]. Qed.

Lemma errInv_out mtu b s o : errInv b → outStep mtu (shr b) (out b) s o → errInv (mkBridge s o (inn b) (pingPC b) (phase b)).
Proof.
  intros [Hd Ho Hi Hp] Hstep. destruct (outStep_shared _ _ _ _ _ Hstep) as (_ & _ & _ & _ & _ & _ & _ & Hm & _).
  apply (inErr_mono _ s) in Hi; [|done]. remember (shr b) as s0 eqn:Es. remember (out b) as o0 eqn:Eo.
  destruct Hstep as [s o p rest E Ed|s o e E|s o p E Ec|s o p E Ec|s o p E Eu|s o p E Eh|s o p E|s o p E|s o e E Ec|s o e E Ec|s o e s' E Hr];
    rewrite E in Ho; split; cbn; try done.
  - intros e' He'. by apply Hm, Hd.
  - destruct e; cbn; [done..|by left].
  - by apply fromEngine_device.
  - by eapply reportBridgeError_done.
Qed.

Lemma errInv_in mtu b s i : errInv b → inStep mtu (shr b) (inn b) s i → errInv (mkBridge s (out b) i (pingPC b) (phase b)).
Proof.
  intros [Hd Ho Hi Hp] Hstep. destruct (inStep_shared _ _ _ _ _ Hstep) as (_ & _ & _ & _ & _ & _ & _ & Hm & _).
  apply (outErr_mono _ s) in Ho; [|done]. remember (shr b) as s0 eqn:Es. remember (inn b) as i0 eqn:Ei.
  destruct Hstep as [s i extra E Eb Eu|s i E Eb|s i E Eb Eh|s i p E|s i p E|s i p E|s i p e E|s i e s' E Hr];
    rewrite E in Hi; split; cbn; try done.
  - intros e' He'. by apply Hm, Hd.
  - destruct e; cbn; [done..|by left].
  - by eapply reportBridgeError_done.
Qed.

Lemma errInv_step mtu b b' : errInv b → bridgeStep mtu b b' → errInv b'.
Proof.
  intros Hb Hstep. destruct Hstep as [b s o H|b s i H|b s p H|b ph s H|b s o H].
  - by eapply errInv_out.
  - by eapply errInv_in.
  - destruct Hb as [Hd Ho Hi Hp]. destruct (pingStep_shared _ _ _ _ H) as (_ & _ & _ & _ & _ & _ & _ & _ & Hde & _).
    apply (outErr_mono _ s) in Ho; [|by rewrite Hde]. apply (inErr_mono _ s) in Hi; [|by rewrite Hde].
    remember (pingPC b) as p0 eqn:Ep. destruct H; split; cbn; try done.
    eapply reportBridgeError_done; [done|by apply fromEngine_device|done].
  - destruct Hb as [Hd Ho Hi Hp]. by destruct H; split.
  - destruct Hb as [Hd Ho Hi Hp]. remember (shr b) as s0. remember (out b) as o0. by destruct H; split.
Qed.

(** ** [close] *)

Definition closedPhase (ph : closePhase) : nat :=
  match ph with Open => 0 | Cancelled => 1 | VpnClosing => 2 | VpnClosed => 3 | DeviceClosed => 4 | Closed => 5 end.

Record phaseInv (b : bridge) : Prop := {
  pi_ctx : (1 ≤ closedPhase (phase b))%nat ↔ ctxDone (shr b) = true;
  pi_hangup : (2 ≤ closedPhase (phase b))%nat ↔ hangup (tun (shr b)) = true;
  pi_workers : (3 ≤ closedPhase (phase b))%nat → upWorker (tun (shr b)) = UpDone ∧ downWorker (tun (shr b)) = DownDone;
  pi_device : (4 ≤ closedPhase (phase b))%nat ↔ devClosed (shr b) = true;
  pi_shutdown : (2 ≤ closedPhase (phase b))%nat → shutdown (tun (shr b)) = true;
  pi_gone : phase b = Closed → outPC (out b) = OutDone ∧ inPC (inn b) = InDone ∧ pingPC b = PingDone
}.

Lemma phaseInv_step mtu b b' : phaseInv b → bridgeStep mtu b b' → phaseInv b'.
Proof.
  intros [H1 H2 H3 H4 H5 H6] Hstep. destruct Hstep as [b s o H|b s i H|b s p H|b ph s H|b s o H].
  - destruct (outStep_shared _ _ _ _ _ H) as (E1 & E2 & E3 & E4 & _ & E5 & _ & _ & E6).
    split; cbn; rewrite ?E1, ?E2, ?E3, ?E4, ?E5; try done; [intros Hx; destruct (H3 Hx); auto|].
    intros Hx. destruct (H6 Hx) as (E & ? & ?). by inversion H; congruence.
  - destruct (inStep_shared _ _ _ _ _ H) as (E1 & E2 & E3 & E4 & E5 & _ & _ & _ & E6).
    split; cbn; rewrite ?E1, ?E2, ?E3, ?E4, ?E5; try done; [intros Hx; destruct (H3 Hx); auto|].
    intros Hx. destruct (H6 Hx) as (? & E & ?). by inversion H; congruence.
  - destruct (pingStep_shared _ _ _ _ H) as (E1 & E2 & E3 & E4 & _ & E5 & _ & _ & _ & E6).
    split; cbn; rewrite ?E1, ?E2, ?E3, ?E4, ?E5; try done.
    + intros Hx. destruct (H3 Hx) as [? Hd]. split; [done|]. destruct E6 as [->|[E6 _]]; [done|congruence].
    + intros Hx. destruct (H6 Hx) as (? & ? & E). by inversion H; congruence.
  - destruct H as [b Hp|b Hp|b Hp He|b Hp|b Hp ? ? ?]; rewrite Hp in *; cbn in *; split; cbn; try done; try (split; [done|lia]);
      try (by split; [intros; apply H1; lia|intros Hx; apply H1 in Hx; lia]);
      try (by split; [intros; apply H2; lia|intros Hx; apply H2 in Hx; lia]);
      try (by split; [intros; apply H4; lia|intros Hx; apply H4 in Hx; lia]); try lia.
    all: try (by intros _; apply H3; lia). all: try (by intros _; apply H5; lia).
  - remember (shr b) as s0 eqn:Es. remember (out b) as o0 eqn:Eo.
    destruct H; split; cbn; try done; try (intros Hx; destruct (H3 Hx); congruence); try (by intros _; apply H5; lia).
Qed.

(** The steps left to the goroutines once the device is closed. *)
Definition outWeight (pc : outState) : nat :=
  match pc with
  | OutRead => 2 | OutHave _ => 3 | OutWrite _ => 4 | OutCountPackets _ => 4 | OutCountBytes _ => 3
  | OutFailed _ => 3 | OutReport _ => 1 | OutDone => 0
  end.
Definition inWeight (pc : inState) : nat :=
  match pc with InRead => 2 | InCountPackets _ => 5 | InCountBytes _ => 4 | InWrite _ => 3 | InReport _ => 1 | InDone => 0 end.
Definition pingWeight (pc : pingState) : nat := match pc with PingWait => 3 | PingWrite => 2 | PingReport _ => 1 | PingDone => 0 end.
Definition doneWeight (d : option string) : nat := match d with Some _ => 1 | None => 0 end.
Definition bridgeMeasure (b : bridge) : nat :=
  2 * (outWeight (outPC (out b)) + 2 * length (devIn (out b)) + inWeight (inPC (inn b)) +
       4 * length (readBuffer (tun (shr b))) + pingWeight (pingPC b) + (5 - closedPhase (phase b))) + doneWeight (doneBuf (shr b)).

Lemma reportBridgeError_weight s e s' : reportBridgeError s e s' → (doneWeight (doneBuf s') ≤ doneWeight (doneBuf s) + 1)%nat.
Proof. destruct 1; cbn; lia. Qed.

Lemma bridgeMeasure_step mtu b b' :
  phaseInv b → (4 ≤ closedPhase (phase b))%nat → bridgeStep mtu b b' →
  (4 ≤ closedPhase (phase b'))%nat ∧ (bridgeMeasure b' < bridgeMeasure b)%nat.
Proof.
  intros [H1 H2 H3 H4 H5 H6] Hp Hstep.
  assert (ctxDone (shr b) = true) as Hctx by (apply H1; lia).
  destruct (H3 ltac:(lia)) as [Hup Hdown].
  assert (devClosed (shr b) = true) as Hdev by (apply H4; lia). assert (shutdown (tun (shr b)) = true) as Hsd by (apply H5; lia).
  unfold bridgeMeasure. destruct Hstep as [b s o H|b s i H|b s p H|b ph s H|b s o H]; cbn [phase shr out inn pingPC].
  - split; [done|].
    destruct H as [s o p rest E Ed|s o e E|s o p E Ec|s o p E Ec|s o p E Eu|s o p E Eh|s o p E|s o p E|s o e E Ec|s o e E Ec|s o e s' E Hr];
      cbn; rewrite ?E; cbn; try congruence; try lia.
    + rewrite Ed. cbn. lia.
    + apply reportBridgeError_weight in Hr as Hw. apply reportBridgeError_tun in Hr as ->. lia.
  - split; [done|].
    destruct H as [s i extra E Eb Eu|s i E Eb|s i E Eb Eh|s i p E|s i p E|s i p E|s i p e E|s i e s' E Hr];
      cbn; rewrite ?E; cbn; try congruence; try lia.
    + assert (length (drop (packetSize mtu) (readBuffer (tun s))) < length (readBuffer (tun s)))%nat; [|lia].
      rewrite length_drop. destruct (readBuffer (tun s)); [done|]. unfold packetSize. cbn. lia.
    + apply reportBridgeError_weight in Hr as Hw. apply reportBridgeError_tun in Hr as ->. lia.
  - split; [done|]. remember (pingPC b) as p0. destruct H as [| | | |s e s' Hr]; cbn; try congruence; try lia.
    apply reportBridgeError_weight in Hr as Hw. apply reportBridgeError_tun in Hr as ->. lia.
  - destruct H as [b Ep|b Ep|b Ep|b Ep|b Ep]; rewrite Ep in *; cbn in *; (split; [lia|]); lia.
  - split; [done|]. remember (shr b) as s0 eqn:Es. remember (out b) as o0 eqn:Eo.
    destruct H as [| | | | | |s o Hx]; cbn; try congruence. destruct (doneBuf s); [cbn; lia|done].
Qed.

Lemma bridge_progress mtu b : phaseInv b → phase b = DeviceClosed → ∃ b', bridgeStep mtu b b'.
Proof.
  intros [H1 H2 H3 H4 H5 H6] Hp. rewrite Hp in *. cbn in *.
  assert (ctxDone (shr b) = true) as Hctx by (apply H1; lia).
  assert (hangup (tun (shr b)) = true) as Hh by (apply H2; lia).
  assert (∀ e, ∃ s, reportBridgeError (shr b) e s) as Hrep.
  { intros [| |e]; eexists; [apply report_net_closed|apply report_os_closed|by apply report_cancelled]. }
  destruct (outPC (out b)) as [|p|p|p|p|e|e|] eqn:Eo.
  8: destruct (inPC (inn b)) as [|p|p|p|e|] eqn:Ei.
  13: destruct (pingPC b) as [| |e|] eqn:Epg.
  16: { eexists. apply step_close. by apply close_wait. }
  7: { destruct (Hrep e) as [s Hs]. eexists. apply step_out. by eapply out_report. }
  11: { destruct (Hrep e) as [s Hs]. eexists. apply step_in. by eapply in_report. }
  13: { destruct (Hrep e) as [s Hs]. eexists. apply step_ping. rewrite Epg. by apply ping_report. }
  - eexists. apply step_out. by eapply (out_read_err mtu _ _ OsErrClosed).
  - eexists. apply step_out. by eapply out_skip.
  - eexists. apply step_out. by eapply out_write_err.
  - eexists. apply step_out. by eapply out_count_packets.
  - eexists. apply step_out. by eapply out_count_bytes.
  - eexists. apply step_out. by eapply out_failed_skip.
  - destruct (decide (readBuffer (tun (shr b)) = [])) as [Hb|Hb]; eexists; apply step_in; [by eapply in_read_err|by eapply in_read].
  - eexists. apply step_in. by eapply in_count_packets.
  - eexists. apply step_in. by eapply in_count_bytes.
  - eexists. apply step_in. by eapply in_write.
  - eexists. apply step_ping. rewrite Epg. by apply ping_cancelled.
  - eexists. apply step_ping. rewrite Epg. by apply ping_write_err.
Qed.

(** ** Reachable states *)

Record bridgeInv (mtu : Z) (b : bridge) : Prop := {
  bi_out : outInv (ctxDone (shr b)) (out b);
  bi_enc : encInv mtu (shr b) (out b);
  bi_in : inInv mtu (readBuffer (tun (shr b))) (inn b);
  bi_err : errInv b;
  bi_phase : phaseInv b
}.

Lemma bridgeInv_step mtu b b' : bridgeInv mtu b → bridgeStep mtu b b' → bridgeInv mtu b'.
Proof.
  intros [Ho Hn Hi He Hp] Hstep.
  assert (errInv b') as He' by by eapply errInv_step. assert (phaseInv b') as Hp' by by eapply phaseInv_step.
  split; [..|done|done]; clear He He' Hp Hp'; destruct Hstep as [b s o H|b s i H|b s p H|b ph s H|b s o H]; cbn.
  - by eapply outInv_step.
  - by destruct (inStep_shared _ _ _ _ _ H) as (-> & _).
  - by destruct (pingStep_shared _ _ _ _ H) as (-> & _).
  - destruct H; cbn; try done. by destruct Ho.
  - remember (shr b) as s0. remember (out b) as o0. destruct H; cbn; try done. by destruct Ho.
  - by eapply encInv_out.
  - destruct (inStep_shared _ _ _ _ _ H) as (_ & _ & _ & _ & Ed & Ee & Eb & _). eapply encInv_shared; eauto.
  - destruct (pingStep_shared _ _ _ _ H) as (_ & _ & _ & _ & _ & _ & Ee & Eb & _ & [Ed|[E1 E2]]); eapply encInv_shared; eauto.
    rewrite E1, E2. auto.
  - destruct H; eapply encInv_shared; eauto.
  - remember (shr b) as s0. remember (out b) as o0. destruct H as [s o p| | | |s o d E|s o E|]; try (by eapply encInv_shared; eauto).
    + by destruct Hn.
    + destruct Hn as [Hb Hh Hpd Hs]. rewrite E in *. destruct d as [n|]; cbn in *; split; cbn; try done; try constructor.
      apply Forall_cons in Hpd as [Hpd _]. rewrite app_nil_r, fmap_app, <-Hs. cbn. rewrite length_take. repeat f_equal. lia.
    + eapply encInv_shared; eauto. rewrite E. cbn. auto.
  - by destruct (outStep_shared _ _ _ _ _ H) as (_ & _ & _ & _ & -> & _).
  - by eapply inInv_step.
  - by destruct (pingStep_shared _ _ _ _ H) as (_ & _ & _ & _ & -> & _).
  - by destruct H.
  - by destruct H.
Qed.

Lemma bridgeInv_start mtu : bridgeInv mtu (startBridge mtu).
Proof.
  split.
  - by split; cbn.
  - split; cbn; [apply length_replicate|constructor|constructor|done].
  - split; cbn; try done. intros _. split; [lia|done].
  - by split; cbn.
  - by split; cbn; try lia; try (split; [lia|done]).
Qed.

Lemma bridgeInv_rtc mtu b b' : bridgeInv mtu b → rtc (bridgeStep mtu) b b' → bridgeInv mtu b'.
Proof. intros Hb H. induction H as [|b b1 b2 H1 H2 IH]; eauto using bridgeInv_step. Qed.
Lemma bridgeInv_reachable mtu b : reachableBridge mtu b → bridgeInv mtu b.
Proof. apply bridgeInv_rtc, bridgeInv_start. Qed.

(** ** Properties *)


(** Only errors of the network stack reach [watch]: when the engine's workers end
    (the server hangs up, a packet cannot be sent), nothing is ever reported as long
    as the stack works, and the goroutine that sends is blocked until [close]. *)
Theorem engine_failure_unnoticed mtu b :
  reachableBridge mtu b → deviceErrs (shr b) = [] →
  doneBuf (shr b) = None ∧
  (∀ p, downWorker (tun (shr b)) = DownDone → phase b = Open → outPC (out b) = OutWrite p →
        ¬ ∃ s o, outStep mtu (shr b) (out b) s o).
Proof.
  intros Hb Hd. destruct (bridgeInv_reachable mtu b Hb) as [_ _ _ [E1 _ _ _] [_ P2 _ _ _ _]]. split.
  - destruct (doneBuf (shr b)) as [e|] eqn:E; [|done]. specialize (E1 e eq_refl). rewrite Hd in E1. by apply elem_of_nil in E1.
  - intros p He Hp Ho (s & o & H). rewrite Hp in P2. cbn in P2.
    assert (hangup (tun (shr b)) = false) as Hh by (destruct (hangup (tun (shr b))); [lia|done]).
    by inversion H; congruence.
Qed.

(** C11. Once the device is closed [close] cannot hang: only a bounded number of steps is
    left to all goroutines together, and they can only stop when all three are done
    and [close] is at its end. *)
Theorem bridge_close_terminates mtu b :
  reachableBridge mtu b → phase b = DeviceClosed →
  (∀ n b', nsteps (bridgeStep mtu) n b b' → (n ≤ bridgeMeasure b)%nat) ∧
  (∀ b', rtc (bridgeStep mtu) b b' → (∀ b'', ¬ bridgeStep mtu b' b'') →
     phase b' = Closed ∧ outPC (out b') = OutDone ∧ inPC (inn b') = InDone ∧ pingPC b' = PingDone).
Proof.
  intros Hb Hp. assert (4 ≤ closedPhase (phase b))%nat as H4 by (rewrite Hp; cbn; lia).
  apply bridgeInv_reachable in Hb. clear Hp. split.
  - intros n. revert b Hb H4. induction n as [|n IH]; intros b Hb H4 b' H; [lia|].
    inversion H as [|? ? b1 ? H1 H2]; subst.
    destruct (bridgeMeasure_step mtu b b1 (bi_phase _ _ Hb) H4 H1) as [H5 Hlt].
    specialize (IH b1 (bridgeInv_step _ _ _ Hb H1) H5 b' H2). lia.
  - intros b' Hr Hstuck. assert (bridgeInv mtu b' ∧ (4 ≤ closedPhase (phase b'))%nat) as [Hb' H4'].
    { clear Hstuck. induction Hr as [|b b1 b2 H1 H2 IH]; [done|].
      apply IH; [by eapply bridgeInv_step|by eapply bridgeMeasure_step; [eapply bi_phase| |]]. }
    assert (phase b' = Closed) as Hc.
    { destruct (phase b') eqn:E; cbn in H4'; try lia; [|done].
      destruct (bridge_progress mtu b' (bi_phase _ _ Hb') E) as [b'' Hx]. by apply Hstuck in Hx. }
    split; [done|]. by apply (pi_gone _ (bi_phase _ _ Hb')).
Qed.

(** But it can hang before: [moveUpWorker] sends to [tunUp] without watching for the
    shutdown. If the goroutine that reads has seen [hangup] first, the worker never
    ends, [WaitWorkersShutdown] never returns, and [close] stays in [vpn.Close]. *)
Theorem close_can_hang mtu b p :
  phase b = VpnClosing → inPC (inn b) = InDone → upWorker (tun (shr b)) = UpOffers p →
  ∀ b', rtc (bridgeStep mtu) b b' → phase b' = VpnClosing ∧ upWorker (tun (shr b')) = UpOffers p.
Proof.
  intros Hp Hi Hu b' Hr. induction Hr as [|b b1 b2 H1 H2 IH]; [done|]. apply IH; clear IH H2.
  - destruct H1 as [b s o H|b s i H|b s q H|b ph s H|b s o H]; cbn; try done. destruct H; cbn; congruence.
  - destruct H1 as [b s o H|b s i H|b s q H|b ph s H|b s o H]; cbn; try done. by inversion H; congruence.
  - destruct H1 as [b s o H|b s i H|b s q H|b ph s H|b s o H]; cbn.
    + by destruct (outStep_shared _ _ _ _ _ H) as (_ & _ & _ & _ & _ & -> & _).
    + by inversion H; congruence.
    + by destruct (pingStep_shared _ _ _ _ H) as (_ & _ & _ & _ & _ & -> & _).
    + by destruct H.
    + remember (shr b) as s0. destruct H; cbn; congruence.
Qed.

(** The engine may encrypt another packet than it was given: [TUN.Write] hands the
    slice over without copying it and returns, and the next packet is read into the
    same buffer before the worker gets to encrypt the first. *)
Theorem buffer_overwritten mtu p q :
  length p = length q → (length q ≤ packetSize mtu)%nat →
  ∃ b, reachableBridge mtu b ∧ phase b = Open ∧ written (out b) = [p] ∧ encrypted (shr b) = [q].
Proof.
  intros Hl Hq. eexists. split; [unfold reachableBridge|].
  - eapply rtc_l. { apply step_env. by apply (env_stack_sends _ _ p). } cbn.
    eapply rtc_l. { apply step_env. by apply (env_stack_sends _ _ q). } cbn.
    eapply rtc_l. { apply step_out. by eapply out_read. } cbn. rewrite (take_ge p) by lia.
    eapply rtc_l. { apply step_out. by eapply out_check. } cbn.
    eapply rtc_l. { apply step_out. by eapply out_write. } cbn.
    eapply rtc_l. { apply step_out. by eapply out_count_packets. } cbn.
    eapply rtc_l. { apply step_out. by eapply out_count_bytes. } cbn.
    eapply rtc_l. { apply step_out. by eapply out_read. } cbn. rewrite (take_ge q) by lia.
    eapply rtc_once. apply step_env. by eapply env_down_encrypts.
  - cbn. split_and!; [done..|]. unfold overwrite. rewrite Hl. by rewrite take_app_length.
Qed.

(** ** Witnesses *)

Definition pkt : bytes := [byte_of 69].
Definition zeroBuffer : bytes := replicate (packetSize 1420) (byte_of 0).
Definition workersGone : TUN := mkTUN true true [] UpDone DownDone.
Definition closedBridge : bridge :=
  mkBridge (mkShared true workersGone true None [] zeroBuffer []) (mkOut OutRead [] [] [] 0 0) (mkIn InRead [] [] [] 0 0) PingWait DeviceClosed.

Lemma closedBridge_reachable : reachableBridge 1420 closedBridge.
Proof.
  unfold reachableBridge.
  eapply rtc_l. { apply step_close. by apply close_cancel. } cbn.
  eapply rtc_l. { apply step_close. by apply close_vpn. } cbn.
  eapply rtc_l. { apply step_env. by apply env_up_stops. } cbn.
  eapply rtc_l. { apply step_env. by apply env_down_stops. } cbn.
  eapply rtc_l. { apply step_close. by apply close_vpn_done. } cbn.
  apply rtc_once.
  refine (step_close _ (mkBridge (mkShared true workersGone false None [] zeroBuffer []) (mkOut OutRead [] [] [] 0 0) (mkIn InRead [] [] [] 0 0)
            PingWait VpnClosed) _ _ _). by apply close_device.
Qed.

Lemma bridge_close_terminates_witness :
  bridgeMeasure closedBridge = 16%nat ∧ ∀ n b', nsteps (bridgeStep 1420) n closedBridge b' → (n ≤ 16)%nat.
Proof.
  split; [reflexivity|]. intros n b' H.
  exact (proj1 (bridge_close_terminates 1420 closedBridge closedBridge_reachable eq_refl) n b' H).
Defined.


Lemma engine_failure_unnoticed_witness : doneBuf (shr closedBridge) = None.
Proof. exact (proj1 (engine_failure_unnoticed 1420 closedBridge closedBridge_reachable eq_refl)). Defined.

(** The engine offers a packet when the session is closed. *)
Definition hangingBridge : bridge :=
  mkBridge (mkShared true (mkTUN true true [] (UpOffers pkt) DownIdle) false None [] zeroBuffer [])
    (mkOut OutRead [] [] [] 0 0) (mkIn InDone [] [] [] 0 0) PingWait VpnClosing.

Lemma hangingBridge_reachable : reachableBridge 1420 hangingBridge.
Proof.
  unfold reachableBridge.
  eapply rtc_l. { apply step_env. by apply (env_up_offers _ _ pkt). } cbn.
  eapply rtc_l. { apply step_close. by apply close_cancel. } cbn.
  eapply rtc_l. { apply step_close. by apply close_vpn. } cbn.
  eapply rtc_l. { apply step_in. by apply in_read_err. } cbn.
  apply rtc_once.
  refine (step_in _ (mkBridge (mkShared true (mkTUN true true [] (UpOffers pkt) DownIdle) false None [] zeroBuffer [])
    (mkOut OutRead [] [] [] 0 0) (mkIn (InReport NetErrClosed) [] [] [] 0 0) PingWait VpnClosing) _ _ _).
  by eapply in_report; [done|apply report_net_closed].
Qed.

Lemma close_can_hang_witness :
  reachableBridge 1420 hangingBridge ∧ ∀ b', rtc (bridgeStep 1420) hangingBridge b' → phase b' = VpnClosing.
Proof.
  split; [exact hangingBridge_reachable|]. intros b' H.
  exact (proj1 (close_can_hang 1420 hangingBridge pkt eq_refl eq_refl eq_refl b' H)).
Defined.

Lemma buffer_overwritten_witness :
  ∃ b, reachableBridge 1420 b ∧ phase b = Open ∧ written (out b) = [pkt] ∧ encrypted (shr b) = [[byte_of 96]].
Proof. apply (buffer_overwritten 1420 pkt [byte_of 96]); [reflexivity|]. unfold packetSize. cbn. lia. Defined.
