(* ===== verification/Source.v ===== *)
(** * [internal/source]: the VPNGate list

    [Fetch], [ParseVPNGateCSV] and the functions below it: finding the table in
    the text, indexing its header, checking each row, decoding its profile. The
    HTTP exchange is a parameter: the status and the body, or an error. *)

From S2P Require Import Prelude GoStrings GoNet GoCodec GoCsv Domain OvpnConfig Failover Storage.
From S2P Require Import Tunnel.

Section Source.
Context {U : UnicodeTables}.

Definition BOM : string := l2s [byte_of 239; byte_of 187; byte_of 191].

(** ** The table *)

Definition headerLine (line : string) : string := trimPrefix (trimLeftBOM line) "#".

(** The lines from the header on. *)
Fixpoint findHeader (lines : list string) : option (string * list string) :=
  match lines with
  | [] => None
  | line :: rest => if hasPrefix (headerLine line) "HostName," then Some (headerLine line, rest) else findHeader rest
  end.

Definition isTableLine (line : string) : bool :=
  let trimmed := trimSpace line in
  negb (bool_decide (trimmed = "") || hasPrefix trimmed "*" || hasPrefix trimmed "#").

Definition csvPayload (text : string) : string :=
  match findHeader (splitLines (normalizeNewlines text)) with
  | None => ""
  | Some (header, rest) => join nl (header :: filter (λ line, isTableLine line = true) rest)
  end.

Fixpoint indexHeader (i : nat) (header : list string) (index : gmap string nat) : gmap string nat :=
  match header with
  | [] => index
  | name :: header => indexHeader (S i) header (<[trimPrefix (trimSpace name) "#" := i]> index)
  end.

(** ** Rows *)

Definition decodeConfig (encoded : string) : result string :=
  let compact := join "" (fields encoded) in
  fail_if bool_decide (compact = "") with Err "empty OpenVPN config" ;;
  let rem := (length (s2l compact) mod 4)%nat in
  let compact := if bool_decide (rem = 0%nat) then compact
                 else compact +:+ l2s (replicate (4 - rem) pad) in
  match decodeString compact with
  | None => Err "illegal base64 data"
  | Some raw => Ok (trimPrefix (l2s raw) BOM)
  end.

Definition normalizeProtocol (value : string) : string :=
  let value := toLower (trimSpace value) in
  if contains value "tcp" then "tcp" else if contains value "udp" then "udp" else "unknown".

(** The loop of [parseRemote]: the protocol so far, the lines to come. *)
Fixpoint remoteLoop (protocol : string) (lines : list string) : string * Z * string :=
  match lines with
  | [] => ("", 0%Z, protocol)
  | rawLine :: lines =>
      let line := trimSpace rawLine in
      fail_if bool_decide (line = "") || hasPrefix line "#" || hasPrefix line ";" with remoteLoop protocol lines ;;
      match fields line with
      | [] => remoteLoop protocol lines
      | word :: args =>
          let name := trimPrefix (toLower word) "--" in
          let protocol := match args with
                          | arg :: _ => if bool_decide (name = "proto") then normalizeProtocol arg else protocol
                          | [] => protocol
                          end in
          match args with
          | host :: port :: more =>
              if bool_decide (name = "remote") then
                (trimSet host (dquote +:+ "'"), fst (atoi port),
                 match more with p :: _ => normalizeProtocol p | [] => protocol end)
              else remoteLoop protocol lines
          | _ => remoteLoop protocol lines
          end
      end
  end.
Definition parseRemote (configText : string) : string * Z * string := remoteLoop "unknown" (splitLines configText).

Definition safeInt (value : string) : Z :=
  let '(n, ok) := atoi (trimSpace value) in if ok : bool then n else 0.

Definition isPrivateOrLoopback (ip : IP) : bool := isLoopback ip || isPrivate ip || isUnspecified ip.

(** [unsafeID.ReplaceAllString(s, "_")]: every run of other bytes than letters,
    digits, [_], [.] and [-] becomes one [_]. The bytes of a rune beyond ASCII are
    all such bytes, so runs of runes are runs of bytes. *)
Definition safeIDByte (c : ascii) : bool := bool_decide (c ∈ safeBytes).
Fixpoint squash (inRun : bool) (l : bytes) : bytes :=
  match l with
  | [] => []
  | c :: l => if safeIDByte c then c :: squash false l
              else if inRun then squash true l else byte_of 95 :: squash true l
  end.

Definition nodeID (countryCode : string) (ip : IP) (port : Z) (protocol : string) : string :=
  trimSet (l2s (squash false (s2l (countryCode +:+ "_" +:+ ipString ip +:+ "_" +:+ itoa port +:+ "_" +:+ protocol)))) "_".

(** The local function [value] of [rowToNode]. *)
Definition rowValue (row : list string) (index : gmap string nat) (name : string) : string :=
  match index !! name with
  | Some i => match row !! i with Some v => trimSpace v | None => "" end
  | None => ""
  end.

Definition rowToNode (row : list string) (index : gmap string nat) : option VpnNode :=
  let value := rowValue row index in
  match parseIP (value "IP") with
  | None => None
  | Some publicIP =>
      fail_if negb (isGlobalUnicast publicIP) || isPrivateOrLoopback publicIP with None ;;
      match decodeConfig (value "OpenVPN_ConfigData_Base64") with
      | Err _ => None
      | Ok decoded =>
          let '(remoteHost, remotePort, protocol) := parseRemote decoded in
          match parseIP remoteHost with
          | None => None
          | Some remoteIP =>
              fail_if negb (bool_decide (remoteIP = publicIP)) || (remotePort <? 1)%Z || (65535 <? remotePort)%Z with None ;;
              fail_if negb (bool_decide (protocol = "tcp")) && negb (bool_decide (protocol = "udp")) with None ;;
              let countryCode := toUpper (value "CountryShort") in
              let countryCode := if bool_decide (countryCode = "") then "XX" else countryCode in
              Some (setID (nodeID countryCode publicIP remotePort protocol)
                (setNodeIP (ipString publicIP) (setRemoteHost (ipString remoteIP) (setRemotePort remotePort
                (setProtocol protocol (setCountryCode countryCode (setCountry (value "CountryLong")
                (setScore (safeInt (value "Score")) (setAdvertisedPingMS (safeInt (value "Ping"))
                (setSpeedBPS (safeInt (value "Speed")) (setSessions (safeInt (value "NumVpnSessions"))
                (setPurityGrade PurityCandidate (setStatus NodeUnknown (setOpenVPNConfig decoded zeroNode))))))))))))))
          end
      end
  end.

(** The loop over the rows of [ParseVPNGateCSV]. *)
Fixpoint collectNodes (index : gmap string nat) (seen : gset string) (rows : list (list string)) : list VpnNode :=
  match rows with
  | [] => []
  | row :: rows =>
      match rowToNode row index with
      | None => collectNodes index seen rows
      | Some node => if bool_decide (ID node ∈ seen) then collectNodes index seen rows
                     else node :: collectNodes index ({[ID node]} ∪ seen) rows
      end
  end.

Definition ParseVPNGateCSV (text : string) : result (list VpnNode) :=
  let payload := csvPayload text in
  fail_if bool_decide (payload = "") with Err "vpngate CSV header not found" ;;
  let? rows := readAll payload in
  match rows with
  | [] | [_] => Err "vpngate CSV has no rows"
  | header :: rows =>
      let index := indexHeader 0 header ∅ in
      fail_if bool_decide (index !! "IP" = None) with Err "vpngate CSV missing IP" ;;
      fail_if bool_decide (index !! "OpenVPN_ConfigData_Base64" = None)
        with Err "vpngate CSV missing OpenVPN_ConfigData_Base64" ;;
      let nodes := collectNodes index ∅ rows in
      fail_if bool_decide (nodes = []) with Err "vpngate CSV contains no safe public OpenVPN nodes" ;;
      Ok nodes
  end.

(** [http] is the answer to the request: an error, or the status and the body. *)
Definition Fetch (http : result (Z * result string)) (maxNodes : Z) : result (list VpnNode) :=
  let? (status, body) := http in
  fail_if (status <? 200)%Z || (300 <=? status)%Z with Err ("vpngate returned HTTP " +:+ itoa status) ;;
  let? body := body in
  let? nodes := ParseVPNGateCSV body in
  Ok (if (0 <? maxNodes)%Z && (maxNodes <? Z.of_nat (length nodes))%Z then take (Z.to_nat maxNodes) nodes else nodes).
End Source.

(** ** Properties *)

Section SourceProps.
Context {U : UnicodeTables}.

Lemma safe_underscore : byte_of 95 ∈ safeBytes.
Proof. decided. Qed.

Lemma squash_safe b l : Forall (λ c, c ∈ safeBytes) (squash b l).
Proof.
  revert b. induction l as [|c l IH]; intros b; simpl; [constructor|].
  destruct (safeIDByte c) eqn:E; [constructor; [|done]; unfold safeIDByte in E; by bools|].
  destruct b; [done|]. constructor; [apply safe_underscore|done].
Qed.

(** A safe tail survives. *)
Lemma squash_tail b l t : Forall (λ c, c ∈ safeBytes) t → ∃ l', squash b (l ++ t) = l' ++ t.
Proof.
  intros Ht. revert b. induction l as [|c l IH]; intros b; simpl.
  - exists []. revert b. induction Ht as [|c t Hc Ht IH]; intros b; [done|]. simpl. unfold safeIDByte.
    rewrite bool_decide_true by done. f_equal. apply IH.
  - destruct (safeIDByte c); [|destruct b].
    + destruct (IH false) as [l' ->]. by exists (c :: l').
    + apply IH.
    + destruct (IH true) as [l' ->]. by exists (byte_of 95 :: l').
Qed.

Lemma dropWhileb_tail p l c t : p c = false → ∃ l', dropWhileb p (l ++ c :: t) = l' ++ c :: t.
Proof.
  intros Hc. induction l as [|d l IH]; simpl; [rewrite Hc; by exists []|].
  destruct (p d); [done|]. by exists (d :: l).
Qed.

Lemma trimSet_elem s cutset c : c ∈ s2l (trimSet s cutset) → c ∈ s2l s.
Proof.
  unfold trimSet. intros H. destruct (trimRightSet_split (trimLeftSet s cutset) cutset) as (d & E & _).
  assert (c ∈ s2l (trimLeftSet s cutset)) as H' by (rewrite E; apply elem_of_app; by left).
  unfold trimLeftSet in H'. rewrite s2l_l2s in H'.
  destruct (dropWhileb_split (inSet cutset) (s2l s)) as (d' & -> & _). apply elem_of_app. by right.
Qed.

(** Trimming keeps a tail that has no byte of the cut set at its ends. *)
Lemma trimSet_tail s cutset l c t d :
  s2l s = l ++ c :: t ++ [d] → inSet cutset c = false → inSet cutset d = false →
  ∃ l', s2l (trimSet s cutset) = l' ++ c :: t ++ [d].
Proof.
  intros Hs Hc Hd. unfold trimSet, trimLeftSet, trimRightSet. rewrite !s2l_l2s, Hs.
  destruct (dropWhileb_tail (inSet cutset) l c (t ++ [d]) Hc) as [l' ->]. exists l'.
  rewrite app_comm_cons, app_assoc, reverse_app. cbn [reverse app dropWhileb]. 
  change (reverse [d]) with [d]. cbn [app dropWhileb]. rewrite Hd.
  change (d :: reverse (l' ++ c :: t)) with ([d] ++ reverse (l' ++ c :: t)).
  by rewrite reverse_app, reverse_involutive.
Qed.

Lemma nodeID_spec country ip port protocol :
  protocol = "tcp" ∨ protocol = "udp" →
  nodeID country ip port protocol ≠ "" ∧ Forall (λ c, c ∈ safeBytes) (s2l (nodeID country ip port protocol)).
Proof.
  intros Hp. unfold nodeID. set (s := country +:+ _ +:+ _). split.
  - assert (∃ c d e, s2l protocol = [c; d; e] ∧ inSet "_" c = false ∧ inSet "_" e = false ∧
      Forall (λ c, c ∈ safeBytes) [c; d; e]) as (c & d & e & Ep & Hc & He & Hs).
    { destruct Hp as [-> | ->]; eexists _, _, _; (split; [reflexivity|]); split_and!; decided. }
    assert (∃ l, s2l s = l ++ [c; d; e]) as [l El].
    { unfold s. rewrite !s2l_app, Ep, !app_assoc. by eexists. }
    destruct (squash_tail false l _ Hs) as [l' El']. rewrite El, El'.
    destruct (trimSet_tail (l2s (l' ++ [c; d; e])) "_" l' c [d] e) as [l'' E]; [by rewrite s2l_l2s|done..|].
    intros E0. rewrite E0 in E. by destruct l''.
  - apply Forall_forall. intros c Hc%trimSet_elem. rewrite s2l_l2s in Hc.
    pose proof (squash_safe false (s2l s)) as Hall. rewrite Forall_forall in Hall. by apply Hall.
Qed.

(** Such a name is its own file name. *)
Lemma safeFilename_safe s : s ≠ "" → Forall (λ c, c ∈ safeBytes) (s2l s) → safeFilename s = s.
Proof.
  intros Hne Hs. unfold safeFilename. rewrite bool_decide_false by done.
  apply s2l_inj. rewrite s2l_l2s.
  assert (Forall (λ c, (code c < 128)%N ∧ encodeRune (safeRune (code c)) = [c]) (s2l s)) as Hc.
  { eapply Forall_impl; [exact Hs|]. intros c. revert c. apply Forall_forall. decided. }
  unfold runes. rewrite decodeRunes_ascii by (eapply Forall_impl; [exact Hc|]; by intros ? [? _]).
  clear Hs. induction Hc as [|c l [_ He] _ IH]; [done|]. cbn [fmap list_fmap mbind list_bind].
  rewrite IH. cbn [fst]. by rewrite He.
Qed.

(** What every node of the list satisfies: a public address, the one its profile
    connects to; a port and a transport; an identifier that is its own file name;
    and no judgement yet. *)
Record safeNode (n : VpnNode) : Prop := {
  sn_endpoint : ∃ ip host, NodeIP n = ipString ip ∧ RemoteHost n = NodeIP n ∧ publicIP ip = true ∧
    parseRemote (OpenVPNConfig n) = (host, RemotePort n, Protocol n) ∧ parseIP host = Some ip;
  sn_port : (1 ≤ RemotePort n ≤ 65535)%Z;
  sn_protocol : Protocol n = "tcp" ∨ Protocol n = "udp";
  sn_id : ID n ≠ "" ∧ safeFilename (ID n) = ID n;
  sn_fresh : PurityGrade n = PurityCandidate ∧ Domain.Status n = NodeUnknown ∧ LatencyMS n = None ∧ CooldownUntil n = None
}.

Lemma rowToNode_safe row index n : rowToNode row index = Some n → safeNode n.
Proof.
  unfold rowToNode. destruct (parseIP (rowValue row index "IP")) as [ip|]; [|done].
  destruct (negb (isGlobalUnicast ip) || isPrivateOrLoopback ip) eqn:Epub; [done|].
  destruct (decodeConfig _) as [decoded|]; [|done].
  destruct (parseRemote decoded) as [[host port] protocol] eqn:Er.
  destruct (parseIP host) as [remoteIP|] eqn:Eh; [|done].
  destruct (negb (bool_decide (remoteIP = ip)) || (port <? 1)%Z || (65535 <? port)%Z) eqn:Eport; [done|].
  destruct (negb (bool_decide (protocol = "tcp")) && negb (bool_decide (protocol = "udp"))) eqn:Eproto; [done|].
  intros [= <-]. unfold isPrivateOrLoopback in Epub. bools. subst remoteIP.
  assert (protocol = "tcp" ∨ protocol = "udp") as Hp.
  { apply andb_false_iff in Eproto as [E|E]; bools; auto. }
  set (country := if bool_decide _ then _ else _).
  destruct (nodeID_spec country ip port protocol Hp) as [Hne Hs].
  constructor; cbn; [|lia|done|by split; [|apply safeFilename_safe]|done].
  exists ip, host. split_and!; try done. unfold publicIP. repeat (rewrite andb_true_iff || rewrite negb_true_iff).
  by split_and!.
Qed.

Lemma collectNodes_spec index seen rows :
  let nodes := collectNodes index seen rows in
  Forall safeNode nodes ∧ NoDup (ID <$> nodes) ∧ Forall (λ n, ID n ∉ seen) nodes.
Proof.
  cbv zeta. revert seen. induction rows as [|row rows IH]; intros seen; simpl; [by split_and!; constructor|].
  destruct (rowToNode row index) as [n|] eqn:E; [|apply IH]. case_bool_decide as Hn; [apply IH|].
  destruct (IH ({[ID n]} ∪ seen)) as (Hs & Hd & Hf). split_and!.
  - constructor; [by eapply rowToNode_safe|done].
  - simpl. constructor; [|done]. intros (m & Hm & Hin)%list_elem_of_fmap. rewrite Forall_forall in Hf.
    apply (Hf m Hin). rewrite <-Hm. set_solver.
  - constructor; [done|]. eapply Forall_impl; [exact Hf|]. set_solver.
Qed.

Lemma parsed_nodes_safe text nodes :
  ParseVPNGateCSV text = Ok nodes →
  nodes ≠ [] ∧ NoDup (ID <$> nodes) ∧ Forall safeNode nodes.
Proof.
  unfold ParseVPNGateCSV. case_bool_decide; [done|]. destruct (readAll (csvPayload text)) as [rows|]; [|done].
  destruct rows as [|header [|row rows]]; [done..|]. cbv zeta.
  set (index := indexHeader 0 header ∅). do 2 (case_bool_decide; [done|]). case_bool_decide as Hne; [done|].
  intros [= <-]. destruct (collectNodes_spec index ∅ (row :: rows)) as (Hs & Hd & _). by split_and!.
Qed.

Lemma NoDup_take_fmap {A B} (f : A → B) k l : NoDup (f <$> l) → NoDup (f <$> take k l).
Proof. rewrite <-(take_drop k l) at 1. rewrite fmap_app. by intros [? _]%NoDup_app. Qed.

Lemma fetch_inv http maxNodes nodes :
  Fetch http maxNodes = Ok nodes → ∃ status body all,
    http = Ok (status, Ok body) ∧ (200 ≤ status < 300)%Z ∧ ParseVPNGateCSV body = Ok all ∧
    (nodes = all ∧ ((0 < maxNodes)%Z → (Z.of_nat (length all) ≤ maxNodes)%Z) ∨
     (0 < maxNodes < Z.of_nat (length all))%Z ∧ nodes = take (Z.to_nat maxNodes) all).
Proof.
  unfold Fetch. destruct http as [[status body]|]; [|done].
  destruct ((status <? 200)%Z || (300 <=? status)%Z) eqn:Est; [done|]. destruct body as [body|]; [|done].
  destruct (ParseVPNGateCSV body) as [all|] eqn:Ep; [|done]. intros [= <-]. bools. exists status, body, all.
  split_and!; try done. destruct ((0 <? maxNodes)%Z && (maxNodes <? Z.of_nat (length all))%Z) eqn:Em; bools; [by right|].
  left. split; [done|]. apply andb_false_iff in Em as [Em|Em]; bools; lia.
Qed.

Lemma fetched_safe http maxNodes nodes : Fetch http maxNodes = Ok nodes → Forall safeNode nodes.
Proof.
  intros (status & body & all & _ & _ & Ep & Hn)%fetch_inv. destruct (parsed_nodes_safe body all Ep) as (_ & _ & Hs).
  destruct Hn as [[-> _]|[_ ->]]; [done|by apply Forall_take].
Qed.

(** C28. Whatever VPNGate answers, [Fetch] returns at least one and at most the
    configured number of nodes, or an error; no two nodes have one identifier,
    and every node is safe: a public address (never private, loopback, link-local
    or multicast), a profile whose remote is that very address and port, and an
    identifier that is a file name of its own. *)
Theorem fetched_nodes_safe http maxNodes nodes :
  Fetch http maxNodes = Ok nodes →
  nodes ≠ [] ∧ NoDup (ID <$> nodes) ∧ Forall safeNode nodes ∧
  ((0 < maxNodes)%Z → (Z.of_nat (length nodes) ≤ maxNodes)%Z) ∧
  ∃ status body, http = Ok (status, Ok body) ∧ (200 ≤ status < 300)%Z.
Proof.
  intros H. pose proof (fetched_safe _ _ _ H) as Hs. apply fetch_inv in H as (status & body & all & -> & Hst & Ep & Hn).
  destruct (parsed_nodes_safe body all Ep) as (Hne & Hd & _).
  destruct Hn as [[-> Hlen]|[Hm ->]].
  - split_and!; try done. by exists status, body.
  - split_and!; [|by apply NoDup_take_fmap|done|rewrite length_take; lia|by exists status, body].
    destruct all as [|n all]; [done|]. by destruct (Z.to_nat maxNodes) eqn:E; [lia|].
Qed.

(** ** Completeness *)

(** The node of the first row that gives one with its identifier. *)
Definition firstNode (index : gmap string nat) (rows : list (list string)) (n : VpnNode) : Prop :=
  ∃ before row after, rows = before ++ row :: after ∧ rowToNode row index = Some n ∧
    ∀ row' m, row' ∈ before → rowToNode row' index = Some m → ID m ≠ ID n.

Lemma collectNodes_first index seen rows n :
  n ∈ collectNodes index seen rows ↔ (ID n ∉ seen) ∧ firstNode index rows n.
Proof.
  revert seen. induction rows as [|row rows IH]; intros seen; simpl.
  { rewrite elem_of_nil. split; [done|]. intros (_ & before & ? & ? & E & _). by destruct before. }
  assert (∀ m, rowToNode row index = m → (∀ k, m = Some k → ID k ≠ ID n) →
    (firstNode index (row :: rows) n ↔ firstNode index rows n)) as Hskip.
  { intros m Em Hm. split.
    - intros ([|r before] & row1 & after & E & Hr & Hb); simplify_eq/=; [by apply Hm in Hr|].
      exists before, row1, after. split_and!; try done. intros r' k Hin. apply Hb. by right.
    - intros (before & row1 & after & -> & Hr & Hb). exists (row :: before), row1, after. split_and!; try done.
      intros r' k [->|Hin]%elem_of_cons Hk; [apply (Hm k); congruence|by eapply Hb]. }
  destruct (rowToNode row index) as [k|] eqn:E; [|by rewrite IH, (Hskip None)].
  assert (firstNode index (row :: rows) k) as Hk by (exists [], row, rows; split_and!; try done; by intros ? ? ?%elem_of_nil).
  assert (∀ m, firstNode index (row :: rows) m → ID m = ID k → m = k) as Huniq.
  { intros m ([|r before] & row1 & after & E1 & Hr & Hb) Hm; simplify_eq/=; [congruence|].
    exfalso. eapply Hb; [by left|done|congruence]. }
  destruct (decide (ID n = ID k)) as [Hid|Hid].
  - case_bool_decide as Hin.
    + rewrite IH, Hid. tauto.
    + rewrite elem_of_cons, IH, Hid. split; [|intros [_ Hf]; left; by apply Huniq].
      intros [->|[Hnot _]]; [done|set_solver].
  - rewrite (Hskip (Some k)) by (try done; intros ? [= <-]; congruence).
    case_bool_decide; [apply IH|]. rewrite elem_of_cons, IH. split; [|intros []; right; set_solver].
    intros [->|[? ?]]; [done|]. set_solver.
Qed.

Lemma collectNodes_nil index rows row :
  collectNodes index ∅ rows = [] → row ∈ rows → rowToNode row index = None.
Proof.
  induction rows as [|r rows IH]; simpl; [by intros _ ?%elem_of_nil|].
  destruct (rowToNode r index) as [k|] eqn:E; [by rewrite bool_decide_false by set_solver|].
  intros Hc [->|Hin]%elem_of_cons; auto.
Qed.

(** Where the table is in the lines of the text. *)
Record tableAt (text : string) (header : list string) (rows : list (list string)) : Prop := {
  ta_lines : ∃ before line after, splitLines (normalizeNewlines text) = before ++ line :: after ∧
    Forall (λ l, hasPrefix (headerLine l) "HostName," = false) before ∧
    headerLine line = rowLine ("HostName" :: header) ∧
    filter (λ l, isTableLine l = true) after = rowLine <$> rows;
  ta_header : header ≠ [] ∧ plainRow ("HostName" :: header);
  ta_rows : rows ≠ [] ∧ Forall plainRow rows
}.

Lemma findHeader_app before line after :
  Forall (λ l, hasPrefix (headerLine l) "HostName," = false) before → hasPrefix (headerLine line) "HostName," = true →
  findHeader (before ++ line :: after) = Some (headerLine line, after).
Proof. intros Hb Hl. induction Hb as [|l before Hf _ IH]; simpl; [by rewrite Hl|by rewrite Hf]. Qed.

Lemma csvPayload_table text header rows :
  tableAt text header rows → csvPayload text = join nl (rowLine <$> ("HostName" :: header) :: rows) ∧ csvPayload text ≠ "".
Proof.
  intros [(before & line & after & El & Hb & Hh & Ha) [Hne _] _].
  assert (∃ t, rowLine ("HostName" :: header) = "HostName," +:+ t) as [t Et].
  { destruct header as [|cell header]; [done|]. by exists (rowLine (cell :: header)). }
  assert (csvPayload text = join nl (rowLine <$> ("HostName" :: header) :: rows)) as E.
  { unfold csvPayload. rewrite El, findHeader_app; [|done|].
    - by rewrite Hh, Ha.
    - rewrite Hh, Et. apply hasPrefix_app. }
  split; [done|]. rewrite E. cbn [fmap list_fmap]. rewrite Et. by destruct (rowLine <$> rows).
Qed.

(** C29. Nothing else is dropped: if the text contains a table with the two columns,
    the result is exactly the nodes of its rows, the first of each identifier;
    only if no row gives a node is there an error. *)
Theorem parse_complete text header rows :
  tableAt text header rows →
  let index := indexHeader 0 ("HostName" :: header) ∅ in
  is_Some (index !! "IP") → is_Some (index !! "OpenVPN_ConfigData_Base64") →
  (∃ nodes, ParseVPNGateCSV text = Ok nodes ∧ ∀ n, n ∈ nodes ↔ firstNode index rows n) ∨
  (ParseVPNGateCSV text = Err "vpngate CSV contains no safe public OpenVPN nodes" ∧
   ∀ row, row ∈ rows → rowToNode row index = None).
Proof.
  intros Ht index [i Hi] [j Hj]. destruct (csvPayload_table text header rows Ht) as [Ep Hne].
  destruct (ta_header _ _ _ Ht) as [_ Hh], (ta_rows _ _ _ Ht) as [Hrn Hr]. unfold ParseVPNGateCSV.
  rewrite bool_decide_false by done. rewrite Ep, readAll_plain by by constructor.
  destruct rows as [|row rows]; [done|]. cbv zeta. fold index. rewrite Hi, Hj.
  rewrite !(bool_decide_false (Some _ = None)) by done.
  pose proof (collectNodes_first index ∅ (row :: rows)) as Hc.
  destruct (decide (collectNodes index ∅ (row :: rows) = [])) as [En|En].
  - right. rewrite En. split; [done|]. intros r Hin. by eapply collectNodes_nil.
  - left. rewrite bool_decide_false by done. eexists. split; [done|]. intros n. rewrite Hc. set_solver.
Qed.

(** ** Profiles *)

Definition stripPadding (l : bytes) : bytes := reverse (dropWhileb (λ c, bool_decide (c = pad)) (reverse l)).

(** A base64 digit: ASCII, no blank, no padding. *)
Definition solid (c : ascii) : Prop := (code c < 128)%N ∧ space1 c = false ∧ c ≠ pad.

Lemma b64Digit_solid n : (n < 64)%N → solid (b64Digit n).
Proof.
  revert n. apply (forall_below (λ n, solid (b64Digit n)) 64). vm_compute. reflexivity.
Qed.

Ltac digits_solid := repeat (apply Forall_cons; split;
  [apply b64Digit_solid; b64_bounds; zify; Z.to_euclidean_division_equations; lia|]); first [done|apply Forall_nil_2].

Lemma b64Encode_shape raw :
  ∃ body k, b64Encode raw = body ++ replicate k pad ∧ Forall solid body ∧ (k < 3)%nat ∧
    ((length body + k) mod 4 = 0)%nat ∧ (raw ≠ [] → body ≠ []).
Proof.
  induction raw as [|a|a b|a b c raw (body & k & E & Hs & Hk & Hm & _)] using list_ind3; cbn [b64Encode].
  - exists [], 0%nat. split_and!; [done|done|lia|done|done].
  - eexists [_; _], 2%nat. split_and!; [reflexivity| |lia|done|done].
    digits_solid.
  - eexists [_; _; _], 1%nat. split_and!; [reflexivity| |lia|done|done].
    digits_solid.
  - eexists (_ :: _ :: _ :: _ :: body), k. split_and!; [by rewrite E| |done| |done].
    + digits_solid.
    + cbn [length]. replace (S (S (S (S (length body)))) + k)%nat with (length body + k + 1 * 4)%nat by lia.
      by rewrite Nat.Div0.mod_add.
Qed.

Lemma dropWhileb_all p l t : Forall (λ c, p c = true) l → dropWhileb p (l ++ t) = dropWhileb p t.
Proof. induction 1 as [|c l Hc _ IH]; simpl; [done|]. by rewrite Hc. Qed.

Lemma stripPadding_body body k : Forall solid body → stripPadding (body ++ replicate k pad) = body.
Proof.
  intros Hs. unfold stripPadding. rewrite reverse_app, dropWhileb_all.
  - destruct (reverse body) as [|c r] eqn:E; simpl.
    + by rewrite <-(reverse_involutive body), E.
    + assert (c ∈ body) as Hc by (rewrite <-(reverse_involutive body), E, elem_of_reverse; by left).
      rewrite Forall_forall in Hs. destruct (Hs c Hc) as (_ & _ & Hp).
      by rewrite bool_decide_false, <-E, reverse_involutive.
  - apply Forall_reverse, Forall_replicate. by apply bool_decide_eq_true.
Qed.

(** Profiles survive: the base64 text of a profile decodes to it (less a byte
    order mark) whether its padding is complete, cut short or missing. *)
Theorem decode_config_roundtrip raw j :
  raw ≠ [] → let body := stripPadding (b64Encode raw) in
  (j ≤ length (b64Encode raw) - length body)%nat →
  decodeConfig (l2s (body ++ replicate j pad)) = Ok (trimPrefix (l2s raw) BOM).
Proof.
  intros Hraw body Hj. destruct (b64Encode_shape raw) as (body' & k & E & Hs & Hk & Hm & Hne).
  assert (Eb : stripPadding (b64Encode raw) = body') by by rewrite E, stripPadding_body.
  subst body. rewrite Eb in *. rewrite E, length_app, length_replicate in Hj. replace (length body' + k - length body')%nat with k in Hj by lia.
  assert (fields (l2s (body' ++ replicate j pad)) = [l2s (body' ++ replicate j pad)]) as Hf.
  { unfold fields. rewrite s2l_l2s, <-(app_nil_r (body' ++ replicate j pad)), fieldsb_word, app_nil_r.
    - cbn [fieldsb]. rewrite app_nil_r. unfold flush. destruct (reverse (body' ++ replicate j pad)) as [|c r] eqn:Er.
      + apply (f_equal length) in Er. rewrite length_reverse, length_app in Er.
        destruct body'; [by apply Hne in Hraw|done].
      + cbn [fmap list_fmap]. by rewrite <-Er, reverse_involutive.
    - apply Forall_app. split; [eapply Forall_impl; [exact Hs|]; by intros c (? & ? & _)|].
      apply Forall_replicate. decided. }
  unfold decodeConfig. rewrite Hf. cbn [join]. rewrite bool_decide_false.
  2: { intros Hx. apply (f_equal s2l) in Hx. rewrite s2l_l2s in Hx. destruct body'; [by apply Hne in Hraw|done]. }
  rewrite s2l_l2s, length_app, length_replicate.
  set (rem := ((length body' + j) mod 4)%nat).
  assert (rem = 0%nat ∧ k = j ∨ rem ≠ 0%nat ∧ (4 - rem)%nat = (k - j)%nat) as Hrem.
  { unfold rem. clear -Hj Hk Hm. destruct (decide (k = j)) as [->|Hne]; [by left|right].
    assert (k = 1 ∨ k = 2)%nat as Hk2 by lia.
    pose proof (Nat.Div0.div_mod (length body' + k) 4). pose proof (Nat.Div0.div_mod (length body' + j) 4).
    pose proof (Nat.mod_upper_bound (length body' + j) 4). lia. }
  assert (s2l (if bool_decide (rem = 0%nat) then l2s (body' ++ replicate j pad)
               else l2s (body' ++ replicate j pad) +:+ l2s (replicate (4 - rem) pad)) = b64Encode raw) as Es.
  { rewrite E. destruct Hrem as [[Hr ->]|[Hr ->]].
    - by rewrite bool_decide_true, s2l_l2s.
    - rewrite bool_decide_false, s2l_app, !s2l_l2s, <-app_assoc, <-replicate_add by done.
      by replace (j + (k - j))%nat with k by lia. }
  unfold decodeString. rewrite Es, b64Encode_clean, b64Quanta_encode. done.
Qed.

End SourceProps.

(** ** A list as VPNGate serves it *)

Definition sampleHeader : list string :=
  ["IP"; "Score"; "Ping"; "Speed"; "CountryLong"; "CountryShort"; "NumVpnSessions"; "OpenVPN_ConfigData_Base64"].
Definition sampleProfile : string := "dev tun" +:+ nl +:+ "proto tcp" +:+ nl +:+ "remote 203.0.113.7 443" +:+ nl.
Definition sampleRow : list string :=
  ["public-vpn-1"; "203.0.113.7"; "500"; "12"; "1000"; "Japan"; "jp"; "3"; encodeToString (s2l sampleProfile)].
(** The same host again, and a private one. *)
Definition privateRow : list string :=
  ["vpn-2"; "10.0.0.7"; "500"; "12"; "1000"; "Japan"; "jp"; "3"; encodeToString (s2l sampleProfile)].
Definition sampleRows : list (list string) := [sampleRow; sampleRow; privateRow].
Definition sampleText : string :=
  join (cr +:+ nl) ("*vpn_servers" :: ("#" +:+ rowLine ("HostName" :: sampleHeader)) :: (rowLine <$> sampleRows) ++ ["*"; ""]).
Definition sampleNodes : list VpnNode :=
  match ParseVPNGateCSV (U := asciiTables) sampleText with Ok ns => ns | Err _ => [] end.

Lemma fetched_nodes_safe_witness :
  Fetch (U := asciiTables) (Ok (200%Z, Ok sampleText)) 5 = Ok sampleNodes ∧
  ID <$> sampleNodes = ["JP_203.0.113.7_443_tcp"] ∧ Forall (safeNode (U := asciiTables)) sampleNodes.
Proof.
  assert (Fetch (U := asciiTables) (Ok (200%Z, Ok sampleText)) 5 = Ok sampleNodes) as H by (vm_compute; reflexivity).
  split; [exact H|]. split; [vm_compute; reflexivity|].
  destruct (fetched_nodes_safe (U := asciiTables) _ _ _ H) as (_ & _ & Hs & _). exact Hs.
Defined.

Lemma parse_complete_witness :
  tableAt sampleText sampleHeader sampleRows ∧
  ∃ nodes, ParseVPNGateCSV (U := asciiTables) sampleText = Ok nodes ∧
    ∀ n, n ∈ nodes ↔ firstNode (U := asciiTables) (indexHeader 0 ("HostName" :: sampleHeader) ∅) sampleRows n.
Proof.
  assert (tableAt sampleText sampleHeader sampleRows) as Ht.
  { split; [|split; [discriminate|split; [decided|discriminate]]|split; [discriminate|]].
    - exists ["*vpn_servers"]. do 2 eexists. split; [vm_compute; reflexivity|].
      split; [decided|]. split; vm_compute; reflexivity.
    - unfold plainRow. repeat (apply Forall_cons; split; [split; [decided|discriminate]|]). apply Forall_nil_2. }
  split; [exact Ht|].
  destruct (parse_complete (U := asciiTables) sampleText sampleHeader sampleRows Ht) as [H|[H _]];
    [eexists; vm_compute; reflexivity..|exact H|exfalso].
  assert (isOk (ParseVPNGateCSV (U := asciiTables) sampleText) = true) as Hok by (vm_compute; reflexivity).
  rewrite H in Hok. discriminate Hok.
Defined.

Lemma decode_config_roundtrip_witness :
  decodeConfig (l2s (stripPadding (b64Encode (s2l "remote")) ++ replicate 0 pad)) = Ok "remote" ∧
  decodeConfig "cmVtb3Rl" = Ok "remote" ∧ decodeConfig "cmVtb3Rlcw" = Ok "remotes".
Proof.
  split; [|split; vm_compute; reflexivity].
  apply (decode_config_roundtrip (s2l "remote") 0); [discriminate|vm_compute; lia].
Defined.
