(* ===== verification/Service.v ===== *)
(** * [internal/service]: service definitions

    The systemd unit, the launchd property list and the PowerShell scripts that
    [Generate] writes, over the file system of [Config]. *)

From S2P Require Import Prelude GoStrings Config.

Record Options := mkOptions {
  optBinaryPath : string;
  optConfigPath : string;
  optDataDir : string;
  optListen : string;
  optVersion : string
}.

Definition systemdUnit (opts : Options) : string :=
  let binary := valueOrBlank (optBinaryPath opts) "/usr/local/bin/rim" in
  let configPath := valueOrBlank (optConfigPath opts) "/etc/residential-ip-manager/config.json" in
  let dataDir := valueOrBlank (optDataDir opts) "/var/lib/residential-ip-manager" in
  let listen := valueOrBlank (optListen opts) "127.0.0.1:8899" in
  join nl ["[Unit]"; "Description=Residential IP Manager Go"; "After=network-online.target";
    "Wants=network-online.target"; ""; "[Service]"; "Type=simple";
    "ExecStart=" +:+ binary +:+ " serve --config " +:+ configPath +:+ " --listen " +:+ listen;
    "WorkingDirectory=" +:+ dataDir; "Restart=on-failure"; "RestartSec=5"; ""; "[Install]";
    "WantedBy=multi-user.target"; ""].

Definition plistString (value : string) : string := "<string>" +:+ value +:+ "</string>".
Definition launchdPlist (opts : Options) : string :=
  let binary := valueOrBlank (optBinaryPath opts) "/usr/local/bin/rim" in
  let configPath := valueOrBlank (optConfigPath opts) "/usr/local/etc/residential-ip-manager/config.json" in
  let dataDir := valueOrBlank (optDataDir opts) "/usr/local/var/residential-ip-manager" in
  let listen := valueOrBlank (optListen opts) "127.0.0.1:8899" in
  let label := "com.guli-joy.residential-ip-manager" in
  let q s := dquote +:+ s +:+ dquote in
  join nl ["<?xml version=" +:+ q "1.0" +:+ " encoding=" +:+ q "UTF-8" +:+ "?>";
    "<!DOCTYPE plist PUBLIC " +:+ q "-//Apple//DTD PLIST 1.0//EN" +:+ " "
      +:+ q "http://www.apple.com/DTDs/PropertyList-1.0.dtd" +:+ ">";
    "<plist version=" +:+ q "1.0" +:+ ">"; "<dict>"; "  <key>Label</key>"; "  " +:+ plistString label;
    "  <key>ProgramArguments</key>"; "  <array>"; "    " +:+ plistString binary; "    " +:+ plistString "serve";
    "    " +:+ plistString "--config"; "    " +:+ plistString configPath; "    " +:+ plistString "--listen";
    "    " +:+ plistString listen; "  </array>"; "  <key>RunAtLoad</key>"; "  <true/>"; "  <key>KeepAlive</key>";
    "  <true/>"; "  <key>WorkingDirectory</key>"; "  " +:+ plistString dataDir;
    "  <key>EnvironmentVariables</key>"; "  <dict>"; "  </dict>"; "</dict>"; "</plist>"; ""].

Definition windowsInstallScript (opts : Options) : string :=
  let binary := valueOrBlank (optBinaryPath opts) "rim.exe" in
  let configPath := valueOrBlank (optConfigPath opts) "$env:ProgramData\ResidentialIPManager\config.json" in
  let serviceName := "ResidentialIPManagerGo" in
  let q s := dquote +:+ s +:+ dquote in
  let bq := "`" +:+ dquote in
  join nl ["$ErrorActionPreference = " +:+ q "Stop"; "$binary = " +:+ q binary; "$config = " +:+ q configPath;
    "$listen = " +:+ q (valueOrBlank (optListen opts) "127.0.0.1:8899"); "$name = " +:+ q serviceName; "";
    "if (-not (Get-Command sc.exe -ErrorAction SilentlyContinue)) {"; "    throw " +:+ q "sc.exe is required"; "}"; "";
    "$binPath = " +:+ q (bq +:+ "$binary" +:+ bq +:+ " serve --config " +:+ bq +:+ "$config" +:+ bq
       +:+ " --listen " +:+ bq +:+ "$listen" +:+ bq);
    "sc.exe create $name binPath= $binPath start= auto | Out-Null";
    "sc.exe description $name " +:+ q "Residential IP Manager Go" +:+ " | Out-Null";
    "Write-Host " +:+ q "Installed $name"; ""].

Definition windowsUninstallScript : string :=
  let q s := dquote +:+ s +:+ dquote in
  join nl ["$ErrorActionPreference = " +:+ q "Stop"; "$name = " +:+ q "ResidentialIPManagerGo";
    "sc.exe stop $name | Out-Null"; "sc.exe delete $name | Out-Null";
    "Write-Host " +:+ q "Removed ResidentialIPManagerGo"; ""].

Section Generate.
Context {U : UnicodeTables} (os : OS).

Definition Generate (fs : FS) (platform : string) (opts : Options) (outputDir : string) : option string * FS :=
  let outputDir := if bool_decide (outputDir = "") then "." else outputDir in
  match osMkdirFault os outputDir with
  | Some e => (Some e, fs)
  | None =>
      let platform_ := toLower platform in
      if bool_decide (platform_ = "linux") then
        writeFile os fs (osJoin os outputDir "residential-ip-manager.service") (systemdUnit opts)
      else if bool_decide (platform_ = "darwin") || bool_decide (platform_ = "macos") then
        writeFile os fs (osJoin os outputDir "com.guli-joy.residential-ip-manager.plist") (launchdPlist opts)
      else if bool_decide (platform_ = "windows") then
        let '(err, fs) := writeFile os fs (osJoin os outputDir "install-service.ps1") (windowsInstallScript opts) in
        match err with
        | Some e => (Some e, fs)
        | None => writeFile os fs (osJoin os outputDir "uninstall-service.ps1") windowsUninstallScript
        end
      else (Some ("unsupported platform " +:+ quote platform), fs)
  end.
End Generate.

Definition DefaultBinaryPath (os : OS) : string := if bool_decide (osGOOS os = "windows") then "rim.exe" else "rim".

(** ** Properties *)

(** The lines of the unit, whatever the values are as long as they are lines. *)
Definition execStart (opts : Options) : string :=
  "ExecStart=" +:+ valueOrBlank (optBinaryPath opts) "/usr/local/bin/rim" +:+ " serve --config "
  +:+ valueOrBlank (optConfigPath opts) "/etc/residential-ip-manager/config.json" +:+ " --listen "
  +:+ valueOrBlank (optListen opts) "127.0.0.1:8899".
Definition singleLine (opts : Options) : Prop :=
  lacks (byte_of 10) (optBinaryPath opts) ∧ lacks (byte_of 10) (optConfigPath opts) ∧
  lacks (byte_of 10) (optDataDir opts) ∧ lacks (byte_of 10) (optListen opts).

Lemma valueOrBlank_lacks c value fallback : lacks c value → lacks c fallback → lacks c (valueOrBlank value fallback).
Proof. unfold valueOrBlank. by case_bool_decide. Qed.

Lemma lacks_append c s t : lacks c s → lacks c t → lacks c (s +:+ t).
Proof. unfold lacks. rewrite s2l_app, elem_of_app. tauto. Qed.

Ltac lines_lack := repeat (apply Forall_cons; split); try apply Forall_nil_2;
  repeat (apply lacks_append || apply valueOrBlank_lacks); try done; decided.

(** No option can add a directive: the unit has exactly its fifteen lines, and
    the options are on two of them. *)
Lemma unit_lines opts :
  singleLine opts →
  splitLines (systemdUnit opts) =
    ["[Unit]"; "Description=Residential IP Manager Go"; "After=network-online.target"; "Wants=network-online.target"; "";
     "[Service]"; "Type=simple"; execStart opts;
     "WorkingDirectory=" +:+ valueOrBlank (optDataDir opts) "/var/lib/residential-ip-manager";
     "Restart=on-failure"; "RestartSec=5"; ""; "[Install]"; "WantedBy=multi-user.target"; ""].
Proof.
  intros (Hb & Hc & Hd & Hl). unfold systemdUnit. cbv zeta.
  match goal with |- splitLines (join nl ?l) = _ => set (lines := l) end.
  assert (join nl lines = join nl (take 14 lines) +:+ nl +:+ "") as -> by by rewrite <-join_snoc.
  rewrite splitLines_join; [done|]. unfold lines. cbn [take]. lines_lack.
Qed.
