(* ===== verification/TunnelApi.v ===== *)
(** * What the tunnel promises the server

    The web server drives the tunnel through four calls. [TunnelAPI] is their
    interface, [TunnelLaws] what the server relies on; [controllerTunnel]
    implements it with the actions of [Tunnel.Controller], each call run to its
    end. *)

From S2P Require Import Prelude GoStrings Domain Config Tunnel.

(** [Connect] takes what the handshake will answer; [tunDrop] is the data path
    failing and its watcher noticing. *)
Class TunnelAPI (T : Type) := {
  tunReport : T → EnvironmentReport;
  tunConnect : VpnNode → result vpnSession → T → option string * T;
  tunDisconnect : T → T;
  tunDrop : string → T → T
}.

(** The laws, for the tunnel states [idle t] describes (no call under way). *)
Class TunnelLaws (T : Type) {A : TunnelAPI T} (idle : T → Prop) : Prop := {
  law_connect_idle : ∀ node r t, idle t → idle (tunConnect node r t).2;
  law_disconnect_idle : ∀ t, idle t → idle (tunDisconnect t);
  law_drop_idle : ∀ e t, idle t → idle (tunDrop e t);
  law_ready : ∀ t, Ready (tunReport t) = true;
  law_not_connecting : ∀ t, idle t → Connecting (tunReport t) = false;
  law_connect_running : ∀ node r t, idle t → Running (tunReport t) = true →
    tunConnect node r t = (Some "VPNGate tunnel is already connected", t);
  law_connect_ok : ∀ node ses t, idle t → Running (tunReport t) = false →
    (tunConnect node (Ok ses) t).1 = None ∧ Running (tunReport (tunConnect node (Ok ses) t).2) = true ∧
    NodeID (tunReport (tunConnect node (Ok ses) t).2) = ses_nodeID ses;
  law_connect_err : ∀ node e t, idle t → Running (tunReport t) = false →
    (tunConnect node (Err e) t).1 = Some e ∧ Running (tunReport (tunConnect node (Err e) t).2) = false;
  law_disconnect : ∀ t, idle t → Running (tunReport (tunDisconnect t)) = false;
  law_drop : ∀ e t, idle t → Running (tunReport (tunDrop e t)) = false
}.

(** ** The implementation *)

(** The controller and the fields of the sessions it has made. *)
Record ControllerTunnel := mkTunnel { ctl : Controller; sessionsOf : gmap nat vpnSession }.

Definition zeroSession : vpnSession := mkVpnSession "" "" "" 0 0 0 0.

Section Implementation.
Context (os : OS) (runtimeDir : string).

Definition freshSession (c : Controller) : nat := fresh (alive c ∪ watched c ∪ dom (doneErr c)).

(** Run actions that are known to be possible. *)
Definition perform (l : list action) (c : Controller) : Controller := default c (runActions l c).

Definition ctlConnect (r : result vpnSession) (t : ControllerTunnel) : option string * ControllerTunnel :=
  match connectRefused (ctl t) with
  | Some e => (Some e, t)
  | None =>
      match r with
      | Err e => (Some e, mkTunnel (perform [ConnectBegin; ConnectFailed e] (ctl t)) (sessionsOf t))
      | Ok ses =>
          let s := freshSession (ctl t) in
          (None, mkTunnel (perform [ConnectBegin; ConnectEstablished s; ConnectPublish] (ctl t))
                   (<[s := ses]> (sessionsOf t)))
      end
  end.

Definition ctlDisconnect (t : ControllerTunnel) : ControllerTunnel :=
  mkTunnel (match current (ctl t) with
            | Some s => perform [Disconnect; CloseSession s] (ctl t)
            | None => perform [Disconnect] (ctl t)
            end) (sessionsOf t).

Definition ctlDrop (e : string) (t : ControllerTunnel) : ControllerTunnel :=
  mkTunnel (match current (ctl t) with
            | Some s => perform [BridgeError s e; WatchError s; CloseSession s] (ctl t)
            | None => ctl t
            end) (sessionsOf t).

#[export] Instance controllerTunnel : TunnelAPI ControllerTunnel := {
  tunReport t := CheckEnvironment os runtimeDir (λ s, default zeroSession (sessionsOf t !! s)) (ctl t);
  tunConnect _ r t := ctlConnect r t;
  tunDisconnect := ctlDisconnect;
  tunDrop := ctlDrop
}.

(** No call under way: nothing connecting, nothing left to close, no error
    waiting, and the current session has its watcher. *)
Record idleController (t : ControllerTunnel) : Prop := {
  idle_inv : controllerInv (ctl t);
  idle_inflight : inflight (ctl t) = None;
  idle_watched : ∀ s, current (ctl t) = Some s → s ∈ watched (ctl t)
}.

Lemma perform_inv l c : controllerInv c → controllerInv (perform l c).
Proof.
  intros Hi. unfold perform. destruct (runActions l c) as [c'|] eqn:E; [|done]. by eapply runActions_inv.
Qed.

Lemma idle_connecting t : idleController t → connecting (ctl t) = false.
Proof.
  intros [Hi Hf _]. destruct (connecting (ctl t)) eqn:E; [|done]. by apply (ci_connecting _ Hi) in E.
Qed.

Lemma idle_refused t : idleController t → connectRefused (ctl t) =
  match current (ctl t) with Some _ => Some "VPNGate tunnel is already connected" | None => None end.
Proof. intros Hi. unfold connectRefused. by rewrite (idle_connecting t Hi); destruct (current (ctl t)). Qed.

(** What the runs compute. *)
Lemma perform_failed t e : idleController t → current (ctl t) = None →
  let c := perform [ConnectBegin; ConnectFailed e] (ctl t) in
  current c = None ∧ inflight c = None.
Proof. intros Hi Hc. unfold perform. simpl. rewrite (idle_refused t Hi), Hc. done. Qed.

Lemma freshSession_fresh c :
  let s := freshSession c in (s ∉ alive c) ∧ (s ∉ watched c) ∧ doneErr c !! s = None.
Proof.
  simpl. pose proof (is_fresh (alive c ∪ watched c ∪ dom (doneErr c))) as Hf.
  fold (freshSession c) in Hf. rewrite !not_elem_of_union in Hf. destruct Hf as [[? ?] Hd].
  by rewrite not_elem_of_dom in Hd.
Qed.

Lemma perform_connect t : idleController t → current (ctl t) = None →
  let s := freshSession (ctl t) in
  let c := perform [ConnectBegin; ConnectEstablished s; ConnectPublish] (ctl t) in
  current c = Some s ∧ inflight c = None ∧ s ∈ watched c.
Proof.
  intros Hi Hc s. destruct (freshSession_fresh (ctl t)) as (Ha & Hw & Hd). fold s in Ha, Hw, Hd.
  unfold perform. simpl. rewrite (idle_refused t Hi), Hc. simpl.
  rewrite !bool_decide_false; [simpl; split_and!; [done..|set_solver]| |done|done].
  rewrite Hd. by intros [? ?].
Qed.

Lemma perform_disconnect t : idleController t →
  current (ctl (ctlDisconnect t)) = None ∧ inflight (ctl (ctlDisconnect t)) = None.
Proof.
  intros Hi. unfold ctlDisconnect, perform. destruct (current (ctl t)) as [s|] eqn:Ec; simpl; rewrite ?Ec.
  - rewrite bool_decide_true by set_solver. simpl. split; [done|apply Hi].
  - split; [done|apply Hi].
Qed.

Lemma perform_drop e t : idleController t →
  current (ctl (ctlDrop e t)) = None ∧ inflight (ctl (ctlDrop e t)) = None.
Proof.
  intros Hi. unfold ctlDrop, perform. destruct (current (ctl t)) as [s|] eqn:Ec; simpl; [|by split; [|apply Hi]].
  destruct (ci_current _ (idle_inv _ Hi) s Ec) as [Ha _]. pose proof (idle_watched _ Hi s Ec) as Hw.
  rewrite (bool_decide_true (s ∈ alive (ctl t))) by done.
  destruct (doneErr (ctl t) !! s) as [e'|] eqn:Ed; simpl; rewrite ?Ed, ?lookup_insert_eq;
    rewrite (bool_decide_true (s ∈ watched (ctl t))), (bool_decide_true (current (ctl t) = Some s)) by done;
    simpl; rewrite bool_decide_true by set_solver; simpl; (split; [done|apply Hi]).
Qed.

Lemma report_running t : Running (tunReport t) = match current (ctl t) with Some _ => true | None => false end.
Proof. simpl. unfold CheckEnvironment. by destruct (current (ctl t)). Qed.

Lemma controllerTunnel_lawful : TunnelLaws ControllerTunnel idleController.
Proof.
  assert (∀ t, Running (tunReport t) = false → current (ctl t) = None) as Hnr.
  { intros t. rewrite report_running. by destruct (current (ctl t)). }
  constructor.
  - intros node r t Hi. simpl. unfold ctlConnect. rewrite (idle_refused t Hi).
    destruct (current (ctl t)) as [s|] eqn:Ec; [done|].
    destruct r as [ses|e]; cbn [snd]; (constructor; cbn [ctl]; [apply perform_inv, Hi|..]).
    + apply (perform_connect t Hi Ec).
    + intros s Hs. destruct (perform_connect t Hi Ec) as (Hs' & _ & Hw). rewrite Hs' in Hs. by simplify_eq.
    + apply (perform_failed t e Hi Ec).
    + intros s Hs. destruct (perform_failed t e Hi Ec) as [Hs' _]. by rewrite Hs' in Hs.
  - intros t Hi. destruct (perform_disconnect t Hi) as [Hc Hf]. constructor; [|done|].
    + simpl. unfold ctlDisconnect. simpl. destruct (current (ctl t)); apply perform_inv, Hi.
    + intros s Hs. change (current (ctl (ctlDisconnect t)) = Some s) in Hs. congruence.
  - intros e t Hi. destruct (perform_drop e t Hi) as [Hc Hf]. constructor; [|done|].
    + simpl. unfold ctlDrop. simpl. destruct (current (ctl t)); [apply perform_inv|]; apply Hi.
    + intros s Hs. change (current (ctl (ctlDrop e t)) = Some s) in Hs. congruence.
  - intros t. simpl. unfold CheckEnvironment. by destruct (current (ctl t)).
  - intros t Hi. simpl. unfold CheckEnvironment. pose proof (idle_connecting t Hi). by destruct (current (ctl t)).
  - intros node r t Hi Hr. rewrite report_running in Hr. simpl. unfold ctlConnect. rewrite (idle_refused t Hi).
    by destruct (current (ctl t)).
  - intros node ses t Hi Hr%Hnr. destruct (perform_connect t Hi Hr) as (Hs & _ & _).
    simpl. unfold ctlConnect. rewrite (idle_refused t Hi), Hr. unfold CheckEnvironment. cbn [fst snd ctl].
    rewrite Hs. simpl. by rewrite lookup_insert_eq.
  - intros node e t Hi Hr%Hnr. destruct (perform_failed t e Hi Hr) as [Hs _].
    simpl. unfold ctlConnect. rewrite (idle_refused t Hi), Hr. unfold CheckEnvironment. cbn [fst snd ctl].
    by rewrite Hs.
  - intros t Hi. rewrite report_running.
    change (tunDisconnect t) with (ctlDisconnect t). by destruct (perform_disconnect t Hi) as [-> _].
  - intros e t Hi. rewrite report_running.
    change (tunDrop e t) with (ctlDrop e t). by destruct (perform_drop e t Hi) as [-> _].
Qed.

(** C9. The controller keeps the promises the server relies on: a connect
    succeeds exactly when the handshake does and no tunnel runs, afterwards the
    report names the node's session; a disconnect and a failure of the data path
    leave no tunnel running; and no call leaves the controller half-way. *)
Theorem controller_keeps_promises : TunnelLaws ControllerTunnel idleController.
Proof. apply controllerTunnel_lawful. Qed.
End Implementation.

#[export] Instance controllerTunnel_laws os dir : TunnelLaws (A := controllerTunnel os dir) ControllerTunnel idleController :=
  controllerTunnel_lawful os dir.
