(* ===== verification/ExitPath.v ===== *)
(** * The path of proxied traffic: [internal/proxycore] over [internal/tunnel]

    xray dials every outbound connection with its process-wide dialer: the
    [vpnSystemDialer] the manager installs, which asks the controller of the tunnel
    ([DialContext]), or, with none installed, the system's. Here the manager, xray,
    the controller and the dials run together: the calls of one operation of the
    manager, the actions of the controller's goroutines and the dials of running
    instances interleave freely. What xray does inside is not modelled: an instance
    may dial anything whenever it runs. *)

From S2P Require Import Prelude GoStrings Config ProxyCore Tunnel.

(** ** Dialling *)

(** [xnet.Destination], of which the dialer uses two methods. *)
Class Destinations (X : Type) := { SystemString : X → string; NetAddr : X → string }.

(** [ContextDialer]: the network, the address; here what answers is the session. *)
Definition ContextDialer : Type := string → string → result nat.
Record vpnSystemDialer := mkVpnDialer { dialer : ContextDialer }.
Definition Dial {X} `{Destinations X} (d : vpnSystemDialer) (destination : X) : result nat :=
  dialer d (SystemString destination) (NetAddr destination).

(** The controller as a dialer: the session does not depend on where to. *)
Definition tunnelDialer (c : Controller) : ContextDialer := λ _ _, DialContext c.

Inductive dialed := Carried (session : nat) | Refused (e : string) | Outside.
#[export] Instance dialed_eq_dec : EqDecision dialed.
Proof. solve_decision. Defined.

(** [DialSystem] of xray. *)
Definition dialSystem {X} `{Destinations X} (w : xray unit nat) (c : Controller) (destination : X) : dialed :=
  match altDialer w with
  | Some _ => match Dial (mkVpnDialer (tunnelDialer c)) destination with Ok s => Carried s | Err e => Refused e end
  | None => Outside
  end.

(** ** The system *)

(** [sCalls] are the calls on xray that the operation in progress has yet to make:
    it holds the manager's lock until none is left. *)
Record system := mkSystem {
  sManager : Manager unit nat;
  sXray : xray unit nat;
  sCalls : list (event unit nat);
  sTunnel : Controller;
  sDials : list dialed
}.

Section System.
Context (marshal : xrayConfig → result string) {X : Type} `{Destinations X}.

Inductive systemStep (s : system) : system → Prop :=
  | sys_request r m ans calls :
      sCalls s = [] → serve marshal r (sManager s) = (m, ans, calls) →
      systemStep s (mkSystem m (sXray s) calls (sTunnel s) (sDials s))
  | sys_call e rest :
      sCalls s = e :: rest →
      systemStep s (mkSystem (sManager s) (xrayCall (sXray s) e) rest (sTunnel s) (sDials s))
  | sys_tunnel a c :
      act a (sTunnel s) = Some c → systemStep s (mkSystem (sManager s) (sXray s) (sCalls s) c (sDials s))
  | sys_dial i (destination : X) :
      i ∈ liveInstances (sXray s) →
      systemStep s (mkSystem (sManager s) (sXray s) (sCalls s) (sTunnel s)
                      (sDials s ++ [dialSystem (sXray s) (sTunnel s) destination])).

(** The server's parts when it starts: [NewServer] gives the manager the controller. *)
Definition assembled (cfg : ProxyCoreConfig) (sub : SubscriptionConfig) : system :=
  mkSystem (NewManager cfg sub (Some tt)) (mkXray None []) [] NewOpenVPNController [].

(** ** No traffic outside the tunnel *)

Record systemOK (s : system) : Prop := {
  so_calls : always (leakFree (Some tt)) (sXray s) (sCalls s);
  so_after : quiescent (sManager s) (xrayCalls (sXray s) (sCalls s));
  so_dialer : mgrDialer (sManager s) = Some tt;
  so_tunnel : controllerInv (sTunnel s);
  so_dials : Outside ∉ sDials s
}.

Lemma assembled_ok cfg sub : systemOK (assembled cfg sub).
Proof.
  assert (quiescent (NewManager cfg sub (Some tt)) (mkXray None [] : xray unit nat)) as Hq by by constructor.
  constructor; cbn [assembled sXray sCalls sManager sTunnel sDials].
  - split; [by apply (quiescent_leakFree (NewManager cfg sub (Some tt)))|done].
  - exact Hq.
  - done.
  - apply controllerInv_new.
  - apply not_elem_of_nil.
Qed.

Lemma serve_ok r (m : Manager unit nat) w m' ans calls :
  quiescent m w → serve marshal r m = (m', ans, calls) →
  quiescent m' (xrayCalls w calls) ∧ mgrDialer m' = mgrDialer m ∧ always (leakFree (mgrDialer m)) w calls.
Proof.
  intros Hq Hs. apply (serveAll_quiescent marshal [r] m w m' calls Hq). cbn [serveAll]. by rewrite Hs, app_nil_r.
Qed.

Lemma always_here P (w : xray unit nat) calls : always P w calls → P w.
Proof. destruct calls; by intros []. Qed.

(** A running instance finds the VPN dialer installed. *)
Lemma leakFree_dial w c i (destination : X) : leakFree (Some tt) w → i ∈ liveInstances w →
  dialSystem w c destination = match DialContext c with Ok s => Carried s | Err e => Refused e end.
Proof.
  intros [_ Hw] Hi. unfold dialSystem.
  destruct Hw as [-> _]; [|done]. intros He. rewrite He in Hi. by apply elem_of_nil in Hi.
Qed.

Lemma systemStep_ok s s' : systemOK s → systemStep s s' → systemOK s'.
Proof.
  intros [Hc Ha Hd Ht Hl] Hs. destruct Hs as [r m ans calls He Hr|e rest He|a c Hact|i destination Hi];
    constructor; cbn [sXray sCalls sManager sTunnel sDials]; try done.
  - rewrite He in Ha; cbn [xrayCalls foldl] in Ha. destruct (serve_ok r _ _ _ _ _ Ha Hr) as (_ & _ & Hal). rewrite Hd in Hal. exact Hal.
  - rewrite He in Ha; cbn [xrayCalls foldl] in Ha. destruct (serve_ok r _ _ _ _ _ Ha Hr) as (Hq & _ & _). exact Hq.
  - rewrite He in Ha; cbn [xrayCalls foldl] in Ha. destruct (serve_ok r _ _ _ _ _ Ha Hr) as (_ & -> & _). done.
  - rewrite He in Hc. by destruct Hc.
  - by rewrite He in Ha.
  - by eapply act_inv.
  - rewrite (leakFree_dial _ _ i _ (always_here _ _ _ Hc) Hi). rewrite elem_of_app, list_elem_of_singleton.
    intros [?|Ho]; [done|]. by destruct (DialContext (sTunnel s)).
Qed.

Lemma reachable_systemOK cfg sub s : rtc systemStep (assembled cfg sub) s → systemOK s.
Proof.
  intros Hr. pose proof (assembled_ok cfg sub) as H0. revert H0.
  induction Hr as [s|s s1 s2 Hs _ IH]; intros H0; [done|]. apply IH. by eapply systemStep_ok.
Qed.


(** The guarantee ends with the instance: [Stop] closes it and puts the system's dialer
    back, so whatever still dials after [Close] (a handler the core had not ended)
    leaves outside the tunnel. *)
Lemma stop_restores_system_dialer m w i answer m' ans calls c (destination : X) :
  quiescent m w → mgrInstance m = Some i → Stop answer m = (m', ans, calls) →
  dialSystem (xrayCalls w calls) c destination = Outside ∧ liveInstances (xrayCalls w calls) = [].
Proof.
  intros Hq Hi Hs. destruct (Stop_quiescent _ _ _ _ _ _ Hq Hs) as (Hq' & _ & _).
  unfold Stop in Hs. rewrite Hi in Hs. injection Hs as <- <- <-.
  split; [unfold dialSystem; by rewrite (q_dialer _ _ Hq')|by rewrite (q_live _ _ Hq')].
Qed.

End System.

(** ** Concrete runs *)

(** Destinations as pairs of network and address. *)
#[local] Instance pairDestinations : Destinations (string * string) := {| SystemString := fst; NetAddr := snd |}.

Definition anyMarshal : xrayConfig → result string := λ _, Ok "{}".
Definition coreConfig : ProxyCoreConfig := cfgProxyCore quietConfig.
Definition subConfig : SubscriptionConfig := cfgSubscription quietConfig.
Definition startRequest : request nat := ReqStart (λ _, Ok 1%nat) None.
Definition stopRequest : request nat := ReqStop (λ _, None).

(** The core is started, a tunnel is brought up, a client's connection is dialled. *)
Definition startedManager : Manager unit nat :=
  (serve anyMarshal startRequest (NewManager coreConfig subConfig (Some tt))).1.1.
Definition startCalls : list (event unit nat) :=
  (serve anyMarshal startRequest (NewManager coreConfig subConfig (Some tt))).2.
Definition tunnelUp : Controller :=
  mkController false (Some 9%nat) "" None {[9%nat]} ∅ ∅ {[9%nat]}.
Definition servingSystem : system :=
  mkSystem startedManager (mkXray (Some tt) [1%nat]) [] tunnelUp [Carried 9].

Lemma servingSystem_reached :
  rtc (systemStep anyMarshal (X := string * string)) (assembled coreConfig subConfig) servingSystem.
Proof.
  eapply rtc_l; [eapply (sys_request anyMarshal _ startRequest startedManager _ startCalls);
                 [reflexivity|vm_compute; reflexivity]|].
  eapply rtc_l; [eapply sys_call; reflexivity|]. eapply rtc_l; [eapply sys_call; reflexivity|].
  eapply rtc_l; [eapply (sys_tunnel _ _ ConnectBegin); reflexivity|].
  eapply rtc_l; [eapply (sys_tunnel _ _ (ConnectEstablished 9)); reflexivity|].
  eapply rtc_l; [eapply (sys_tunnel _ _ ConnectPublish); reflexivity|].
  eapply rtc_l; [eapply (sys_dial _ _ 1%nat ("tcp", "198.51.100.7:443")); by left|].
  reflexivity.
Qed.

