(* ===== verification/Cmd.v ===== *)
(** * [cmd/rim]: the command line

    The dispatch of [run] with Go's [flag] package for string flags, the
    configuration [serve] runs with, and [diagnose vpngate] against the tunnel
    interface. The integer and duration flags of [diagnose] are taken parsed. *)

From S2P Require Import Prelude GoSort GoStrings GoNet Domain Probe Config Source Service.
From S2P Require Import Tunnel TunnelApi.

(** ** [flag.FlagSet.Parse] for string flags *)

Inductive parsed :=
  | Parsed (values : gmap string string)
  | FlagHelp
  | FlagError (message : string).

(** The name and the value of [name=value]; the first byte belongs to the name. *)
Fixpoint cutEquals (name : bytes) : option (bytes * bytes) :=
  match name with
  | [] => None
  | c :: l => if bool_decide (c = byte_of 61) then Some ([], l)
              else (λ p, (c :: p.1, p.2)) <$> cutEquals l
  end.
Definition flagNameValue (name : bytes) : string * option string :=
  match name with
  | [] => ("", None)
  | c :: l => match cutEquals l with
              | Some (n, v) => (l2s (c :: n), Some (l2s v))
              | None => (l2s name, None)
              end
  end.

(** [values] maps the defined flags to their current values. *)
Fixpoint parseFlags (values : gmap string string) (args : list string) : parsed :=
  match args with
  | [] => Parsed values
  | s :: args =>
      match s2l s with
      | d :: e :: rest =>
          fail_if negb (bool_decide (d = byte_of 45)) with Parsed values ;;
          fail_if bool_decide (s = "--") with Parsed values ;;
          let name := if bool_decide (e = byte_of 45) then rest else e :: rest in
          match name with
          | [] => FlagError ("bad flag syntax: " +:+ s)
          | c :: _ =>
              fail_if bool_decide (c = byte_of 45) || bool_decide (c = byte_of 61)
                with FlagError ("bad flag syntax: " +:+ s) ;;
              let '(flag, value) := flagNameValue name in
              match values !! flag with
              | None => if bool_decide (flag = "help") || bool_decide (flag = "h") then FlagHelp
                        else FlagError ("flag provided but not defined: -" +:+ flag)
              | Some _ =>
                  match value, args with
                  | Some v, _ => parseFlags (<[flag := v]> values) args
                  | None, v :: args => parseFlags (<[flag := v]> values) args
                  | None, [] => FlagError ("flag needs an argument: -" +:+ flag)
                  end
              end
          end
      | _ => Parsed values
      end
  end.
Definition flagValue (values : gmap string string) (name : string) : string := default "" (values !! name).

(** ** [run] *)

Inductive command :=
  | CmdUsage
  | CmdVersion
  | CmdServe (configPath listen : string)
  | CmdConfigInit (output : string)
  | CmdServiceGenerate (platform : string) (opts : Options) (output : string)
  | CmdDiagnose (args : list string)
  | CmdExit (status : Z) (message : string).

Definition version : string := "0.1.0-go-alpha".

(** [flag.ExitOnError]. *)
Definition withFlags (defaults : gmap string string) (args : list string) (k : gmap string string → command) : command :=
  match parseFlags defaults args with
  | Parsed values => k values
  | FlagHelp => CmdExit 0 ""
  | FlagError message => CmdExit 2 message
  end.

Definition runtimeGOOS (envGOOS goos : string) : string := if bool_decide (envGOOS = "") then goos else envGOOS.

Definition run (os : OS) (envGOOS : string) (args : list string) : command :=
  match args with
  | _ :: verb :: rest =>
      if bool_decide (verb = "serve") then
        withFlags (list_to_map [("config", "config.json"); ("listen", "")]) rest
          (λ v, CmdServe (flagValue v "config") (flagValue v "listen"))
      else if bool_decide (verb = "config") then
        match rest with
        | "init" :: rest => withFlags (list_to_map [("output", "config.json")]) rest (λ v, CmdConfigInit (flagValue v "output"))
        | _ => CmdUsage
        end
      else if bool_decide (verb = "service") then
        match rest with
        | "generate" :: rest =>
            withFlags (list_to_map [("platform", runtimeGOOS envGOOS (osGOOS os)); ("output", "service");
                ("binary", DefaultBinaryPath os); ("config", "config.json"); ("data-dir", ""); ("listen", "127.0.0.1:8899")]) rest
              (λ v, CmdServiceGenerate (flagValue v "platform")
                 (mkOptions (flagValue v "binary") (flagValue v "config") (flagValue v "data-dir") (flagValue v "listen") version)
                 (flagValue v "output"))
        | _ => CmdUsage
        end
      else if bool_decide (verb = "diagnose") then
        match rest with "vpngate" :: rest => CmdDiagnose rest | _ => CmdUsage end
      else if bool_decide (verb = "version") then CmdVersion
      else CmdUsage
  | _ => CmdUsage
  end.

(** The configuration [serve] starts the server with. *)
Definition setListen (listen : string) (cfg : Config) : Config :=
  mkConfig (cfgDeployment cfg) (mkServerConfig listen (srvSessionSecret (cfgServer cfg))) (cfgAuth cfg) (cfgData cfg)
    (cfgVPNGate cfg) (cfgClassifier cfg) (cfgProbe cfg) (cfgFailover cfg) (cfgVerify cfg) (cfgOpenVPN cfg)
    (cfgSubscription cfg) (cfgProxyCore cfg).
Definition serveConfig {U : UnicodeTables} (os : OS) (json : JSON Config) (fs : FS) (configPath listen : string) : result Config :=
  let '(cfg, err) := Load os json fs configPath in
  match err with
  | Some e => Err e
  | None => Ok (if bool_decide (trimSpace listen = "") then cfg else setListen listen cfg)
  end.

(** ** [diagnose vpngate] *)

(** The comparator and the candidates of [diagnosticCandidates]. *)
Definition diagnosticLess (left right : VpnNode) : bool :=
  match LatencyMS left, LatencyMS right with
  | Some l, Some r => if negb (l =? r)%Z then (l <? r)%Z else (Score right <? Score left)%Z
  | _, _ => (Score right <? Score left)%Z
  end.
Definition diagnosticCandidates (nodes : list VpnNode) : list VpnNode :=
  sliceStable diagnosticLess
    (filter (λ node, Protocol node = "tcp" ∧ Domain.Status node = NodeAvailable) nodes).

(** [checkExitIP]: at most 256 bytes of the body are read. *)
Definition checkExitIP {U : UnicodeTables} (http : result (Z * result string)) : result string :=
  let? (status, body) := http in
  fail_if (status <? 200)%Z || (300 <=? status)%Z with Err ("IP check returned HTTP " +:+ itoa status) ;;
  let? body := body in
  let ip := trimSpace (l2s (take 256 (s2l body))) in
  fail_if bool_decide (parseIP ip = None) with Err ("IP check returned invalid address/body " +:+ quote ip) ;;
  Ok ip.

(** The flags of [diagnose vpngate], parsed. *)
Record diagnoseFlags := mkDiagnoseFlags {
  dfConfig : string;
  dfMaxNodes : Z;
  dfAttempts : Z;
  dfTimeout : Duration
}.

Section Diagnose.
Context {U : UnicodeTables} {T : Type} {API : TunnelAPI T}.

(** What the outside answers: VPNGate, the TCP dials and the clock of the probe,
    the handshakes and the exit checks of the attempts. *)
Context (os : OS) (json : JSON Config) (fs : FS).
Context (fetchAnswer : result (Z * result string)).
Context (dial : Duration → string → nat → nat → result Duration) (clock : nat → Time).
Context (handshake : nat → VpnNode → result vpnSession) (exitAnswer : nat → result (Z * result string)).

(** What is printed on success. *)
Record diagnosis := mkDiagnosis { diagNode : VpnNode; diagReport : EnvironmentReport; diagExitIP : string }.

(** The loop over the candidates: the first one whose tunnel carries traffic, or
    the failures; and the tunnel it leaves. *)
Fixpoint diagnoseLoop (index : nat) (candidates : list VpnNode) (failures : list string) (t : T)
    : (diagnosis + list string) * T :=
  match candidates with
  | [] => (inr failures, t)
  | node :: rest =>
      let '(err, t) := tunConnect node (handshake index node) t in
      match err with
      | Some e => diagnoseLoop (S index) rest (failures ++ [ID node +:+ ": " +:+ e]) t
      | None =>
          match checkExitIP (exitAnswer index) with
          | Err e => diagnoseLoop (S index) rest (failures ++ [ID node +:+ " data path: " +:+ e]) (tunDisconnect t)
          | Ok exitIP => (inl (mkDiagnosis node (tunReport t) exitIP), t)
          end
      end
  end.

Definition diagnoseConfig (path : string) : result Config :=
  if bool_decide (trimSpace path = "") then Ok Default
  else let '(cfg, err) := Load os json fs path in match err with Some e => Err e | None => Ok cfg end.

(** The candidates that are tried, or why there are none. *)
Definition diagnosePlan (flags : diagnoseFlags) : result (list VpnNode) :=
  fail_if (dfMaxNodes flags <? 1)%Z || (dfAttempts flags <? 1)%Z || (dfTimeout flags <=? 0)%Z
    with Err "max-nodes, attempts, and timeout must be positive" ;;
  let? cfg := diagnoseConfig (dfConfig flags) in
  match Fetch fetchAnswer (dfMaxNodes flags) with
  | Err e => Err ("fetch VPNGate nodes: " +:+ e)
  | Ok nodes =>
      let prober := mkTCPProbe (prbTimeoutMS (cfgProbe cfg) *i Millisecond)%go (prbMaxConcurrency (cfgProbe cfg)) 0 in
      let candidates := diagnosticCandidates (Probe dial clock prober nodes) in
      fail_if bool_decide (candidates = []) with Err "no reachable TCP VPNGate profiles found" ;;
      Ok (if (dfAttempts flags <? Z.of_nat (length candidates))%Z
          then take (Z.to_nat (dfAttempts flags)) candidates else candidates)
  end.

(** The deferred [Disconnect] runs on every path once the controller exists. *)
Definition diagnoseVPNGate (flags : diagnoseFlags) (t : T) : result diagnosis * T :=
  match diagnosePlan flags with
  | Err e => (Err e, t)
  | Ok candidates =>
      let '(r, t) := diagnoseLoop 0 candidates [] t in
      (match r with
       | inl d => Ok d
       | inr failures => Err ("all VPNGate attempts failed: " +:+ join " | " failures)
       end, tunDisconnect t)
  end.
End Diagnose.

(** ** Properties *)

(** *** Service definitions run what they were generated for *)

(** An option systemd takes as one word: no blank, no quote, no escape, no
    specifier and no variable. *)
Definition execWord (s : string) : Prop :=
  solidWord s ∧ Forall (λ c, c ∉ s2l ("%$\'" +:+ dquote)) (s2l s).

(** The systemd unit runs the program it was generated for: split at blanks, the
    command of its [ExecStart] line is [serve] with the configuration and the
    listen address of the options. *)
Theorem unit_runs_serve {U : UnicodeTables} os envGOOS fs opts dir fs' :
  execWord (optBinaryPath opts) → execWord (optConfigPath opts) → execWord (optListen opts) →
  lacks (byte_of 10) (optDataDir opts) →
  Generate os fs "linux" opts dir = (None, fs') →
  ∃ path text line, fs' !! path = Some text ∧ line ∈ splitLines text ∧ hasPrefix line "ExecStart=" = true ∧
    run os envGOOS (fields (trimPrefix line "ExecStart=")) = CmdServe (optConfigPath opts) (optListen opts).
Proof.
  intros [Hb _] [Hc _] [Hl _] Hd Hg.
  assert (singleLine opts) as Hs by (split_and!; try done; by apply solidWord_lacks).
  assert (execStart opts = "ExecStart=" +:+ join " " [optBinaryPath opts; "serve"; "--config"; optConfigPath opts; "--listen"; optListen opts]) as He.
  { unfold execStart. rewrite !solidWord_value by done. cbn [join]. apply s2l_inj. rewrite !s2l_app. reflexivity. }
  unfold Generate in Hg. cbv zeta in Hg. set (dir' := if bool_decide (dir = "") then "." else dir) in Hg.
  destruct (osMkdirFault os dir'); [done|]. rewrite bool_decide_true in Hg by (vm_compute; reflexivity).
  unfold writeFile in Hg. set (path := osJoin os dir' "residential-ip-manager.service") in Hg.
  destruct (osWriteFault os path) as [[? []]|]; simplify_eq.
  exists path, (systemdUnit opts), (execStart opts). split_and!.
  - by rewrite lookup_insert_eq.
  - rewrite unit_lines by done. do 7 right. left.
  - rewrite He. apply hasPrefix_app.
  - rewrite He, trimPrefix_app, fields_words.
    + reflexivity.
    + repeat (apply Forall_cons; split); try apply Forall_nil_2; try done; split; decided.
Qed.

(** *** Diagnosis *)

Definition latencyOf (n : VpnNode) : Z := default 0%Z (LatencyMS n).
Definition measuredLess : VpnNode → VpnNode → bool := lessThen (lessBy latencyOf) (lessBy (λ n, (- Score n)%Z)).

Lemma diagnosticLess_measured x y :
  is_Some (LatencyMS x) → is_Some (LatencyMS y) → diagnosticLess x y = measuredLess x y.
Proof.
  intros [l Hl] [r Hr]. unfold diagnosticLess, measuredLess, lessThen, lessBy, latencyOf. rewrite Hl, Hr. cbn.
  destruct (l =? r)%Z eqn:E; cbn; bools.
  - subst. rewrite Z.ltb_irrefl. apply eq_true_iff_eq. rewrite !Z.ltb_lt. lia.
  - destruct (l <? r)%Z eqn:E1, (r <? l)%Z eqn:E2; bools; try done; lia.
Qed.

(** The candidates of a diagnosis are the reachable TCP nodes of the probe, the
    fastest first, of equally fast ones the one with the higher score. *)
Theorem diagnostic_order nodes :
  Forall (λ n, Domain.Status n = NodeAvailable → is_Some (LatencyMS n)) nodes →
  let c := diagnosticCandidates nodes in
  c ≡ₚ filter (λ n, Protocol n = "tcp" ∧ Domain.Status n = NodeAvailable) nodes ∧
  StronglySorted (λ x y, (latencyOf x < latencyOf y)%Z ∨ latencyOf x = latencyOf y ∧ (Score y ≤ Score x)%Z) c.
Proof.
  intros Hm c. split; [apply sliceStable_perm|]. unfold c, diagnosticCandidates.
  rewrite (sliceStable_ext _ measuredLess).
  - assert (StrictWeakOrder measuredLess) as Ho by (unfold measuredLess; apply _).
    induction (sliceStable_sorted measuredLess (filter (λ n, Protocol n = "tcp" ∧ Domain.Status n = NodeAvailable) nodes))
      as [|x l Hs IH Hx]; constructor; [done|]. eapply Forall_impl; [exact Hx|].
    intros y. unfold notAfter, measuredLess. rewrite lessThen_false. unfold lessBy. intros [H1 [H2|H2]]; bools; lia.
  - intros x y [[_ Hx] Hix]%list_elem_of_filter [[_ Hy] Hiy]%list_elem_of_filter. rewrite Forall_forall in Hm.
    apply diagnosticLess_measured; auto.
Qed.

Section DiagnoseProps.
Context {U : UnicodeTables} {T : Type} {API : TunnelAPI T} {idle : T → Prop} {L : TunnelLaws T idle}.
Context (os : OS) (json : JSON Config) (fs : FS).
Context (fetchAnswer : result (Z * result string)).
Context (dial : Duration → string → nat → nat → result Duration) (clock : nat → Time).
Context (handshake : nat → VpnNode → result vpnSession) (exitAnswer : nat → result (Z * result string)).

Lemma checkExitIP_ok http ip : checkExitIP http = Ok ip → is_Some (parseIP ip).
Proof.
  unfold checkExitIP. destruct http as [[status [body|]]|]; [|by destruct (_ || _)|done].
  destruct (_ || _); [done|]. case_bool_decide as Hp; [done|]. intros [= <-].
  destruct (parseIP _); [by eexists|done].
Qed.

(** What a candidate that was tried has gone through. *)
Lemma diagnoseLoop_run index candidates failures t :
  idle t → Running (tunReport t) = false →
  let '(r, t') := diagnoseLoop handshake exitAnswer index candidates failures t in
  idle t' ∧
  match r with
  | inl d => diagNode d ∈ candidates ∧ diagReport d = tunReport t' ∧ Running (tunReport t') = true ∧
             is_Some (parseIP (diagExitIP d))
  | inr failures' => Running (tunReport t') = false ∧ length failures' = (length failures + length candidates)%nat
  end.
Proof.
  revert index failures t. induction candidates as [|node rest IH]; intros index failures t Hi Hr; simpl.
  { split_and!; try done; lia. }
  destruct (tunConnect node (handshake index node) t) as [err t1] eqn:Ec.
  assert (idle t1) as Hi1 by (pose proof (law_connect_idle node (handshake index node) t Hi) as H; by rewrite Ec in H).
  assert (∀ f t2, idle t2 → Running (tunReport t2) = false → length f = S (length failures) →
    let '(r, t') := diagnoseLoop handshake exitAnswer (S index) rest f t2 in
    idle t' ∧ match r with
      | inl d => diagNode d ∈ node :: rest ∧ diagReport d = tunReport t' ∧ Running (tunReport t') = true ∧
                 is_Some (parseIP (diagExitIP d))
      | inr failures' => Running (tunReport t') = false ∧ length failures' = (length failures + S (length rest))%nat
      end) as Hnext.
  { intros f t2 Hi2 Hr2 Hf. specialize (IH (S index) f t2 Hi2 Hr2).
    destruct (diagnoseLoop handshake exitAnswer (S index) rest f t2) as [[d|fs'] t']; destruct IH as [? IH]; (split; [done|]).
    - destruct IH as (? & ?). split; [by right|done].
    - destruct IH as (? & ?). split; [done|lia]. }
  destruct (handshake index node) as [ses|e] eqn:Eh.
  - destruct (law_connect_ok node ses t Hi Hr) as (He & Hrun & _). rewrite Ec in He, Hrun. cbn in He, Hrun. subst err.
    destruct (checkExitIP (exitAnswer index)) as [ip|e] eqn:Ex.
    + split_and!; try done; [left|by eapply checkExitIP_ok].
    + apply Hnext; [by apply law_disconnect_idle|by apply law_disconnect|rewrite length_app; simpl; lia].
  - destruct (law_connect_err node e t Hi Hr) as [He Hrun]. rewrite Ec in He, Hrun. cbn in He, Hrun. subst err.
    apply Hnext; [done..|rewrite length_app; simpl; lia].
Qed.

Lemma diagnosePlan_spec flags candidates :
  dialBounded dial → diagnosePlan os json fs fetchAnswer dial clock flags = Ok candidates →
  (Z.of_nat (length candidates) ≤ dfAttempts flags)%Z ∧
  Forall (λ n, Protocol n = "tcp" ∧ is_Some (LatencyMS n) ∧ (1 ≤ RemotePort n ≤ 65535)%Z) candidates.
Proof.
  intros Hd. unfold diagnosePlan.
  destruct ((dfMaxNodes flags <? 1)%Z || (dfAttempts flags <? 1)%Z || (dfTimeout flags <=? 0)%Z) eqn:Ef; [done|].
  destruct (diagnoseConfig os json fs (dfConfig flags)) as [cfg|]; [|done].
  destruct (Fetch fetchAnswer (dfMaxNodes flags)) as [nodes|] eqn:En; [|done]. cbv zeta.
  set (prober := mkTCPProbe _ _ _). set (all := diagnosticCandidates _). case_bool_decide; [done|]. intros [= <-].
  assert (Forall (λ n, Protocol n = "tcp" ∧ is_Some (LatencyMS n) ∧ (1 ≤ RemotePort n ≤ 65535)%Z) all) as Hall.
  { pose proof (fetched_safe fetchAnswer (dfMaxNodes flags) nodes En) as Hs.
    pose proof (probe_well_formed dial clock prober nodes Hd) as Hp. apply Forall_forall. intros n Hn.
    unfold all, diagnosticCandidates in Hn. rewrite elem_of_sliceStable in Hn.
    apply list_elem_of_filter in Hn as [[Ht Ha] Hin]. apply list_elem_of_lookup in Hin as [i Hi].
    destruct (Forall2_lookup_l _ _ _ _ _ Hp Hi) as (m & Hm & Hpr & Hsame).
    split_and!; [done|by apply (probed_available _ Hpr)|..]; destruct Hsame as (_ & _ & _ & -> & _);
      by apply (sn_port m), (Forall_lookup_1 _ _ _ _ Hs Hm). }
  bools. destruct (dfAttempts flags <? Z.of_nat (length all))%Z eqn:Ec; bools.
  - split; [rewrite length_take; lia|by apply Forall_take].
  - by split.
Qed.

(** A diagnosis leaves no tunnel behind, whatever happens. It succeeds only with a
    candidate whose tunnel was up and through which the exit check returned an
    address; it tries no more candidates than it was allowed to, and each of them
    is a safe node of the list that answered the TCP probe. *)
Theorem diagnose_outcome flags t :
  idle t → Running (tunReport t) = false → dialBounded dial →
  let '(r, t') := diagnoseVPNGate os json fs fetchAnswer dial clock handshake exitAnswer flags t in
  Running (tunReport t') = false ∧
  ∀ d, r = Ok d →
    Running (diagReport d) = true ∧ is_Some (parseIP (diagExitIP d)) ∧
    ∃ candidates, diagnosePlan os json fs fetchAnswer dial clock flags = Ok candidates ∧ diagNode d ∈ candidates ∧
      (Z.of_nat (length candidates) ≤ dfAttempts flags)%Z ∧
      Forall (λ n, Protocol n = "tcp" ∧ is_Some (LatencyMS n) ∧ (1 ≤ RemotePort n ≤ 65535)%Z) candidates.
Proof.
  intros Hi Hr Hd. unfold diagnoseVPNGate. destruct (diagnosePlan _ _ _ _ _ _ flags) as [candidates|e] eqn:Ep; [|done].
  pose proof (diagnoseLoop_run 0 candidates [] t Hi Hr) as H.
  destruct (diagnoseLoop handshake exitAnswer 0 candidates [] t) as [r t1]. destruct H as [Hi1 H].
  split; [by apply law_disconnect|]. intros d Hd1. destruct r as [d'|]; [|done]. injection Hd1 as ->.
  destruct H as (Hin & -> & Hrun & Hip). split_and!; try done.
  destruct (diagnosePlan_spec flags candidates Hd Ep) as [Hlen Hall]. by exists candidates.
Qed.
End DiagnoseProps.

(** ** Concrete runs *)

Definition sampleOptions : Options := mkOptions "/usr/bin/rim" "/etc/rim.json" "" "127.0.0.1:8899" version.

Lemma unit_runs_serve_witness :
  ∃ fs' path text line, Generate (U := asciiTables) quietOS ∅ "linux" sampleOptions "out" = (None, fs') ∧
    fs' !! path = Some text ∧ line ∈ splitLines text ∧ hasPrefix line "ExecStart=" = true ∧
    run quietOS "" (fields (trimPrefix line "ExecStart=")) = CmdServe "/etc/rim.json" "127.0.0.1:8899".
Proof.
  assert (∃ fs', Generate (U := asciiTables) quietOS ∅ "linux" sampleOptions "out" = (None, fs')) as [fs' H]
    by (eexists; reflexivity).
  destruct (unit_runs_serve (U := asciiTables) quietOS "" ∅ sampleOptions "out" fs') as (path & text & line & Hw);
    [split; [split; [discriminate|]|]; decided..|decided|exact H|].
  exists fs', path, text, line. split; [exact H|exact Hw].
Defined.

(** An option with a blank is not quoted: systemd would run another program. *)
Lemma unquoted_blank_breaks_unit :
  let opts := mkOptions "/opt/my app/rim" "/etc/rim.json" "" "127.0.0.1:8899" version in
  run quietOS "" (fields (trimPrefix (execStart opts) "ExecStart=")) = CmdUsage.
Proof. vm_compute. reflexivity. Qed.

Definition fastNode : VpnNode := setLatencyMS (Some 20%Z) (setStatus NodeAvailable (setProtocol "tcp" zeroNode)).
Definition slowNode : VpnNode := setLatencyMS (Some 90%Z) fastNode.

Lemma diagnostic_order_witness :
  diagnosticCandidates [slowNode; zeroNode; fastNode] = [fastNode; slowNode] ∧
  StronglySorted (λ x y, (latencyOf x < latencyOf y)%Z ∨ latencyOf x = latencyOf y ∧ (Score y ≤ Score x)%Z)
    (diagnosticCandidates [slowNode; zeroNode; fastNode]).
Proof.
  split; [vm_compute; reflexivity|].
  destruct (diagnostic_order [slowNode; zeroNode; fastNode]) as [_ H]; [|exact H].
  repeat (apply Forall_cons; split); try apply Forall_nil_2; first [discriminate|intros _; eexists; reflexivity].
Defined.

#[local] Instance diagnoseTunnel : TunnelAPI ControllerTunnel := controllerTunnel quietOS "run".
Definition diagnoseIdle : ControllerTunnel := mkTunnel NewOpenVPNController ∅.

Lemma diagnose_outcome_witness :
  let '(r, t') := diagnoseVPNGate (U := asciiTables) quietOS quietJSON ∅ (Ok (200%Z, Ok sampleText)) steadyDial (λ _, 7%Z)
    (λ _ n, Ok (mkVpnSession (ID n) "10.8.0.2" "10.8.0.1" 0 0 0 0)) (λ _, Ok (200%Z, Ok ("203.0.113.7" +:+ nl)))
    (mkDiagnoseFlags "" 50 5 (240 * Second)%Z) diagnoseIdle in
  Running (tunReport t') = false ∧ ∃ d, r = Ok d ∧ Running (diagReport d) = true ∧ diagExitIP d = "203.0.113.7".
Proof.
  set (run := diagnoseVPNGate _ _ _ _ _ _ _ _ _ _).
  assert (∃ d, run.1 = Ok d ∧ diagExitIP d = "203.0.113.7") as (d & Hd & Hip) by (eexists; split; vm_compute; reflexivity).
  assert (dialBounded steadyDial) as Hb.
  { intros t a i k e [= <-]. destruct k as [|[|k]]; vm_compute; discriminate. }
  assert (idleController diagnoseIdle) as Hi by (constructor; [apply controllerInv_new|reflexivity|discriminate]).
  pose proof (diagnose_outcome (U := asciiTables) quietOS quietJSON ∅ (Ok (200%Z, Ok sampleText)) steadyDial (λ _, 7%Z)
    (λ _ n, Ok (mkVpnSession (ID n) "10.8.0.2" "10.8.0.1" 0 0 0 0)) (λ _, Ok (200%Z, Ok ("203.0.113.7" +:+ nl)))
    (mkDiagnoseFlags "" 50 5 (240 * Second)%Z) diagnoseIdle Hi eq_refl Hb) as H.
  fold run in H. destruct run as [r t']. cbn [fst] in Hd. destruct H as [Hr H]. split; [exact Hr|].
  destruct (H d Hd) as (Hrun & _). exists d. split; [exact Hd|split; [exact Hrun|exact Hip]].
Defined.
