(* ===== verification/Server.v ===== *)
(** * [internal/web/server.go]: the control server

    The application state, its helpers and the HTTP handlers in a state monad
    over the world: what [AppState] holds, the tunnel (through [TunnelAPI]), the
    proxy core, the last state saved, and a counter of the calls to the outside,
    whose answers ([Environment]) may be different every time. A handler runs
    here without others in between; [ServerRace] lets them overlap. *)

From S2P Require Import Prelude GoStrings GoNet GoCodec Domain Failover Probe Classify.
From S2P Require Import Verify Config ProxyCore Subscription Storage Tunnel TunnelApi.

Record LogEntry := mkLog { At : Time; Level : string; LogMessage : string }.

(** ** The world *)

Record World (T : Type) := mkWorld {
  nodes : list VpnNode;
  snapshot : ConnectionSnapshot;
  sessions : gmap string Time;
  logs : list LogEntry;
  tunnel : T;
  proxy : Manager unit nat;
  saved : option (list VpnNode * ConnectionSnapshot);
  tick : nat
}.
Arguments mkWorld {T}.
Arguments nodes {T}.
Arguments snapshot {T}.
Arguments sessions {T}.
Arguments logs {T}.
Arguments tunnel {T}.
Arguments proxy {T}.
Arguments saved {T}.
Arguments tick {T}.

(** What the outside answers to the k-th call: the clock, [rand.Read], the
    store, the handshake, a tunnel that has failed in the meantime, VPNGate,
    ip-api.com (batch and exit), the TCP dials of a probe, api.ipify.org, xray,
    the context and the interfaces. *)
Record Environment := mkEnvironment {
  envNow : nat → Time;
  envRandom : nat → nat → result bytes;
  envSave : nat → option string;
  envHandshake : nat → VpnNode → result vpnSession;
  envDropped : nat → option string;
  envFetch : nat → result (list VpnNode);
  envClassifyPost : nat → list string → result (Z * result (list ipAPIRecord));
  envVerifyGet : nat → string → result (Z * result ipAPIResponse);
  envDial : nat → Duration → string → nat → nat → result Duration;
  envPublicIP : nat → result (Z * result string);
  envStart : nat → string → result nat;
  envClose : nat → nat → option string;
  envCancelled : nat → bool;
  envMarshal : xrayConfig → result string;
  envAddrs : result (list Addr)
}.

(** A state monad. *)
Definition M (T A : Type) : Type := World T → A * World T.
#[export] Instance M_ret T : MRet (M T) := λ A a w, (a, w).
#[export] Instance M_bind T : MBind (M T) := λ A B k m w, let '(a, w) := m w in k a w.

Section Server.
Context {T : Type} {API : TunnelAPI T} {U : UnicodeTables} (env : Environment) (cfg : Config).

Definition get {A} (f : World T → A) : M T A := λ w, (f w, w).
Definition setNodes (v : list VpnNode) : M T () := λ w,
  ((), mkWorld v (snapshot w) (sessions w) (logs w) (tunnel w) (proxy w) (saved w) (tick w)).
Definition setSnapshot (v : ConnectionSnapshot) : M T () := λ w,
  ((), mkWorld (nodes w) v (sessions w) (logs w) (tunnel w) (proxy w) (saved w) (tick w)).
Definition setSessions (v : gmap string Time) : M T () := λ w,
  ((), mkWorld (nodes w) (snapshot w) v (logs w) (tunnel w) (proxy w) (saved w) (tick w)).
Definition setLogs (v : list LogEntry) : M T () := λ w,
  ((), mkWorld (nodes w) (snapshot w) (sessions w) v (tunnel w) (proxy w) (saved w) (tick w)).
Definition setTunnel (v : T) : M T () := λ w,
  ((), mkWorld (nodes w) (snapshot w) (sessions w) (logs w) v (proxy w) (saved w) (tick w)).
Definition setProxy (v : Manager unit nat) : M T () := λ w,
  ((), mkWorld (nodes w) (snapshot w) (sessions w) (logs w) (tunnel w) v (saved w) (tick w)).
Definition setSaved (v : option (list VpnNode * ConnectionSnapshot)) : M T () := λ w,
  ((), mkWorld (nodes w) (snapshot w) (sessions w) (logs w) (tunnel w) (proxy w) v (tick w)).

(** A call to the outside. *)
Definition ask {A} (f : nat → A) : M T A := λ w,
  (f (tick w), mkWorld (nodes w) (snapshot w) (sessions w) (logs w) (tunnel w) (proxy w) (saved w) (S (tick w))).
Definition now : M T Time := ask (envNow env).

(** ** Logs and persistence *)

Definition appendLog (at_ : Time) (level message : string) (l : list LogEntry) : list LogEntry :=
  let l := l ++ [mkLog at_ level message] in
  if (300 <? length l)%nat then drop (length l - 300) l else l.
(** [addLog], and [appendLogLocked] where the lock is held already. *)
Definition addLog (level message : string) : M T () :=
  at_ ← now;
  l ← get logs;
  setLogs (appendLog at_ level message l).

Definition saveLocked : M T () :=
  err ← ask (envSave env);
  ns ← get nodes;
  snap ← get snapshot;
  match err with
  | None => setSaved (Some (ns, snap))
  | Some e => addLog "warning" ("本地状态保存失败: " +:+ e)
  end.
Definition persist : M T () :=
  err ← ask (envSave env);
  ns ← get nodes;
  snap ← get snapshot;
  match err with None => setSaved (Some (ns, snap)) | Some _ => mret () end.

(** ** The tunnel *)

Definition checkEnvironment : M T EnvironmentReport :=
  dropped ← ask (envDropped env);
  t ← get tunnel;
  let t := match dropped with
           | Some e => if Running (tunReport t) then tunDrop e t else t
           | None => t
           end in
  setTunnel t;; mret (tunReport t).
Definition tunnelConnect (node : VpnNode) : M T (option string) :=
  r ← ask (λ k, envHandshake env k node);
  t ← get tunnel;
  let '(err, t) := tunConnect node r t in
  setTunnel t;; mret err.
Definition tunnelDisconnect : M T () := t ← get tunnel; setTunnel (tunDisconnect t).

(** ** Snapshots, nodes, counts *)

Definition connectionAttemptState (attempt : nat) : ConnectionState :=
  if bool_decide (attempt = 0%nat) then StateConnecting else StateFailingOver.

Definition nodeMaintenanceSnapshot (previous : ConnectionSnapshot) (environment : EnvironmentReport)
    (message : string) : ConnectionSnapshot :=
  fail_if negb (Running environment) with setMessage message InitialSnapshot ;;
  let previous := setMessage message (setState StateConnected previous) in
  let previous := if bool_decide (NodeID environment = "") then previous
                  else setActiveNodeID (NodeID environment) previous in
  let metadata := default ∅ (Metadata previous) in
  setMetadata (Some (if bool_decide (NodeID environment = "") then metadata
                     else <["node_id" := NodeID environment]> metadata)) previous.

Record Counts := mkCounts { cntNodes : Z; cntAvailable : Z; cntStrictHome : Z; cntCandidate : Z; cntUnavailable : Z }.
(** The loop of [countsLocked]. *)
Fixpoint countLoop (ns : list VpnNode) (c : Counts) : Counts :=
  match ns with
  | [] => c
  | node :: ns =>
      let c := match Domain.Status node with
               | NodeAvailable => mkCounts (cntNodes c) (cntAvailable c + 1) (cntStrictHome c) (cntCandidate c) (cntUnavailable c)
               | NodeUnavailable => mkCounts (cntNodes c) (cntAvailable c) (cntStrictHome c) (cntCandidate c) (cntUnavailable c + 1)
               | _ => c
               end%Z in
      let c := match PurityGrade node with
               | PurityStrictHome => mkCounts (cntNodes c) (cntAvailable c) (cntStrictHome c + 1) (cntCandidate c) (cntUnavailable c)
               | PurityCandidate => mkCounts (cntNodes c) (cntAvailable c) (cntStrictHome c) (cntCandidate c + 1) (cntUnavailable c)
               | _ => c
               end%Z in
      countLoop ns c
  end.
Definition countsLocked (ns : list VpnNode) : Counts :=
  countLoop ns (mkCounts (Z.of_nat (length ns)) 0 0 0 0).

Definition activeNode : M T (option VpnNode) :=
  snap ← get snapshot;
  ns ← get nodes;
  fail_if bool_decide (ActiveNodeID snap = "") with mret None ;;
  mret (snd <$> list_find (λ node, ID node = ActiveNodeID snap) ns).

(** ** Verification of the exit *)

Definition verifyNodeExit (node : VpnNode) : M T (result Result) :=
  ask (λ k, Verify (envVerifyGet env k) (verAPIURL (cfgVerify cfg)) node).

Definition verifyMetadata (result : Result) (m : gmap string string) : gmap string string :=
  <["verify_passed" := fmtBool (resPassed result)]>
  (<["exit_asn" := resASN result]> (<["exit_country" := resCountryCode result]> m)).

Definition recordVerification (result : Result) : M T () :=
  at_ ← now;
  snap ← get snapshot;
  let snap := setExitIP (resExitIP result) (setLastVerifiedAt (Some at_) snap) in
  setSnapshot (setMetadata (Some (verifyMetadata result (default ∅ (Metadata snap)))) snap);;
  saveLocked.

Definition applyVerifyResult (node : VpnNode) (result : Result) : M T () :=
  at_ ← now;
  snap ← get snapshot;
  let snap := setState (if resPassed result then StateConnected else StateError) snap in
  let snap := setMessage (resMessage result) (setLastVerifiedAt (Some at_)
                (setExitIP (resExitIP result) (setActiveNodeID (ID node) snap))) in
  setSnapshot (setMetadata (Some (verifyMetadata result (<["node_ip" := NodeIP node]> (default ∅ (Metadata snap))))) snap);;
  addLog "info" ("出口复核: " +:+ resMessage result);;
  saveLocked.

(** [api.ipify.org] through the tunnel. *)
Definition checkExitReachability : M T (result string) :=
  r ← ask (envPublicIP env);
  mret (let? (status, body) := r in
        fail_if (status <? 200)%Z || (300 <=? status)%Z
          with Err ("public IP probe returned HTTP " +:+ itoa status) ;;
        let? text := body in
        let ip := trimSpace text in
        fail_if bool_decide (parseIP ip = None)
          with Err ("public IP probe returned invalid address " +:+ quote ip) ;;
        Ok ip).

(** The reason and whether the exit is healthy. *)
Definition checkExitHealth : M T (string * bool) :=
  active ← activeNode;
  match active with
  | None => mret ("活动节点状态缺失", false)
  | Some node =>
      r ← verifyNodeExit node;
      match r with
      | Err err =>
          reach ← checkExitReachability;
          match reach with
          | Ok _ => mret ("", true)
          | Err e => mret ("严格验证失败: " +:+ err +:+ "；备用公网探测失败: " +:+ e, false)
          end
      | Ok result =>
          if negb (resPassed result) then mret (resMessage result, false)
          else recordVerification result;; mret ("", true)
      end
  end.

(** ** Connecting *)

Definition metadataOf (l : list (string * string)) : option (gmap string string) := Some (list_to_map l).
Definition progressSnapshot (state : ConnectionState) (message activeID : string) (m : list (string * string))
    : ConnectionSnapshot := mkSnapshot state message activeID "" None None 0 (metadataOf m).

Definition cooldownNode (nodeID message : string) : M T () :=
  let cooldown := (foCooldownSeconds (cfgFailover cfg) *i Second)%go in
  at_ ← now;
  ns ← get nodes;
  setNodes (markNodeFailure ns nodeID message cooldown at_);;
  addLog "warning" ("节点进入冷却 " +:+ nodeID +:+ ": " +:+ message);;
  saveLocked.

(** The verification half of [connectCandidate]: what was verified and when,
    or the error after which the tunnel was taken down again. *)
Definition verifyCandidate (node : VpnNode) (connectedAt : Time) : M T (result (Result * option Time * string)) :=
  if verEnabled (cfgVerify cfg) then
    setSnapshot (mkSnapshot StateVerifying "正在复核公网出口" (ID node) "" (Some connectedAt) None 0
                   (metadataOf [("node_ip", NodeIP node)]));;
    r ← verifyNodeExit node;
    match r with
    | Err e => tunnelDisconnect;; mret (Err ("出口复核失败: " +:+ e))
    | Ok result =>
        if negb (resPassed result) then
          tunnelDisconnect;; mret (Err ("出口复核未通过: " +:+ resMessage result))
        else
          verified ← now;
          mret (Ok (result, Some verified, "OpenVPN 已连接，出口复核通过"))
    end
  else mret (Ok (zeroResult, None, "OpenVPN 已连接，等待出口复核接入")).

Definition connectCandidate (node : VpnNode) : M T (result ConnectionSnapshot) :=
  err ← tunnelConnect node;
  match err with
  | Some e => mret (Err ("OpenVPN 连接失败: " +:+ e))
  | None =>
      connectedAt ← now;
      v ← verifyCandidate node connectedAt;
      match v with
      | Err e => mret (Err e)
      | Ok (result, verifiedAt, verifyMessage) =>
          let snap := mkSnapshot StateConnected verifyMessage (ID node) (resExitIP result) (Some connectedAt)
            verifiedAt 0
            (Some (verifyMetadata result {[ "node_ip" := NodeIP node ]})) in
          setSnapshot snap;;
          addLog "info" ("OpenVPN 已连接节点 " +:+ ID node);;
          saveLocked;;
          mret (Ok snap)
      end
  end.

Definition attemptText (attempt total : nat) : string :=
  itoa (Z.of_nat (S attempt)) +:+ "/" +:+ itoa (Z.of_nat total).

(** The candidate loops of [connect], [recoverExit] and [autoConnectExit]: try
    the candidates in order; a failure cools the node down. [announce] is the
    snapshot before an attempt, [onFailure] what is logged after one. The result
    is the snapshot of the first success, or the last error. *)
Fixpoint tryCandidates (announce : nat → VpnNode → ConnectionSnapshot)
    (onFailure : nat → VpnNode → string → M T ()) (attempt : nat) (candidates : list VpnNode)
    (lastErr : option string) : M T (ConnectionSnapshot + option string) :=
  match candidates with
  | [] => mret (inr lastErr)
  | node :: rest =>
      setSnapshot (announce attempt node);;
      r ← connectCandidate node;
      match r with
      | Ok snap => mret (inl snap)
      | Err e =>
          cooldownNode (ID node) e;;
          onFailure attempt node e;;
          tryCandidates announce onFailure (S attempt) rest (Some e)
      end
  end.

(** ** Recovery *)

Definition exitIsRunning : M T bool :=
  snap ← get snapshot;
  report ← checkEnvironment;
  mret (bool_decide (State snap = StateConnected) && Running report).

Definition exitNeedsRecovery : M T bool :=
  snap ← get snapshot;
  report ← checkEnvironment;
  mret (bool_decide (State snap = StateConnected) && negb (Running report) && negb (Connecting report)).

(** The parts of [recoverExit]: the reason that is logged, and the switch to
    another cached node. *)
Definition recoverReason (reason : string) : M T string :=
  if bool_decide (reason = "") then
    report ← checkEnvironment;
    mret (if bool_decide (envMessage report = "") then "VPNGate 数据通道已停止" else envMessage report)
  else mret reason.

Definition switchExit : M T () :=
  addLog "warning" "检测到 VPNGate 出口失效，正在自动切换节点";;
  ns ← get nodes;
  at_ ← now;
  let candidates := connectionCandidates ns "" (foMaxAttempts (cfgFailover cfg)) at_ in
  let total := length candidates in
  r ← tryCandidates
    (λ attempt node, progressSnapshot StateFailingOver
       ("出口失效，正在切换节点 " +:+ attemptText attempt total +:+ "：" +:+ NodeIP node)
       (ID node) [("attempt", attemptText attempt total)])
    (λ _ _ _, mret ()) 0 candidates None;
  match r with
  | inl _ => addLog "info" "VPNGate 出口自动切换成功"
  | inr _ =>
      setSnapshot (progressSnapshot StateError "VPNGate 出口失效，缓存中的候选节点均不可用" "" []);;
      addLog "error" "VPNGate 自动切换失败，请刷新节点后重试"
  end.

Definition recoverExit (reason : string) : M T () :=
  needed ← exitNeedsRecovery;
  cancelled ← ask (envCancelled env);
  fail_if negb needed || cancelled with mret () ;;
  failedNodeID ← get (λ w, ActiveNodeID (snapshot w));
  reason ← recoverReason reason;
  (if bool_decide (failedNodeID = "") then mret () else cooldownNode failedNodeID reason);;
  switchExit.

(** One round of [monitorExit]'s loop: which ticker fired, and the counter of
    consecutive health failures. *)
Inductive ticker := TransportTick | HealthTick.
Definition failureThreshold : Z :=
  if (foFailureThreshold (cfgFailover cfg) <=? 0)%Z then 2 else foFailureThreshold (cfgFailover cfg).
Definition monitorRound (ev : ticker) (healthFailures : Z) : M T Z :=
  match ev with
  | TransportTick =>
      needed ← exitNeedsRecovery;
      if (needed : bool) then recoverExit "";; mret 0%Z else mret healthFailures
  | HealthTick =>
      running ← (if verEnabled (cfgVerify cfg) then exitIsRunning else mret false);
      fail_if negb running with mret 0%Z ;;
      '(reason, passed) ← checkExitHealth;
      fail_if (passed : bool) with mret 0%Z ;;
      let healthFailures := (healthFailures + 1)%Z in
      addLog "warning" ("VPNGate 出口健康检查失败 " +:+ itoa healthFailures +:+ "/" +:+
                        itoa failureThreshold +:+ ": " +:+ reason);;
      if (failureThreshold <=? healthFailures)%Z
      then tunnelDisconnect;; recoverExit reason;; mret 0%Z
      else mret healthFailures
  end.

Definition classifyNodesWith (ns : list VpnNode) : M T (list VpnNode) :=
  post ← ask (envClassifyPost env);
  at_ ← now;
  mret (Classify post at_ ns).
Definition prober : TCPProbe :=
  mkTCPProbe (prbTimeoutMS (cfgProbe cfg) *i Millisecond)%go (prbMaxConcurrency (cfgProbe cfg))
    (prbSamples (cfgProbe cfg)).
Definition probeNodesWith (ns : list VpnNode) : M T (list VpnNode) :=
  dial ← ask (envDial env);
  clock ← ask (λ k i, envNow env (k + i));
  mret (Probe dial clock prober ns).

Definition stateSnapshot (state : ConnectionState) (message : string) : ConnectionSnapshot :=
  progressSnapshot state message "" [].

Definition autoConnectExit : M T () :=
  addLog "info" "正在自动准备 VPNGate/OpenVPN 出口";;
  report ← checkEnvironment;
  if negb (Ready report) then addLog "warning" ("OpenVPN 出口自动连接跳过: " +:+ envMessage report) else
  previousNodes ← get nodes;
  setSnapshot (stateSnapshot StateFetchingNodes "正在自动获取 VPNGate 节点");;
  fetched ← ask (envFetch env);
  match fetched with
  | Err e =>
      addLog "warning" ("自动获取 VPNGate 节点失败: " +:+ e);;
      setSnapshot (stateSnapshot StateError ("自动获取 VPNGate 节点失败: " +:+ e))
  | Ok ns =>
      ns ← (if clsEnabled (cfgClassifier cfg) then
              setSnapshot (stateSnapshot StateProbingNodes "正在自动执行家宽判定");; classifyNodesWith ns
            else mret ns);
      setSnapshot (stateSnapshot StateProbingNodes "正在自动 TCP 探活");;
      ns ← probeNodesWith ns;
      at_ ← now;
      let ns := preserveNodeCooldowns ns previousNodes at_ in
      setNodes ns;;
      setSnapshot (setMessage ("自动准备完成，已缓存 " +:+ itoa (Z.of_nat (length ns)) +:+ " 个节点") InitialSnapshot);;
      saveLocked;;
      let maxAttempts := if (foMaxAttempts (cfgFailover cfg) <=? 0)%Z then 1%Z else foMaxAttempts (cfgFailover cfg) in
      at_ ← now;
      let candidates := connectionCandidates ns "" maxAttempts at_ in
      let total := length candidates in
      if bool_decide (candidates = []) then addLog "warning" "自动连接出口失败: 没有可连接的 VPNGate 节点" else
      r ← tryCandidates
        (λ attempt node, progressSnapshot (connectionAttemptState attempt)
           ("正在自动连接 VPNGate 出口 " +:+ attemptText attempt total +:+ "：" +:+ NodeIP node)
           (ID node) [("node_ip", NodeIP node); ("attempt", attemptText attempt total)])
        (λ _ node e, addLog "warning" ("自动连接节点 " +:+ NodeIP node +:+ " 失败: " +:+ e)) 0 candidates None;
      match r with
      | inl _ => addLog "info" "VPNGate/OpenVPN 出口已自动连接"
      | inr _ => setSnapshot (stateSnapshot StateError "自动连接 VPNGate/OpenVPN 出口失败")
      end
  end.

(** ** HTTP *)

(** What the handlers look at: the decoded login body ([None] for invalid JSON),
    the decoded node id (empty if there is none), the cookie, the token. *)
Record Request := mkRequest {
  reqMethod : string;
  reqPath : string;
  reqCookie : option string;
  reqLogin : option (string * string);
  reqNodeID : string;
  reqToken : string;
  reqTLS : bool
}.

Inductive Body :=
  | BodyError (message : string)
  | BodyOK
  | BodyUser (username : string)
  | BodyStatus (s : ConnectionSnapshot) (c : Counts)
  | BodyNodes (l : list VpnNode)
  | BodyNodeCount (n : Z)
  | BodyCounts (c : Counts)
  | BodyEnvironment (openvpn : EnvironmentReport) (proxy : ProxyCore.Status)
  | BodyVerify (r : Result)
  | BodyProxy (s : ProxyCore.Status)
  | BodyProxyError (e : string) (s : ProxyCore.Status)
  | BodySnapshot (s : ConnectionSnapshot)
  | BodyLogs (l : list LogEntry)
  | BodyPreview (vmessURL quantumultURL host resolved serverListen subListen : string) (size : Z)
  | BodyText (text : string)
  | BodyIndex
  | BodyNotFound.

(** [Set-Cookie] of [rim_session]: value, Secure, and when it expires ([None]
    deletes it: Max-Age is negative). *)
Record Cookie := mkCookie { cookieValue : string; cookieSecure : bool; cookieExpires : option Time }.

Record Response := mkResponse_ {
  rspCode : Z;
  rspHeaders : list (string * string);
  rspCookie : option Cookie;
  rspBody : Body
}.

Definition jsonHeader : string * string := ("Content-Type", "application/json; charset=utf-8").
Definition writeJSON (status : Z) (b : Body) : Response := mkResponse_ status [jsonHeader] None b.
Definition writeError (status : Z) (message : string) : Response := writeJSON status (BodyError message).
Definition methodNotAllowed : Response := writeError 405 "method not allowed".
Definition isPost (r : Request) : bool := bool_decide (reqMethod r = "POST").

Definition index (r : Request) : M T Response :=
  if bool_decide (reqPath r = "/")
  then mret (mkResponse_ 200 [("Content-Type", "text/html; charset=utf-8")] None BodyIndex)
  else mret (mkResponse_ 404 [("Content-Type", "text/plain; charset=utf-8")] None BodyNotFound).

(** *** Sessions *)

Definition randomToken (k n : nat) : result string :=
  let? buffer := envRandom env k n in Ok (l2s (hexEncode buffer)).

Definition login (r : Request) : M T Response :=
  fail_if negb (isPost r) with mret methodNotAllowed ;;
  match reqLogin r with
  | None => mret (writeError 400 "invalid JSON")
  | Some (username, password) =>
      fail_if negb (bool_decide (username = authUsername (cfgAuth cfg)))
              || negb (bool_decide (password = authPassword (cfgAuth cfg)))
        with (addLog "warning" "登录失败";; mret (writeError 401 "用户名或密码不正确")) ;;
      id ← ask (λ k, randomToken k 32);
      match id with
      | Err _ => addLog "error" "无法生成安全会话";; mret (writeError 500 "无法创建登录会话")
      | Ok sessionID =>
          at_ ← now;
          m ← get sessions;
          setSessions (<[sessionID := timeAdd at_ (24 * Hour)%Z]> m);;
          cookieAt ← now;
          addLog "info" "控制台登录成功";;
          mret (mkResponse_ 200 [jsonHeader]
                  (Some (mkCookie sessionID (reqTLS r) (Some (timeAdd cookieAt (24 * Hour)%Z)))) BodyOK)
      end
  end.

Definition logout (r : Request) : M T Response :=
  fail_if negb (isPost r) with mret methodNotAllowed ;;
  match reqCookie r with
  | Some value => m ← get sessions; setSessions (delete value m)
  | None => mret ()
  end;;
  mret (mkResponse_ 200 [jsonHeader] (Some (mkCookie "" (reqTLS r) None)) BodyOK).

Definition sessionValid (value : string) : M T bool :=
  m ← get sessions;
  at_ ← now;
  mret (match m !! value with Some expires => timeBefore at_ expires | None => false end).

Definition requireAuth (next : Request → M T Response) (r : Request) : M T Response :=
  match reqCookie r with
  | None => mret (writeError 401 "login required")
  | Some value =>
      ok ← sessionValid value;
      if (ok : bool) then next r else mret (writeError 401 "login required")
  end.

(** *** Reading *)

Definition me (r : Request) : M T Response := mret (writeJSON 200 (BodyUser (authUsername (cfgAuth cfg)))).
Definition status (r : Request) : M T Response :=
  snap ← get snapshot; ns ← get nodes; mret (writeJSON 200 (BodyStatus snap (countsLocked ns))).
Definition listNodes (r : Request) : M T Response := ns ← get nodes; mret (writeJSON 200 (BodyNodes ns)).
Definition listLogs (r : Request) : M T Response := l ← get logs; mret (writeJSON 200 (BodyLogs l)).
Definition environment (r : Request) : M T Response :=
  report ← checkEnvironment;
  m ← get proxy;
  mret (writeJSON 200 (BodyEnvironment report (statusLocked m ""))).

(** *** Nodes *)

Definition refreshNodes (r : Request) : M T Response :=
  fail_if negb (isPost r) with mret methodNotAllowed ;;
  previous ← get snapshot;
  previousNodes ← get nodes;
  setSnapshot (stateSnapshot StateFetchingNodes "正在获取 VPNGate 节点");;
  fetched ← ask (envFetch env);
  match fetched with
  | Err e =>
      report ← checkEnvironment;
      setSnapshot (nodeMaintenanceSnapshot previous report ("节点刷新失败: " +:+ e));;
      addLog "error" ("节点刷新失败: " +:+ e);;
      mret (writeError 502 e)
  | Ok ns =>
      at_ ← now;
      let ns := preserveNodeCooldowns ns previousNodes at_ in
      let count := itoa (Z.of_nat (length ns)) in
      setNodes ns;;
      report ← checkEnvironment;
      setSnapshot (nodeMaintenanceSnapshot previous report ("已刷新 " +:+ count +:+ " 个节点"));;
      saveLocked;;
      addLog "info" ("已刷新 " +:+ count +:+ " 个 VPNGate 节点");;
      mret (writeJSON 200 (BodyNodeCount (Z.of_nat (length ns))))
  end.

Definition classifyNodes (r : Request) : M T Response :=
  fail_if negb (isPost r) with mret methodNotAllowed ;;
  previous ← get snapshot;
  ns ← get nodes;
  fail_if bool_decide (ns = []) with mret (writeError 409 "请先刷新节点") ;;
  setSnapshot (stateSnapshot StateProbingNodes "正在执行严格家宽判定");;
  classified ← classifyNodesWith ns;
  setNodes classified;;
  report ← checkEnvironment;
  setSnapshot (nodeMaintenanceSnapshot previous report "严格家宽判定完成");;
  let counts := countsLocked classified in
  saveLocked;;
  addLog "info" ("分类完成：严格家宽 " +:+ itoa (cntStrictHome counts) +:+ "，候选 " +:+ itoa (cntCandidate counts));;
  mret (writeJSON 200 (BodyCounts counts)).

Definition probeNodes (r : Request) : M T Response :=
  fail_if negb (isPost r) with mret methodNotAllowed ;;
  previous ← get snapshot;
  ns ← get nodes;
  fail_if bool_decide (ns = []) with mret (writeError 409 "请先刷新节点") ;;
  setSnapshot (stateSnapshot StateProbingNodes "正在 TCP 探活节点");;
  probed ← probeNodesWith ns;
  setNodes probed;;
  report ← checkEnvironment;
  setSnapshot (nodeMaintenanceSnapshot previous report "TCP 探活完成");;
  let counts := countsLocked probed in
  saveLocked;;
  addLog "info" ("探活完成：可用 " +:+ itoa (cntAvailable counts) +:+ "，不可用 " +:+ itoa (cntUnavailable counts));;
  mret (writeJSON 200 (BodyCounts counts)).

(** *** The exit *)

Definition verifyExit (r : Request) : M T Response :=
  fail_if negb (isPost r) with mret methodNotAllowed ;;
  active ← activeNode;
  match active with
  | None => mret (writeError 409 "当前没有活动节点")
  | Some node =>
      v ← verifyNodeExit node;
      match v with
      | Err e => addLog "error" ("出口复核失败: " +:+ e);; mret (writeError 502 e)
      | Ok result => applyVerifyResult node result;; mret (writeJSON 200 (BodyVerify result))
      end
  end.

Definition connectExit (r : Request) : M T Response :=
  fail_if negb (isPost r) with mret methodNotAllowed ;;
  report ← checkEnvironment;
  if negb (Ready report) then mret (writeError 502 (envMessage report)) else
  if Running report then
    current ← get snapshot;
    let snap := nodeMaintenanceSnapshot current report "VPNGate 出口已保持连接" in
    setSnapshot snap;;
    mret (writeJSON 200 (BodySnapshot snap))
  else
  ns ← get nodes;
  fail_if bool_decide (ns = []) with mret (writeError 409 "请先刷新节点") ;;
  let maxAttempts := if bool_decide (reqNodeID r = "") && foEnabled (cfgFailover cfg)
                     then foMaxAttempts (cfgFailover cfg) else 1%Z in
  at_ ← now;
  let candidates := connectionCandidates ns (reqNodeID r) maxAttempts at_ in
  let total := length candidates in
  fail_if bool_decide (candidates = []) with mret (writeError 404 "没有可连接的节点") ;;
  outcome ← tryCandidates
    (λ attempt node, progressSnapshot (connectionAttemptState attempt)
       ("正在连接节点 " +:+ attemptText attempt total +:+ "：" +:+ NodeIP node)
       (ID node) [("node_ip", NodeIP node); ("attempt", attemptText attempt total)])
    (λ attempt node e, if (attempt <? total - 1)%nat
                       then addLog "warning" ("节点 " +:+ NodeIP node +:+ " 失败，自动尝试下一个：" +:+ e)
                       else mret ()) 0 candidates None;
  match outcome with
  | inl snap => mret (writeJSON 200 (BodySnapshot snap))
  | inr lastErr =>
      let message := match lastErr with
                     | Some e => "所有候选节点连接失败: " +:+ e
                     | None => "所有候选节点连接失败"
                     end in
      setSnapshot (progressSnapshot StateError message "" [("attempts", itoa (Z.of_nat total))]);;
      addLog "error" message;;
      saveLocked;;
      mret (writeError 502 message)
  end.

Definition disconnect (r : Request) : M T Response :=
  fail_if negb (isPost r) with mret methodNotAllowed ;;
  tunnelDisconnect;;
  setSnapshot InitialSnapshot;;
  persist;;
  addLog "info" "已断开当前控制状态";;
  mret (writeJSON 200 BodyOK).

(** *** The proxy core *)

Definition proxyStatus (r : Request) : M T Response := m ← get proxy; mret (writeJSON 200 (BodyProxy (statusLocked m ""))).

Definition proxyStart (r : Request) : M T Response :=
  fail_if negb (isPost r) with mret methodNotAllowed ;;
  answer ← ask (envStart env);
  m ← get proxy;
  let '(m, (st, err), _) := Start (envMarshal env) answer None m in
  setProxy m;;
  match err with
  | Some e => addLog "error" ("VMESS 核心启动失败: " +:+ e);; mret (writeJSON 502 (BodyProxyError e st))
  | None => addLog "info" "VMESS 核心已启动";; mret (writeJSON 200 (BodyProxy st))
  end.

Definition proxyStop (r : Request) : M T Response :=
  fail_if negb (isPost r) with mret methodNotAllowed ;;
  answer ← ask (envClose env);
  m ← get proxy;
  let '(m, (st, err), _) := Stop answer m in
  setProxy m;;
  match err with
  | Some e => addLog "error" ("VMESS 核心停止失败: " +:+ e);; mret (writeJSON 502 (BodyProxyError e st))
  | None => addLog "info" "VMESS 核心已停止";; mret (writeJSON 200 (BodyProxy st))
  end.

(** *** Subscriptions *)

Definition validSubscriptionToken (r : Request) : bool :=
  subEnabled (cfgSubscription cfg) && bool_decide (reqToken r = subToken (cfgSubscription cfg)).

Definition subscriptionPreview (r : Request) : M T Response :=
  ns ← get nodes;
  let sub := cfgSubscription cfg in
  match VMESS (envAddrs env) sub ns with
  | Err e => mret (writeError 400 e)
  | Ok body =>
      mret (writeJSON 200 (BodyPreview ("/sub/vmess?token=" +:+ subToken sub)
        ("/sub/quantumult-x?token=" +:+ subToken sub) (subHost sub) (ResolveHost (envAddrs env) (subHost sub))
        (srvListen (cfgServer cfg)) (subListen sub) (Z.of_nat (length (s2l body)))))
  end.

Definition serveSubscription (contentType : string)
    (render : SubscriptionConfig → list VpnNode → result string) (r : Request) : M T Response :=
  fail_if negb (validSubscriptionToken r) with mret (writeError 401 "invalid subscription token") ;;
  ns ← get nodes;
  match render (cfgSubscription cfg) ns with
  | Err e => mret (writeError 400 e)
  | Ok body => mret (mkResponse_ 200 [("Content-Type", contentType)] None (BodyText body))
  end.
Definition vmessSubscription : Request → M T Response :=
  serveSubscription "text/plain; charset=utf-8" (VMESS (envAddrs env)).
Definition quantumultXSubscription : Request → M T Response :=
  serveSubscription "text/plain; charset=utf-8" (QuantumultX (envAddrs env)).
Definition clashSubscription : Request → M T Response :=
  serveSubscription "text/yaml; charset=utf-8" (ClashYAML (envAddrs env)).

(** *** Routing *)

Definition securityHeaderList : list (string * string) :=
  [("Content-Security-Policy", "default-src 'self'; base-uri 'none'; connect-src 'self'; font-src 'self'; form-action 'self'; frame-ancestors 'none'; img-src 'self' data:; object-src 'none'; script-src 'self' 'unsafe-inline'; style-src 'self' 'unsafe-inline'");
   ("Permissions-Policy", "camera=(), geolocation=(), microphone=()");
   ("X-Frame-Options", "DENY"); ("X-Content-Type-Options", "nosniff"); ("Referrer-Policy", "same-origin")].
Definition securityHeaders (next : Request → M T Response) (r : Request) : M T Response :=
  rsp ← next r;
  mret (mkResponse_ (rspCode rsp) (securityHeaderList ++ rspHeaders rsp) (rspCookie rsp) (rspBody rsp)).

(** The routes that need a session, and the open ones. *)
Definition privateRoutes : list (string * (Request → M T Response)) :=
  [("/api/logout", logout); ("/api/me", me); ("/api/status", status); ("/api/nodes", listNodes);
   ("/api/nodes/refresh", refreshNodes); ("/api/nodes/classify", classifyNodes); ("/api/nodes/probe", probeNodes);
   ("/api/environment", environment); ("/api/exit/verify", verifyExit); ("/api/proxy/status", proxyStatus);
   ("/api/proxy/start", proxyStart); ("/api/proxy/stop", proxyStop); ("/api/connect", connectExit);
   ("/api/disconnect", disconnect); ("/api/logs", listLogs); ("/api/subscription/preview", subscriptionPreview)].
Definition subscriptionRoutes : list (string * (Request → M T Response)) :=
  [("/sub/vmess", vmessSubscription); ("/sub/quantumult-x", quantumultXSubscription); ("/sub/clash", clashSubscription)].

(** [http.ServeMux]: an exact path; ["/"] matches every other path. *)
Definition route (routes : list (string * (Request → M T Response))) (fallback : Request → M T Response)
    (r : Request) : M T Response :=
  match list_find (λ e, e.1 = reqPath r) routes with
  | Some (_, (_, h)) => h r
  | None => fallback r
  end.
Definition Handler : Request → M T Response :=
  securityHeaders (route
    ([("/api/login", login)] ++ ((λ e, (e.1, requireAuth e.2)) <$> privateRoutes) ++ subscriptionRoutes) index).
Definition subscriptionHandler : Request → M T Response :=
  securityHeaders (route subscriptionRoutes
    (λ _, mret (mkResponse_ 404 [("Content-Type", "text/plain; charset=utf-8")] None BodyNotFound))).

(** ** Start-up and shut-down *)

Definition newWorld (t : T) (dataDir : string) (restored : result (list VpnNode * ConnectionSnapshot)) : World T :=
  let w := mkWorld [] InitialSnapshot ∅ [] t (NewManager (cfgProxyCore cfg) (cfgSubscription cfg) (Some tt)) None 0 in
  snd ((match restored with
        | Ok (ns, snap) =>
            setNodes ns;; setSnapshot snap;;
            addLog "info" ("已从本地状态恢复 " +:+ itoa (Z.of_nat (length ns)) +:+ " 个节点")
        | Err e => addLog "warning" ("本地状态恢复失败: " +:+ e)
        end;;
        addLog "info" ("服务已启动，数据目录: " +:+ dataDir)) w).

(** The goroutines [startGatewayAutomation] starts. *)
Inductive automation := MonitorExit | AutoStartVMESS | AutoConnectExit.
Definition startGatewayAutomation : list automation :=
  let deployment := cfgDeployment cfg in
  (if depAutoConnectExit deployment && foEnabled (cfgFailover cfg) then [MonitorExit] else []) ++
  (if depAutoStartVMESS deployment && coreEnabled (cfgProxyCore cfg) then [AutoStartVMESS] else []) ++
  (if depAutoConnectExit deployment then [AutoConnectExit] else []).

Definition autoStartVMESS : M T () :=
  answer ← ask (envStart env);
  cancelled ← ask (envCancelled env);
  m ← get proxy;
  let '(m, (st, err), _) := Start (envMarshal env) answer (if (cancelled : bool) then Some "context canceled" else None) m in
  setProxy m;;
  match err with
  | Some e => addLog "warning" ("VMESS 自动启动失败: " +:+ e)
  | None => addLog "info" "VMESS 入口已自动启动"
  end.

(** The listeners of [ListenAndServe]: address and handler. *)
Definition listeners : list (string * (Request → M T Response)) :=
  let listen := subListen (cfgSubscription cfg) in
  (srvListen (cfgServer cfg), Handler) ::
  (if subEnabled (cfgSubscription cfg) && negb (bool_decide (listen = ""))
      && negb (bool_decide (listen = srvListen (cfgServer cfg)))
   then [(listen, subscriptionHandler)] else []).

(** The end of [ListenAndServe]: the core and the tunnel are stopped. *)
Definition shutdown : M T () :=
  answer ← ask (envClose env);
  m ← get proxy;
  setProxy (Stop answer m).1.1;;
  tunnelDisconnect.

(** [ListenAndServe] from its [select] on: the context is done, or one of the
    listeners has stopped with an error, which is returned unless it is
    [http.ErrServerClosed]. *)
Inductive serveEvent := ContextDone | ServerStopped (err : string).
Definition ErrServerClosed : string := "http: Server closed".
Definition ListenAndServe (ev : serveEvent) : M T (option string) :=
  let serveErr := match ev with
                  | ContextDone => None
                  | ServerStopped err => if bool_decide (err = ErrServerClosed) then None else Some err
                  end in
  shutdown;;
  mret serveErr.
End Server.
