(* ===== verification/ServerProps.v ===== *)
(** * Properties of the control server

    What [Server]'s handlers and background tasks guarantee: authentication,
    sessions, the bounded log, the outcome of connecting, recovery, monitoring
    and node maintenance. The tunnel is any implementation of [TunnelLaws]. *)

From S2P Require Import Prelude GoStrings GoNet GoCodec Domain Failover Probe Classify.
From S2P Require Import Verify Config ProxyCore Subscription Storage Tunnel TunnelApi Server.

(** ** Reasoning about the monad *)

Section Monad.
Context {T : Type}.

(** [keeps f m]: running [m] does not change [f]; [preserves P m]: nor falsify [P]. *)
Definition keeps {A B} (f : World T → B) (m : M T A) : Prop := ∀ w, f (m w).2 = f w.
Definition preserves {A} (P : World T → Prop) (m : M T A) : Prop := ∀ w, P w → P (m w).2.

Lemma bind_run {A B} (m : M T A) (k : A → M T B) w : (m ≫= k) w = k (m w).1 (m w).2.
Proof. unfold mbind, M_bind. by destruct (m w). Qed.
Lemma ret_run {A} (a : A) (w : World T) : mret (M := M T) a w = (a, w).
Proof. done. Qed.

Lemma keeps_ret {A B} (f : World T → B) (a : A) : keeps f (mret a).
Proof. done. Qed.
Lemma keeps_bind {A B C} (f : World T → C) (m : M T A) (k : A → M T B) :
  keeps f m → (∀ a, keeps f (k a)) → keeps f (m ≫= k).
Proof. intros Hm Hk w. rewrite bind_run, Hk. apply Hm. Qed.
Lemma preserves_ret {A} P (a : A) : preserves P (mret a).
Proof. by intros w. Qed.
Lemma preserves_bind {A B} P (m : M T A) (k : A → M T B) :
  preserves P m → (∀ a, preserves P (k a)) → preserves P (m ≫= k).
Proof. intros Hm Hk w HP. rewrite bind_run. by apply Hk, Hm. Qed.
Lemma keeps_preserves {A B} (f : World T → B) (m : M T A) (Q : B → Prop) :
  keeps f m → preserves (λ w, Q (f w)) m.
Proof. intros Hk w. by rewrite Hk. Qed.
End Monad.

(** Walk through a program: its binds, its branches, its primitive steps. *)
Create HintDb frame discriminated.
Ltac frame_step :=
  lazymatch goal with
  | |- keeps _ (mret _) => apply keeps_ret
  | |- keeps _ (_ ≫= _) => apply keeps_bind; [|intros ?]
  | |- keeps _ (if ?b then _ else _) => destruct b
  | |- keeps _ (match ?x with _ => _ end) => destruct x
  | |- keeps _ (let '(_, _) := ?x in _) => destruct x
  | |- keeps _ _ => first [solve [auto 1 with frame] | solve [intros ?; reflexivity]]
  end.
Ltac frame := repeat frame_step.

Section Frames.
Context {T : Type} {API : TunnelAPI T} {U : UnicodeTables} (env : Environment) (cfg : Config).

Lemma addLog_nodes level message : keeps nodes (addLog (T := T) env level message).
Proof. intros w. reflexivity. Qed.
Lemma addLog_snapshot level message : keeps snapshot (addLog (T := T) env level message).
Proof. intros w. reflexivity. Qed.
Lemma addLog_sessions level message : keeps sessions (addLog (T := T) env level message).
Proof. intros w. reflexivity. Qed.
Lemma addLog_tunnel level message : keeps tunnel (addLog (T := T) env level message).
Proof. intros w. reflexivity. Qed.
#[local] Hint Resolve addLog_nodes addLog_snapshot addLog_sessions addLog_tunnel : frame.

Lemma saveLocked_nodes : keeps nodes (saveLocked (T := T) env).
Proof. unfold saveLocked. frame. Qed.
Lemma saveLocked_snapshot : keeps snapshot (saveLocked (T := T) env).
Proof. unfold saveLocked. frame. Qed.
Lemma saveLocked_sessions : keeps sessions (saveLocked (T := T) env).
Proof. unfold saveLocked. frame. Qed.
Lemma saveLocked_tunnel : keeps tunnel (saveLocked (T := T) env).
Proof. unfold saveLocked. frame. Qed.
End Frames.
#[export] Hint Resolve addLog_nodes addLog_snapshot addLog_sessions addLog_tunnel
  saveLocked_nodes saveLocked_snapshot saveLocked_sessions saveLocked_tunnel : frame.

(** ** The bounded log *)

Ltac pframe_step :=
  lazymatch goal with
  | |- preserves _ (mret _) => apply preserves_ret
  | |- preserves _ (_ ≫= _) => apply preserves_bind; [|intros ?]
  | |- preserves _ (if ?b then _ else _) => destruct b
  | |- preserves _ (match ?x with _ => _ end) => destruct x
  | |- preserves _ (let '(_, _) := ?x in _) => destruct x
  | |- preserves _ _ => first [solve [auto 1 with pframe] | solve [intros ? Hx; exact Hx]]
  end.
Ltac pframe := repeat pframe_step.
Create HintDb pframe discriminated.

(** What happens to the server: a request, a round of the monitor, or a task
    of the automation. *)
Inductive serverEvent :=
  | EvRequest (r : Request)
  | EvSubscription (r : Request)
  | EvMonitor (t : ticker) (failures : Z)
  | EvAutoConnect
  | EvAutoStart
  | EvShutdown.

Section Logs.
Context {T : Type} {API : TunnelAPI T} {U : UnicodeTables} (env : Environment) (cfg : Config).

Definition serverStep (e : serverEvent) (w : World T) : World T :=
  match e with
  | EvRequest r => (Handler env cfg r w).2
  | EvSubscription r => (subscriptionHandler env cfg r w).2
  | EvMonitor t n => (monitorRound env cfg t n w).2
  | EvAutoConnect => (autoConnectExit env cfg w).2
  | EvAutoStart => (autoStartVMESS env w).2
  | EvShutdown => (shutdown env w).2
  end.
Definition serverRun (es : list serverEvent) (w : World T) : World T := foldl (flip serverStep) w es.

Definition logBound (w : World T) : Prop := (length (logs w) ≤ 300)%nat.

Lemma length_appendLog at_ level message l :
  (length l ≤ 300)%nat → (length (appendLog at_ level message l) ≤ 300)%nat.
Proof.
  intros Hl. unfold appendLog. case_goal; [rewrite length_drop; lia|]. by apply Nat.ltb_ge.
Qed.

Lemma addLog_logs level message : preserves logBound (addLog env level message).
Proof. intros w Hw. unfold addLog, logBound. by apply length_appendLog. Qed.
#[local] Hint Resolve addLog_logs : pframe.
Lemma saveLocked_logs : preserves logBound (saveLocked env).
Proof. unfold saveLocked. pframe. Qed.
#[local] Hint Resolve saveLocked_logs : pframe.
Lemma checkEnvironment_logs : preserves logBound (checkEnvironment env).
Proof. unfold checkEnvironment. pframe. Qed.
#[local] Hint Resolve checkEnvironment_logs : pframe.
Lemma cooldownNode_logs id message : preserves logBound (cooldownNode env cfg id message).
Proof. unfold cooldownNode. pframe. Qed.
#[local] Hint Resolve cooldownNode_logs : pframe.
Lemma connectCandidate_logs node : preserves logBound (connectCandidate env cfg node).
Proof. unfold connectCandidate, tunnelConnect, verifyCandidate, verifyNodeExit, tunnelDisconnect. pframe. Qed.
#[local] Hint Resolve connectCandidate_logs : pframe.

Lemma tryCandidates_logs announce onFailure attempt candidates lastErr :
  (∀ i n e, preserves logBound (onFailure i n e)) →
  preserves logBound (tryCandidates env cfg announce onFailure attempt candidates lastErr).
Proof.
  intros Hf. revert attempt lastErr. induction candidates as [|n l IH]; intros; cbn [tryCandidates]; pframe; first [apply Hf | apply IH].
Qed.

Lemma activeNode_logs : preserves logBound (activeNode (T := T)).
Proof. unfold activeNode. pframe. Qed.
#[local] Hint Resolve activeNode_logs : pframe.
Lemma exitNeedsRecovery_logs : preserves logBound (exitNeedsRecovery env).
Proof. unfold exitNeedsRecovery. pframe. Qed.
#[local] Hint Resolve exitNeedsRecovery_logs : pframe.
Lemma recoverExit_logs reason : preserves logBound (recoverExit env cfg reason).
Proof. unfold recoverExit, recoverReason, switchExit. pframe. apply tryCandidates_logs. intros. pframe. Qed.
#[local] Hint Resolve recoverExit_logs : pframe.
Lemma checkExitHealth_logs : preserves logBound (checkExitHealth env cfg).
Proof. unfold checkExitHealth, verifyNodeExit, checkExitReachability, recordVerification. pframe. Qed.
#[local] Hint Resolve checkExitHealth_logs : pframe.
Lemma monitorRound_logs t n : preserves logBound (monitorRound env cfg t n).
Proof. unfold monitorRound, exitIsRunning, tunnelDisconnect. pframe. Qed.
Lemma probe_classify_logs ns :
  preserves logBound (classifyNodesWith env ns) ∧ preserves logBound (probeNodesWith env cfg ns).
Proof. unfold classifyNodesWith, probeNodesWith. split; pframe. Qed.
Lemma autoConnectExit_logs : preserves logBound (autoConnectExit env cfg).
Proof.
  unfold autoConnectExit. pframe; try apply probe_classify_logs.
  apply tryCandidates_logs. intros. pframe.
Qed.
Lemma connectExit_logs r : preserves logBound (connectExit env cfg r).
Proof. unfold connectExit. pframe. apply tryCandidates_logs. intros. pframe. Qed.

Lemma private_logs e r : e ∈ privateRoutes (T := T) env cfg → preserves logBound (e.2 r).
Proof.
  unfold privateRoutes. rewrite !elem_of_cons, elem_of_nil. intros H. destruct_or? H; try done; subst; cbn [snd].
  all: try apply connectExit_logs.
  all: unfold logout, me, status, listNodes, refreshNodes, classifyNodes, probeNodes, environment, verifyExit,
    proxyStatus, proxyStart, proxyStop, disconnect, listLogs, subscriptionPreview, persist, tunnelDisconnect,
    verifyNodeExit, applyVerifyResult; pframe.
  all: apply probe_classify_logs.
Qed.

Lemma subscription_logs e r : e ∈ subscriptionRoutes (T := T) env cfg → preserves logBound (e.2 r).
Proof.
  unfold subscriptionRoutes. rewrite !elem_of_cons, elem_of_nil. intros H. destruct_or? H; try done; subst; cbn [snd];
    unfold vmessSubscription, quantumultXSubscription, clashSubscription, serveSubscription; pframe.
Qed.

Lemma route_logs routes fallback r :
  (∀ e, e ∈ routes → preserves logBound (e.2 r)) → preserves logBound (fallback r) →
  preserves logBound (route (T := T) routes fallback r).
Proof.
  intros Hr Hf. unfold route. destruct (list_find _ routes) as [[i [p h]]|] eqn:E; [|done].
  apply list_find_Some in E as [E _]. apply (Hr (p, h)). by eapply list_elem_of_lookup_2.
Qed.

Lemma Handler_logs r : preserves logBound (Handler env cfg r).
Proof.
  unfold Handler, securityHeaders. pframe. apply route_logs; [|unfold index; pframe].
  intros e [He|[He|He]%elem_of_app]%elem_of_app.
  - apply list_elem_of_singleton in He as ->. cbn [snd]. unfold login. pframe.
  - apply list_elem_of_fmap in He as (e' & -> & He). cbn [snd]. unfold requireAuth, sessionValid. pframe.
    by apply private_logs.
  - by apply subscription_logs.
Qed.

Lemma serverStep_logs e w : logBound w → logBound (serverStep e w).
Proof.
  intros Hw. destruct e as [r|r|t n| | |]; simpl.
  - by apply Handler_logs.
  - revert w Hw. change (preserves logBound (subscriptionHandler (T := T) env cfg r)).
    unfold subscriptionHandler, securityHeaders. pframe. apply route_logs; [|pframe]. intros e He. by apply subscription_logs.
  - by apply monitorRound_logs.
  - by apply autoConnectExit_logs.
  - revert w Hw. change (preserves logBound (autoStartVMESS (T := T) env)). unfold autoStartVMESS. pframe.
  - revert w Hw. change (preserves logBound (shutdown (T := T) env)). unfold shutdown, tunnelDisconnect. pframe.
Qed.

(** The log never holds more than 300 entries, whatever requests, monitor
    rounds and background tasks the server has served since it started. *)
Theorem log_bounded t dataDir restored es :
  (length (logs (serverRun es (newWorld env cfg t dataDir restored))) ≤ 300)%nat.
Proof.
  assert (logBound (newWorld env cfg t dataDir restored)) as H0.
  { unfold newWorld. match goal with |- logBound (snd (?m ?w)) => assert (preserves logBound m) as Hm end.
    { pframe. }
    apply Hm. unfold logBound. simpl. lia. }
  revert H0. generalize (newWorld env cfg t dataDir restored). unfold serverRun.
  induction es as [|e es IH]; intros w Hw; simpl; [done|]. by apply IH, serverStep_logs.
Qed.
End Logs.

(** ** Authentication *)

Section Auth.
Context {T : Type} {API : TunnelAPI T} {U : UnicodeTables} (env : Environment) (cfg : Config).

(** The world after one more call to the outside. *)
Definition ticked (w : World T) : World T :=
  mkWorld (nodes w) (snapshot w) (sessions w) (logs w) (tunnel w) (proxy w) (saved w) (S (tick w)).

(** The request carries the cookie of a session that has not expired. *)
Definition authorised (r : Request) (w : World T) : bool :=
  match reqCookie r with
  | Some value => match sessions w !! value with
                  | Some expires => timeBefore (envNow env (tick w)) expires
                  | None => false
                  end
  | None => false
  end.

Definition secured (rsp : Response) : Response :=
  mkResponse_ (rspCode rsp) (securityHeaderList ++ rspHeaders rsp) (rspCookie rsp) (rspBody rsp).

Lemma requireAuth_run next r w :
  requireAuth env next r w =
  if authorised r w then next r (ticked w)
  else (writeError 401 "login required", match reqCookie r with Some _ => ticked w | None => w end).
Proof.
  unfold requireAuth, authorised. destruct (reqCookie r) as [value|]; [|done].
  rewrite bind_run. unfold sessionValid. simpl. by destruct (sessions w !! value) as [e|]; [destruct (timeBefore _ e)|].
Qed.

Lemma list_find_unique (routes : list (string * (Request → M T Response))) p h :
  NoDup (routes.*1) → (p, h) ∈ routes → ∃ i, list_find (λ e, e.1 = p) routes = Some (i, (p, h)).
Proof.
  intros Hnd Hin. apply list_elem_of_lookup in Hin as [i Hi]. exists i. apply list_find_Some.
  split_and!; [done|done|]. intros j [q g] Hj Hlt Hq. simpl in Hq. subst q.
  assert (i = j); [|lia]. eapply NoDup_lookup; [exact Hnd| |].
  - rewrite list_lookup_fmap, Hi. done.
  - rewrite list_lookup_fmap, Hj. done.
Qed.

Definition allRoutes : list (string * (Request → M T Response)) :=
  [("/api/login", login env cfg)] ++ ((λ e, (e.1, requireAuth env e.2)) <$> privateRoutes env cfg) ++
  subscriptionRoutes env cfg.

Lemma routes_nodup : NoDup (allRoutes.*1).
Proof. unfold allRoutes, privateRoutes, subscriptionRoutes. simpl. decided. Qed.

Lemma Handler_route r w p h : (p, h) ∈ allRoutes → reqPath r = p →
  Handler env cfg r w = (secured (h r w).1, (h r w).2).
Proof.
  intros Hin Hp. destruct (list_find_unique _ _ _ routes_nodup Hin) as [i Hi].
  unfold Handler, securityHeaders. rewrite bind_run. fold allRoutes. unfold route. rewrite Hp, Hi. done.
Qed.

Lemma private_route p h : (p, h) ∈ privateRoutes env cfg → (p, requireAuth env h) ∈ allRoutes.
Proof.
  intros Hin. unfold allRoutes. apply elem_of_app. right. apply elem_of_app. left.
  apply list_elem_of_fmap. by exists (p, h).
Qed.

(** C19. Every private route is guarded: without the cookie of a live session
    the answer is 401 and the server's state is untouched; with one, it is the
    answer of the handler. *)
Theorem private_routes_guarded p h r w :
  (p, h) ∈ privateRoutes env cfg → reqPath r = p →
  if authorised r w
  then Handler env cfg r w = (secured (h r (ticked w)).1, (h r (ticked w)).2)
  else ∃ w', Handler env cfg r w = (secured (writeError 401 "login required"), w') ∧ (w' = w ∨ w' = ticked w).
Proof.
  intros Hin Hp. pose proof (Handler_route r w p _ (private_route p h Hin) Hp) as E.
  rewrite requireAuth_run in E. destruct (authorised r w); [done|].
  eexists. split; [exact E|]. simpl. destruct (reqCookie r); auto.
Qed.

(** *** Sessions *)

Definition loginRequest (username password : string) : Request :=
  mkRequest "POST" "/api/login" None (Some (username, password)) "" "" false.

(** The three calls to the outside a successful login makes before it logs. *)
Lemma login_run r (w : World T) username password :
  isPost r = true → reqLogin r = Some (username, password) →
  let '(rsp, w') := login env cfg r w in
  sessions w' =
    match bool_decide (username = authUsername (cfgAuth cfg)) && bool_decide (password = authPassword (cfgAuth cfg)),
          randomToken env (tick w) 32 with
    | true, Ok id => <[id := timeAdd (envNow env (S (tick w))) (24 * Hour)%Z]> (sessions w)
    | _, _ => sessions w
    end ∧
  nodes w' = nodes w ∧ snapshot w' = snapshot w ∧ tunnel w' = tunnel w ∧
  rspCode rsp =
    match bool_decide (username = authUsername (cfgAuth cfg)) && bool_decide (password = authPassword (cfgAuth cfg)),
          randomToken env (tick w) 32 with
    | true, Ok id => 200%Z | true, Err _ => 500%Z | false, _ => 401%Z
    end ∧
  (rspCode rsp = 200%Z → ∃ id, randomToken env (tick w) 32 = Ok id ∧ cookieValue <$> rspCookie rsp = Some id).
Proof.
  intros Hp Hl. unfold login. rewrite Hp, Hl. simpl.
  destruct (bool_decide (username = authUsername (cfgAuth cfg))) eqn:Eu; simpl; [|by split_and!].
  destruct (bool_decide (password = authPassword (cfgAuth cfg))) eqn:Epw; simpl; [|by split_and!].
  rewrite bind_run. simpl. destruct (randomToken env (tick w) 32) as [id|e]; simpl; [|by split_and!].
  split_and!; try done. eauto.
Qed.

(** C20. A login succeeds exactly with the configured user name and password.
    A failed one changes no session; a successful one adds the session of a
    fresh 256-bit token, which authorises requests for 24 hours and not longer. *)
Theorem login_sessions username password (w : World T) :
  let '(rsp, w') := login env cfg (loginRequest username password) w in
  if bool_decide (username = authUsername (cfgAuth cfg)) && bool_decide (password = authPassword (cfgAuth cfg))
  then match randomToken env (tick w) 32 with
       | Ok id => rspCode rsp = 200%Z ∧ cookieValue <$> rspCookie rsp = Some id ∧
           ∀ r w2, reqCookie r = Some id → sessions w2 = sessions w' →
             authorised r w2 = timeBefore (envNow env (tick w2)) (envNow env (S (tick w)) + 24 * Hour)
       | Err _ => rspCode rsp = 500%Z ∧ sessions w' = sessions w
       end
  else rspCode rsp = 401%Z ∧ sessions w' = sessions w.
Proof.
  pose proof (login_run (loginRequest username password) w username password eq_refl eq_refl) as H.
  destruct (login env cfg _ w) as [rsp w']. destruct H as (Hs & _ & _ & _ & Hc & Hok).
  destruct (bool_decide _ && bool_decide _); [|done].
  destruct (randomToken env (tick w) 32) as [id|]; [|done].
  destruct (Hok Hc) as (id' & [= <-] & Hv). split_and!; try done.
  intros r w2 Hr Hs2. unfold authorised. rewrite Hr, Hs2, Hs, lookup_insert_eq. done.
Qed.

(** After a logout the session is gone: the same cookie is refused on
    every private route from then on, until a login hands out its token again. *)
Theorem logout_ends_session value (w : World T) r :
  reqCookie r = Some value → isPost r = true →
  let '(rsp, w') := logout r w in
  rspCode rsp = 200%Z ∧ sessions w' = delete value (sessions w) ∧
  ∀ r' w2, reqCookie r' = Some value → sessions w2 = sessions w' → authorised r' w2 = false.
Proof.
  intros Hc Hp. unfold logout. rewrite Hp, Hc. simpl. split_and!; try done.
  intros r' w2 Hr' Hs. unfold authorised. by rewrite Hr', Hs, lookup_delete_eq.
Qed.

(** With a valid configuration the subscription routes answer nothing but
    401, and change nothing, unless the request names the configured token; a
    request without a token is always refused. *)
Theorem subscription_needs_token p (h : Request → M T Response) r (w : World T) :
  validConfig cfg → (p, h) ∈ subscriptionRoutes env cfg → reqPath r = p →
  reqToken r ≠ subToken (cfgSubscription cfg) ∨ reqToken r = "" →
  Handler env cfg r w = (secured (writeError 401 "invalid subscription token"), w).
Proof.
  intros Hv Hin Hp Ht.
  assert (validSubscriptionToken cfg r = false) as Hbad.
  { unfold validSubscriptionToken. destruct (subEnabled (cfgSubscription cfg)) eqn:Es; [|done].
    destruct (valid_subscription _ Hv Es) as (_ & Htok & _). simpl. apply bool_decide_false.
    destruct Ht as [?|Ht]; [done|]. rewrite Ht. congruence. }
  assert ((p, h) ∈ allRoutes) as Hall by (unfold allRoutes; rewrite !elem_of_app; auto).
  rewrite (Handler_route r w p h Hall Hp). unfold subscriptionRoutes in Hin.
  rewrite !elem_of_cons, elem_of_nil in Hin. destruct_or? Hin; try done; injection Hin as -> ->;
    unfold vmessSubscription, quantumultXSubscription, clashSubscription, serveSubscription; by rewrite Hbad.
Qed.
End Auth.

(** ** Connecting *)

Section Connecting.
Context {T : Type} {API : TunnelAPI T} {idle : T → Prop} {L : TunnelLaws T idle} {U : UnicodeTables}.
Context (env : Environment) (cfg : Config).

Definition running (w : World T) : bool := Running (tunReport (tunnel w)).
(** The verification of [node] passed, with this exit address. *)
Definition verified (node : VpnNode) (exitIP : string) : Prop :=
  ∃ k result, Verify (envVerifyGet env k) (verAPIURL (cfgVerify cfg)) node = Ok result ∧
    resPassed result = true ∧ resExitIP result = exitIP.

(** The snapshot says what is true of the tunnel: connected to [node], and, if
    verification is on, verified. *)
Record connectedTo (node : VpnNode) (snap : ConnectionSnapshot) (w : World T) : Prop := {
  ct_running : running w = true;
  ct_snapshot : snapshot w = snap;
  ct_state : State snap = StateConnected;
  ct_active : ActiveNodeID snap = ID node;
  ct_verified : verEnabled (cfgVerify cfg) = true → verified node (ExitIP snap) ∧ LastVerifiedAt snap ≠ None
}.

Lemma verifyCandidate_run node at_ w :
  let '(r, w') := verifyCandidate env cfg node at_ w in
  nodes w' = nodes w ∧ sessions w' = sessions w ∧
  match r with
  | Ok (result, verifiedAt, _) => tunnel w' = tunnel w ∧
      (verEnabled (cfgVerify cfg) = true → verified node (resExitIP result) ∧ verifiedAt ≠ None)
  | Err _ => tunnel w' = tunDisconnect (tunnel w)
  end.
Proof.
  unfold verifyCandidate. destruct (verEnabled (cfgVerify cfg)); [|by split_and!].
  rewrite bind_run. simpl. rewrite bind_run. unfold verifyNodeExit. simpl.
  destruct (Verify _ _ node) as [result|e] eqn:Ev; [|by split_and!].
  destruct (resPassed result) eqn:Ep; simpl; [|by split_and!].
  split_and!; try done. intros _. split; [|done]. by eexists _, _.
Qed.

(** The world with another tunnel, after one more call. *)
Definition withTunnel (t : T) (w : World T) : World T :=
  mkWorld (nodes w) (snapshot w) (sessions w) (logs w) t (proxy w) (saved w) (S (tick w)).

Lemma tunnelConnect_run node (w : World T) :
  tunnelConnect env node w =
  let r := tunConnect node (envHandshake env (tick w) node) (tunnel w) in (r.1, withTunnel r.2 w).
Proof.
  unfold tunnelConnect. rewrite !bind_run. simpl. by destruct (tunConnect node _ (tunnel w)).
Qed.

(** What is left of [connectCandidate] after the verification. *)
Lemma connected_run node connectedAt result verifiedAt message w :
  idle (tunnel w) → running w = true →
  (verEnabled (cfgVerify cfg) = true → verified node (resExitIP result) ∧ verifiedAt ≠ None) →
  let snap := mkSnapshot StateConnected message (ID node) (resExitIP result) (Some connectedAt) verifiedAt 0
    (Some (verifyMetadata result {[ "node_ip" := NodeIP node ]})) in
  let '(r, w') := (setSnapshot snap;; addLog env "info" ("OpenVPN 已连接节点 " +:+ ID node);;
                   saveLocked env;; mret (M := M T) (Ok snap)) w in
  idle (tunnel w') ∧ nodes w' = nodes w ∧ sessions w' = sessions w ∧
  match r with Ok snap => connectedTo node snap w' | Err _ => running w' = false end.
Proof.
  intros Hi Hr Hv snap. rewrite !bind_run.
  match goal with |- context [saveLocked env ?w3] => set (w4 := w3) end.
  assert (nodes w4 = nodes w ∧ sessions w4 = sessions w ∧ tunnel w4 = tunnel w ∧ snapshot w4 = snap)
    as (Hn4 & Hs4 & Ht4 & Hsn4) by done.
  cbn [mret M_ret]. rewrite (saveLocked_nodes env w4), (saveLocked_sessions env w4), (saveLocked_tunnel env w4), Ht4.
  split_and!; try done. constructor; try done.
  - unfold running. by rewrite (saveLocked_tunnel env w4), Ht4.
  - by rewrite (saveLocked_snapshot env w4).
Qed.

Lemma connectCandidate_run node w :
  idle (tunnel w) → running w = false →
  let '(r, w') := connectCandidate env cfg node w in
  idle (tunnel w') ∧ nodes w' = nodes w ∧ sessions w' = sessions w ∧
  match r with Ok snap => connectedTo node snap w' | Err _ => running w' = false end.
Proof.
  intros Hi Hr. unfold connectCandidate. rewrite bind_run, tunnelConnect_run. cbv zeta. cbn [fst snd].
  pose proof (law_connect_idle node (envHandshake env (tick w) node) (tunnel w) Hi) as Hi'.
  destruct (envHandshake env (tick w) node) as [ses|e] eqn:Eh.
  - destruct (law_connect_ok node ses (tunnel w) Hi Hr) as (-> & Hrun & _).
    set (w1 := withTunnel _ w). rewrite !bind_run. set (at_ := (now env w1).1). set (w2 := (now env w1).2).
    pose proof (verifyCandidate_run node at_ w2) as Hv.
    destruct (verifyCandidate env cfg node at_ w2) as [v w3]. cbn [fst snd].
    destruct Hv as (Hn & Hs & Hv). destruct v as [[[result verifiedAt] msg]|e'].
    + destruct Hv as [Ht Hver].
      assert (nodes w = nodes w3) as -> by by rewrite Hn. assert (sessions w = sessions w3) as -> by by rewrite Hs.
      apply (connected_run node at_ result verifiedAt msg w3); [by rewrite Ht|unfold running; by rewrite Ht|done].
    + cbn [mret M_ret]. rewrite Hv. split_and!; [by apply law_disconnect_idle|done|done|].
      unfold running. rewrite Hv. by apply law_disconnect.
  - destruct (law_connect_err node e (tunnel w) Hi Hr) as [-> Hrun]. by split_and!.
Qed.

(** *** Failed candidates *)

Definition cooled (ns : list VpnNode) (id : string) : Prop :=
  ∃ m, m ∈ ns ∧ ID m = id ∧ Domain.Status m = NodeCooldown.

Lemma Status_failNode message cooldown at_ n : Domain.Status (failNode message cooldown at_ n) = NodeCooldown.
Proof. unfold failNode. by case_goal. Qed.

Lemma markNodeFailure_ids ns id message cooldown at_ :
  ID <$> markNodeFailure ns id message cooldown at_ = ID <$> ns.
Proof.
  induction ns as [|n ns IH]; [done|]. cbn [markNodeFailure].
  case_goal; rewrite !fmap_cons, ?IH, ?ID_failNode; done.
Qed.

Lemma markNodeFailure_cools ns id message cooldown at_ :
  id ∈ ID <$> ns → cooled (markNodeFailure ns id message cooldown at_) id.
Proof.
  induction ns as [|n ns IH]; [by intros ?%elem_of_nil|]. rewrite fmap_cons. cbn [markNodeFailure].
  intros Hin. case_goal.
  - apply elem_of_cons in Hin as [Hi|Hin]; [bools; congruence|].
    destruct (IH Hin) as (m & ? & ? & ?). exists m. split_and!; [by right|done..].
  - bools. exists (failNode message cooldown at_ n). split_and!; [by left|by rewrite ID_failNode|apply Status_failNode].
Qed.

Lemma markNodeFailure_stays_cooled ns id id' message cooldown at_ :
  cooled ns id' → cooled (markNodeFailure ns id message cooldown at_) id'.
Proof.
  induction ns as [|n ns IH]; intros (m & Hm & Hid & Hst); [by apply elem_of_nil in Hm|].
  simpl. apply elem_of_cons in Hm as [->|Hm]; case_goal.
  - exists n. split_and!; [by left|done..].
  - exists (failNode message cooldown at_ n).
    split_and!; [by left|by rewrite ID_failNode|apply Status_failNode].
  - destruct IH as (m' & ? & ? & ?); [by exists m|]. exists m'. split_and!; [by right|done..].
  - exists m. split_and!; [by right|done..].
Qed.

Lemma cooldownNode_run id message (w : World T) :
  let w' := (cooldownNode env cfg id message w).2 in
  tunnel w' = tunnel w ∧ sessions w' = sessions w ∧ snapshot w' = snapshot w ∧
  ID <$> nodes w' = ID <$> nodes w ∧ (id ∈ ID <$> nodes w → cooled (nodes w') id) ∧
  ∀ id', cooled (nodes w) id' → cooled (nodes w') id'.
Proof.
  unfold cooldownNode. rewrite !bind_run.
  match goal with |- context [saveLocked env ?w3] => set (w4 := w3) end. cbv zeta.
  rewrite (saveLocked_nodes env w4), (saveLocked_sessions env w4), (saveLocked_tunnel env w4), (saveLocked_snapshot env w4).
  set (cooldown := (foCooldownSeconds (cfgFailover cfg) *i Second)%go) in *.
  assert (nodes w4 = markNodeFailure (nodes w) id message cooldown (envNow env (tick w))) as -> by done.
  split_and!; try done; [apply markNodeFailure_ids|apply markNodeFailure_cools|].
  intros id'. apply markNodeFailure_stays_cooled.
Qed.

Lemma tryCandidates_run announce onFailure attempt candidates lastErr w :
  (∀ i n e, keeps nodes (onFailure i n e) ∧ keeps tunnel (onFailure i n e) ∧ keeps sessions (onFailure i n e)) →
  idle (tunnel w) → running w = false → (∀ n, n ∈ candidates → ID n ∈ ID <$> nodes w) →
  let '(o, w') := tryCandidates env cfg announce onFailure attempt candidates lastErr w in
  idle (tunnel w') ∧ sessions w' = sessions w ∧ ID <$> nodes w' = ID <$> nodes w ∧
  (∀ id, cooled (nodes w) id → cooled (nodes w') id) ∧
  match o with
  | inl snap => ∃ failed node rest, candidates = failed ++ node :: rest ∧ connectedTo node snap w' ∧
      ∀ n, n ∈ failed → cooled (nodes w') (ID n)
  | inr _ => running w' = false ∧ ∀ n, n ∈ candidates → cooled (nodes w') (ID n)
  end.
Proof.
  intros Hf. revert attempt lastErr w. induction candidates as [|n l IH]; intros attempt lastErr w Hi Hr Hin.
  { cbn. split_and!; try done. intros n Hn. by apply elem_of_nil in Hn. }
  cbn [tryCandidates]. rewrite !bind_run. set (w1 := (setSnapshot (announce attempt n) w).2).
  pose proof (connectCandidate_run n w1 Hi Hr) as Hc.
  destruct (connectCandidate env cfg n w1) as [r w2]. cbn [fst snd]. destruct Hc as (Hi2 & Hn2 & Hs2 & Hc).
  destruct r as [snap|e].
  { cbn. rewrite Hn2, Hs2. split_and!; try done. exists [], n, l. split_and!; try done.
    intros m Hm. by apply elem_of_nil in Hm. }
  rewrite !bind_run. destruct (cooldownNode_run (ID n) e w2) as (Ht3 & Hs3 & _ & Hid3 & Hc3 & Hk3).
  set (w3 := (cooldownNode env cfg (ID n) e w2).2) in *.
  destruct (Hf attempt n e) as (Fn & Ft & Fs). set (w4 := (onFailure attempt n e w3).2).
  assert (nodes w4 = nodes w3 ∧ tunnel w4 = tunnel w2 ∧ sessions w4 = sessions w) as (En & Et & Es).
  { unfold w4. rewrite Fn, Ft, Fs, Ht3, Hs3, Hs2. done. }
  assert (ID <$> nodes w4 = ID <$> nodes w) as Eid by by rewrite En, Hid3, Hn2.
  specialize (IH (S attempt) (Some e) w4). unfold running in IH. rewrite Et, Eid in IH.
  specialize (IH Hi2 Hc (λ m Hm, Hin m (list_elem_of_further _ _ _ Hm))).
  destruct (tryCandidates env cfg announce onFailure (S attempt) l (Some e) w4) as [o w'].
  destruct IH as (Hi' & Hs' & Hid' & Hk' & Ho). rewrite Es in Hs'.
  assert (cooled (nodes w') (ID n)) as Hcn.
  { apply Hk'. rewrite En. apply Hc3. rewrite Hn2. apply Hin. by left. }
  split_and!; try done.
  { intros id Hcl. apply Hk'. rewrite En. apply Hk3. by rewrite Hn2. }
  destruct o as [snap|e'].
  - destruct Ho as (failed & node & rest & -> & Hct & Hfl). exists (n :: failed), node, rest. split_and!; try done.
    intros m [->|Hm]%elem_of_cons; auto.
  - destruct Ho as [Hrun Hall]. split; [done|]. intros m [->|Hm]%elem_of_cons; auto.
Qed.

(** *** The handlers *)

Lemma checkEnvironment_run w :
  idle (tunnel w) →
  let '(report, w') := checkEnvironment env w in
  idle (tunnel w') ∧ report = tunReport (tunnel w') ∧ nodes w' = nodes w ∧ snapshot w' = snapshot w ∧
  sessions w' = sessions w ∧ (running w = false → running w' = false).
Proof.
  intros Hi. unfold checkEnvironment. rewrite !bind_run. simpl. unfold running. simpl.
  destruct (envDropped env (tick w)) as [e|]; [|by split_and!].
  destruct (Running (tunReport (tunnel w))) eqn:Er; [|by split_and!].
  split_and!; try done. by apply law_drop_idle.
Qed.

Lemma candidate_known ns id maxAttempts at_ n :
  n ∈ connectionCandidates ns id maxAttempts at_ → ID n ∈ ID <$> ns.
Proof.
  intros Hn. apply elem_of_candidates_inv in Hn as (Hin & _). apply list_elem_of_fmap. by exists n.
Qed.

Lemma maintenance_running previous report message :
  Running report = true → State (nodeMaintenanceSnapshot previous report message) = StateConnected.
Proof. intros Hr. unfold nodeMaintenanceSnapshot. rewrite Hr. simpl. by case_goal. Qed.
Lemma maintenance_idle previous report message :
  Running report = false → State (nodeMaintenanceSnapshot previous report message) = StateIdle.
Proof. intros Hr. unfold nodeMaintenanceSnapshot. by rewrite Hr. Qed.

(** The failure half of [connect]. *)
Lemma connect_failed_run snap message w :
  let '(rsp, w') := (setSnapshot snap;; addLog env "error" message;; saveLocked env;;
                     mret (M := M T) (writeError 502 message)) w in
  rsp = writeError 502 message ∧ tunnel w' = tunnel w ∧ sessions w' = sessions w ∧ nodes w' = nodes w ∧ snapshot w' = snap.
Proof.
  rewrite !bind_run. match goal with |- context [saveLocked env ?w3] => set (w4 := w3) end. cbn [mret M_ret].
  by rewrite (saveLocked_nodes env w4), (saveLocked_sessions env w4), (saveLocked_tunnel env w4), (saveLocked_snapshot env w4).
Qed.

(** The candidates of a connect request at some time. *)
Definition candidatesFor (r : Request) (ns : list VpnNode) (at_ : Time) : list VpnNode :=
  connectionCandidates ns (reqNodeID r)
    (if bool_decide (reqNodeID r = "") && foEnabled (cfgFailover cfg) then foMaxAttempts (cfgFailover cfg) else 1%Z) at_.

Definition connectOutcome (r : Request) (w : World T) (rsp : Response) (w' : World T) : Prop :=
  (rspCode rsp = 200%Z ∧ rspBody rsp = BodySnapshot (snapshot w') ∧ State (snapshot w') = StateConnected ∧
   running w' = true ∧
   (running w = false → ∃ at_ failed node rest, candidatesFor r (nodes w) at_ = failed ++ node :: rest ∧
      connectedTo node (snapshot w') w' ∧ ∀ n, n ∈ failed → cooled (nodes w') (ID n))) ∨
  (rspCode rsp = 502%Z ∧ State (snapshot w') = StateError ∧ running w' = false ∧
   ∃ at_, candidatesFor r (nodes w) at_ ≠ [] ∧ ∀ n, n ∈ candidatesFor r (nodes w) at_ → cooled (nodes w') (ID n)) ∨
  ((rspCode rsp = 404%Z ∧ (∃ at_, candidatesFor r (nodes w) at_ = []) ∨ rspCode rsp = 409%Z ∧ nodes w = []) ∧
   snapshot w' = snapshot w ∧ nodes w' = nodes w ∧ running w' = false).

Lemma connectExit_run r w :
  idle (tunnel w) → isPost r = true →
  let '(rsp, w') := connectExit env cfg r w in
  idle (tunnel w') ∧ sessions w' = sessions w ∧ ID <$> nodes w' = ID <$> nodes w ∧ connectOutcome r w rsp w'.
Proof.
  intros Hi Hp. unfold connectExit. rewrite Hp. cbn [negb]. rewrite bind_run.
  pose proof (checkEnvironment_run w Hi) as Hce. destruct (checkEnvironment env w) as [report w1]. cbn [fst snd].
  destruct Hce as (Hi1 & -> & Hn1 & Hsn1 & Hs1 & Hr1). rewrite law_ready. cbn [negb].
  destruct (Running (tunReport (tunnel w1))) eqn:Er1.
  { rewrite !bind_run. cbn. unfold running. rewrite Hs1, Hn1. split_and!; try done. left.
    split_and!; try done; [by apply maintenance_running|]. intros Hr. apply Hr1 in Hr. unfold running in Hr. congruence. }
  rewrite bind_run. cbn [get fst snd]. case_bool_decide as Hne.
  { cbn. split_and!; try done; [by rewrite Hn1|]. right; right. split_and!; auto. right. by rewrite <-Hn1. }
  rewrite bind_run. cbn [now ask fst snd]. set (w2 := mkWorld _ _ _ _ _ _ _ _).
  rewrite Hn1 in *.
  match goal with |- context [connectionCandidates ?a ?b ?c ?d] => change (connectionCandidates a b c d) with (candidatesFor r (nodes w) d); set (at_ := d) end.
  set (cands := candidatesFor r (nodes w) at_).
  case_bool_decide as Hce.
  { cbn. rewrite Hn1, Hs1. split_and!; try done. right; right. split_and!; auto. left. split; [done|]. by exists at_. }
  rewrite bind_run.
  match goal with |- context [tryCandidates env cfg ?an ?fa 0 cands None w2] =>
    assert (∀ i n e, keeps nodes (fa i n e) ∧ keeps tunnel (fa i n e) ∧ keeps sessions (fa i n e)) as Hf;
    [intros i n e; split_and!; frame|];
    pose proof (tryCandidates_run an fa 0 cands None w2 Hf Hi1 Er1) as Ht;
    destruct (tryCandidates env cfg an fa 0 cands None w2) as [o w3] end.
  assert (nodes w2 = nodes w ∧ sessions w2 = sessions w) as [En Es] by done.
  assert (∀ n, n ∈ cands → ID n ∈ ID <$> nodes w2) as Hknown by (rewrite En; apply candidate_known).
  destruct (Ht Hknown) as (Hi3 & Hs3 & Hid3 & _ & Ho). cbn [fst snd]. rewrite En in Hid3. rewrite Es in Hs3.
  destruct o as [snap|lastErr].
  - destruct Ho as (failed & node & rest & Hc & Hct & Hfl). cbn. split_and!; try done. left.
    pose proof (ct_snapshot _ _ _ Hct) as E. rewrite E. split_and!; try done; try apply Hct.
    intros _. by exists at_, failed, node, rest.
  - destruct Ho as [Hrun Hall].
    match goal with |- context [progressSnapshot StateError ?m "" ?l] =>
      pose proof (connect_failed_run (progressSnapshot StateError m "" l) m w3) as Hx end.
    match goal with |- context [match ?x with (_, _) => _ end] => destruct x as [rsp w4] end.
    destruct Hx as (-> & Ht4 & Hs4 & Hn4 & Hsn4). rewrite Ht4, Hs4, Hn4. split_and!; try done.
    right; left. unfold running. rewrite Ht4, Hn4, Hsn4. split_and!; try done. by exists at_.
Qed.

(** C1. A connect request always ends in a state that tells the truth about
    the tunnel. 200: a tunnel runs, the snapshot is the one returned and says
    connected; unless it was running before, it leads to the first candidate that
    could be connected, verified if verification is enabled, and the candidates
    before it went into cooldown. 502: every candidate failed and is in cooldown,
    no tunnel runs and the snapshot says so. 404 and 409: there was no candidate,
    no node, and nothing changed. Sessions and node identities never change. *)
Theorem connect_outcome r w :
  idle (tunnel w) → isPost r = true →
  let '(rsp, w') := connectExit env cfg r w in
  idle (tunnel w') ∧ sessions w' = sessions w ∧ ID <$> nodes w' = ID <$> nodes w ∧ connectOutcome r w rsp w'.
Proof. apply connectExit_run. Qed.

(** C2. An exit that is not verified is never left up: after an attempt to
    connect to a node a tunnel runs exactly if the attempt succeeded, and then
    the snapshot names the node and, with verification enabled, [Verify] passed
    for it. *)
Theorem candidate_up_iff_ok node w :
  idle (tunnel w) → running w = false →
  let '(r, w') := connectCandidate env cfg node w in
  running w' = isOk r ∧ nodes w' = nodes w ∧
  (verEnabled (cfgVerify cfg) = true → running w' = true → verified node (ExitIP (snapshot w'))).
Proof.
  intros Hi Hr. pose proof (connectCandidate_run node w Hi Hr) as H.
  destruct (connectCandidate env cfg node w) as [r w']. destruct H as (_ & Hn & _ & H).
  destruct r as [snap|e].
  - split_and!; [apply H|done|]. intros Hv _. rewrite (ct_snapshot _ _ _ H). by apply (ct_verified _ _ _ H).
  - rewrite H. by split_and!.
Qed.

(** Disconnecting always ends with no tunnel and the idle snapshot, and
    keeps nodes and sessions. *)
Theorem disconnect_outcome r w :
  idle (tunnel w) → isPost r = true →
  let '(rsp, w') := disconnect env r w in
  rspCode rsp = 200%Z ∧ running w' = false ∧ snapshot w' = InitialSnapshot ∧ nodes w' = nodes w ∧
  sessions w' = sessions w.
Proof.
  intros Hi Hp. unfold disconnect. rewrite Hp. cbn [negb]. rewrite !bind_run.
  match goal with |- context [addLog env "info" ?m ?w1] => set (w2 := w1) end. cbn [mret M_ret].
  unfold running. rewrite addLog_tunnel, addLog_snapshot, addLog_nodes, addLog_sessions.
  assert (keeps tunnel (persist (T := T) env) ∧ keeps snapshot (persist (T := T) env) ∧
          keeps nodes (persist (T := T) env) ∧ keeps sessions (persist (T := T) env)) as (K1 & K2 & K3 & K4).
  { unfold persist. split_and!; frame. }
  unfold w2. rewrite K1, K2, K3, K4. split_and!; try done. by apply law_disconnect.
Qed.

(** What [recoverExit] decides first. *)
Definition recoveryNeeded (w : World T) : bool :=
  bool_decide (State (snapshot w) = StateConnected) && negb (running (checkEnvironment env w).2).

Lemma exitNeedsRecovery_run w :
  idle (tunnel w) →
  let '(needed, w') := exitNeedsRecovery env w in
  needed = recoveryNeeded w ∧ idle (tunnel w') ∧ nodes w' = nodes w ∧ snapshot w' = snapshot w ∧
  sessions w' = sessions w ∧ (needed = true → running w' = false).
Proof.
  intros Hi. unfold exitNeedsRecovery, recoveryNeeded. rewrite !bind_run. cbn [get fst snd].
  pose proof (checkEnvironment_run w Hi) as H. destruct (checkEnvironment env w) as [report w1].
  destruct H as (Hi1 & -> & Hn & Hsn & Hs & _). cbn.
  rewrite (law_not_connecting (tunnel w1) Hi1). cbn [negb]. rewrite andb_true_r.
  split_and!; try done. intros [_ Hr]%andb_true_iff. by apply negb_true_iff in Hr.
Qed.

Lemma recoverReason_run reason w :
  idle (tunnel w) → running w = false →
  let w' := (recoverReason env reason w).2 in
  idle (tunnel w') ∧ running w' = false ∧ nodes w' = nodes w ∧ sessions w' = sessions w.
Proof.
  intros Hi Hr. unfold recoverReason. case_bool_decide; [|by split_and!]. rewrite bind_run.
  pose proof (checkEnvironment_run w Hi) as H'. destruct (checkEnvironment env w) as [report w1].
  destruct H' as (? & _ & ? & _ & ? & ?). cbn. split_and!; auto.
Qed.

(** A switch ends connected to a cached node, or in the error state. *)
Lemma switchExit_run w :
  idle (tunnel w) → running w = false →
  let w' := (switchExit env cfg w).2 in
  idle (tunnel w') ∧ sessions w' = sessions w ∧ ID <$> nodes w' = ID <$> nodes w ∧
  (∀ id, cooled (nodes w) id → cooled (nodes w') id) ∧
  ((∃ node snap, node ∈ nodes w ∧ connectedTo node snap w') ∨
   (running w' = false ∧ State (snapshot w') = StateError)).
Proof.
  intros Hi Hr. cbv zeta. unfold switchExit. rewrite !bind_run. cbn [get now ask fst snd].
  match goal with |- context [tryCandidates env cfg ?an ?fa 0 ?c None ?w1] => set (w2 := w1); set (cands := c) end.
  match goal with |- context [tryCandidates env cfg ?an ?fa 0 cands None w2] =>
    assert (∀ i n e, keeps nodes (fa i n e) ∧ keeps tunnel (fa i n e) ∧ keeps sessions (fa i n e)) as Hf by done;
    pose proof (tryCandidates_run an fa 0 cands None w2 Hf) as Ht;
    destruct (tryCandidates env cfg an fa 0 cands None w2) as [o w3] end.
  assert (nodes w2 = nodes w ∧ sessions w2 = sessions w ∧ tunnel w2 = tunnel w) as (En & Es & Et) by done.
  unfold running in Ht. rewrite En, Es, Et in Ht.
  assert (∀ n, n ∈ cands → n ∈ nodes w) as Hin by (intros n Hn; by apply elem_of_candidates_inv in Hn as [? _]).
  destruct Ht as (Hi3 & Hs3 & Hid3 & Hk3 & Ho); try done.
  { intros n Hn. apply list_elem_of_fmap. exists n. auto. }
  cbn [fst snd]. destruct o as [snap|e].
  - destruct Ho as (failed & node & rest & Hc & Hct & _).
    rewrite addLog_tunnel, addLog_sessions, addLog_nodes. split_and!; try done. left. exists node, snap.
    split; [apply Hin; rewrite Hc; apply elem_of_app; right; by left|]. by destruct Hct.
  - destruct Ho as [Hrun _]. rewrite bind_run. unfold running.
    rewrite addLog_tunnel, addLog_sessions, addLog_nodes, addLog_snapshot. split_and!; try done. by right.
Qed.

(** C3. Recovery: when the server believes it is connected and the tunnel is
    gone (and it is not shutting down), the node that failed goes into cooldown
    and the server ends up connected to a cached node, verified if verification
    is enabled, or in the error state with no tunnel; otherwise recovery changes
    neither nodes nor snapshot. *)
Theorem recover_outcome reason w :
  idle (tunnel w) →
  let w' := (recoverExit env cfg reason w).2 in
  idle (tunnel w') ∧ sessions w' = sessions w ∧ ID <$> nodes w' = ID <$> nodes w ∧
  if recoveryNeeded w && negb (envCancelled env (tick (exitNeedsRecovery env w).2)) then
    (ActiveNodeID (snapshot w) ≠ "" → ActiveNodeID (snapshot w) ∈ ID <$> nodes w →
     cooled (nodes w') (ActiveNodeID (snapshot w))) ∧
    ((∃ node snap, ID node ∈ ID <$> nodes w ∧ connectedTo node snap w') ∨
     (running w' = false ∧ State (snapshot w') = StateError))
  else nodes w' = nodes w ∧ snapshot w' = snapshot w.
Proof.
  intros Hi. cbv zeta. unfold recoverExit. rewrite !bind_run. pose proof (exitNeedsRecovery_run w Hi) as Hx.
  destruct (exitNeedsRecovery env w) as [needed w1]. destruct Hx as (-> & Hi1 & Hn1 & Hsn1 & Hs1 & Hr1).
  cbn [fst snd ask]. set (w2 := mkWorld _ _ _ _ _ _ _ _).
  destruct (recoveryNeeded w) eqn:En; cbn [negb orb andb]; [|cbn; by rewrite ?Hn1].
  destruct (envCancelled env (tick w1)); cbn [negb]; [cbn; by rewrite ?Hn1|].
  rewrite !bind_run. cbn [get fst snd]. assert (snapshot w2 = snapshot w) as -> by done.
  destruct (recoverReason_run reason w2 Hi1 (Hr1 eq_refl)) as (Hi3 & Hr3 & Hn3 & Hs3).
  set (why := (recoverReason env reason w2).1). set (w3 := (recoverReason env reason w2).2) in *.
  set (failedID := ActiveNodeID (snapshot w)).
  set (m := if bool_decide (failedID = "") then _ else _). set (w4 := (m w3).2).
  assert (idle (tunnel w4) ∧ running w4 = false ∧ sessions w4 = sessions w ∧ ID <$> nodes w4 = ID <$> nodes w ∧
    (failedID ≠ "" → failedID ∈ ID <$> nodes w → cooled (nodes w4) failedID)) as (Hi4 & Hr4 & Hs4 & Hid4 & Hc4).
  { assert (nodes w3 = nodes w) as E3 by by rewrite Hn3. unfold w4, m. case_bool_decide.
    - cbn. by rewrite E3, Hs3.
    - destruct (cooldownNode_run failedID why w3) as (Ht & Hs & _ & Hid & Hc & _).
      unfold running. rewrite Ht, Hs, Hid, Hs3, E3 in *. by split_and!. }
  destruct (switchExit_run w4 Hi4 Hr4) as (Hi5 & Hs5 & Hid5 & Hk5 & Ho). rewrite Hs5, Hid5, Hid4.
  split_and!; try done; [intros; by apply Hk5, Hc4|]. destruct Ho as [(node & snap & Hin & Hct)|?]; [left|by right].
  exists node, snap. split; [|done]. rewrite <-Hid4. apply list_elem_of_fmap. by exists node.
Qed.

(** *** Monitoring *)

Lemma checkExitHealth_tunnel : keeps tunnel (checkExitHealth (T := T) env cfg).
Proof.
  unfold checkExitHealth, activeNode, verifyNodeExit, checkExitReachability, recordVerification. frame.
Qed.

Lemma failureThreshold_pos : (0 < failureThreshold cfg)%Z.
Proof. unfold failureThreshold. case_goal; bools; lia. Qed.

(** The world after a health tick has looked at the tunnel. *)
Definition observed (w : World T) : World T := if verEnabled (cfgVerify cfg) then (exitIsRunning env w).2 else w.

(** The monitor takes an exit down for bad health only after the configured
    number of consecutive failed checks: the counter stays below the threshold,
    and a failed check that does not reach it leaves the tunnel as it found it. *)
Theorem monitor_tolerates t n w :
  (0 ≤ n < failureThreshold cfg)%Z →
  let '(m, w') := monitorRound env cfg t n w in
  (0 ≤ m < failureThreshold cfg)%Z ∧
  (t = HealthTick → (n + 1 < failureThreshold cfg)%Z →
   tunnel w' = tunnel (observed w)).
Proof.
  unfold observed.
  intros Hn. pose proof failureThreshold_pos as Hpos. destruct t; cbn [monitorRound].
  - rewrite bind_run. destruct (exitNeedsRecovery env w) as [[] w1]; cbn [fst snd]; [|by split].
    rewrite bind_run. cbn. split; [lia|done].
  - rewrite bind_run. set (m := if verEnabled (cfgVerify cfg) then exitIsRunning env else mret false).
    assert (tunnel (m w).2 = tunnel (if verEnabled (cfgVerify cfg) then (exitIsRunning env w).2 else w)) as Em.
    { unfold m. by destruct (verEnabled (cfgVerify cfg)). }
    rewrite <-Em. destruct (m w) as [[] w1]; cbn [fst snd negb]; [|cbn; split; [lia|done]].
    rewrite bind_run. pose proof (checkExitHealth_tunnel w1) as Eh.
    destruct (checkExitHealth env cfg w1) as [[reason []] w2]; cbn [fst snd] in *; [cbn; split; [lia|done]|].
    rewrite bind_run. pose proof (addLog_tunnel (T := T) env) as Hl.
    destruct (failureThreshold cfg <=? n + 1)%Z eqn:Ecmp; bools.
    + rewrite !bind_run. cbn. split; [lia|]. intros _ ?. lia.
    + cbn [mret M_ret]. split; [lia|]. intros _ _. by rewrite Hl, Eh.
Qed.

(** *** Node maintenance *)

(** The common end of the node handlers. *)
Lemma maintenance_run ns previous message level text (rsp : Response) w :
  idle (tunnel w) →
  let '(_, w') := (setNodes ns;; report ← checkEnvironment env;
                   setSnapshot (nodeMaintenanceSnapshot previous report message);; saveLocked env;;
                   addLog env level text;; mret (M := M T) rsp) w in
  idle (tunnel w') ∧ nodes w' = ns ∧ sessions w' = sessions w ∧
  State (snapshot w') = if running w' then StateConnected else StateIdle.
Proof.
  intros Hi. rewrite bind_run. set (w1 := (setNodes ns w).2). rewrite bind_run.
  pose proof (checkEnvironment_run w1 Hi) as H. destruct (checkEnvironment env w1) as [report w2]. cbn [fst snd].
  destruct H as (Hi2 & -> & Hn2 & _ & Hs2 & _). rewrite !bind_run.
  match goal with |- context [saveLocked env ?x] => set (w3 := x) end. cbn [mret M_ret]. unfold running.
  rewrite addLog_tunnel, addLog_nodes, addLog_sessions, addLog_snapshot.
  rewrite (saveLocked_nodes env w3), (saveLocked_sessions env w3), (saveLocked_tunnel env w3), (saveLocked_snapshot env w3).
  split_and!; try done. cbn. destruct (Running (tunReport (tunnel w2))) eqn:Er.
  - by apply maintenance_running.
  - by apply maintenance_idle.
Qed.

Lemma Classify_ids post at_ ns : ID <$> Classify post at_ ns = ID <$> ns.
Proof.
  unfold Classify. case_goal; [done|]. case_goal; rewrite <-list_fmap_compose; apply list_fmap_ext; intros i n _.
  - apply classifyNode_same.
  - apply classifyFailed_same.
Qed.

Lemma Probe_ids dial clock p ns : ID <$> Probe dial clock p ns = ID <$> ns.
Proof.
  assert (ID <$> probeAll dial clock p ns = ID <$> ns) as Ha.
  { unfold probeAll. rewrite fmap_imap. apply list_eq. intros i. rewrite list_lookup_imap, list_lookup_fmap.
    destruct (ns !! i) as [n|]; [|done]. simpl. f_equal. apply probeNode_same. }
  unfold Probe. destruct (markBatch_cases (probeAll dial clock p ns)) as [->| ->]; [done|].
  rewrite <-Ha, <-list_fmap_compose. apply list_fmap_ext. intros i n _. apply markSuspicious_same.
Qed.

(** A node handler tells the truth about the exit: the snapshot it leaves says
    connected exactly if a tunnel runs. *)
Definition truthful (w w' : World T) (rsp : Response) : Prop :=
  idle (tunnel w') ∧ sessions w' = sessions w ∧
  ((rspCode rsp = 409%Z ∧ nodes w' = nodes w ∧ snapshot w' = snapshot w) ∨
   State (snapshot w') = if running w' then StateConnected else StateIdle).

(** The common end of the node handlers, whatever its parameters. *)
Ltac maintenance_end ns w2 Hi :=
  match goal with |- context [(setNodes ns ≫= ?k) w2] =>
    lazymatch k with context [nodeMaintenanceSnapshot ?p _ ?msg] =>
    lazymatch k with context [addLog _ ?level ?text] =>
    lazymatch k with context [mret (M := M T) ?rsp] =>
      generalize (maintenance_run ns p msg level text rsp w2 Hi) end end end end;
  match goal with |- (match ?x with (_, _) => _ end) → _ => destruct x as [rsp' w3] end;
  intros (Hi3 & Hn3 & Hs3 & Hst3).

Lemma classifyNodes_run r w :
  idle (tunnel w) → isPost r = true →
  let '(rsp, w') := classifyNodes env r w in truthful w w' rsp ∧ ID <$> nodes w' = ID <$> nodes w.
Proof.
  intros Hi Hp. unfold classifyNodes. cbv zeta. rewrite Hp. cbn [negb]. rewrite !bind_run. cbn [get fst snd].
  case_bool_decide as Hne; [by split; [split_and!; auto|]|].
  rewrite bind_run. set (w1 := (setSnapshot _ w).2). rewrite bind_run.
  set (ns := (classifyNodesWith env (nodes w) w1).1). set (w2 := (classifyNodesWith env (nodes w) w1).2).
  maintenance_end ns w2 Hi. rewrite Hn3. split; [|apply Classify_ids]. split_and!; try done. by right.
Qed.

Lemma probeNodes_run r w :
  idle (tunnel w) → isPost r = true →
  let '(rsp, w') := probeNodes env cfg r w in truthful w w' rsp ∧ ID <$> nodes w' = ID <$> nodes w.
Proof.
  intros Hi Hp. unfold probeNodes. cbv zeta. rewrite Hp. cbn [negb]. rewrite !bind_run. cbn [get fst snd].
  case_bool_decide as Hne; [by split; [split_and!; auto|]|].
  rewrite bind_run. set (w1 := (setSnapshot _ w).2). rewrite bind_run.
  set (ns := (probeNodesWith env cfg (nodes w) w1).1). set (w2 := (probeNodesWith env cfg (nodes w) w1).2).
  maintenance_end ns w2 Hi. rewrite Hn3. split; [|apply Probe_ids]. split_and!; try done. by right.
Qed.

Lemma refreshNodes_run r w :
  idle (tunnel w) → isPost r = true → let '(rsp, w') := refreshNodes env r w in truthful w w' rsp.
Proof.
  intros Hi Hp. unfold refreshNodes. cbv zeta. rewrite Hp. cbn [negb]. rewrite !bind_run. cbn [get fst snd].
  set (w1 := (setSnapshot _ w).2). destruct (ask (envFetch env) w1) as [[ns|e] w2] eqn:Ea; cbn [fst snd];
    (assert (tunnel w2 = tunnel w ∧ sessions w2 = sessions w) as [Et Es] by by injection Ea as _ <-);
    rewrite <-Et in Hi.
  - rewrite bind_run. set (kept := preserveNodeCooldowns _ _ _). set (w4 := (now env w2).2).
    maintenance_end kept w4 Hi. split_and!; try done; [by rewrite Hs3|by right].
  - rewrite bind_run. pose proof (checkEnvironment_run w2 Hi) as H. destruct (checkEnvironment env w2) as [report w3].
    destruct H as (Hi3 & -> & _ & _ & Hs3 & _). cbn [fst snd]. rewrite !bind_run. cbn [mret M_ret].
    unfold truthful, running. rewrite addLog_tunnel, addLog_sessions, addLog_snapshot. cbn [setSnapshot fst snd tunnel sessions snapshot].
    split_and!; [done|by rewrite Hs3|]. right. destruct (Running (tunReport (tunnel w3))) eqn:Er.
    + by apply maintenance_running.
    + by apply maintenance_idle.
Qed.

(** Refreshing, classifying and probing nodes never lies about the exit:
    afterwards the snapshot says connected exactly if a tunnel runs (a 409
    changes nothing), sessions are kept, and classifying and probing keep the
    identities of the nodes. *)
Theorem node_maintenance_truthful r w :
  idle (tunnel w) → isPost r = true →
  (let '(rsp, w') := refreshNodes env r w in truthful w w' rsp) ∧
  (let '(rsp, w') := classifyNodes env r w in truthful w w' rsp ∧ ID <$> nodes w' = ID <$> nodes w) ∧
  (let '(rsp, w') := probeNodes env cfg r w in truthful w w' rsp ∧ ID <$> nodes w' = ID <$> nodes w).
Proof. intros Hi Hp. split_and!; [by apply refreshNodes_run|by apply classifyNodes_run|by apply probeNodes_run]. Qed.

(** Shutting down leaves no proxy core and no tunnel behind. *)
Theorem shutdown_stops ev w :
  idle (tunnel w) →
  let '(err, w') := ListenAndServe env ev w in
  running w' = false ∧ idle (tunnel w') ∧ mgrInstance (proxy w') = None ∧
  (is_Some err ↔ ∃ e, ev = ServerStopped e ∧ e ≠ ErrServerClosed).
Proof.
  intros Hi. unfold ListenAndServe, shutdown. rewrite !bind_run. cbn. unfold running. cbn.
  split_and!; [by apply law_disconnect|by apply law_disconnect_idle| |].
  - unfold Stop. by destruct (mgrInstance (proxy w)) eqn:E.
  - destruct ev as [|e]; [by split; [intros [? ?]|intros (? & ? & ?)]|].
    case_bool_decide; split; try (by intros [? ?]); try by eauto.
    intros (? & [= <-] & ?). done.
Qed.
End Connecting.

(** ** Counters *)

Definition countIf (p : VpnNode → bool) (ns : list VpnNode) : Z := Z.of_nat (length (filter (λ n, p n = true) ns)).

Lemma countIf_cons p n ns : countIf p (n :: ns) = ((if p n then 1 else 0) + countIf p ns)%Z.
Proof.
  unfold countIf. rewrite filter_cons. destruct (p n); [rewrite decide_True by done|rewrite decide_False by done].
  - simpl length. lia.
  - lia.
Qed.

(** The counters of the status page count: every node, the available, the
    unavailable, the strict-home and the candidate ones. *)
Theorem counts_spec ns :
  countsLocked ns = mkCounts (Z.of_nat (length ns))
    (countIf (λ n, bool_decide (Domain.Status n = NodeAvailable)) ns)
    (countIf (λ n, bool_decide (PurityGrade n = PurityStrictHome)) ns)
    (countIf (λ n, bool_decide (PurityGrade n = PurityCandidate)) ns)
    (countIf (λ n, bool_decide (Domain.Status n = NodeUnavailable)) ns).
Proof.
  unfold countsLocked. generalize (Z.of_nat (length ns)). intros total.
  assert (∀ c, countLoop ns c = mkCounts (cntNodes c)
    (cntAvailable c + countIf (λ n, bool_decide (Domain.Status n = NodeAvailable)) ns)
    (cntStrictHome c + countIf (λ n, bool_decide (PurityGrade n = PurityStrictHome)) ns)
    (cntCandidate c + countIf (λ n, bool_decide (PurityGrade n = PurityCandidate)) ns)
    (cntUnavailable c + countIf (λ n, bool_decide (Domain.Status n = NodeUnavailable)) ns))%Z as Hc.
  { induction ns as [|n ns IH]; intros c; [destruct c; unfold countIf; simpl; f_equal; lia|]. cbn [countLoop]. rewrite IH, !countIf_cons. cbn beta.
    destruct (Domain.Status n), (PurityGrade n); repeat case_bool_decide; try congruence;
      cbn [cntNodes cntAvailable cntStrictHome cntCandidate cntUnavailable]; f_equal; lia. }
  rewrite Hc. cbn. f_equal.
Qed.

(** ** A concrete server *)

(** The clock advances one second per call; the handshake succeeds for the node
    with a profile; the exit is reported by ip-api.com as [tokyo]. *)
Definition sampleEnv : Environment := {|
  envNow := λ k, (Z.of_nat k * Second)%Z;
  envRandom := λ k n, Ok (replicate n (byte_of (N.of_nat k)));
  envSave := λ _, None;
  envHandshake := λ _ n, if bool_decide (OpenVPNConfig n = "") then Err "node does not contain OpenVPN config"
                         else Ok (mkVpnSession (ID n) "10.8.0.2" "10.8.0.1" 0 0 0 0);
  envDropped := λ _, None;
  envFetch := λ _, Err "offline";
  envClassifyPost := λ _, comcastPost;
  envVerifyGet := λ _, tokyoGet;
  envDial := λ _, steadyDial;
  envPublicIP := λ _, Err "offline";
  envStart := λ _ _, Ok 1%nat;
  envClose := λ _ _, None;
  envCancelled := λ _, false;
  envMarshal := λ _, Ok "{}";
  envAddrs := sampleAddrs
|}.

#[local] Existing Instance asciiTables.
#[local] Instance sampleTunnel : TunnelAPI ControllerTunnel := controllerTunnel quietOS "run".

(** Two cached nodes: the first has no profile, the second is in Tokyo. *)
Definition deadNode : VpnNode := setID "dead" (setProtocol "tcp" (setPurityGrade PurityStrictHome zeroNode)).
Definition liveNode : VpnNode := setID "live" (setOpenVPNConfig "remote" (setProtocol "tcp" tokyoNode)).

Definition idleTunnel : ControllerTunnel := mkTunnel NewOpenVPNController ∅.
Lemma idleTunnel_idle : idleController idleTunnel.
Proof. constructor; [apply controllerInv_new|done|done]. Qed.

Definition sampleWorld : World ControllerTunnel :=
  newWorld sampleEnv quietConfig idleTunnel "/data" (Ok ([deadNode; liveNode], InitialSnapshot)).
Definition post (path : string) : Request := mkRequest "POST" path None None "" "" false.

Lemma sampleWorld_idle : idleController (tunnel sampleWorld).
Proof. exact idleTunnel_idle. Qed.

(** A request without a cookie is refused, one with a session is answered. *)
Definition signedIn : World ControllerTunnel :=
  (login sampleEnv quietConfig
     (loginRequest (authUsername (cfgAuth quietConfig)) (authPassword (cfgAuth quietConfig))) sampleWorld).2.
Definition withCookie (value : string) (r : Request) : Request :=
  mkRequest (reqMethod r) (reqPath r) (Some value) (reqLogin r) (reqNodeID r) (reqToken r) (reqTLS r).
Definition signedInID : string :=
  match randomToken sampleEnv (tick sampleWorld) 32 with Ok id => id | Err _ => "" end.

Lemma disconnect_is_private :
  ("/api/disconnect", disconnect (T := ControllerTunnel) sampleEnv) ∈ privateRoutes sampleEnv quietConfig.
Proof. unfold privateRoutes. repeat (apply list_elem_of_here || apply list_elem_of_further). Qed.

Lemma private_routes_guarded_witness :
  (∃ w', Handler sampleEnv quietConfig (post "/api/disconnect") signedIn
         = (secured (writeError 401 "login required"), w') ∧ (w' = signedIn ∨ w' = ticked signedIn)) ∧
  (let r := withCookie signedInID (post "/api/disconnect") in
   Handler sampleEnv quietConfig r signedIn
   = (secured (disconnect sampleEnv r (ticked signedIn)).1, (disconnect sampleEnv r (ticked signedIn)).2)).
Proof.
  split.
  - exact (private_routes_guarded sampleEnv quietConfig "/api/disconnect" _ (post "/api/disconnect") signedIn
             disconnect_is_private eq_refl).
  - cbv zeta. set (r := withCookie _ _).
    pose proof (private_routes_guarded sampleEnv quietConfig "/api/disconnect" _ r signedIn
                  disconnect_is_private eq_refl) as H.
    assert (authorised sampleEnv r signedIn = true) as Ha by (vm_compute; reflexivity).
    rewrite Ha in H. exact H.
Defined.

Lemma logout_ends_session_witness :
  let r := withCookie signedInID (post "/api/logout") in
  authorised sampleEnv r signedIn = true ∧ authorised sampleEnv r (logout r signedIn).2 = false.
Proof.
  cbv zeta. set (r := withCookie _ _). split; [vm_compute; reflexivity|].
  pose proof (logout_ends_session sampleEnv signedInID signedIn r eq_refl eq_refl) as H.
  destruct (logout r signedIn) as [rsp w']. destruct H as (_ & _ & H). exact (H r w' eq_refl eq_refl).
Defined.

Lemma subscription_needs_token_witness :
  Handler sampleEnv quietConfig (post "/sub/vmess") sampleWorld
  = (secured (writeError 401 "invalid subscription token"), sampleWorld).
Proof.
  apply (subscription_needs_token sampleEnv quietConfig "/sub/vmess" (vmessSubscription sampleEnv quietConfig));
    [exact quietConfig_valid|apply list_elem_of_here|reflexivity|right; reflexivity].
Defined.

(** Connecting: the first candidate has no profile and fails over to the second. *)
Lemma connect_outcome_witness :
  let '(rsp, w') := connectExit sampleEnv quietConfig (post "/api/connect") sampleWorld in
  rspCode rsp = 200%Z ∧ running w' = true ∧ Domain.Status <$> nodes w' = [NodeCooldown; NodeOther ""] ∧
  ∃ at_ failed node rest, candidatesFor quietConfig (post "/api/connect") (nodes sampleWorld) at_ = failed ++ node :: rest ∧
    connectedTo sampleEnv quietConfig node (snapshot w') w' ∧ ∀ n, n ∈ failed → cooled (nodes w') (ID n).
Proof.
  pose proof (connect_outcome sampleEnv quietConfig (post "/api/connect") sampleWorld sampleWorld_idle eq_refl) as H.
  assert (rspCode (connectExit sampleEnv quietConfig (post "/api/connect") sampleWorld).1 = 200%Z) as Hc
    by (vm_compute; reflexivity).
  assert (Domain.Status <$> nodes (connectExit sampleEnv quietConfig (post "/api/connect") sampleWorld).2
          = [NodeCooldown; NodeOther ""]) as Hd by (vm_compute; reflexivity).
  destruct (connectExit sampleEnv quietConfig (post "/api/connect") sampleWorld) as [rsp w'].
  cbn [fst snd] in Hc, Hd. destruct H as (_ & _ & _ & [(_ & _ & _ & Hr & Hn)|[(Hx & _)|([[Hx _]|[Hx _]] & _)]]);
    [|rewrite Hc in Hx; discriminate Hx..].
  split_and!; [exact Hc|exact Hr|exact Hd|apply Hn; reflexivity].
Defined.

Lemma candidate_up_iff_ok_witness :
  let '(r, w') := connectCandidate sampleEnv quietConfig liveNode sampleWorld in
  isOk r = true ∧ running w' = true ∧ verified sampleEnv quietConfig liveNode (ExitIP (snapshot w')).
Proof.
  pose proof (candidate_up_iff_ok sampleEnv quietConfig liveNode sampleWorld sampleWorld_idle eq_refl) as H.
  assert (isOk (connectCandidate sampleEnv quietConfig liveNode sampleWorld).1 = true) as Hc by (vm_compute; reflexivity).
  destruct (connectCandidate sampleEnv quietConfig liveNode sampleWorld) as [r w']. cbn [fst] in Hc.
  destruct H as (Hr & _ & Hv). rewrite Hc in Hr. split_and!; [exact Hc|exact Hr|]. apply Hv; [reflexivity|exact Hr].
Defined.

Definition connectedWorld : World ControllerTunnel :=
  (connectExit sampleEnv quietConfig (post "/api/connect") sampleWorld).2.
Lemma connectedWorld_idle : idleController (tunnel connectedWorld).
Proof.
  unfold connectedWorld.
  pose proof (connectExit_run sampleEnv quietConfig (post "/api/connect") sampleWorld sampleWorld_idle eq_refl) as H.
  by destruct (connectExit sampleEnv quietConfig (post "/api/connect") sampleWorld); destruct H.
Qed.

Lemma disconnect_outcome_witness :
  running connectedWorld = true ∧
  let '(rsp, w') := disconnect sampleEnv (post "/api/disconnect") connectedWorld in
  rspCode rsp = 200%Z ∧ running w' = false ∧ snapshot w' = InitialSnapshot ∧ nodes w' = nodes connectedWorld ∧
  sessions w' = sessions connectedWorld.
Proof.
  split; [vm_compute; reflexivity|].
  exact (disconnect_outcome sampleEnv (post "/api/disconnect") connectedWorld connectedWorld_idle eq_refl).
Defined.

Lemma recover_outcome_witness :
  let w := (setTunnel idleTunnel connectedWorld).2 in
  let w' := (recoverExit sampleEnv quietConfig "" w).2 in
  recoveryNeeded sampleEnv w = true ∧ cooled (nodes w') "live" ∧
  ((∃ node snap, ID node ∈ ID <$> nodes w ∧ connectedTo sampleEnv quietConfig node snap w') ∨
   (running w' = false ∧ State (snapshot w') = StateError)).
Proof.
  cbv zeta. set (w := (setTunnel idleTunnel connectedWorld).2).
  pose proof (recover_outcome sampleEnv quietConfig "" w idleTunnel_idle) as H. cbv zeta in H.
  assert (recoveryNeeded sampleEnv w = true) as Hn by (vm_compute; reflexivity).
  assert (ActiveNodeID (snapshot w) = "live") as Ha by (vm_compute; reflexivity).
  assert (ID <$> nodes w = ["dead"; "live"]) as Hids by (vm_compute; reflexivity).
  rewrite Hn, Ha, Hids in *. destruct H as (_ & _ & _ & Hc & Ho). split_and!; [reflexivity| |exact Ho].
  apply Hc; [discriminate|apply list_elem_of_further, list_elem_of_here].
Defined.

Lemma monitor_tolerates_witness :
  let '(m, w') := monitorRound sampleEnv quietConfig HealthTick 0 connectedWorld in
  (0 ≤ m < failureThreshold quietConfig)%Z.
Proof.
  pose proof (monitor_tolerates sampleEnv quietConfig HealthTick 0 connectedWorld) as H.
  destruct (monitorRound sampleEnv quietConfig HealthTick 0 connectedWorld) as [m w'].
  apply H. split; reflexivity || (vm_compute; reflexivity || discriminate).
Defined.

Lemma node_maintenance_truthful_witness :
  let '(rsp, w') := classifyNodes sampleEnv (post "/api/nodes/classify") connectedWorld in
  truthful (idle := idleController) connectedWorld w' rsp ∧ ID <$> nodes w' = ["dead"; "live"].
Proof.
  pose proof (node_maintenance_truthful sampleEnv quietConfig (post "/api/nodes/classify") connectedWorld
                connectedWorld_idle eq_refl) as (_ & H & _).
  destruct (classifyNodes sampleEnv (post "/api/nodes/classify") connectedWorld) as [rsp w'].
  destruct H as [Ht Hid]. split; [exact Ht|]. rewrite Hid. vm_compute. reflexivity.
Defined.

Lemma shutdown_stops_witness :
  running connectedWorld = true ∧ running (ListenAndServe sampleEnv ContextDone connectedWorld).2 = false.
Proof.
  split; [vm_compute; reflexivity|].
  pose proof (shutdown_stops sampleEnv ContextDone connectedWorld connectedWorld_idle) as H.
  destruct (ListenAndServe sampleEnv ContextDone connectedWorld). apply H.
Defined.
