(* ===== verification/ServerRace.v ===== *)
(** * [internal/web/server.go]: handlers that overlap

    [net/http] runs every request in a goroutine of its own, beside the monitor and
    the automatic connection. Here the handlers that change the exit or the nodes
    are resumptions: sequences of blocks between which others may run. A block is a
    critical section of [AppState.mu], a read of the clock, or a call on the tunnel
    or the outside, as in the source. Run alone they are the functions of [Server].
    A call of [tunnel.Connect] is one block: how two of them overlap is [Tunnel]. *)

From S2P Require Import Prelude GoStrings GoNet GoCodec Domain Failover Probe Classify.
From S2P Require Import Verify Config ProxyCore Subscription Storage Tunnel TunnelApi Server ServerProps.
From stdpp Require Import relations.

(** ** Resumptions *)

Inductive Proc (T A : Type) : Type :=
  | Ret (a : A)
  | Step (f : World T → Proc T A * World T).
Arguments Ret {T A}.
Arguments Step {T A}.

(** Induction, through the pairs. *)
Fixpoint Proc_induction {T A} (P : Proc T A → Prop) (Hret : ∀ a, P (Ret a))
    (Hstep : ∀ f, (∀ w, P (f w).1) → P (Step f)) (p : Proc T A) : P p :=
  match p with
  | Ret a => Hret a
  | Step f => Hstep f (λ w, match f w as c return P c.1 with (q, _) => Proc_induction P Hret Hstep q end)
  end.

Fixpoint bindP {T A B} (k : A → Proc T B) (p : Proc T A) : Proc T B :=
  match p with
  | Ret a => k a
  | Step f => Step (λ w, let '(p, w) := f w in (bindP k p, w))
  end.
#[export] Instance Proc_ret T : MRet (Proc T) := λ A, Ret.
#[export] Instance Proc_bind T : MBind (Proc T) := λ A B, bindP.

(** One block. *)
Definition atomic {T A} (m : M T A) : Proc T A := Step (λ w, let '(a, w) := m w in (Ret a, w)).

(** Without others in between. *)
Fixpoint runP {T A} (p : Proc T A) : M T A :=
  match p with
  | Ret a => λ w, (a, w)
  | Step f => λ w, let '(p, w) := f w in runP p w
  end.

(** Some goroutine runs its next block. *)
Inductive poolStep {T A} : list (Proc T A) * World T → list (Proc T A) * World T → Prop :=
  | pool_step ps i f w p w' :
      ps !! i = Some (Step f) → f w = (p, w') → poolStep (ps, w) (<[i := p]> ps, w').

(** A schedule: which goroutine runs next. *)
Definition runBlock {T A} (i : nat) (c : list (Proc T A) * World T) : list (Proc T A) * World T :=
  match c.1 !! i with
  | Some (Step f) => let '(p, w) := f c.2 in (<[i := p]> c.1, w)
  | _ => c
  end.
Definition runSchedule {T A} (order : list nat) (c : list (Proc T A) * World T) : list (Proc T A) * World T :=
  foldl (flip runBlock) c order.

Lemma runBlock_step {T A} i (c : list (Proc T A) * World T) : rtc poolStep c (runBlock i c).
Proof.
  destruct c as [ps w]. unfold runBlock. cbn [fst snd]. destruct (ps !! i) as [[a|f]|] eqn:E; try done.
  destruct (f w) as [p w'] eqn:Ef. apply rtc_once. by econstructor.
Qed.
Lemma runSchedule_steps {T A} order (c : list (Proc T A) * World T) : rtc poolStep c (runSchedule order c).
Proof.
  revert c. induction order as [|i order IH]; intros c; [done|]. cbn. etrans; [apply runBlock_step|apply IH].
Qed.

(** ** The handlers *)

Section Handlers.
Context {T : Type} {API : TunnelAPI T} {U : UnicodeTables} (env : Environment) (cfg : Config).

(** [cooldownNode] reads the clock before it takes the lock. *)
Definition cooldownNodeP (nodeID message : string) : Proc T () :=
  at_ ← atomic (now env);
  atomic (
    ns ← get nodes;
    setNodes (markNodeFailure ns nodeID message (foCooldownSeconds (cfgFailover cfg) *i Second)%go at_);;
    addLog env "warning" ("节点进入冷却 " +:+ nodeID +:+ ": " +:+ message);;
    saveLocked env).

(** [persist] saves, without the lock, what it has read under it. *)
Definition persistP : Proc T () :=
  '(ns, snap) ← atomic (get (λ w, (nodes w, snapshot w)));
  atomic (err ← ask (envSave env);
          match err with None => setSaved (Some (ns, snap)) | Some _ => mret () end).

Definition verifyCandidateP (node : VpnNode) (connectedAt : Time) : Proc T (result (Result * option Time * string)) :=
  if verEnabled (cfgVerify cfg) then
    atomic (setSnapshot (mkSnapshot StateVerifying "正在复核公网出口" (ID node) "" (Some connectedAt) None 0
                   (metadataOf [("node_ip", NodeIP node)])));;
    r ← atomic (verifyNodeExit env cfg node);
    match r with
    | Err e => atomic tunnelDisconnect;; mret (Err ("出口复核失败: " +:+ e))
    | Ok result =>
        if negb (resPassed result) then
          atomic tunnelDisconnect;; mret (Err ("出口复核未通过: " +:+ resMessage result))
        else
          verified ← atomic (now env);
          mret (Ok (result, Some verified, "OpenVPN 已连接，出口复核通过"))
    end
  else mret (Ok (zeroResult, None, "OpenVPN 已连接，等待出口复核接入")).

Definition connectCandidateP (node : VpnNode) : Proc T (result ConnectionSnapshot) :=
  err ← atomic (tunnelConnect env node);
  match err with
  | Some e => mret (Err ("OpenVPN 连接失败: " +:+ e))
  | None =>
      connectedAt ← atomic (now env);
      v ← verifyCandidateP node connectedAt;
      match v with
      | Err e => mret (Err e)
      | Ok (result, verifiedAt, verifyMessage) =>
          let snap := mkSnapshot StateConnected verifyMessage (ID node) (resExitIP result) (Some connectedAt)
            verifiedAt 0
            (Some (verifyMetadata result {[ "node_ip" := NodeIP node ]})) in
          atomic (setSnapshot snap;; addLog env "info" ("OpenVPN 已连接节点 " +:+ ID node);; saveLocked env);;
          mret (Ok snap)
      end
  end.

Fixpoint tryCandidatesP (announce : nat → VpnNode → ConnectionSnapshot)
    (onFailure : nat → VpnNode → string → Proc T ()) (attempt : nat) (candidates : list VpnNode)
    (lastErr : option string) : Proc T (ConnectionSnapshot + option string) :=
  match candidates with
  | [] => mret (inr lastErr)
  | node :: rest =>
      atomic (setSnapshot (announce attempt node));;
      r ← connectCandidateP node;
      match r with
      | Ok snap => mret (inl snap)
      | Err e =>
          cooldownNodeP (ID node) e;;
          onFailure attempt node e;;
          tryCandidatesP announce onFailure (S attempt) rest (Some e)
      end
  end.

Definition connectExitP (r : Request) : Proc T Response :=
  fail_if negb (isPost r) with mret methodNotAllowed ;;
  report ← atomic (checkEnvironment env);
  if negb (Ready report) then mret (writeError 502 (envMessage report)) else
  if Running report then
    current ← atomic (get snapshot);
    let snap := nodeMaintenanceSnapshot current report "VPNGate 出口已保持连接" in
    atomic (setSnapshot snap);;
    mret (writeJSON 200 (BodySnapshot snap))
  else
  ns ← atomic (get nodes);
  fail_if bool_decide (ns = []) with mret (writeError 409 "请先刷新节点") ;;
  let maxAttempts := if bool_decide (reqNodeID r = "") && foEnabled (cfgFailover cfg)
                     then foMaxAttempts (cfgFailover cfg) else 1%Z in
  at_ ← atomic (now env);
  let candidates := connectionCandidates ns (reqNodeID r) maxAttempts at_ in
  let total := length candidates in
  fail_if bool_decide (candidates = []) with mret (writeError 404 "没有可连接的节点") ;;
  outcome ← tryCandidatesP
    (λ attempt node, progressSnapshot (connectionAttemptState attempt)
       ("正在连接节点 " +:+ attemptText attempt total +:+ "：" +:+ NodeIP node)
       (ID node) [("node_ip", NodeIP node); ("attempt", attemptText attempt total)])
    (λ attempt node e, if (attempt <? total - 1)%nat
                       then atomic (addLog env "warning" ("节点 " +:+ NodeIP node +:+ " 失败，自动尝试下一个：" +:+ e))
                       else mret ()) 0 candidates None;
  match outcome with
  | inl snap => mret (writeJSON 200 (BodySnapshot snap))
  | inr lastErr =>
      let message := match lastErr with
                     | Some e => "所有候选节点连接失败: " +:+ e
                     | None => "所有候选节点连接失败"
                     end in
      atomic (setSnapshot (progressSnapshot StateError message "" [("attempts", itoa (Z.of_nat total))]);;
              addLog env "error" message;; saveLocked env);;
      mret (writeError 502 message)
  end.

Definition disconnectP (r : Request) : Proc T Response :=
  fail_if negb (isPost r) with mret methodNotAllowed ;;
  atomic tunnelDisconnect;;
  atomic (setSnapshot InitialSnapshot);;
  persistP;;
  atomic (addLog env "info" "已断开当前控制状态");;
  mret (writeJSON 200 BodyOK).

Definition classifyNodesP (r : Request) : Proc T Response :=
  fail_if negb (isPost r) with mret methodNotAllowed ;;
  previous ← atomic (get snapshot);
  ns ← atomic (get nodes);
  fail_if bool_decide (ns = []) with mret (writeError 409 "请先刷新节点") ;;
  atomic (setSnapshot (stateSnapshot StateProbingNodes "正在执行严格家宽判定"));;
  classified ← atomic (classifyNodesWith env ns);
  atomic (setNodes classified;;
          report ← checkEnvironment env;
          setSnapshot (nodeMaintenanceSnapshot previous report "严格家宽判定完成");;
          saveLocked env);;
  let counts := countsLocked classified in
  atomic (addLog env "info" ("分类完成：严格家宽 " +:+ itoa (cntStrictHome counts) +:+ "，候选 " +:+ itoa (cntCandidate counts)));;
  mret (writeJSON 200 (BodyCounts counts)).

Definition probeNodesP (r : Request) : Proc T Response :=
  fail_if negb (isPost r) with mret methodNotAllowed ;;
  previous ← atomic (get snapshot);
  ns ← atomic (get nodes);
  fail_if bool_decide (ns = []) with mret (writeError 409 "请先刷新节点") ;;
  atomic (setSnapshot (stateSnapshot StateProbingNodes "正在 TCP 探活节点"));;
  probed ← atomic (probeNodesWith env cfg ns);
  atomic (setNodes probed;;
          report ← checkEnvironment env;
          setSnapshot (nodeMaintenanceSnapshot previous report "TCP 探活完成");;
          saveLocked env);;
  let counts := countsLocked probed in
  atomic (addLog env "info" ("探活完成：可用 " +:+ itoa (cntAvailable counts) +:+ "，不可用 " +:+ itoa (cntUnavailable counts)));;
  mret (writeJSON 200 (BodyCounts counts)).

Definition refreshNodesP (r : Request) : Proc T Response :=
  fail_if negb (isPost r) with mret methodNotAllowed ;;
  previous ← atomic (get snapshot);
  previousNodes ← atomic (get nodes);
  atomic (setSnapshot (stateSnapshot StateFetchingNodes "正在获取 VPNGate 节点"));;
  fetched ← atomic (ask (envFetch env));
  match fetched with
  | Err e =>
      report ← atomic (checkEnvironment env);
      atomic (setSnapshot (nodeMaintenanceSnapshot previous report ("节点刷新失败: " +:+ e)));;
      atomic (addLog env "error" ("节点刷新失败: " +:+ e));;
      mret (writeError 502 e)
  | Ok ns =>
      at_ ← atomic (now env);
      let ns := preserveNodeCooldowns ns previousNodes at_ in
      let count := itoa (Z.of_nat (length ns)) in
      atomic (setNodes ns;;
              report ← checkEnvironment env;
              setSnapshot (nodeMaintenanceSnapshot previous report ("已刷新 " +:+ count +:+ " 个节点"));;
              saveLocked env);;
      atomic (addLog env "info" ("已刷新 " +:+ count +:+ " 个 VPNGate 节点"));;
      mret (writeJSON 200 (BodyNodeCount (Z.of_nat (length ns))))
  end.

Definition exitNeedsRecoveryP : Proc T bool :=
  snap ← atomic (get snapshot);
  report ← atomic (checkEnvironment env);
  mret (bool_decide (State snap = StateConnected) && negb (Running report) && negb (Connecting report)).

Definition recoverReasonP (reason : string) : Proc T string :=
  if bool_decide (reason = "") then
    report ← atomic (checkEnvironment env);
    mret (if bool_decide (envMessage report = "") then "VPNGate 数据通道已停止" else envMessage report)
  else mret reason.

Definition switchExitP : Proc T () :=
  atomic (addLog env "warning" "检测到 VPNGate 出口失效，正在自动切换节点");;
  ns ← atomic (get nodes);
  at_ ← atomic (now env);
  let candidates := connectionCandidates ns "" (foMaxAttempts (cfgFailover cfg)) at_ in
  let total := length candidates in
  r ← tryCandidatesP
    (λ attempt node, progressSnapshot StateFailingOver
       ("出口失效，正在切换节点 " +:+ attemptText attempt total +:+ "：" +:+ NodeIP node)
       (ID node) [("attempt", attemptText attempt total)])
    (λ _ _ _, mret ()) 0 candidates None;
  match r with
  | inl _ => atomic (addLog env "info" "VPNGate 出口自动切换成功")
  | inr _ =>
      atomic (setSnapshot (progressSnapshot StateError "VPNGate 出口失效，缓存中的候选节点均不可用" "" []));;
      atomic (addLog env "error" "VPNGate 自动切换失败，请刷新节点后重试")
  end.

(** The only caller is the monitor: [recoveryMu] is never contended. *)
Definition recoverExitP (reason : string) : Proc T () :=
  needed ← exitNeedsRecoveryP;
  cancelled ← atomic (ask (envCancelled env));
  fail_if negb needed || cancelled with mret () ;;
  failedNodeID ← atomic (get (λ w, ActiveNodeID (snapshot w)));
  reason ← recoverReasonP reason;
  (if bool_decide (failedNodeID = "") then mret () else cooldownNodeP failedNodeID reason);;
  switchExitP.

(** [recordVerification] reads the clock before it takes the lock. *)
Definition recordVerificationP (result : Result) : Proc T () :=
  at_ ← atomic (now env);
  atomic (
    snap ← get snapshot;
    let snap := setExitIP (resExitIP result) (setLastVerifiedAt (Some at_) snap) in
    setSnapshot (setMetadata (Some (verifyMetadata result (default ∅ (Metadata snap)))) snap);;
    saveLocked env).

Definition checkExitHealthP : Proc T (string * bool) :=
  active ← atomic activeNode;
  match active with
  | None => mret ("活动节点状态缺失", false)
  | Some node =>
      r ← atomic (verifyNodeExit env cfg node);
      match r with
      | Err err =>
          reach ← atomic (checkExitReachability env);
          match reach with
          | Ok _ => mret ("", true)
          | Err e => mret ("严格验证失败: " +:+ err +:+ "；备用公网探测失败: " +:+ e, false)
          end
      | Ok result =>
          if negb (resPassed result) then mret (resMessage result, false)
          else recordVerificationP result;; mret ("", true)
      end
  end.

Definition exitIsRunningP : Proc T bool :=
  snap ← atomic (get snapshot);
  report ← atomic (checkEnvironment env);
  mret (bool_decide (State snap = StateConnected) && Running report).

Definition monitorRoundP (ev : ticker) (healthFailures : Z) : Proc T Z :=
  match ev with
  | TransportTick =>
      needed ← exitNeedsRecoveryP;
      if (needed : bool) then recoverExitP "";; mret 0%Z else mret healthFailures
  | HealthTick =>
      running ← (if verEnabled (cfgVerify cfg) then exitIsRunningP else mret false);
      fail_if negb running with mret 0%Z ;;
      '(reason, passed) ← checkExitHealthP;
      fail_if (passed : bool) with mret 0%Z ;;
      let healthFailures := (healthFailures + 1)%Z in
      atomic (addLog env "warning" ("VPNGate 出口健康检查失败 " +:+ itoa healthFailures +:+ "/" +:+
                                    itoa (failureThreshold cfg) +:+ ": " +:+ reason));;
      if (failureThreshold cfg <=? healthFailures)%Z
      then atomic tunnelDisconnect;; recoverExitP reason;; mret 0%Z
      else mret healthFailures
  end.

Definition verifyExitP (r : Request) : Proc T Response :=
  fail_if negb (isPost r) with mret methodNotAllowed ;;
  active ← atomic activeNode;
  match active with
  | None => mret (writeError 409 "当前没有活动节点")
  | Some node =>
      v ← atomic (verifyNodeExit env cfg node);
      match v with
      | Err e => atomic (addLog env "error" ("出口复核失败: " +:+ e));; mret (writeError 502 e)
      | Ok result => atomic (applyVerifyResult env node result);; mret (writeJSON 200 (BodyVerify result))
      end
  end.

Definition autoConnectExitP : Proc T () :=
  atomic (addLog env "info" "正在自动准备 VPNGate/OpenVPN 出口");;
  report ← atomic (checkEnvironment env);
  if negb (Ready report) then atomic (addLog env "warning" ("OpenVPN 出口自动连接跳过: " +:+ envMessage report)) else
  previousNodes ← atomic (get nodes);
  atomic (setSnapshot (stateSnapshot StateFetchingNodes "正在自动获取 VPNGate 节点"));;
  fetched ← atomic (ask (envFetch env));
  match fetched with
  | Err e =>
      atomic (addLog env "warning" ("自动获取 VPNGate 节点失败: " +:+ e));;
      atomic (setSnapshot (stateSnapshot StateError ("自动获取 VPNGate 节点失败: " +:+ e)))
  | Ok ns =>
      ns ← (if clsEnabled (cfgClassifier cfg) then
              atomic (setSnapshot (stateSnapshot StateProbingNodes "正在自动执行家宽判定"));;
              atomic (classifyNodesWith env ns)
            else mret ns);
      atomic (setSnapshot (stateSnapshot StateProbingNodes "正在自动 TCP 探活"));;
      ns ← atomic (probeNodesWith env cfg ns);
      at_ ← atomic (now env);
      let ns := preserveNodeCooldowns ns previousNodes at_ in
      atomic (setNodes ns;;
              setSnapshot (setMessage ("自动准备完成，已缓存 " +:+ itoa (Z.of_nat (length ns)) +:+ " 个节点") InitialSnapshot);;
              saveLocked env);;
      let maxAttempts := if (foMaxAttempts (cfgFailover cfg) <=? 0)%Z then 1%Z else foMaxAttempts (cfgFailover cfg) in
      at_ ← atomic (now env);
      let candidates := connectionCandidates ns "" maxAttempts at_ in
      let total := length candidates in
      if bool_decide (candidates = []) then atomic (addLog env "warning" "自动连接出口失败: 没有可连接的 VPNGate 节点") else
      r ← tryCandidatesP
        (λ attempt node, progressSnapshot (connectionAttemptState attempt)
           ("正在自动连接 VPNGate 出口 " +:+ attemptText attempt total +:+ "：" +:+ NodeIP node)
           (ID node) [("node_ip", NodeIP node); ("attempt", attemptText attempt total)])
        (λ _ node e, atomic (addLog env "warning" ("自动连接节点 " +:+ NodeIP node +:+ " 失败: " +:+ e))) 0 candidates None;
      match r with
      | inl _ => atomic (addLog env "info" "VPNGate/OpenVPN 出口已自动连接")
      | inr _ => atomic (setSnapshot (stateSnapshot StateError "自动连接 VPNGate/OpenVPN 出口失败"))
      end
  end.

(** The goroutines that overlap: requests, and the background tasks. *)
Inductive goroutine :=
  | Connect (r : Request) | DisconnectExit (r : Request) | Refresh (r : Request) | ClassifyAll (r : Request)
  | ProbeAll (r : Request) | VerifyNow (r : Request) | Monitor (ev : ticker) (failures : Z) | AutoConnect.
Definition body (g : goroutine) : Proc T () :=
  match g with
  | Connect r => connectExitP r;; mret ()
  | DisconnectExit r => disconnectP r;; mret ()
  | Refresh r => refreshNodesP r;; mret ()
  | ClassifyAll r => classifyNodesP r;; mret ()
  | ProbeAll r => probeNodesP r;; mret ()
  | VerifyNow r => verifyExitP r;; mret ()
  | Monitor ev n => monitorRoundP ev n;; mret ()
  | AutoConnect => autoConnectExitP
  end.
(** The same, with no other in between. *)
Definition alone (g : goroutine) : M T () :=
  match g with
  | Connect r => connectExit env cfg r;; mret ()
  | DisconnectExit r => disconnect env r;; mret ()
  | Refresh r => refreshNodes env r;; mret ()
  | ClassifyAll r => classifyNodes env r;; mret ()
  | ProbeAll r => probeNodes env cfg r;; mret ()
  | VerifyNow r => verifyExit env cfg r;; mret ()
  | Monitor ev n => monitorRound env cfg ev n;; mret ()
  | AutoConnect => autoConnectExit env cfg
  end.
End Handlers.

(** ** Run alone they are the functions of [Server] *)

Section Sequential.
Context {T : Type}.

Definition implementsM {A} (p : Proc T A) (m : M T A) : Prop := ∀ w, runP p w = m w.

Lemma runP_bind {A B} (k : A → Proc T B) p w : runP (p ≫= k) w = runP (k (runP p w).1) (runP p w).2.
Proof.
  change (p ≫= k) with (bindP k p). revert w. induction p as [a|f IH] using Proc_induction; intros w; [done|].
  cbn [bindP runP]. specialize (IH w). by destruct (f w) as [q w'].
Qed.

Lemma impl_ret {A} (a : A) : implementsM (mret a) (mret a).
Proof. done. Qed.
Lemma impl_bind {A B} (p : Proc T A) m (k : A → Proc T B) k' :
  implementsM p m → (∀ a, implementsM (k a) (k' a)) → implementsM (p ≫= k) (m ≫= k').
Proof. intros Hp Hk w. by rewrite runP_bind, bind_run, Hp, Hk. Qed.
Lemma impl_atomic {A} (m : M T A) : implementsM (atomic m) m.
Proof. intros w. unfold atomic. cbn [runP]. by destruct (m w). Qed.
(** A block of several statements, followed by the rest. *)
Lemma impl_block {A B C} (m : M T A) (j : A → M T B) (k : B → Proc T C) (m' : M T C) :
  implementsM (x ← atomic m; y ← atomic (j x); k y) m' → implementsM (y ← atomic (x ← m; j x); k y) m'.
Proof.
  intros H w. rewrite <-H, !runP_bind, !(impl_atomic _ _), bind_run. done.
Qed.
End Sequential.

Create HintDb impl discriminated.
Ltac impl_step :=
  lazymatch goal with
  | |- implementsM (mret _) (mret _) => apply impl_ret
  | |- implementsM (mbind _ (atomic (mbind _ _))) _ => apply impl_block
  | |- implementsM (mbind _ _) (mbind _ _) => apply impl_bind; [|intros ?]
  | |- implementsM (atomic _) _ => apply impl_atomic
  | |- implementsM (if ?b then _ else _) _ => destruct b
  | |- implementsM (match ?x with _ => _ end) _ => destruct x
  | |- implementsM _ _ => solve [auto 1 with impl]
  end.
Ltac impl := repeat impl_step.

Section Alone.
Context {T : Type} {API : TunnelAPI T} {U : UnicodeTables} (env : Environment) (cfg : Config).

Lemma cooldownNode_impl id message : implementsM (cooldownNodeP (T := T) env cfg id message) (cooldownNode env cfg id message).
Proof. unfold cooldownNodeP, cooldownNode. impl. Qed.
Lemma persist_impl : implementsM (persistP (T := T) env) (persist env).
Proof. intros w. unfold persistP, persist. rewrite runP_bind, !bind_run. cbn [atomic runP get ask fst snd].
  rewrite bind_run. cbn. by destruct (envSave env (tick w)).
Qed.
Lemma verifyCandidate_impl node t : implementsM (verifyCandidateP env cfg node t) (verifyCandidate (T := T) env cfg node t).
Proof. unfold verifyCandidateP, verifyCandidate. impl. Qed.
#[local] Hint Resolve cooldownNode_impl persist_impl verifyCandidate_impl : impl.
Lemma connectCandidate_impl node : implementsM (connectCandidateP env cfg node) (connectCandidate (T := T) env cfg node).
Proof. unfold connectCandidateP, connectCandidate. impl. Qed.
#[local] Hint Resolve connectCandidate_impl : impl.

Lemma tryCandidates_impl announce onFailureP onFailure attempt candidates lastErr :
  (∀ i n e, implementsM (onFailureP i n e) (onFailure i n e)) →
  implementsM (tryCandidatesP env cfg announce onFailureP attempt candidates lastErr)
              (tryCandidates (T := T) env cfg announce onFailure attempt candidates lastErr).
Proof.
  intros Hf. revert attempt lastErr. induction candidates as [|n l IH]; intros; cbn [tryCandidatesP tryCandidates]; impl;
    first [apply Hf | apply IH].
Qed.

Lemma connectExit_impl r : implementsM (connectExitP env cfg r) (connectExit (T := T) env cfg r).
Proof. unfold connectExitP, connectExit. impl. apply tryCandidates_impl. intros. impl. Qed.
Lemma switchExit_impl : implementsM (switchExitP env cfg) (switchExit (T := T) env cfg).
Proof. unfold switchExitP, switchExit. impl. apply tryCandidates_impl. intros. impl. Qed.
#[local] Hint Resolve switchExit_impl : impl.
Lemma recoverExit_impl reason : implementsM (recoverExitP env cfg reason) (recoverExit (T := T) env cfg reason).
Proof. unfold recoverExitP, recoverExit, exitNeedsRecoveryP, exitNeedsRecovery, recoverReasonP, recoverReason. impl. Qed.
Lemma checkExitHealth_impl : implementsM (checkExitHealthP env cfg) (checkExitHealth (T := T) env cfg).
Proof. unfold checkExitHealthP, checkExitHealth, recordVerificationP, recordVerification. impl. Qed.
#[local] Hint Resolve recoverExit_impl checkExitHealth_impl connectExit_impl : impl.
Lemma monitorRound_impl ev n : implementsM (monitorRoundP env cfg ev n) (monitorRound (T := T) env cfg ev n).
Proof.
  unfold monitorRoundP, monitorRound, exitNeedsRecoveryP, exitNeedsRecovery, exitIsRunningP, exitIsRunning. impl.
Qed.
Lemma autoConnectExit_impl : implementsM (autoConnectExitP env cfg) (autoConnectExit (T := T) env cfg).
Proof. unfold autoConnectExitP, autoConnectExit. impl. apply tryCandidates_impl. intros. impl. Qed.
#[local] Hint Resolve monitorRound_impl autoConnectExit_impl : impl.

End Alone.

(** ** What no interleaving breaks *)

Section Steady.
Context {T : Type} (P : World T → Prop).

(** Every block of the goroutine preserves [P], wherever the others left off. *)
Fixpoint steady {A} (p : Proc T A) : Prop :=
  match p with
  | Ret _ => True
  | Step f => ∀ w, P w → let '(q, w') := f w in P w' ∧ steady q
  end.

Lemma steady_ret {A} (a : A) : steady (mret a).
Proof. done. Qed.
Lemma steady_atomic {A} (m : M T A) : preserves P m → steady (atomic m).
Proof. intros Hm w Hw. specialize (Hm w Hw). by destruct (m w). Qed.
Lemma steady_bind {A B} (p : Proc T A) (k : A → Proc T B) : steady p → (∀ a, steady (k a)) → steady (p ≫= k).
Proof.
  intros Hp Hk. change (p ≫= k) with (bindP k p). induction p as [a|f IH] using Proc_induction; [apply Hk|].
  intros w Hw. specialize (IH w). specialize (Hp w Hw). destruct (f w) as [q w']. destruct Hp. auto.
Qed.

Lemma poolStep_steady {A} (c c' : list (Proc T A) * World T) :
  poolStep c c' → Forall steady c.1 → P c.2 → Forall steady c'.1 ∧ P c'.2.
Proof.
  intros [ps i f w p w' Hi Hf] Hall Hw. cbn [fst snd] in *.
  pose proof (Forall_lookup_1 _ _ _ _ Hall Hi w Hw) as Hs. rewrite Hf in Hs. destruct Hs as [Hw' Hp].
  split; [by apply Forall_insert|done].
Qed.

Lemma pool_invariant {A} (c c' : list (Proc T A) * World T) :
  rtc poolStep c c' → Forall steady c.1 → P c.2 → P c'.2.
Proof. induction 1 as [c|c c1 c2 Hs _ IH]; intros Hall Hw; [done|]. destruct (poolStep_steady c c1 Hs Hall Hw). auto. Qed.
End Steady.

Create HintDb steady discriminated.
Ltac steady_step :=
  lazymatch goal with
  | |- steady _ (mret _) => apply steady_ret
  | |- steady _ (mbind _ _) => apply steady_bind; [|intros ?]
  | |- steady _ (atomic _) => apply steady_atomic; pframe
  | |- steady _ (if ?b then _ else _) => destruct b
  | |- steady _ (match ?x with _ => _ end) => destruct x
  | |- steady _ _ => solve [auto 1 with steady]
  end.
Ltac steady := repeat steady_step.

Section Overlap.
Context {T : Type} {API : TunnelAPI T} {idle : T → Prop} {L : TunnelLaws T idle} {U : UnicodeTables}.
Context (env : Environment) (cfg : Config).

(** The log is bounded and no call has left the tunnel half-way. *)
Definition sound (w : World T) : Prop := logBound w ∧ idle (tunnel w).

Lemma keeps_sound {A} (m : M T A) : preserves logBound m → keeps tunnel m → preserves sound m.
Proof. intros Hl Ht w [H1 H2]. split; [by apply Hl|by rewrite Ht]. Qed.

Lemma addLog_sound level message : preserves sound (addLog env level message).
Proof. apply keeps_sound; [apply addLog_logs|apply addLog_tunnel]. Qed.
Lemma saveLocked_sound : preserves sound (saveLocked env).
Proof. apply keeps_sound; [apply saveLocked_logs|apply saveLocked_tunnel]. Qed.
Lemma checkEnvironment_sound : preserves sound (checkEnvironment env).
Proof.
  intros w [H1 H2]. split; [by apply checkEnvironment_logs|]. unfold checkEnvironment. rewrite !bind_run. cbn.
  destruct (envDropped env (tick w)); [|done]. case_match; [by apply law_drop_idle|done].
Qed.
Lemma tunnelConnect_sound node : preserves sound (tunnelConnect env node).
Proof.
  intros w [H1 H2]. unfold tunnelConnect. rewrite !bind_run. cbn.
  pose proof (law_connect_idle node (envHandshake env (tick w) node) (tunnel w) H2).
  by destruct (tunConnect node _ (tunnel w)).
Qed.
Lemma tunnelDisconnect_sound : preserves sound (tunnelDisconnect (T := T)).
Proof. intros w [H1 H2]. split; [done|]. by apply law_disconnect_idle. Qed.
#[local] Hint Resolve addLog_sound saveLocked_sound checkEnvironment_sound tunnelConnect_sound tunnelDisconnect_sound : pframe.

Lemma activeNode_sound : preserves sound (activeNode (T := T)).
Proof. unfold activeNode. pframe. Qed.
Lemma checkExitReachability_sound : preserves sound (checkExitReachability env).
Proof. unfold checkExitReachability. pframe. Qed.
Lemma applyVerifyResult_sound node result : preserves sound (applyVerifyResult env node result).
Proof. unfold applyVerifyResult. pframe. Qed.
#[local] Hint Resolve activeNode_sound checkExitReachability_sound applyVerifyResult_sound : pframe.

Lemma connectCandidate_steady node : steady sound (connectCandidateP env cfg node).
Proof. unfold connectCandidateP, verifyCandidateP. steady. Qed.
Lemma cooldownNode_steady id message : steady sound (cooldownNodeP env cfg id message).
Proof. unfold cooldownNodeP. steady. Qed.
#[local] Hint Resolve connectCandidate_steady cooldownNode_steady : steady.
Lemma tryCandidates_steady announce onFailure attempt candidates lastErr :
  (∀ i n e, steady sound (onFailure i n e)) →
  steady sound (tryCandidatesP env cfg announce onFailure attempt candidates lastErr).
Proof.
  intros Hf. revert attempt lastErr.
  induction candidates as [|n l IH]; intros; cbn [tryCandidatesP]; steady; first [apply Hf | apply IH].
Qed.
Lemma recoverExit_steady reason : steady sound (recoverExitP env cfg reason).
Proof.
  unfold recoverExitP, switchExitP, recoverReasonP, exitNeedsRecoveryP. steady. apply tryCandidates_steady. intros. steady.
Qed.
#[local] Hint Resolve recoverExit_steady : steady.

Lemma body_steady g : steady sound (body env cfg g).
Proof.
  destruct g as [r|r|r|r|r|r|ev n|]; cbn [body]; steady.
  - unfold connectExitP. steady. apply tryCandidates_steady. intros. steady.
  - unfold disconnectP, persistP. steady.
  - unfold refreshNodesP. steady.
  - unfold classifyNodesP. steady.
  - unfold probeNodesP. steady.
  - unfold verifyExitP. steady.
  - unfold monitorRoundP, exitNeedsRecoveryP, exitIsRunningP, checkExitHealthP, recordVerificationP. steady.
  - unfold autoConnectExitP. steady. apply tryCandidates_steady. intros. steady.
Qed.

End Overlap.

(** ** Every goroutine ends *)

Section Ends.
Context {T A : Type}.

Definition returned (p : Proc T A) : bool := match p with Ret _ => true | Step _ => false end.

(** One block of one of them, wherever the world is. *)
Inductive advance : list (Proc T A) → list (Proc T A) → Prop :=
  | advance_here f w ps : advance (Step f :: ps) ((f w).1 :: ps)
  | advance_there p ps ps' : advance ps ps' → advance (p :: ps) (p :: ps').

Lemma poolStep_advance c c' : poolStep c c' → advance c.1 c'.1.
Proof.
  intros [ps i f w p w' Hi Hf]. cbn [fst]. revert i Hi.
  induction ps as [|q ps IH]; intros [|i] Hi; simplify_eq/=.
  - pose proof (advance_here f w ps) as H. by rewrite Hf in H.
  - constructor. by apply IH.
Qed.

Lemma advance_sn ps : sn advance ps.
Proof.
  induction ps as [|p ps IH]; [constructor; intros qs Hqs; inversion Hqs|]. revert ps IH.
  induction p as [a|f IHp] using Proc_induction; intros ps Hps; induction Hps as [ps Hps IHps];
    constructor; intros qs Hqs; inversion Hqs; subst; try (by apply IHps).
  by apply IHp, Acc_intro.
Qed.

(** However the goroutines interleave, they make finitely many steps; and as long
    as one of them has not returned another step is possible, so the run ends with
    all of them returned. *)
Theorem overlap_terminates (ps : list (Proc T A)) (w : World T) :
  sn poolStep (ps, w) ∧ ∀ c, rtc poolStep (ps, w) c → nf poolStep c → forallb returned c.1 = true.
Proof.
  split.
  - generalize (ps, w). intros c. pose proof (advance_sn c.1) as H. remember c.1 as l eqn:E. revert c E.
    induction H as [l _ IH]. intros c ->. constructor. intros c' Hc. by apply (IH c'.1); [apply poolStep_advance|].
  - intros [qs v] _ Hnf. apply Is_true_true, forallb_True, Forall_forall. intros p Hp. destruct p as [a|f]; [done|].
    destruct Hnf. apply list_elem_of_lookup in Hp as [i Hi]. destruct (f v) as [q v'] eqn:E.
    exists (<[i := q]> qs, v'). by econstructor.
Qed.
End Ends.

(** ** Races *)

#[local] Existing Instance asciiTables.
#[local] Instance raceTunnel : TunnelAPI ControllerTunnel := controllerTunnel quietOS "run".

(** Both goroutines on the sample server, to their end: [order] is the schedule. *)
Definition overlap (gs : list goroutine) (order : list nat) : list (Proc ControllerTunnel ()) * World ControllerTunnel :=
  runSchedule order (body sampleEnv quietConfig <$> gs, sampleWorld).

(** Goroutine [g] and goroutine [h] overlap and return, and leave a world that satisfies [Q]. *)
Definition race (g h : goroutine) (Q : World ControllerTunnel → Prop) : Prop :=
  ∃ ps w, rtc poolStep (body sampleEnv quietConfig <$> [g; h], sampleWorld) (ps, w) ∧ forallb returned ps = true ∧ Q w.

Lemma race_by order g h Q :
  forallb returned (overlap [g; h] order).1 = true → Q (overlap [g; h] order).2 → race g h Q.
Proof.
  intros Hr HQ. exists (overlap [g; h] order).1, (overlap [g; h] order).2. split; [|done].
  rewrite <-surjective_pairing. apply runSchedule_steps.
Qed.

(** Two connects that overlap: the second has looked at the tunnel before the
    first connected, so all its candidates are refused. The server ends in the
    error state with the tunnel up, and the node that carries it in cooldown. *)
Theorem connects_race :
  race (Connect (post "/api/connect")) (Connect (post "/api/connect")) (λ w,
    State (snapshot w) = StateError ∧ running w = true ∧ Domain.Status <$> nodes w = [NodeCooldown; NodeCooldown]).
Proof. apply (race_by ([0; 1] ++ replicate 40 0 ++ replicate 40 1)%nat); by vm_compute. Qed.

(** A disconnect that overlaps the end of a connect: the snapshot ends connected
    with no tunnel, so the next round of the monitor connects again. *)
Theorem disconnect_lost :
  race (Connect (post "/api/connect")) (DisconnectExit (post "/api/disconnect")) (λ w,
    State (snapshot w) = StateConnected ∧ running w = false ∧
    (exitNeedsRecovery sampleEnv w).1 = true).
Proof. apply (race_by (replicate 14 0 ++ replicate 40 1 ++ replicate 40 0)%nat); by vm_compute. Qed.

(** A classification that overlaps a connect writes back the nodes it read: the
    cooldown of the node that failed is lost, and with it the verified exit
    address of the connection. *)
Theorem cooldown_lost :
  race (ClassifyAll (post "/api/nodes/classify")) (Connect (post "/api/connect")) (λ w,
    State (snapshot w) = StateConnected ∧ running w = true ∧ ExitIP (snapshot w) = "" ∧
    CooldownUntil <$> nodes w = [None; None]).
Proof. apply (race_by (replicate 2 0 ++ replicate 40 1 ++ replicate 40 0)%nat); by vm_compute. Qed.

(** Run one after the other, in either order, each of these pairs leaves the
    server consistent: the races are the interleavings'. *)
Lemma undisturbed :
  let after g h := ((alone sampleEnv quietConfig g;; alone sampleEnv quietConfig h) sampleWorld).2 in
  let consistent w := Bool.eqb (bool_decide (State (snapshot w) = StateConnected)) (running w) = true in
  let c := Connect (post "/api/connect") in
  consistent (after c c) ∧ consistent (after c (DisconnectExit (post ""))) ∧
  consistent (after (DisconnectExit (post "")) c) ∧
  CooldownUntil <$> nodes (after (ClassifyAll (post "")) c) ≠ [None; None] ∧
  CooldownUntil <$> nodes (after c (ClassifyAll (post ""))) ≠ [None; None].
Proof. split_and!; by vm_compute. Qed.

