(* ===== verification/SharedMetadata.v ===== *)
(** * [internal/web/server.go]: the metadata maps that handlers share

    A snapshot is copied by value, its [Metadata] map is not: the copy of a handler and
    the state hold the same map. Here maps are objects in a memory, and the handlers are
    their instructions on the mutex of [AppState] and on these maps, interleaved freely.
    A map that is written while another goroutine writes or ranges over it ends the
    process: Go's runtime stops with a fatal error that [recover] does not catch. An
    assignment therefore takes two steps, between which the map is being written.
    [Metadata] is never nil: [NewServer], [Load] and every handler make it. *)

From S2P Require Import Prelude.

(** ** Memory, mutex, goroutines *)

Definition metadata : Type := gmap string string.
Record mapObject := mkMap { entries : metadata; writing : bool }.

(** The map of [s.state.snapshot], or of the handler's own snapshot. *)
Inductive target := Current | Local.
Inductive instr :=
  | Lock | Unlock | RLock | RUnlock
  | CopySnapshot
  | NewSnapshot (m : metadata)
  | Publish
  | PublishNew (m : metadata)
  | Assign (t : target) (key value : string)
  | RangeNext (t : target).

Record Goroutine := mkGoroutine { todo : list instr; local : option nat; midWrite : bool }.
Record memory := mkMemory {
  pool : list Goroutine;
  writer : option nat;
  readers : gset nat;
  heap : gmap nat mapObject;
  shared : nat
}.

Definition mapAt (c : memory) (r : nat) : mapObject := default (mkMap ∅ false) (heap c !! r).
Definition resolve (g : Goroutine) (c : memory) (t : target) : option nat :=
  match t with Current => Some (shared c) | Local => local g end.

Inductive executed := Blocked | Moved (c : memory) | Fatal (message : string).

Definition setPool (i : nat) (g : Goroutine) (c : memory) : memory :=
  mkMemory (<[i := g]> (pool c)) (writer c) (readers c) (heap c) (shared c).
Definition setMutex w rs (c : memory) := mkMemory (pool c) w rs (heap c) (shared c).
Definition setMap (r : nat) (o : mapObject) (c : memory) : memory :=
  mkMemory (pool c) (writer c) (readers c) (<[r := o]> (heap c)) (shared c).
Definition setShared (r : nat) (c : memory) := mkMemory (pool c) (writer c) (readers c) (heap c) r.
Definition newRef (c : memory) : nat := fresh (dom (heap c)).

(** One step of goroutine [i]. *)
Definition execInstr (i : nat) (g : Goroutine) (ins : instr) (rest : list instr) (c : memory) : executed :=
  let done l c := Moved (setPool i (mkGoroutine rest l false) c) in
  match ins with
  | Lock => if bool_decide (writer c = None ∧ readers c = ∅) then done (local g) (setMutex (Some i) ∅ c) else Blocked
  | Unlock => if bool_decide (writer c = Some i) then done (local g) (setMutex None (readers c) c)
              else Fatal "sync: Unlock of unlocked RWMutex"
  | RLock => if bool_decide (writer c = None) then done (local g) (setMutex None ({[i]} ∪ readers c) c) else Blocked
  | RUnlock => if bool_decide (i ∈ readers c) then done (local g) (setMutex (writer c) (readers c ∖ {[i]}) c)
               else Fatal "sync: RUnlock of unlocked RWMutex"
  | CopySnapshot => done (Some (shared c)) c
  | NewSnapshot m => done (Some (newRef c)) (setMap (newRef c) (mkMap m false) c)
  | Publish => match local g with Some r => done (local g) (setShared r c) | None => Fatal "nil snapshot" end
  | PublishNew m => done (local g) (setShared (newRef c) (setMap (newRef c) (mkMap m false) c))
  | Assign t key value =>
      match resolve g c t with
      | None => Fatal "assignment to entry in nil map"
      | Some r =>
          if midWrite g then done (local g) (setMap r (mkMap (<[key := value]> (entries (mapAt c r))) false) c)
          else if writing (mapAt c r) then Fatal "concurrent map writes"
          else Moved (setPool i (mkGoroutine (todo g) (local g) true) (setMap r (mkMap (entries (mapAt c r)) true) c))
      end
  | RangeNext t =>
      match resolve g c t with
      | None => done (local g) c
      | Some r => if writing (mapAt c r) then Fatal "concurrent map iteration and map write" else done (local g) c
      end
  end.
Definition exec (i : nat) (c : memory) : executed :=
  match pool c !! i with
  | Some g => match todo g with ins :: rest => execInstr i g ins rest c | [] => Blocked end
  | None => Blocked
  end.
Definition memoryStep (c c' : memory) : Prop := ∃ i, exec i c = Moved c'.

Definition startMemory (programs : list (list instr)) (m : metadata) : memory :=
  mkMemory (map (λ p, mkGoroutine p None false) programs) None ∅ {[0%nat := mkMap m false]} 0.

(** A schedule: who moves next. *)
Fixpoint runOrder (order : list nat) (c : memory) : executed :=
  match order with
  | [] => Moved c
  | i :: order => match exec i c with Moved c => runOrder order c | r => r end
  end.

(** ** The handlers *)

(** What each does with the mutex and the maps, on the path that gets furthest; critical
    sections that touch no metadata map are left out. [n] is how often an encoder asks the
    iterator for the next entry. *)
Definition currentSnapshotMaps : list instr := [RLock; CopySnapshot; RUnlock].
Definition setSnapshotNew (m : metadata) : list instr := [Lock; PublishNew m; Unlock].
Definition setSnapshotMaps : list instr := [Lock; Publish; Unlock].
Definition encode (t : target) (n : nat) : list instr := replicate n (RangeNext t).
Definition persistMaps (n : nat) : list instr := currentSnapshotMaps ++ encode Local n.

(** [nodeMaintenanceSnapshot]: writes into the map of [previous] when the tunnel runs,
    with the node's identifier; what it returns is then published. *)
Definition maintenanceWrite (nodeID : string) : list instr :=
  if bool_decide (nodeID = "") then [] else [Assign Local "node_id" nodeID].

Definition statusMaps (n : nat) : list instr := [RLock] ++ encode Current n ++ [RUnlock].
(** [refreshNodes], [classifyNodes] and [probeNodes] while the tunnel runs. *)
Definition maintain (nodeID : string) (n : nat) : list instr :=
  currentSnapshotMaps ++ setSnapshotNew ∅ ++ [Lock] ++ maintenanceWrite nodeID ++ [Publish] ++ encode Current n ++ [Unlock].
(** And while it does not: what is published is new. *)
Definition maintainIdle (n : nat) : list instr :=
  currentSnapshotMaps ++ setSnapshotNew ∅ ++ [Lock; PublishNew ∅] ++ encode Current n ++ [Unlock].
Definition refreshFails (nodeID : string) : list instr :=
  currentSnapshotMaps ++ setSnapshotNew ∅ ++ maintenanceWrite nodeID ++ setSnapshotMaps.
(** [connect] while the tunnel runs, and after connecting. *)
Definition connectRunning (nodeID : string) (n : nat) : list instr :=
  currentSnapshotMaps ++ maintenanceWrite nodeID ++ setSnapshotMaps ++ encode Local n.
Definition connectCandidateMaps (announced verifying m : metadata) (n k : nat) : list instr :=
  setSnapshotNew announced ++ setSnapshotNew verifying ++ [NewSnapshot m; Lock; Publish] ++ encode Current n ++ [Unlock] ++ encode Local k.
Definition disconnectMaps (n : nat) : list instr := setSnapshotNew ∅ ++ persistMaps n.
Definition verifyWrites (country asn passed : string) : list instr :=
  [Assign Current "exit_country" country; Assign Current "exit_asn" asn; Assign Current "verify_passed" passed].
Definition applyVerifyResultMaps (nodeIP country asn passed : string) (n : nat) : list instr :=
  [Lock; Assign Current "node_ip" nodeIP] ++ verifyWrites country asn passed ++ encode Current n ++ [Unlock].
Definition recordVerificationMaps (country asn passed : string) (n : nat) : list instr :=
  [Lock] ++ verifyWrites country asn passed ++ encode Current n ++ [Unlock].

(** ** Discipline *)

Inductive hold := Free | Reading | Writing.
#[export] Instance hold_eq_dec : EqDecision hold.
Proof. solve_decision. Defined.

(** A program that touches maps under the mutex only, writes them under the write lock,
    and gives the mutex back. [has]: its own snapshot is set. *)
Fixpoint guarded (h : hold) (has : bool) (p : list instr) : bool :=
  let usable t := match t with Current => true | Local => has end in
  match p with
  | [] => bool_decide (h = Free)
  | Lock :: p => bool_decide (h = Free) && guarded Writing has p
  | Unlock :: p => bool_decide (h = Writing) && guarded Free has p
  | RLock :: p => bool_decide (h = Free) && guarded Reading has p
  | RUnlock :: p => bool_decide (h = Reading) && guarded Free has p
  | CopySnapshot :: p => bool_decide (h ≠ Free) && guarded h true p
  | NewSnapshot _ :: p => guarded h true p
  | Publish :: p => bool_decide (h = Writing) && has && guarded h has p
  | PublishNew _ :: p => bool_decide (h = Writing) && guarded h has p
  | Assign t _ _ :: p => bool_decide (h = Writing) && usable t && guarded h has p
  | RangeNext t :: p => bool_decide (h ≠ Free) && usable t && guarded h has p
  end.

(** ** Disciplined programs are safe *)

Definition holds (c : memory) (i : nat) : hold :=
  if bool_decide (writer c = Some i) then Writing else if bool_decide (i ∈ readers c) then Reading else Free.

Definition isSet {A} (l : option A) : bool := match l with Some _ => true | None => false end.
Definition assigning (g : Goroutine) (c : memory) (r : nat) : Prop :=
  ∃ t key value rest, todo g = Assign t key value :: rest ∧ resolve g c t = Some r.

Record memoryInv (c : memory) : Prop := {
  mi_guard i g : pool c !! i = Some g → guarded (holds c i) (isSet (local g)) (todo g) = true;
  mi_mid i g : pool c !! i = Some g → midWrite g = true → ∃ r, assigning g c r;
  mi_excl i : writer c = Some i → readers c = ∅;
  mi_map r : writing (mapAt c r) = true →
    ∃ i g, writer c = Some i ∧ pool c !! i = Some g ∧ midWrite g = true ∧ assigning g c r;
  mi_writer i : writer c = Some i → is_Some (pool c !! i);
  mi_readers i : i ∈ readers c → is_Some (pool c !! i)
}.

Lemma holds_writing c i : holds c i = Writing ↔ writer c = Some i.
Proof. unfold holds. repeat case_bool_decide; naive_solver. Qed.
Lemma holds_reading c i : holds c i = Reading → i ∈ readers c.
Proof. unfold holds. by repeat case_bool_decide. Qed.
Lemma holds_free c i : holds c i = Free → writer c ≠ Some i ∧ (i ∉ readers c).
Proof. unfold holds. by repeat case_bool_decide. Qed.

Lemma fresh_unwritten c m r : writing (mapAt (setMap (newRef c) (mkMap m false) c) r) = true → writing (mapAt c r) = true.
Proof.
  unfold mapAt. cbn [setMap heap]. destruct (decide (r = newRef c)) as [->|]; [by rewrite lookup_insert_eq|].
  by rewrite lookup_insert_ne.
Qed.

(** The step of [i] to the rest of its program, with the memory otherwise [c1]. *)
Lemma advance_ok c c1 i g ins rest l :
  memoryInv c → pool c !! i = Some g → todo g = ins :: rest → pool c1 = pool c →
  guarded (holds c1 i) (isSet l) rest = true →
  (∀ j, j ≠ i → holds c1 j = holds c j) →
  (∀ j, writer c1 = Some j → readers c1 = ∅ ∧ (j = i ∨ writer c = Some j)) →
  (∀ j, j ∈ readers c1 → j = i ∨ j ∈ readers c) →
  (∀ r, writing (mapAt c1 r) = true → midWrite g = false ∧ writing (mapAt c r) = true) →
  (∀ j, writer c = Some j → j ≠ i → writer c1 = writer c ∧ shared c1 = shared c) →
  memoryInv (setPool i (mkGoroutine rest l false) c1).
Proof.
  intros [Hg Hm He Hw Hwr Hrd] Hi Ht Hp Hrest Hh Hx Hr Hf Hs.
  assert (∀ j g', (<[i := mkGoroutine rest l false]> (pool c)) !! j = Some g' →
    (j = i ∧ g' = mkGoroutine rest l false) ∨ (j ≠ i ∧ pool c !! j = Some g')) as Hl.
  { intros j g' Hj. destruct (decide (j = i)) as [->|Hne]; [|right; by rewrite list_lookup_insert_ne in Hj].
    left. rewrite list_lookup_insert_eq in Hj by (by eapply lookup_lt_Some). by injection Hj as <-. }
  assert (∀ j, is_Some (pool c !! j) → is_Some ((<[i := mkGoroutine rest l false]> (pool c)) !! j)) as Hk.
  { intros j Hj%lookup_lt_is_Some. apply lookup_lt_is_Some. by rewrite length_insert. }
  constructor; cbn [setPool pool writer readers shared]; rewrite ?Hp.
  - intros j g' [[-> ->]|[Hne Hj]]%Hl; [exact Hrest|]. change (holds _ j) with (holds c1 j). rewrite Hh by done. by apply Hg.
  - intros j g' [[-> ->]|[Hne Hj]]%Hl Hmid; [done|]. destruct (Hm _ _ Hj Hmid) as (r & t & k & v & rest' & Ht' & Hr').
    destruct t; [eexists; exists Current, k, v, rest'; by eauto|exists r, Local, k, v, rest'; by eauto].
  - intros j Hj. by apply (Hx j).
  - intros r Hwt. change (mapAt _ r) with (mapAt c1 r) in Hwt. destruct (Hf r Hwt) as [Hmid Hwc].
    destruct (Hw r Hwc) as (j & g' & Hj & Hgj & Hmj & t & k & v & rest' & Ht' & Hr').
    assert (j ≠ i) as Hne by (intros ->; congruence). destruct (Hs j Hj Hne) as [-> Hsh].
    exists j, g'. rewrite list_lookup_insert_ne by done. split_and!; [done..|].
    exists t, k, v, rest'. split; [done|]. destruct t; cbn [resolve setPool shared] in *; congruence.
  - intros j Hj. apply Hk. destruct (Hx j Hj) as [_ [->|?]]; [by eexists|by apply Hwr].
  - intros j Hj. apply Hk. destruct (Hr j Hj) as [->|?]; [by eexists|by apply Hrd].
Qed.

(** The same when the mutex stays as it is. *)
Lemma advance_same c c1 i g ins rest l :
  memoryInv c → pool c !! i = Some g → todo g = ins :: rest →
  pool c1 = pool c → writer c1 = writer c → readers c1 = readers c → (holds c i ≠ Writing → shared c1 = shared c) →
  guarded (holds c i) (isSet l) rest = true →
  (∀ r, writing (mapAt c1 r) = true → midWrite g = false ∧ writing (mapAt c r) = true) →
  memoryInv (setPool i (mkGoroutine rest l false) c1).
Proof.
  intros Hc Hi Ht Hp Hwr Hrd Hs Hrest Hf.
  assert (∀ j, holds c1 j = holds c j) as Hh by (intros j; unfold holds; by rewrite Hwr, Hrd).
  eapply (advance_ok c c1 i g ins rest l); try done; [by rewrite Hh|intros j; rewrite Hwr, Hrd|intros j; rewrite Hrd|]; auto.
  - intros Hj. split; [by apply (mi_excl _ Hc j)|by right].
  - intros j Hj Hne. split; [done|]. apply Hs. rewrite holds_writing. congruence.
Qed.

Definition isAssign (ins : instr) : bool := match ins with Assign _ _ _ => true | _ => false end.
Lemma not_mid c i g ins rest : memoryInv c → pool c !! i = Some g → todo g = ins :: rest → isAssign ins = false →
  midWrite g = false.
Proof.
  intros Hc Hi Ht Ha. destruct (midWrite g) eqn:Hmid; [|done].
  destruct (mi_mid _ Hc _ _ Hi Hmid) as (r & t & k & v & rest' & Ht' & _). rewrite Ht in Ht'. by injection Ht' as -> _.
Qed.

(** While nobody or somebody else holds the write lock, [i] may not take it. *)
Lemma mutex_ok c i g ins rest w rs :
  memoryInv c → pool c !! i = Some g → todo g = ins :: rest → isAssign ins = false →
  guarded (holds (setMutex w rs c) i) (isSet (local g)) rest = true →
  (∀ j, j ≠ i → holds (setMutex w rs c) j = holds c j) →
  (∀ j, w = Some j → rs = ∅ ∧ (j = i ∨ writer c = Some j)) →
  (∀ j, j ∈ rs → j = i ∨ j ∈ readers c) →
  (∀ j, writer c = Some j → j ≠ i → w = writer c) →
  memoryInv (setPool i (mkGoroutine rest (local g) false) (setMutex w rs c)).
Proof.
  intros Hc Hi Ht Ha Hrest Hh Hx Hr Hw. pose proof (not_mid _ _ _ _ _ Hc Hi Ht Ha).
  eapply (advance_ok c (setMutex w rs c) i g ins rest); try done. cbn [setMutex writer shared]. eauto.
Qed.

(** The first step of an assignment. *)
Lemma begin_write_ok c i g t key value rest r :
  memoryInv c → pool c !! i = Some g → todo g = Assign t key value :: rest → resolve g c t = Some r →
  writer c = Some i → midWrite g = false →
  memoryInv (setPool i (mkGoroutine (todo g) (local g) true) (setMap r (mkMap (entries (mapAt c r)) true) c)).
Proof.
  intros [Hg Hm He Hw Hwr Hrd] Hi Ht Hr Hwi Hmid. set (g1 := mkGoroutine (todo g) (local g) true).
  assert ((<[i := g1]> (pool c)) !! i = Some g1) as Hi1 by (apply list_lookup_insert_eq; by eapply lookup_lt_Some).
  assert (∀ j g', (<[i := g1]> (pool c)) !! j = Some g' → (j = i ∧ g' = g1) ∨ (j ≠ i ∧ pool c !! j = Some g')) as Hl.
  { intros j g' Hj. destruct (decide (j = i)) as [->|Hne]; [|right; by rewrite list_lookup_insert_ne in Hj].
    left. rewrite Hi1 in Hj. by injection Hj as <-. }
  assert (assigning g1 c r) as Has by (exists t, key, value, rest; by destruct t).
  assert (∀ c' g' q, shared c' = shared c → assigning g' c q → assigning g' c' q) as Hsh.
  { intros c' g' q Hs (t' & k & v & rest' & ? & Hq). exists t', k, v, rest'. split; [done|].
    destruct t'; cbn [resolve] in *; congruence. }
  assert (∀ j, is_Some (pool c !! j) → is_Some ((<[i := g1]> (pool c)) !! j)) as Hk
    by (intros j Hj%lookup_lt_is_Some; apply lookup_lt_is_Some; by rewrite length_insert).
  constructor; cbn [setPool setMap pool writer readers].
  - intros j g' [[-> ->]|[Hne Hj]]%Hl; [exact (Hg _ _ Hi)|exact (Hg _ _ Hj)].
  - intros j g' [[-> ->]|[Hne Hj]]%Hl Hmj; [exists r; by apply Hsh|].
    destruct (Hm _ _ Hj Hmj) as [q Hq]. exists q. by apply Hsh.
  - done.
  - intros q Hq. destruct (decide (q = r)) as [->|Hne].
    + exists i, g1. split_and!; [done..|]. by apply Hsh.
    + assert (writing (mapAt c q) = true) as Hqc.
      { revert Hq. unfold mapAt. cbn [setPool setMap heap]. by rewrite lookup_insert_ne. }
      destruct (Hw q Hqc) as (j & g' & Hj & Hgj & Hmj & _). assert (j = i) as -> by congruence. congruence.
  - intros j Hj. auto.
  - intros j Hj. auto.
Qed.

(** The second: then no map is being written. *)
Lemma end_write_ok c i g t key value rest r :
  memoryInv c → pool c !! i = Some g → todo g = Assign t key value :: rest → resolve g c t = Some r →
  writer c = Some i → guarded (holds c i) (isSet (local g)) rest = true →
  memoryInv (setPool i (mkGoroutine rest (local g) false) (setMap r (mkMap (<[key := value]> (entries (mapAt c r))) false) c)).
Proof.
  intros Hc Hi Ht Hr Hwi Hrest. eapply (advance_same c _ i g); try done.
  intros q. unfold mapAt at 1. cbn [setMap heap]. destruct (decide (q = r)) as [->|Hne]; [by rewrite lookup_insert_eq|].
  rewrite lookup_insert_ne by done. change (default _ _) with (mapAt c q). intros Hq. exfalso.
  destruct (mi_map _ Hc q Hq) as (j & g' & Hj & Hgj & _ & t' & k & v & rest' & Ht' & Hr').
  assert (j = i) as -> by congruence. assert (g' = g) as -> by congruence. rewrite Ht in Ht'. injection Ht' as <- _ _ _. congruence.
Qed.

Lemma step_ok c c' i : memoryInv c → exec i c = Moved c' → memoryInv c'.
Proof.
  intros Hc. unfold exec. destruct (pool c !! i) as [g|] eqn:Hi; [|done].
  destruct (todo g) as [|ins rest] eqn:Ht; [done|].
  pose proof (mi_guard _ Hc _ _ Hi) as Hg. rewrite Ht in Hg.
  pose proof (not_mid _ _ _ _ _ Hc Hi Ht) as Hnm.
  assert (∀ r, isAssign ins = false → writing (mapAt c r) = true → midWrite g = false ∧ writing (mapAt c r) = true) as Hkeep by auto.
  destruct ins as [| | | | |m| |m|t key value|t]; cbn [guarded] in Hg; bools; cbn [execInstr].
  - case_bool_decide as Hl; [|done]. destruct Hl as [Hw Hr]. intros [= <-]. eapply mutex_ok; try done.
    + assert (holds (setMutex (Some i) ∅ c) i = Writing) as -> by (by apply holds_writing). done.
    + intros j Hne. unfold holds. cbn [setMutex writer readers]. rewrite Hw, Hr. by rewrite bool_decide_false by congruence.
    + intros j [= <-]. by auto.
    + intros j Hj. congruence.
  - case_bool_decide as Hw; [|done]. intros [= <-]. pose proof (mi_excl _ Hc _ Hw) as Hr. eapply mutex_ok; try done.
    + assert (holds (setMutex None (readers c) c) i = Free) as ->; [|done].
      unfold holds. cbn [setMutex writer readers]. by rewrite Hr.
    + intros j Hne. unfold holds. cbn [setMutex writer readers]. rewrite Hw, Hr. by rewrite (bool_decide_false (Some i = Some j)) by congruence.
    + auto.
    + intros j Hj Hne. congruence.
  - case_bool_decide as Hw; [|done]. intros [= <-]. eapply mutex_ok; try done.
    + assert (holds (setMutex None ({[i]} ∪ readers c) c) i = Reading) as ->; [|done].
      unfold holds. cbn [setMutex writer readers]. rewrite bool_decide_false by done. by rewrite bool_decide_true by set_solver.
    + intros j Hne. unfold holds. cbn [setMutex writer readers]. rewrite Hw. 
      rewrite (bool_decide_ext (j ∈ {[i]} ∪ readers c) (j ∈ readers c)) by set_solver. done.
    + set_solver.
  - case_bool_decide as Hr; [|done]. intros [= <-].
    assert (writer c = None) as Hw.
    { destruct (writer c) as [j|] eqn:Hj; [|done]. apply (mi_excl _ Hc) in Hj. set_solver. }
    eapply mutex_ok; try done.
    + assert (holds (setMutex (writer c) (readers c ∖ {[i]}) c) i = Free) as ->; [|done].
      unfold holds. cbn [setMutex writer readers]. rewrite Hw, !bool_decide_false by (done || set_solver). done.
    + intros j Hne. unfold holds. cbn [setMutex writer readers].
      rewrite (bool_decide_ext (j ∈ readers c ∖ {[i]}) (j ∈ readers c)) by set_solver. done.
    + intros j Hj. congruence.
    + set_solver.
  - intros [= <-]. eapply (advance_same c c); try done. intros r'; exact (Hkeep r' eq_refl).
  - intros [= <-]. eapply (advance_same c); try done. intros r Hr. apply Hkeep; [done|]. exact (fresh_unwritten c m r Hr).
  - destruct (local g) as [r|] eqn:Hl; [|done]. intros [= <-].
    eapply (advance_same c); try done. intros r'; exact (Hkeep r' eq_refl).
  - intros [= <-]. eapply (advance_same c); try done. intros r Hr. apply Hkeep; [done|]. exact (fresh_unwritten c m r Hr).
  - destruct (resolve g c t) as [r|] eqn:Hr; [|done]. assert (writer c = Some i) as Hw by (by apply holds_writing).
    destruct (midWrite g) eqn:Hmid; [intros [= <-]; by eapply end_write_ok|].
    destruct (writing (mapAt c r)); [done|]. intros [= <-]. by eapply begin_write_ok.
  - assert (memoryInv (setPool i (mkGoroutine rest (local g) false) c)) as Hn by (eapply (advance_same c c); try done; intros r'; exact (Hkeep r' eq_refl)).
    destruct (resolve g c t) as [r|]; [|by intros [= <-]]. destruct (writing (mapAt c r)); [done|by intros [= <-]].
Qed.

Lemma start_ok programs m : Forall (λ p, guarded Free false p = true) programs → memoryInv (startMemory programs m).
Proof.
  intros Hp. constructor; cbn [startMemory pool writer readers].
  - intros i g Hi. apply list_lookup_fmap_Some in Hi as (p & -> & Hi). cbn [local isSet todo].
    by apply (Forall_lookup_1 _ _ _ _ Hp Hi).
  - intros i g Hi Hm. apply list_lookup_fmap_Some in Hi as (p & -> & Hi). done.
  - done.
  - intros r. unfold mapAt. cbn [startMemory heap]. destruct (decide (r = 0%nat)) as [->|];
      [by rewrite lookup_singleton_eq|by rewrite lookup_singleton_ne].
  - done.
  - by intros i ?%elem_of_empty.
Qed.

(** Only the holder of the write lock may be writing a map. *)
Lemma access_clean c i g r : memoryInv c → pool c !! i = Some g → holds c i ≠ Free → midWrite g = false →
  writing (mapAt c r) = false.
Proof.
  intros Hc Hi Hh Hm. destruct (writing (mapAt c r)) eqn:Hw; [|done].
  destruct (mi_map _ Hc r Hw) as (j & g' & Hj & Hgj & Hmj & _).
  destruct (decide (j = i)) as [->|Hne]; [congruence|]. exfalso. apply Hh. unfold holds.
  rewrite (mi_excl _ Hc _ Hj), Hj. by rewrite !bool_decide_false by (congruence || set_solver).
Qed.

Lemma exec_safe c i message : memoryInv c → exec i c ≠ Fatal message.
Proof.
  intros Hc. unfold exec. destruct (pool c !! i) as [g|] eqn:Hi; [|done].
  destruct (todo g) as [|ins rest] eqn:Ht; [done|].
  pose proof (mi_guard _ Hc _ _ Hi) as Hg. rewrite Ht in Hg.
  pose proof (not_mid _ _ _ _ _ Hc Hi Ht) as Hnm.
  assert (∀ t, (t = Local → isSet (local g) = true) → ∃ r, resolve g c t = Some r) as Hres.
  { intros [|] Hl; [by eexists|]. cbn [resolve]. specialize (Hl eq_refl). destruct (local g); [by eexists|done]. }
  destruct ins as [| | | | |m| |m|t key value|t]; cbn [guarded] in Hg; bools; cbn [execInstr]; try done.
  - by case_bool_decide.
  - rewrite bool_decide_true by (by apply holds_writing). done.
  - by case_bool_decide.
  - rewrite bool_decide_true by (by apply holds_reading). done.
  - by destruct (local g).
  - destruct (Hres t) as [r ->]; [by intros ->|]. destruct (midWrite g) eqn:Hm; [done|].
    rewrite (access_clean c i g r) by (done || congruence). done.
  - destruct (Hres t) as [r ->]; [by intros ->|].
    rewrite (access_clean c i g r) by (done || by apply Hnm). done.
Qed.

(** While a goroutine has something to do, one of them can go on. *)
Lemma exec_progress c i g : memoryInv c → pool c !! i = Some g → todo g ≠ [] → ∃ j c', exec j c = Moved c'.
Proof.
  intros Hc Hi Hn.
  assert (∀ j g', pool c !! j = Some g' → holds c j ≠ Free ∨ (writer c = None ∧ readers c = ∅) → todo g' ≠ [] →
    ∃ c', exec j c = Moved c') as Hgo.
  { intros j g' Hj Hh Hne. pose proof (exec_safe c j) as Hs. destruct (exec j c) as [|c'|e] eqn:He; [|by exists c'|by destruct (Hs e)].
    exfalso. revert He. unfold exec. rewrite Hj. pose proof (mi_guard _ Hc _ _ Hj) as Hg.
    destruct (todo g') as [|ins rest]; [done|]. 
    destruct ins; cbn [guarded] in Hg; bools; cbn [execInstr]; repeat case_bool_decide; try done; try by destruct (local g').
    - destruct Hh; tauto.
    - destruct Hh as [|[? _]]; [congruence|done].
    - destruct (resolve _ _ _); [|done]. destruct (midWrite g'); [done|]. by destruct (writing _).
    - destruct (resolve _ _ _); [|done]. by destruct (writing _). }
  assert (∀ j, holds c j ≠ Free → is_Some (pool c !! j) → ∃ j c', exec j c = Moved c') as Hholder.
  { intros j Hh [g' Hj]. exists j. apply (Hgo j g' Hj (or_introl Hh)).
    intros He. pose proof (mi_guard _ Hc _ _ Hj) as Hg. rewrite He in Hg. cbn [guarded] in Hg. by bools. }
  destruct (writer c) as [j|] eqn:Hw.
  - apply (Hholder j); [|by apply (mi_writer _ Hc)]. assert (holds c j = Writing) as -> by (by apply holds_writing). done.
  - destruct (decide (readers c = ∅)) as [Hr|Hr].
    + exists i. apply (Hgo i g Hi); [by right|done].
    + apply set_choose_L in Hr as [j Hj]. apply (Hholder j); [|by apply (mi_readers _ Hc)].
      unfold holds. rewrite Hw. by rewrite (bool_decide_true (j ∈ readers c)).
Qed.

(** *** Runs end *)

Definition left (g : Goroutine) : nat := 2 * length (todo g) - Nat.b2n (midWrite g).
Definition work (c : memory) : nat := sum_list_with left (pool c).

Lemma sum_insert (gs : list Goroutine) i g g' : gs !! i = Some g → left g' < left g →
  sum_list_with left (<[i := g']> gs) < sum_list_with left gs.
Proof.
  revert i. induction gs as [|x gs IH]; intros [|i] Hi Hl; try done; cbn [list_insert insert sum_list_with] in *.
  - injection Hi as ->. change (left g' + sum_list_with left gs < left g + sum_list_with left gs). lia.
  - specialize (IH i Hi Hl). change (left x + sum_list_with left (<[i := g']> gs) < left x + sum_list_with left gs). lia.
Qed.

Lemma exec_work c i c' : exec i c = Moved c' → work c' < work c.
Proof.
  unfold exec. destruct (pool c !! i) as [g|] eqn:Hi; [|done]. destruct (todo g) as [|ins rest] eqn:Ht; [done|].
  assert (∀ l c1, pool c1 = pool c → work (setPool i (mkGoroutine rest l false) c1) < work c) as Hd.
  { intros l c1 Hp. unfold work. cbn [setPool pool]. rewrite Hp. apply (sum_insert _ _ g); [done|].
    unfold left. rewrite Ht. cbn [todo midWrite length Nat.b2n]. destruct (midWrite g); cbn [Nat.b2n]; lia. }
  destruct ins; cbn [execInstr]; repeat case_match; try done; try (intros [= <-]; by apply Hd).
  intros [= <-].  unfold work. cbn [setPool setMap pool]. apply (sum_insert _ _ g); [done|].
  unfold left. rewrite Ht. cbn [todo midWrite length Nat.b2n].
  match goal with H : midWrite g = false |- _ => rewrite H end. cbn [Nat.b2n]. lia.
Qed.

(** *** The handlers that keep the discipline *)

Inductive locking : list instr → Prop :=
  | lk_status n : locking (statusMaps n)
  | lk_announce m : locking (setSnapshotNew m)
  | lk_maintain nodeID n : locking (maintain nodeID n)
  | lk_maintainIdle n : locking (maintainIdle n)
  | lk_apply nodeIP country asn passed n : locking (applyVerifyResultMaps nodeIP country asn passed n)
  | lk_record country asn passed n : locking (recordVerificationMaps country asn passed n).

Lemma guarded_encode h has t n p : h ≠ Free → (t = Local → has = true) → guarded h has p = true → guarded h has (encode t n ++ p) = true.
Proof.
  intros Hh Hl Hp. induction n as [|n IH]; [done|]. cbn [encode replicate app guarded].
  rewrite bool_decide_true by done.
  destruct t; cbn [andb]; [exact IH|specialize (Hl eq_refl); subst has; exact IH].
Qed.

Lemma locking_guarded p : locking p → guarded Free false p = true.
Proof.
  destruct 1; try done.
  - apply (guarded_encode Reading false Current n [RUnlock]); done.
  - unfold maintain, maintenanceWrite. destruct (bool_decide (nodeID = ""));
      apply (guarded_encode Writing true Current n [Unlock]); done.
  - apply (guarded_encode Writing true Current n [Unlock]); done.
  - apply (guarded_encode Writing false Current n [Unlock]); done.
  - apply (guarded_encode Writing false Current n [Unlock]); done.
Qed.


(** ** The handlers that do not *)

Definition rangeFatal : string := "concurrent map iteration and map write".

(** [connect] while the tunnel runs writes into the shared map without the mutex: a
    status request at that moment ends the process. *)
Lemma connect_status_fatal nodeID n k m : nodeID ≠ "" →
  runOrder [0; 0; 0; 0; 1; 1]%nat (startMemory [connectRunning nodeID k; statusMaps (S n)] m) = Fatal rangeFatal.
Proof.
  intros Hn. unfold connectRunning, maintenanceWrite. rewrite bool_decide_false by done. reflexivity.
Qed.
(** Two of them write at once. *)
Lemma connects_fatal nodeID k m : nodeID ≠ "" →
  runOrder [0; 0; 0; 0; 1; 1; 1; 1]%nat (startMemory [connectRunning nodeID k; connectRunning nodeID k] m) =
  Fatal "concurrent map writes".
Proof.
  intros Hn. unfold connectRunning, maintenanceWrite. rewrite bool_decide_false by done. reflexivity.
Qed.
(** What a disconnect or a cooldown saves ([persist]) is encoded without the mutex,
    while a verification writes the same map. *)
Lemma persist_verify_fatal country asn passed n k m :
  runOrder [0; 0; 0; 1; 1; 0]%nat (startMemory [persistMaps (S n); recordVerificationMaps country asn passed k] m) = Fatal rangeFatal.
Proof. reflexivity. Qed.
(** So is the answer of a connect. *)
Lemma connect_verify_fatal announced verifying m0 m country asn passed n k :
  runOrder (replicate 10 0 ++ [1; 1; 0])%nat
    (startMemory [connectCandidateMaps announced verifying m 0 (S n); recordVerificationMaps country asn passed k] m0) = Fatal rangeFatal.
Proof. reflexivity. Qed.

(** ** A concrete run *)

Lemma runOrder_steps order c c' : runOrder order c = Moved c' → nsteps memoryStep (length order) c c'.
Proof.
  revert c. induction order as [|i order IH]; intros c; cbn [runOrder length]; [intros [= <-]; constructor|].
  destruct (exec i c) as [|c1|] eqn:He; [done| |done]. intros H%IH. eapply nsteps_l; [by exists i|done].
Qed.

(** A status request, and a verification after it. *)
Definition samplePrograms : list (list instr) := [statusMaps 2; applyVerifyResultMaps "203.0.113.7" "JP" "AS2497" "true" 1].
Definition sampleOrder : list nat := replicate 4 0%nat ++ replicate 11 1%nat.
Definition sampleEnd : memory :=
  mkMemory [mkGoroutine [] None false; mkGoroutine [] None false] None ∅
    {[0%nat := mkMap (<["verify_passed" := "true"]> (<["exit_asn" := "AS2497"]> (<["exit_country" := "JP"]> {["node_ip" := "203.0.113.7"]}))) false]} 0.

