(* ===== verification/Bytesx.v ===== *)
(** * [minivpn/internal/bytesx]: integers, options and padding on the wire

    Big-endian integers, the length-prefixed option strings of the key exchange
    and PKCS#7 padding. A failed [runtimex] assertion is the value [Panic]. *)

From S2P Require Import Prelude GoStrings GoCodec.

(** ** Integers *)

Definition byteAt (v : N) (shift : N) : ascii := byte_of (N.land (N.shiftr v shift) 255).
Definition putUint16 (v : N) : bytes := [byteAt v 8; byteAt v 0].
Definition putUint32 (v : N) : bytes := [byteAt v 24; byteAt v 16; byteAt v 8; byteAt v 0].
Definition WriteUint32 (buf : bytes) (v : N) : bytes := buf ++ putUint32 v.
Definition WriteUint24 (buf : bytes) (v : N) : bytes := buf ++ drop 1 (putUint32 v).

Definition uint16 (a b : ascii) : N := (code a * 256 + code b)%N.
Definition uint32 (a b c d : ascii) : N := (((code a * 256 + code b) * 256 + code c) * 256 + code d)%N.

(** [io.ReadFull] of [n] bytes. *)
Definition readFull (n : nat) (buf : bytes) : result (bytes * bytes) :=
  if (n <=? length buf)%nat then Ok (take n buf, drop n buf)
  else Err (if bool_decide (buf = []) then "EOF" else "unexpected EOF").

Definition ReadUint32 (buf : bytes) : result (N * bytes) :=
  let? (b, rest) := readFull 4 buf in
  match b with
  | [a; b; c; d] => Ok (uint32 a b c d, rest)
  | _ => Err "unexpected EOF"
  end.

(** ** Option strings *)

Definition EncodeOptionStringToBytes (s : bytes) : result bytes :=
  fail_if (65535 <=? N.of_nat (length s))%N with Err "can't encode option:string too large" ;;
  Ok (putUint16 (N.of_nat (length s) + 1) ++ s ++ [byte_of 0]).

Definition DecodeOptionStringFromBytes (b : bytes) : result bytes :=
  match b with
  | h :: l :: b =>
      let length_ := N.to_nat (uint16 h l) in
      fail_if (length b <? length_)%nat
        with Err ("can't decode option: got " +:+ itoa (Z.of_nat (length b)) +:+ ", expected " +:+ itoa (Z.of_nat length_)) ;;
      fail_if bool_decide (b = []) || bool_decide (length_ = 0%nat)
        with Err "can't decode option: zero length encoded option is not possible: we need at least one byte for the trailing \0" ;;
      fail_if negb (bool_decide (b !! (length_ - 1)%nat = Some (byte_of 0)))
        with Err "can't decode option: missing trailing \0" ;;
      Ok (take (length b - 1) b)
  | _ => Err "can't decode option: expected at least two bytes"
  end.

(** ** PKCS#7 *)

Inductive outcome (A : Type) :=
  | Value (a : A)
  | Error (e : string)
  | Panic (e : string).
Arguments Value {A}.
Arguments Error {A}.
Arguments Panic {A}.

Definition BytesPadPKCS7 (b : bytes) (blockSize : Z) : outcome bytes :=
  fail_if (blockSize <=? 0)%Z with Panic "blocksize cannot be negative or zero" ;;
  fail_if (255 <? blockSize)%Z with Error "PKCS#7 padding error" ;;
  let psiz := (blockSize - Z.of_nat (length b) mod blockSize)%Z in
  Value (b ++ replicate (Z.to_nat psiz) (byte_of (Z.to_N psiz))).

Definition BytesUnpadPKCS7 (b : bytes) (blockSize : Z) : outcome bytes :=
  fail_if (255 <? blockSize)%Z with Error "PKCS#7 unpadding error: blockSize too large" ;;
  match last b with
  | None => Error "PKCS#7 unpadding error: passed empty buffer"
  | Some c =>
      let psiz := Z.of_N (code c) in
      fail_if (psiz <=? 0)%Z with Error "PKCS#7 unpadding error: padding size cannot be zero" ;;
      fail_if (blockSize <? psiz)%Z with Error "PKCS#7 unpadding error: padding size cannot be larger than blockSize" ;;
      let off := (Z.of_nat (length b) - psiz)%Z in
      fail_if (off <? 0)%Z || (Z.of_nat (length b) <? off)%Z with Panic "off is out of bounds" ;;
      Value (take (Z.to_nat off) b)
  end.

(** ** Properties *)

Lemma byteAt_code v shift : code (byteAt v shift) = (v / 2 ^ shift mod 256)%N.
Proof.
  unfold byteAt. change 255%N with (N.ones 8). rewrite N.land_ones, N.shiftr_div_pow2.
  apply code_byte_of, N.mod_lt. done.
Qed.

Lemma uint16_put v : (v < 65536)%N → uint16 (byteAt v 8) (byteAt v 0) = v.
Proof.
  intros Hv. unfold uint16. rewrite !byteAt_code. change (2 ^ 8)%N with 256%N. change (2 ^ 0)%N with 1%N.
  zify; Z.to_euclidean_division_equations; lia.
Qed.

Lemma uint32_put v : (v < 4294967296)%N → uint32 (byteAt v 24) (byteAt v 16) (byteAt v 8) (byteAt v 0) = v.
Proof.
  intros Hv. unfold uint32. rewrite !byteAt_code.
  change (2 ^ 24)%N with 16777216%N. change (2 ^ 16)%N with 65536%N. change (2 ^ 8)%N with 256%N. change (2 ^ 0)%N with 1%N.
  zify; Z.to_euclidean_division_equations; lia.
Qed.

Lemma readFull_app n a b : length a = n → readFull n (a ++ b) = Ok (a, b).
Proof.
  intros <-. unfold readFull. rewrite length_app.
  destruct (Nat.leb_spec (length a) (length a + length b)); [|lia]. by rewrite take_app_length, drop_app_length.
Qed.

Lemma readFull_1 c b : readFull 1 (c :: b) = Ok ([c], b).
Proof. reflexivity. Qed.

(** A number written is the number read. *)
Lemma read_write_uint32 v rest : (v < 4294967296)%N → ReadUint32 (WriteUint32 [] v ++ rest) = Ok (v, rest).
Proof. intros Hv. unfold ReadUint32, WriteUint32. simpl app. cbn. by rewrite uint32_put. Qed.

(** Option strings survive encoding when nothing follows them. The decoder looks
    for the terminator where the length says but cuts at the end of the buffer: of
    what the peer pads the string with, all but the last byte ends up in the value. *)
Theorem option_string_padding s padding enc :
  EncodeOptionStringToBytes s = Ok enc →
  DecodeOptionStringFromBytes (enc ++ padding) =
    Ok (match padding with [] => s | _ => s ++ byte_of 0 :: take (length padding - 1) padding end).
Proof.
  unfold EncodeOptionStringToBytes. destruct (N.leb_spec 65535 (N.of_nat (length s))) as [|Hl]; [done|].
  intros [= <-]. cbn [app putUint16 DecodeOptionStringFromBytes]. rewrite uint16_put by lia.
  replace (N.to_nat (N.of_nat (length s) + 1)) with (S (length s)) by lia.
  rewrite <-app_assoc. cbn [app]. rewrite length_app. cbn [length].
  destruct (Nat.ltb_spec (length s + S (length padding)) (S (length s))); [lia|].
  rewrite bool_decide_false by by destruct s. cbn [orb]. rewrite bool_decide_false by done.
  replace (S (length s) - 1)%nat with (length s) by lia.
  rewrite lookup_app_r, Nat.sub_diag, bool_decide_true by (cbn; done || lia). cbn [negb]. f_equal.
  destruct padding as [|p padding].
  - cbn [length]. replace (length s + 1 - 1)%nat with (length s) by lia. by rewrite take_app_length.
  - cbn [length]. replace (length s + S (S (length padding)) - 1)%nat with (length s + S (length padding))%nat by lia.
    rewrite take_app_add. cbn [take]. by replace (S (length padding) - 1)%nat with (length padding) by lia.
Qed.

(** Unpadding undoes padding, for every input and block size. *)
Theorem pkcs7_roundtrip b blockSize :
  (0 < blockSize ≤ 255)%Z →
  ∃ padded, BytesPadPKCS7 b blockSize = Value padded ∧ (Z.of_nat (length padded) mod blockSize = 0)%Z ∧
    (length b < length padded)%nat ∧ BytesUnpadPKCS7 padded blockSize = Value b.
Proof.
  intros Hb. unfold BytesPadPKCS7. destruct (Z.leb_spec blockSize 0), (Z.ltb_spec 255 blockSize); try lia.
  set (psiz := (blockSize - Z.of_nat (length b) mod blockSize)%Z).
  pose proof (Z.mod_pos_bound (Z.of_nat (length b)) blockSize ltac:(lia)) as Hm.
  assert (0 < psiz ≤ blockSize)%Z as Hp by lia. eexists. split; [done|].
  rewrite length_app, length_replicate. split_and!.
  - rewrite Nat2Z.inj_add, Z2Nat.id by lia. unfold psiz.
    rewrite (Z.div_mod (Z.of_nat (length b)) blockSize) at 1 by lia.
    match goal with |- (?x mod _)%Z = _ => replace x with ((Z.of_nat (length b) / blockSize + 1) * blockSize)%Z by lia end.
    by apply Z.mod_mul; lia.
  - lia.
  - unfold BytesUnpadPKCS7. destruct (Z.ltb_spec 255 blockSize); [lia|].
    destruct (Z.to_nat psiz) as [|k] eqn:Ek; [lia|].
    rewrite replicate_S_end, app_assoc, last_snoc, code_byte_of by lia.
    rewrite Z2N.id by lia. destruct (Z.leb_spec psiz 0), (Z.ltb_spec blockSize psiz); try lia.
    rewrite !length_app, length_replicate. cbn [length].
    match goal with |- context [((?l <? 0)%Z || _)] => replace l with (Z.of_nat (length b)) by lia end.
    destruct (Z.ltb_spec (Z.of_nat (length b)) 0); [lia|].
    match goal with |- context [(?x <? ?y)%Z] => destruct (Z.ltb_spec x y); [lia|] end.
    cbn [orb]. rewrite Nat2Z.id, <-app_assoc. by rewrite take_app_length.
Qed.

(** Unpadding stops the program on a buffer shorter than its last byte says. *)
Lemma unpad_panics b blockSize c :
  last b = Some c → (Z.of_nat (length b) < Z.of_N (code c) ≤ blockSize)%Z → (blockSize ≤ 255)%Z →
  BytesUnpadPKCS7 b blockSize = Panic "off is out of bounds".
Proof.
  intros Hl Hc Hb. unfold BytesUnpadPKCS7. rewrite Hl.
  destruct (Z.ltb_spec 255 blockSize), (Z.leb_spec (Z.of_N (code c)) 0), (Z.ltb_spec blockSize (Z.of_N (code c))),
    (Z.ltb_spec (Z.of_nat (length b) - Z.of_N (code c)) 0); try lia. done.
Qed.

Lemma option_string_padding_witness :
  DecodeOptionStringFromBytes
    ([byte_of 0; byte_of 2; byte_of 97; byte_of 0] ++ [byte_of 1; byte_of 2]) = Ok [byte_of 97; byte_of 0; byte_of 1].
Proof. apply (option_string_padding [byte_of 97] [byte_of 1; byte_of 2]). reflexivity. Defined.

Lemma pkcs7_roundtrip_witness :
  ∃ padded, BytesPadPKCS7 [byte_of 97] 16 = Value padded ∧ (Z.of_nat (length padded) mod 16 = 0)%Z ∧
    (length [byte_of 97] < length padded)%nat ∧ BytesUnpadPKCS7 padded 16 = Value [byte_of 97].
Proof. apply (pkcs7_roundtrip [byte_of 97] 16). lia. Defined.
