(* ===== verification/Packet.v ===== *)
(** * [minivpn/internal/model/packet.go]: OpenVPN packets

    Opcodes, packets, [ParsePacket] and [Packet.Bytes]. *)

From S2P Require Import Prelude GoStrings GoCodec Bytesx.

(** ** Opcodes *)

(** An opcode is a byte; the named ones are 1 to 9. *)
Abbreviation Opcode := N (only parsing).
Definition P_CONTROL_HARD_RESET_CLIENT_V1 : Opcode := 1%N.
Definition P_CONTROL_HARD_RESET_SERVER_V1 : Opcode := 2%N.
Definition P_CONTROL_SOFT_RESET_V1 : Opcode := 3%N.
Definition P_CONTROL_V1 : Opcode := 4%N.
Definition P_ACK_V1 : Opcode := 5%N.
Definition P_DATA_V1 : Opcode := 6%N.
Definition P_CONTROL_HARD_RESET_CLIENT_V2 : Opcode := 7%N.
Definition P_CONTROL_HARD_RESET_SERVER_V2 : Opcode := 8%N.
Definition P_DATA_V2 : Opcode := 9%N.

(** The names, without their common prefix. *)
Definition opcodeNames : list (string * Opcode) :=
  [("CONTROL_HARD_RESET_CLIENT_V1", P_CONTROL_HARD_RESET_CLIENT_V1);
   ("CONTROL_HARD_RESET_SERVER_V1", P_CONTROL_HARD_RESET_SERVER_V1);
   ("CONTROL_SOFT_RESET_V1", P_CONTROL_SOFT_RESET_V1); ("CONTROL_V1", P_CONTROL_V1); ("ACK_V1", P_ACK_V1);
   ("DATA_V1", P_DATA_V1); ("CONTROL_HARD_RESET_CLIENT_V2", P_CONTROL_HARD_RESET_CLIENT_V2);
   ("CONTROL_HARD_RESET_SERVER_V2", P_CONTROL_HARD_RESET_SERVER_V2); ("DATA_V2", P_DATA_V2)].
Definition NewOpcodeFromString (s : string) : result Opcode :=
  match list_find (λ e, e.1 = s) opcodeNames with
  | Some (_, (_, op)) => Ok op
  | None => Err "unknown opcode"
  end.
Definition opcodeString (op : Opcode) : string :=
  match list_find (λ e, e.2 = op) opcodeNames with
  | Some (_, (name, _)) => "P_" +:+ name
  | None => "P_UNKNOWN"
  end.

Definition IsControl (op : Opcode) : bool :=
  bool_decide (op ∈ [P_CONTROL_HARD_RESET_CLIENT_V1; P_CONTROL_HARD_RESET_SERVER_V1; P_CONTROL_SOFT_RESET_V1;
                     P_CONTROL_V1; P_CONTROL_HARD_RESET_CLIENT_V2; P_CONTROL_HARD_RESET_SERVER_V2]).
Definition IsData (op : Opcode) : bool := bool_decide (op ∈ [P_DATA_V1; P_DATA_V2]).

(** ** Packets *)

Record Packet := mkPacket {
  pktOpcode : Opcode;
  pktKeyID : N;
  pktPeerID : bytes;
  pktLocalSessionID : bytes;
  pktACKs : list N;
  pktRemoteSessionID : bytes;
  pktID : N;
  pktPayload : bytes
}.
#[export] Instance Packet_eq_dec : EqDecision Packet.
Proof. solve_decision. Defined.

Definition zeros (n : nat) : bytes := replicate n (byte_of 0).
Definition NewPacket (opcode : Opcode) (keyID : N) (payload : bytes) : Packet :=
  mkPacket opcode keyID (zeros 3) (zeros 8) [] (zeros 8) 0 payload.

Definition errParse (what err : string) : string := "openvpn: packet parse error: " +:+ what +:+ ": " +:+ err.

(** [err] with the prefix of the field that could not be read. *)
Definition orParseError {A} (what : string) (r : result A) : result A :=
  match r with Ok a => Ok a | Err e => Err (errParse what e) end.

(** The ACK array: its length is known. *)
Fixpoint readACKs (n : nat) (buf : bytes) : result (list N * bytes) :=
  match n with
  | O => Ok ([], buf)
  | S n => let? (id, buf) := orParseError "cannot parse ack id" (ReadUint32 buf) in
           let? (ids, buf) := readACKs n buf in
           Ok (id :: ids, buf)
  end.

(** [parseControlOrACKPacket]; the packet it returns beside an error is not used. *)
Definition parseControlOrACKPacket (opcode : Opcode) (keyID : N) (payload : bytes) : result Packet :=
  fail_if bool_decide (payload = []) with Err "openvpn: empty payload" ;;
  fail_if negb (IsControl opcode) && negb (bool_decide (opcode = P_ACK_V1))
    with Err "openvpn: packet parse error: expected control/ack packet" ;;
  let? (local, buf) := orParseError "bad sessionID" (readFull 8 payload) in
  let? (n, buf) := orParseError "bad ack" (readFull 1 buf) in
  let ackArrayLen := match n with [c] => N.to_nat (code c) | _ => 0%nat end in
  let? (acks, buf) := readACKs ackArrayLen buf in
  let? (remote, buf) := (if (0 <? ackArrayLen)%nat then orParseError "bad remote sessionID" (readFull 8 buf)
                         else Ok (zeros 8, buf)) in
  let? (id, buf) := (if bool_decide (opcode = P_ACK_V1) then Ok (0%N, buf)
                     else orParseError "bad packetID" (ReadUint32 buf)) in
  Ok (mkPacket opcode keyID (zeros 3) local acks remote id buf).

Definition ParsePacket (buf : bytes) : result Packet :=
  match buf with
  | first :: rest =>
      fail_if bool_decide (rest = []) with Err "openvpn: packet too short" ;;
      let opcode := N.shiftr (code first) 3 in
      let keyID := N.land (code first) 7 in
      let? (peerID, payload) :=
        (if bool_decide (opcode = P_DATA_V2)
         then if (length rest <? 3)%nat then Err "openvpn: packet too short" else Ok (take 3 rest, drop 3 rest)
         else Ok (zeros 3, rest)) in
      if IsControl opcode || bool_decide (opcode = P_ACK_V1) then parseControlOrACKPacket opcode keyID payload
      else Ok (mkPacket opcode keyID peerID (zeros 8) [] (zeros 8) 0 payload)
  | [] => Err "openvpn: packet too short"
  end.

(** The byte of opcode and key ID, as a [byte]. *)
Definition headByte (opcode : Opcode) (keyID : N) : ascii :=
  byte_of (N.lor (N.land (N.shiftl opcode 3) 255) (N.land keyID 7)).

Definition packetBytes (p : Packet) : result bytes :=
  if bool_decide (pktOpcode p = P_DATA_V1) then Ok (headByte (pktOpcode p) (pktKeyID p) :: pktPayload p)
  else if bool_decide (pktOpcode p = P_DATA_V2) then Ok (pktPayload p)
  else
    let nAcks := length (pktACKs p) in
    fail_if (255 <? nAcks)%nat with Err "cannot marshal packet: too many ACKs" ;;
    Ok ([headByte (pktOpcode p) (pktKeyID p)] ++ pktLocalSessionID p ++ [byte_of (N.of_nat nAcks)]
        ++ (pktACKs p ≫= putUint32)
        ++ (if (0 <? nAcks)%nat then pktRemoteSessionID p else [])
        ++ (if bool_decide (pktOpcode p = P_ACK_V1) then [] else putUint32 (pktID p))
        ++ pktPayload p).

Definition pingPayload : bytes :=
  byte_of <$> [42; 24; 123; 243; 100; 30; 180; 203; 7; 237; 45; 10; 152; 31; 199; 72]%N.
Definition IsPing (p : Packet) : bool := bool_decide (pingPayload = pktPayload p).

(** ** Properties *)

(** A packet in the ranges of its fields. *)
Record wfPacket (p : Packet) : Prop := {
  wf_opcode : IsControl (pktOpcode p) = true ∨ pktOpcode p = P_ACK_V1 ∨ pktOpcode p = P_DATA_V1;
  wf_key : (pktKeyID p < 8)%N;
  wf_peer : pktPeerID p = zeros 3;
  wf_local : length (pktLocalSessionID p) = 8%nat;
  wf_acks : Forall (λ id, (id < 4294967296)%N) (pktACKs p) ∧ (length (pktACKs p) ≤ 255)%nat;
  wf_remote : if bool_decide (pktACKs p = []) then pktRemoteSessionID p = zeros 8 else length (pktRemoteSessionID p) = 8%nat;
  wf_id : if bool_decide (pktOpcode p = P_ACK_V1) then pktID p = 0%N else (pktID p < 4294967296)%N;
  (** A data packet has a payload and no control fields. *)
  wf_data : pktOpcode p = P_DATA_V1 →
    pktLocalSessionID p = zeros 8 ∧ pktACKs p = [] ∧ pktID p = 0%N ∧ pktPayload p ≠ []
}.

Lemma opcode_small op : IsControl op = true ∨ op = P_ACK_V1 ∨ op = P_DATA_V1 → (op < 9)%N.
Proof.
  intros [H|[->| ->]]; [|done..]. unfold IsControl in H. bools.
  repeat (apply elem_of_cons in H as [->|H]; [done|]). by apply elem_of_nil in H.
Qed.

Lemma headByte_decodes op key : (op < 32)%N → (key < 8)%N →
  N.shiftr (code (headByte op key)) 3 = op ∧ N.land (code (headByte op key)) 7 = key.
Proof.
  intros Ho Hk.
  assert (∀ v, (v < 256)%N → N.shiftr (code (headByte (v / 8) (v mod 8))) 3 = (v / 8)%N ∧
                             N.land (code (headByte (v / 8) (v mod 8))) 7 = (v mod 8)%N) as Hall.
  { apply (forall_below (λ v, N.shiftr (code (headByte (v / 8) (v mod 8))) 3 = (v / 8)%N ∧
                              N.land (code (headByte (v / 8) (v mod 8))) 7 = (v mod 8)%N) 256).
    vm_compute. reflexivity. }
  specialize (Hall (op * 8 + key)%N ltac:(lia)).
  replace ((op * 8 + key) / 8)%N with op in Hall by (zify; Z.to_euclidean_division_equations; lia).
  replace ((op * 8 + key) mod 8)%N with key in Hall by (zify; Z.to_euclidean_division_equations; lia).
  done.
Qed.

Lemma readACKs_put acks rest :
  Forall (λ id, (id < 4294967296)%N) acks → readACKs (length acks) ((acks ≫= putUint32) ++ rest) = Ok (acks, rest).
Proof.
  induction 1 as [|id acks Hid _ IH]; [done|]. cbn [length readACKs mbind list_bind].
  rewrite <-app_assoc. pose proof (read_write_uint32 id ((acks ≫= putUint32) ++ rest) Hid) as Hr.
  unfold WriteUint32 in Hr. cbn [app] in Hr |- *. rewrite Hr. cbn [orParseError]. by rewrite IH.
Qed.

Lemma parse_control_bytes p :
  wfPacket p → IsControl (pktOpcode p) = true ∨ pktOpcode p = P_ACK_V1 →
  parseControlOrACKPacket (pktOpcode p) (pktKeyID p)
    (pktLocalSessionID p ++ [byte_of (N.of_nat (length (pktACKs p)))] ++ (pktACKs p ≫= putUint32)
     ++ (if (0 <? length (pktACKs p))%nat then pktRemoteSessionID p else [])
     ++ (if bool_decide (pktOpcode p = P_ACK_V1) then [] else putUint32 (pktID p)) ++ pktPayload p) = Ok p.
Proof.
  intros [_ _ Hpeer Hl [Ha Hn] Hr Hid _] Hop. destruct p as [op key peer local acks remote id payload]. cbn in *.
  unfold parseControlOrACKPacket. rewrite bool_decide_false by by destruct local.
  assert (negb (IsControl op) && negb (bool_decide (op = P_ACK_V1)) = false) as ->.
  { destruct Hop as [-> | ->]; [done|]. by rewrite andb_false_r. }
  rewrite readFull_app by done. cbn [orParseError]. rewrite readFull_1. cbn [orParseError].
  rewrite code_byte_of, Nat2N.id by lia. rewrite readACKs_put by done.
  destruct acks as [|a acks]; cbn [length Nat.ltb Nat.leb app].
  - rewrite bool_decide_true in Hr by done. subst remote. case_bool_decide.
    + by subst.
    + pose proof (read_write_uint32 id payload Hid) as Hw. unfold WriteUint32 in Hw. cbn [app] in Hw |- *.
      rewrite Hw. cbn [orParseError]. by subst.
  - rewrite bool_decide_false in Hr by done. rewrite (readFull_app 8 remote) by done. cbn [orParseError]. case_bool_decide.
    + by subst.
    + pose proof (read_write_uint32 id payload Hid) as Hw. unfold WriteUint32 in Hw. cbn [app] in Hw |- *.
      rewrite Hw. cbn [orParseError]. by subst.
Qed.

(** Control, ACK and [P_DATA_V1] packets survive the wire: what [Bytes] writes
    [ParsePacket] reads back, field by field. *)
Theorem packet_roundtrip p :
  wfPacket p → ∃ wire, packetBytes p = Ok wire ∧ ParsePacket wire = Ok p.
Proof.
  intros Hw. pose proof (opcode_small _ (wf_opcode _ Hw)) as Hsmall.
  destruct (headByte_decodes (pktOpcode p) (pktKeyID p)) as [Ho Hk]; [lia|apply Hw|].
  unfold packetBytes. case_bool_decide as Hd.
  - eexists. split; [done|]. destruct (wf_data _ Hw Hd) as (H1 & H2 & H3 & H4).
    unfold ParsePacket. rewrite bool_decide_false, Ho, Hk by done. rewrite Hd. cbn.
    destruct p as [op key peer local acks remote id payload]. cbn in *. pose proof (wf_remote _ Hw) as Hr.
    pose proof (wf_peer _ Hw). cbn in *. subst. rewrite bool_decide_true in Hr by done. by subst.
  - assert (IsControl (pktOpcode p) = true ∨ pktOpcode p = P_ACK_V1) as Hop by (destruct (wf_opcode _ Hw); tauto).
    case_bool_decide as Hv2; [rewrite Hv2 in Hsmall; vm_compute in Hsmall; done|].
    destruct (Nat.ltb_spec 255 (length (pktACKs p))); [pose proof (wf_acks _ Hw); lia|].
    eexists. split; [done|]. cbn [app]. unfold ParsePacket. pose proof (wf_local _ Hw) as Hl.
    rewrite bool_decide_false by by destruct (pktLocalSessionID p).
    rewrite Ho, Hk, (bool_decide_false (pktOpcode p = P_DATA_V2)) by done.
    assert (IsControl (pktOpcode p) || bool_decide (pktOpcode p = P_ACK_V1) = true) as ->.
    { destruct Hop as [-> | ->]; [done|]. by rewrite orb_true_r. }
    by apply parse_control_bytes.
Qed.

Lemma opcode_names_roundtrip op : (1 ≤ op ≤ 9)%N → NewOpcodeFromString (trimPrefix (opcodeString op) "P_") = Ok op.
Proof.
  intros H. assert (∀ v, (v < 9)%N → NewOpcodeFromString (trimPrefix (opcodeString (v + 1)) "P_") = Ok (v + 1)%N) as Hall.
  { intros v Hv. assert (v ∈ (N.of_nat <$> seq 0 9)) as Hin by (apply list_elem_of_fmap; exists (N.to_nat v); rewrite N2Nat.id; split; [done|]; apply elem_of_seq; lia).
    revert v Hin Hv. cbn [seq fmap list_fmap]. intros v Hin _.
    repeat (apply elem_of_cons in Hin as [->|Hin]; [vm_compute; reflexivity|]). by apply elem_of_nil in Hin. }
  replace op with ((op - 1) + 1)%N by lia. apply Hall. lia.
Qed.

(** *** Reading, then writing *)

Lemma putUint32_uint32 a b c d : putUint32 (uint32 a b c d) = [a; b; c; d].
Proof.
  assert (∀ v s x, code (byteAt v s) = code x → byteAt v s = x) as Hb
    by (intros v s x E; by rewrite <-(byte_of_code x), <-E, byte_of_code).
  unfold putUint32, uint32. b64_bounds.
  repeat f_equal; apply Hb; rewrite byteAt_code;
    [change (2 ^ 24)%N with 16777216%N|change (2 ^ 16)%N with 65536%N|change (2 ^ 8)%N with 256%N|change (2 ^ 0)%N with 1%N];
    zify; Z.to_euclidean_division_equations; lia.
Qed.

Lemma uint32_lt a b c d : (uint32 a b c d < 4294967296)%N.
Proof. unfold uint32. b64_bounds. lia. Qed.

Lemma readFull_inv n buf a b : readFull n buf = Ok (a, b) → buf = a ++ b ∧ length a = n.
Proof.
  unfold readFull. destruct (Nat.leb_spec n (length buf)); [|by case_bool_decide]. intros [= <- <-].
  by rewrite take_drop, length_take_le.
Qed.

Lemma ReadUint32_inv buf v rest : ReadUint32 buf = Ok (v, rest) → buf = putUint32 v ++ rest ∧ (v < 4294967296)%N.
Proof.
  unfold ReadUint32. destruct (readFull 4 buf) as [[w rest']|] eqn:E; [|done]. apply readFull_inv in E as [-> Hl].
  destruct w as [|a [|b [|c [|d [|]]]]]; try done. intros [= <- <-]. rewrite putUint32_uint32. split; [done|apply uint32_lt].
Qed.

Lemma readACKs_inv n buf acks rest :
  readACKs n buf = Ok (acks, rest) →
  buf = (acks ≫= putUint32) ++ rest ∧ length acks = n ∧ Forall (λ id, (id < 4294967296)%N) acks.
Proof.
  revert buf acks. induction n as [|n IH]; intros buf acks; simpl; [by intros [= <- <-]|].
  destruct (ReadUint32 buf) as [[id buf1]|] eqn:E; [|done]. cbn [orParseError].
  apply ReadUint32_inv in E as [-> Hid]. destruct (readACKs n buf1) as [[ids buf2]|] eqn:E2; [|done].
  intros [= <- <-]. apply IH in E2 as (-> & <- & Hf). cbn [mbind list_bind length].
  by rewrite <-app_assoc; split_and!; [..|constructor].
Qed.

Lemma headByte_code c : headByte (N.shiftr (code c) 3) (N.land (code c) 7) = c.
Proof.
  revert c. apply byte_ind. intros n Hn. revert n Hn.
  apply (forall_below (λ n, headByte (N.shiftr (code (byte_of n)) 3) (N.land (code (byte_of n)) 7) = byte_of n) 256).
  vm_compute. reflexivity.
Qed.

Lemma orParseError_inv {A} what (r : result A) a : orParseError what r = Ok a → r = Ok a.
Proof. by destruct r. Qed.

Lemma parse_control_inv opcode keyID payload p :
  parseControlOrACKPacket opcode keyID payload = Ok p →
  pktOpcode p = opcode ∧ pktKeyID p = keyID ∧ (length (pktACKs p) ≤ 255)%nat ∧
  payload = pktLocalSessionID p ++ [byte_of (N.of_nat (length (pktACKs p)))] ++ (pktACKs p ≫= putUint32)
     ++ (if (0 <? length (pktACKs p))%nat then pktRemoteSessionID p else [])
     ++ (if bool_decide (opcode = P_ACK_V1) then [] else putUint32 (pktID p)) ++ pktPayload p.
Proof.
  unfold parseControlOrACKPacket. case_bool_decide; [done|]. destruct (negb (IsControl opcode) && _); [done|].
  destruct (orParseError "bad sessionID" _) as [[local buf1]|] eqn:E1; [|done].
  apply orParseError_inv, readFull_inv in E1 as [-> _].
  destruct (orParseError "bad ack" _) as [[n buf2]|] eqn:E2; [|done].
  apply orParseError_inv, readFull_inv in E2 as [-> Hn]. destruct n as [|c [|]]; try done.
  destruct (readACKs _ buf2) as [[acks buf3]|] eqn:E3; [|done]. apply readACKs_inv in E3 as (-> & Hl & _).
  assert (byte_of (N.of_nat (length acks)) = c) as Hc by by rewrite Hl, N2Nat.id, byte_of_code.
  rewrite <-Hl. intros Hp.
  assert (∃ remote buf4, buf3 = (if (0 <? length acks)%nat then remote else []) ++ buf4 ∧
    (let? (id, buf) := (if bool_decide (opcode = P_ACK_V1) then Ok (0%N, buf4) else orParseError "bad packetID" (ReadUint32 buf4)) in
     Ok (mkPacket opcode keyID (zeros 3) local acks remote id buf)) = Ok p) as (remote & buf4 & -> & H').
  { destruct (0 <? length acks)%nat; [|by exists (zeros 8), buf3].
    destruct (orParseError "bad remote sessionID" _) as [[remote buf4]|] eqn:E4; [|done].
    apply orParseError_inv, readFull_inv in E4 as [-> _]. by exists remote, buf4. }
  clear Hp. assert (length acks ≤ 255)%nat as Hle by (rewrite Hl; pose proof (code_lt c); lia).
  case_bool_decide.
  - injection H' as <-. cbn. by rewrite Hc.
  - destruct (orParseError "bad packetID" _) as [[id buf5]|] eqn:E5; [|done].
    apply orParseError_inv, ReadUint32_inv in E5 as [-> _]. injection H' as <-. cbn. by rewrite Hc.
Qed.

(** The format is canonical: a control, ACK or [P_DATA_V1] packet read from the
    wire is written back byte for byte, so no two images mean the same packet. *)
Theorem packet_canonical wire p :
  ParsePacket wire = Ok p → pktOpcode p ≠ P_DATA_V2 → (pktOpcode p ≤ 9)%N → pktOpcode p ≠ 0%N →
  packetBytes p = Ok wire.
Proof.
  unfold ParsePacket. destruct wire as [|c rest]; [done|]. case_bool_decide; [done|].
  set (op := N.shiftr (code c) 3). set (key := N.land (code c) 7).
  assert (headByte op key = c) as Hh by apply headByte_code.
  destruct (bool_decide (op = P_DATA_V2)) eqn:E2.
  { destruct (length rest <? 3)%nat; [done|]. bools. rewrite E2. cbn. by intros [= <-]. }
  bools. destruct (IsControl op || bool_decide (op = P_ACK_V1)) eqn:Ec.
  - intros (Ho & Hk & Hn & ->)%parse_control_inv _ _ _. unfold packetBytes. rewrite Ho, Hk.
    rewrite bool_decide_false. 2: { intros ->. done. }
    rewrite bool_decide_false by done. destruct (Nat.ltb_spec 255 (length (pktACKs p))); [lia|]. by rewrite Hh.
  - intros [= <-] _ Hle H0. cbn in *. unfold packetBytes. cbn. rewrite bool_decide_true; [by rewrite Hh|].
    bools. unfold IsControl in *. bools.
    assert (op = 0 ∨ op = 1 ∨ op = 2 ∨ op = 3 ∨ op = 4 ∨ op = 5 ∨ op = 6 ∨ op = 7 ∨ op = 8 ∨ op = 9)%N as Hop by lia.
    destruct_or! Hop; rewrite Hop in *; try done; exfalso; match goal with H : ¬ (_ ∈ _) |- _ => apply H; decided end.
Qed.

Definition samplePacket : Packet := mkPacket P_CONTROL_V1 2 (zeros 3) (replicate 8 (byte_of 7)) [3; 4]%N (replicate 8 (byte_of 9)) 5 (s2l "hello").

Lemma samplePacket_wf : wfPacket samplePacket.
Proof.
  constructor; [left; reflexivity|reflexivity|reflexivity|reflexivity| |reflexivity|reflexivity|discriminate].
  split; [decided|cbn; lia].
Qed.

Lemma packet_roundtrip_witness :
  ∃ wire, packetBytes samplePacket = Ok wire ∧ ParsePacket wire = Ok samplePacket.
Proof. apply (packet_roundtrip samplePacket). exact samplePacket_wf. Defined.

Lemma packet_canonical_witness :
  ∃ wire, ParsePacket wire = Ok samplePacket ∧ packetBytes samplePacket = Ok wire.
Proof.
  assert (∃ wire, ParsePacket wire = Ok samplePacket) as [wire H].
  { exists (match packetBytes samplePacket with Ok w => w | Err _ => [] end). vm_compute. reflexivity. }
  exists wire. split; [exact H|]. apply (packet_canonical wire samplePacket H); [discriminate|vm_compute; discriminate|discriminate].
Defined.
