(* ===== verification/Session.v ===== *)
(** * [minivpn/internal/session]: the session manager

    The identifiers of a session, the counters of the packets it creates, its keys
    and its negotiation state. The manager's mutex makes each method atomic: here
    each is a function on [Manager]. What [crypto/rand] yields is an argument. *)

From S2P Require Import Prelude GoStrings GoCodec Bytesx Packet.

(** ** [model.NegotiationState] and [model.TunnelInfo] *)

Inductive NegotiationState :=
  | S_ERROR | S_UNDEF | S_INITIAL | S_PRE_START | S_START | S_SENT_KEY | S_GOT_KEY | S_ACTIVE | S_GENERATED_KEYS.
#[export] Instance NegotiationState_eq_dec : EqDecision NegotiationState.
Proof. solve_decision. Defined.

Definition stateNumber (s : NegotiationState) : Z :=
  match s with
  | S_ERROR => -1 | S_UNDEF => 0 | S_INITIAL => 1 | S_PRE_START => 2 | S_START => 3 | S_SENT_KEY => 4
  | S_GOT_KEY => 5 | S_ACTIVE => 6 | S_GENERATED_KEYS => 7
  end.

Record TunnelInfo := mkTunnelInfo {
  tiGW : string; tiIP : string; tiMTU : Z; tiNetMask : string; tiPeerID : Z; tiUsePeerID : bool
}.
Definition zeroTunnelInfo : TunnelInfo := mkTunnelInfo "" "" 0 "" 0 false.

(** ** Keys *)

Record KeySource := mkKeySource { R1 : bytes; R2 : bytes; PreMaster : bytes }.
Definition keySourceBytes (k : KeySource) : bytes := PreMaster k ++ R1 k ++ R2 k.

(** [copy] into an array of [n] bytes. *)
Definition array (n : nat) (b : bytes) : bytes := take n (b ++ zeros n).

(** [read k n] is the [k]-th read of [n] bytes from [crypto/rand]. *)
Definition GenRandomBytes (read : nat → nat → result bytes) (k size : nat) : result bytes :=
  let? b := read k size in Ok (array size b).

Definition errRandomBytes (e : string) : string := "error generating random bytes: " +:+ e.
Definition drawRandom (read : nat → nat → result bytes) (k size : nat) : result bytes :=
  match GenRandomBytes read k size with Ok b => Ok b | Err e => Err (errRandomBytes e) end.
(** The reads start at number [k]. *)
Definition NewKeySource (read : nat → nat → result bytes) (k : nat) : result KeySource :=
  let? random1 := drawRandom read k 32 in
  let? random2 := drawRandom read (k + 1) 32 in
  let? random3 := drawRandom read (k + 2) 48 in
  Ok (mkKeySource random1 random2 random3).

Record DataChannelKey := mkDataChannelKey {
  keyIndex : N; keyReady : bool; keyLocal : option KeySource; keyRemote : option KeySource
}.
Definition zeroKey : DataChannelKey := mkDataChannelKey 0 false None None.
Definition AddRemoteKey (k : KeySource) (dck : DataChannelKey) : result DataChannelKey :=
  fail_if keyReady dck with Err "bad data-channel key: cannot overwrite remote key slot" ;;
  Ok (mkDataChannelKey (keyIndex dck) true (keyLocal dck) (Some k)).
Definition AddLocalKey (k : KeySource) (dck : DataChannelKey) : DataChannelKey :=
  mkDataChannelKey (keyIndex dck) (keyReady dck) (Some k) (keyRemote dck).

(** ** The manager *)

Record Manager := mkManager {
  keyID : N;
  keys : list DataChannelKey;
  localControlPacketID : N;
  localDataPacketID : N;
  localSessionID : bytes;
  negState : NegotiationState;
  remoteSessionID : option bytes;
  tunnelInfo : TunnelInfo
}.

Definition setKeys v m := mkManager (keyID m) v (localControlPacketID m) (localDataPacketID m) (localSessionID m)
  (negState m) (remoteSessionID m) (tunnelInfo m).
Definition setControlID v m := mkManager (keyID m) (keys m) v (localDataPacketID m) (localSessionID m)
  (negState m) (remoteSessionID m) (tunnelInfo m).
Definition setDataID v m := mkManager (keyID m) (keys m) (localControlPacketID m) v (localSessionID m)
  (negState m) (remoteSessionID m) (tunnelInfo m).
Definition setNegState v m := mkManager (keyID m) (keys m) (localControlPacketID m) (localDataPacketID m) (localSessionID m)
  v (remoteSessionID m) (tunnelInfo m).
Definition setRemoteID v m := mkManager (keyID m) (keys m) (localControlPacketID m) (localDataPacketID m) (localSessionID m)
  (negState m) v (tunnelInfo m).
Definition setTunnelInfo v m := mkManager (keyID m) (keys m) (localControlPacketID m) (localDataPacketID m) (localSessionID m)
  (negState m) (remoteSessionID m) v.

(** [ActiveKey]: the index of the key in use; the key itself is shared. *)
Definition ActiveKey (m : Manager) : result nat :=
  let n := length (keys m) in
  fail_if (255 <? n)%nat || (N.of_nat n mod 256 <=? keyID m)%N with Err "bad data-channel key: no such key id" ;;
  Ok (N.to_nat (keyID m)).

(** The active key changed in place. *)
Definition updateActiveKey (f : DataChannelKey → DataChannelKey) (m : Manager) : result Manager :=
  let? i := ActiveKey m in Ok (setKeys (alter f i (keys m)) m).

Definition NewManager (read : nat → nat → result bytes) : result Manager :=
  let m := mkManager 0 [zeroKey] 1 1 (zeros 8) S_UNDEF None zeroTunnelInfo in
  let? randomBytes := GenRandomBytes read 0 8 in
  let m := mkManager (keyID m) (keys m) (localControlPacketID m) (localDataPacketID m) (take 8 randomBytes)
    (negState m) (remoteSessionID m) (tunnelInfo m) in
  let? localKey := NewKeySource read 1 in
  updateActiveKey (AddLocalKey localKey) m.

(** [RemoteSessionID]: nil when it is not set. *)
Definition RemoteSessionID (m : Manager) : bytes := default [] (remoteSessionID m).
Definition IsRemoteSessionIDSet (m : Manager) : bool := bool_decide (remoteSessionID m ≠ None).

Definition NewACKForPacketIDs (ids : list N) (m : Manager) : result Packet :=
  match remoteSessionID m with
  | None => Err "missing remote session ID"
  | Some remote => Ok (mkPacket P_ACK_V1 (keyID m) (zeros 3) (localSessionID m) ids remote 0 [])
  end.

Definition maxUint32 : N := 4294967295.
Definition inc32 (n : N) : N := ((n + 1) mod 4294967296)%N.
Definition ErrExpiredKey : string := "expired key".
Definition LocalDataPacketID (m : Manager) : result N * Manager :=
  let pid := localDataPacketID m in
  fail_if (pid =? maxUint32)%N with (Err ErrExpiredKey, m) ;;
  (Ok pid, setDataID (inc32 pid) m).
Definition localControlPacketIDLocked (m : Manager) : result N * Manager :=
  let pid := localControlPacketID m in
  fail_if (pid =? maxUint32)%N with (Err ErrExpiredKey, m) ;;
  (Ok pid, setControlID (inc32 pid) m).

(** The manager's [NewPacket]. *)
Definition newSessionPacket (opcode : Opcode) (payload : bytes) (m : Manager) : result Packet * Manager :=
  let packet := NewPacket opcode (keyID m) payload in
  let '(pid, m) := if IsControl opcode then localControlPacketIDLocked m else LocalDataPacketID m in
  match pid with
  | Err e => (Err e, m)
  | Ok pid =>
      (Ok (mkPacket (pktOpcode packet) (pktKeyID packet) (pktPeerID packet) (localSessionID m) (pktACKs packet)
             (default (pktRemoteSessionID packet) (remoteSessionID m)) pid (pktPayload packet)), m)
  end.

Definition NewHardResetPacket (m : Manager) : Packet :=
  let packet := NewPacket P_CONTROL_HARD_RESET_CLIENT_V2 (keyID m) [] in
  mkPacket (pktOpcode packet) (pktKeyID packet) (pktPeerID packet) (localSessionID m) (pktACKs packet)
    (pktRemoteSessionID packet) 0 (pktPayload packet).

(** Whether the send on [Ready] happens, and the new state. *)
Definition SetNegotiationState (sns : NegotiationState) (m : Manager) : bool * Manager :=
  (bool_decide (sns = S_GENERATED_KEYS), setNegState sns m).

Definition SetRemoteSessionID (id : bytes) (m : Manager) : outcome Manager :=
  fail_if bool_decide (remoteSessionID m ≠ None) with Panic "SetRemoteSessionID called more than once" ;;
  Value (setRemoteID (Some id) m).

(** ** Tunnel information *)

Section Manager.
Context {U : UnicodeTables}.

Definition optionStep (t : result TunnelInfo) (opt : string) : result TunnelInfo :=
  let? t := t in
  match splitOn 32 opt with
  | k :: v :: _ =>
      fail_if negb (bool_decide (k = "tun-mtu")) with Ok t ;;
      let '(mtu, ok) := atoi v in
      fail_if negb ok with Err ("strconv.Atoi: parsing " +:+ quote v +:+ (if (mtu =? 0)%Z then ": invalid syntax" else ": value out of range")) ;;
      Ok (mkTunnelInfo (tiGW t) (tiIP t) mtu (tiNetMask t) (tiPeerID t) (tiUsePeerID t))
  | _ => Ok t
  end.
Definition newTunnelInfoFromRemoteOptionsString (remoteOpts : string) : result TunnelInfo :=
  foldl optionStep (Ok zeroTunnelInfo) (splitOn 44 remoteOpts).

Definition InitTunnelInfo (remoteOption : string) (m : Manager) : result unit * Manager :=
  match newTunnelInfoFromRemoteOptionsString remoteOption with
  | Err e => (Err e, m)
  | Ok ti => (Ok tt, setTunnelInfo ti m)
  end.
Definition UpdateTunnelInfo (ti : TunnelInfo) (m : Manager) : Manager :=
  setTunnelInfo (mkTunnelInfo (tiGW ti) (tiIP ti) (tiMTU (tunnelInfo m)) (tiNetMask ti) (tiPeerID ti) (tiUsePeerID ti)) m.

(** ** Calls *)

(** The methods that change the manager; [AddRemoteKey] works on the active key. *)
Inductive managerCall :=
  | CallNewPacket (opcode : Opcode) (payload : bytes)
  | CallLocalDataPacketID
  | CallSetNegotiationState (s : NegotiationState)
  | CallSetRemoteSessionID (id : bytes)
  | CallAddRemoteKey (k : KeySource)
  | CallInitTunnelInfo (opts : string)
  | CallUpdateTunnelInfo (ti : TunnelInfo).

(** The identifiers handed out, with whether each belongs to a control packet; a
    panic leaves the manager as it was. *)
Definition managerStep (c : managerCall) (m : Manager) : list (bool * N) * Manager :=
  match c with
  | CallNewPacket op payload =>
      let '(r, m) := newSessionPacket op payload m in
      (match r with Ok p => [(IsControl op, pktID p)] | Err _ => [] end, m)
  | CallLocalDataPacketID =>
      let '(r, m) := LocalDataPacketID m in
      (match r with Ok id => [(false, id)] | Err _ => [] end, m)
  | CallSetNegotiationState s => ([], (SetNegotiationState s m).2)
  | CallSetRemoteSessionID id => ([], match SetRemoteSessionID id m with Value m => m | _ => m end)
  | CallAddRemoteKey k =>
      ([], match ActiveKey m with
           | Err _ => m
           | Ok i => match keys m !! i with
                     | Some dck => match AddRemoteKey k dck with Ok dck => setKeys (<[i := dck]> (keys m)) m | Err _ => m end
                     | None => m
                     end
           end)
  | CallInitTunnelInfo opts => ([], (InitTunnelInfo opts m).2)
  | CallUpdateTunnelInfo ti => ([], UpdateTunnelInfo ti m)
  end.
Fixpoint managerRun (cs : list managerCall) (m : Manager) : list (bool * N) * Manager :=
  match cs with
  | [] => ([], m)
  | c :: cs => let '(ids, m) := managerStep c m in
               let '(ids', m) := managerRun cs m in (ids ++ ids', m)
  end.

(** ** Properties *)

(** *** Packet identifiers *)

Fixpoint idsFrom (c : N) (n : nat) : list N :=
  match n with O => [] | S n => c :: idsFrom (c + 1) n end.

Lemma idsFrom_elem c n i : i ∈ idsFrom c n → (c ≤ i < c + N.of_nat n)%N.
Proof.
  revert c. induction n as [|n IH]; intros c; simpl; [by intros ?%elem_of_nil|].
  intros [->|Hi]%elem_of_cons; [lia|]. specialize (IH _ Hi). lia.
Qed.

Lemma idsFrom_sorted c n : StronglySorted N.lt (idsFrom c n).
Proof.
  revert c. induction n as [|n IH]; intros c; simpl; [constructor|]. constructor; [apply IH|].
  apply Forall_forall. intros i Hi%idsFrom_elem. lia.
Qed.

Definition idsOf (control : bool) (ids : list (bool * N)) : list N := snd <$> filter (λ e, e.1 = control) ids.
Definition counter (control : bool) (m : Manager) : N := if control then localControlPacketID m else localDataPacketID m.

Lemma inc32_small n : (n < maxUint32)%N → inc32 n = (n + 1)%N.
Proof. unfold inc32, maxUint32. intros ?. rewrite N.mod_small; lia. Qed.

(** One call hands out nothing, or the value of one counter, which it advances. *)
Lemma managerStep_spec c m ids m' :
  (localControlPacketID m ≤ maxUint32)%N → (localDataPacketID m ≤ maxUint32)%N → managerStep c m = (ids, m') →
  (ids = [] ∧ localControlPacketID m' = localControlPacketID m ∧ localDataPacketID m' = localDataPacketID m) ∨
  (∃ k, ids = [(k, counter k m)] ∧ (counter k m < maxUint32)%N ∧ counter k m' = (counter k m + 1)%N ∧
        counter (negb k) m' = counter (negb k) m).
Proof.
  intros Hc Hd. destruct c as [op payload| |s|id|k|opts|ti]; cbn [managerStep].
  - unfold newSessionPacket, localControlPacketIDLocked, LocalDataPacketID.
    destruct (IsControl op).
    + destruct (N.eqb_spec (localControlPacketID m) maxUint32); intros [= <- <-]; [by left|].
      right. exists true. cbn. rewrite inc32_small by lia. split_and!; try done. lia.
    + destruct (N.eqb_spec (localDataPacketID m) maxUint32); intros [= <- <-]; [by left|].
      right. exists false. cbn. rewrite inc32_small by lia. split_and!; try done. lia.
  - unfold LocalDataPacketID. destruct (N.eqb_spec (localDataPacketID m) maxUint32); intros [= <- <-]; [by left|].
    right. exists false. cbn. rewrite inc32_small by lia. split_and!; try done. lia.
  - intros [= <- <-]. by left.
  - intros [= <- <-]. left. unfold SetRemoteSessionID. by case_bool_decide.
  - intros [= <- <-]. left. split; [done|]. by repeat case_goal.
  - intros [= <- <-]. left. unfold InitTunnelInfo. by case_goal.
  - intros [= <- <-]. by left.
Qed.

Lemma idsOf_app k a b : idsOf k (a ++ b) = idsOf k a ++ idsOf k b.
Proof. unfold idsOf. by rewrite filter_app, fmap_app. Qed.

Lemma managerRun_ids cs m :
  (localControlPacketID m ≤ maxUint32)%N → (localDataPacketID m ≤ maxUint32)%N →
  (localControlPacketID (managerRun cs m).2 ≤ maxUint32)%N ∧ (localDataPacketID (managerRun cs m).2 ≤ maxUint32)%N ∧
  ∀ k, ∃ n, idsOf k (managerRun cs m).1 = idsFrom (counter k m) n ∧
            counter k (managerRun cs m).2 = (counter k m + N.of_nat n)%N.
Proof.
  revert m. induction cs as [|c cs IH]; intros m Hc Hd; simpl.
  { split_and!; [done..|]. intros k. exists 0%nat. cbn. by rewrite N.add_0_r. }
  destruct (managerStep c m) as [ids m1] eqn:E.
  destruct (managerStep_spec c m ids m1 Hc Hd E) as [(-> & E1 & E2)|(k & -> & Hlt & Hk & Hnk)].
  - rewrite <-E1 in Hc. rewrite <-E2 in Hd. specialize (IH m1 Hc Hd).
    destruct (managerRun cs m1) as [ids' m2]. destruct IH as (H1 & H2 & H3). cbn [fst snd app] in *. split_and!; [done..|].
    intros k. destruct (H3 k) as (n & Hn & Hf). exists n. unfold counter in *. by rewrite <-E1, <-E2.
  - assert (∀ k, (counter k m1 ≤ maxUint32)%N) as Hle.
    { intros k'. destruct (decide (k' = k)) as [->|Hne]; [lia|].
      assert (k' = negb k) as -> by (by destruct k, k'). rewrite Hnk. by destruct k. }
    specialize (IH m1 (Hle true) (Hle false)).
    destruct (managerRun cs m1) as [ids' m2]. destruct IH as (H1 & H2 & H3). cbn [fst snd] in *. split_and!; [done..|].
    intros k'. destruct (H3 k') as (n & Hn & Hf). rewrite idsOf_app. unfold idsOf at 1. cbn.
    destruct (decide (k = k')) as [->|Hne]; cbn.
    + exists (S n). cbn. rewrite Hn, Hf, Hk. split; [done|lia].
    + assert (k' = negb k) as -> by (by destruct k, k'). exists n. by rewrite Hn, Hf, Hnk.
Qed.

(** Whatever is called on a manager, the control packets it creates are numbered
    consecutively and so are the data packets: no number is used twice, none wraps
    around; when the numbers run out the call fails and nothing changes. *)
Theorem packet_ids_consecutive cs m k :
  (localControlPacketID m ≤ maxUint32)%N → (localDataPacketID m ≤ maxUint32)%N →
  (∃ n, idsOf k (managerRun cs m).1 = idsFrom (counter k m) n ∧
        counter k (managerRun cs m).2 = (counter k m + N.of_nat n)%N ∧ (counter k m + N.of_nat n ≤ maxUint32)%N) ∧
  StronglySorted N.lt (idsOf k (managerRun cs m).1) ∧
  (∀ op payload, IsControl op = k → counter k m = maxUint32 → newSessionPacket op payload m = (Err ErrExpiredKey, m)).
Proof.
  intros Hc Hd. destruct (managerRun_ids cs m Hc Hd) as (H1 & H2 & H3). destruct (H3 k) as (n & Hn & Hf).
  split_and!.
  - exists n. split_and!; [done..|]. rewrite <-Hf. by destruct k.
  - rewrite Hn. apply idsFrom_sorted.
  - intros op payload <- Hk. unfold newSessionPacket, localControlPacketIDLocked, LocalDataPacketID.
    destruct (IsControl op); cbn in Hk; rewrite Hk; done.
Qed.

End Manager.

(** ** Witnesses *)

Definition sampleManager : Manager := mkManager 0 [zeroKey] 1 1 (zeros 8) S_UNDEF None zeroTunnelInfo.

Lemma packet_ids_consecutive_witness :
  let cs := [CallNewPacket P_CONTROL_V1 []; CallLocalDataPacketID; CallNewPacket P_CONTROL_V1 []] in
  idsOf true (managerRun (U := asciiTables) cs sampleManager).1 = [1; 2]%N ∧
  StronglySorted N.lt (idsOf true (managerRun (U := asciiTables) cs sampleManager).1).
Proof.
  intros cs. split; [vm_compute; reflexivity|].
  apply (packet_ids_consecutive (U := asciiTables) cs sampleManager true); vm_compute; discriminate.
Defined.
