(* ===== verification/Reliable.v ===== *)
(** * [minivpn/internal/reliabletransport]: the receiver

    The receiver reorders control packets for the TLS layer. It is confined to one
    goroutine in the code; here it is a state with one function per operation, and
    the body of its worker's loop is a function of the state and of what arrived.
    [sort.Sort] sorts at most twelve elements here, which it does by insertion:
    [sliceStable]. *)

From S2P Require Import Prelude GoSort GoStrings GoCodec Domain Bytesx Packet.

Definition RELIABLE_SEND_BUFFER_SIZE : nat := 6.
Definition RELIABLE_RECV_BUFFER_SIZE : nat := 12.
Definition MAX_ACKS_PER_OUTGOING_PACKET : nat := 4.
Definition ACK_SET_CAPACITY : nat := 8.
Definition MAX_BACKOFF_SECONDS : Z := 60.
Definition SENDER_TICKER_MS : Z := 60000.

(** [PacketID] arithmetic: 32 bits. *)
Definition add32 (a b : N) : N := ((a + b) mod 4294967296)%N.
Definition sub32 (a b : N) : N := ((a + 4294967296 - b) mod 4294967296)%N.

Definition idLess (p q : Packet) : bool := (pktID p <? pktID q)%N.

(** ** The receiver *)

Record reliableReceiver := mkReceiver { incomingPackets : list Packet; lastConsumed : N }.
Definition newReliableReceiver : reliableReceiver := mkReceiver [] 0.

Definition MaybeInsertIncoming (p : Packet) (r : reliableReceiver) : bool * reliableReceiver :=
  if (RELIABLE_RECV_BUFFER_SIZE <=? length (incomingPackets r))%nat then (false, r)
  else (true, mkReceiver (incomingPackets r ++ [p]) (lastConsumed r)).

(** The loop of [NextIncomingSequence] over the sorted packets: the packets that
    are ready, those that are kept, the last packet consumed. *)
Fixpoint readyLoop (last : N) (pkts : list Packet) : list Packet * list Packet * N :=
  match pkts with
  | [] => ([], [], last)
  | p :: rest =>
      if (sub32 (pktID p) last =? 1)%N then
        let '(ready, keep, last') := readyLoop (add32 last 1) rest in (p :: ready, keep, last')
      else if (last <? pktID p)%N then ([], p :: rest, last)
      else readyLoop last rest
  end.
Definition NextIncomingSequence (r : reliableReceiver) : list Packet * reliableReceiver :=
  let '(ready, keep, last) := readyLoop (lastConsumed r) (sliceStable idLess (incomingPackets r)) in
  (ready, mkReceiver keep last).

Record incomingPacketSeen := mkSeen { seenID : option N; seenACKs : option (list N) }.
Definition newIncomingPacketSeen (p : Packet) : incomingPacketSeen :=
  if bool_decide (pktOpcode p = P_ACK_V1) then mkSeen None (Some (pktACKs p))
  else mkSeen (Some (pktID p)) (Some (pktACKs p)).

(** [remote] and [local] are the session's identifiers of the peer and of us. *)
Definition incomingSanityChecks (remote local : bytes) (p : Packet) : bool :=
  fail_if negb (bool_decide (pktLocalSessionID p = remote)) with false ;;
  fail_if bool_decide (pktACKs p = []) with true ;;
  bool_decide (pktRemoteSessionID p = local).

(** One packet in [moveUpWorker]: what the sender is told, what goes up. *)
Definition moveUp (remote local : bytes) (p : Packet) (r : reliableReceiver)
    : option incomingPacketSeen * list Packet * reliableReceiver :=
  fail_if negb (incomingSanityChecks remote local p) with (None, [], r) ;;
  let seen := Some (newIncomingPacketSeen p) in
  fail_if negb (bool_decide (pktOpcode p = P_CONTROL_V1)) with (seen, [], r) ;;
  let '(inserted, r) := MaybeInsertIncoming p r in
  fail_if negb inserted with (seen, [], r) ;;
  let '(ready, r) := NextIncomingSequence r in
  (seen, ready, r).

(** A stream of packets: everything that went up, in order. *)
Fixpoint moveUps (remote local : bytes) (ps : list Packet) (r : reliableReceiver) : list Packet * reliableReceiver :=
  match ps with
  | [] => ([], r)
  | p :: ps => let '(_, up, r) := moveUp remote local p r in
               let '(ups, r) := moveUps remote local ps r in (up ++ ups, r)
  end.

(** *** Properties of the receiver *)

(** [n] consecutive identifiers after [last]. *)
Fixpoint after (last : N) (n : nat) : list N :=
  match n with O => [] | S n => add32 last 1 :: after (add32 last 1) n end.
Fixpoint afterLast (last : N) (n : nat) : N :=
  match n with O => last | S n => afterLast (add32 last 1) n end.

Lemma after_app last m n : after last (m + n) = after last m ++ after (afterLast last m) n.
Proof. revert last. induction m as [|m IH]; intros last; simpl; [done|]. by rewrite IH. Qed.
Lemma afterLast_add last m n : afterLast last (m + n) = afterLast (afterLast last m) n.
Proof. revert last. induction m as [|m IH]; intros last; simpl; [done|]. apply IH. Qed.

Lemma sub32_one a last : (a < 4294967296)%N → (last < 4294967296)%N → sub32 a last = 1%N → a = add32 last 1.
Proof.
  unfold sub32, add32. intros Ha Hl H.
  destruct (N.ltb_spec a last).
  - rewrite N.mod_small in H by lia. assert (last = 4294967295 ∧ a = 0)%N as [-> ->] by lia. done.
  - replace (a + 4294967296 - last)%N with ((a - last) + 1 * 4294967296)%N in H by lia.
    rewrite N.Div0.mod_add, N.mod_small in H by lia. rewrite N.mod_small; lia.
Qed.

Definition id32 (p : Packet) : Prop := (pktID p < 4294967296)%N.

Lemma add32_lt a b : (add32 a b < 4294967296)%N.
Proof. by apply N.mod_lt. Qed.

Lemma readyLoop_spec last pkts ready keep last' :
  (last < 4294967296)%N → Forall id32 pkts → readyLoop last pkts = (ready, keep, last') →
  pktID <$> ready = after last (length ready) ∧ last' = afterLast last (length ready) ∧ (last' < 4294967296)%N ∧
  ready ⊆ pkts ∧ suffix keep pkts.
Proof.
  revert last ready keep. induction pkts as [|p pkts IH]; intros last ready keep Hl Hp; simpl.
  { intros [= <- <- <-]. by split_and!. }
  apply Forall_cons in Hp as [Hid Hp]. destruct (N.eqb_spec (sub32 (pktID p) last) 1) as [E|E].
  - apply sub32_one in E; [|done..]. destruct (readyLoop (add32 last 1) pkts) as [[rd kp] l'] eqn:Er.
    intros [= <- <- <-]. destruct (IH _ _ _ (add32_lt _ _) Hp Er) as (H1 & H2 & H3 & H4 & H5). split_and!.
    + cbn. by rewrite E, H1.
    + done.
    + done.
    + by apply list_subseteq_skip.
    + by apply suffix_cons_r.
  - destruct (N.ltb_spec last (pktID p)).
    + intros [= <- <- <-]. split_and!; try done. apply list_subseteq_nil.
    + intros Er. destruct (IH _ _ _ Hl Hp Er) as (H1 & H2 & H3 & H4 & H5). split_and!; try done.
      * by apply list_subseteq_cons.
      * by apply suffix_cons_r.
Qed.

Definition receiverOk (r : reliableReceiver) : Prop :=
  (lastConsumed r < 4294967296)%N ∧ Forall id32 (incomingPackets r).

Lemma moveUp_spec remote local p r seen up r' :
  receiverOk r → id32 p → moveUp remote local p r = (seen, up, r') →
  receiverOk r' ∧ pktID <$> up = after (lastConsumed r) (length up) ∧
  lastConsumed r' = afterLast (lastConsumed r) (length up) ∧
  (∀ q, q ∈ up ∨ q ∈ incomingPackets r' → q = p ∨ q ∈ incomingPackets r).
Proof.
  intros [Hl Hr] Hp. unfold moveUp, MaybeInsertIncoming, NextIncomingSequence.
  assert (∀ s : option incomingPacketSeen, (s, [], r) = (seen, up, r') → receiverOk r' ∧
    pktID <$> up = after (lastConsumed r) (length up) ∧ lastConsumed r' = afterLast (lastConsumed r) (length up) ∧
    (∀ q, q ∈ up ∨ q ∈ incomingPackets r' → q = p ∨ q ∈ incomingPackets r)) as Hsame.
  { intros s [= _ <- <-]. split_and!; try done. intros q [Hq|Hq]; [by apply elem_of_nil in Hq|by right]. }
  destruct (negb (incomingSanityChecks remote local p)); [apply Hsame|].
  destruct (negb (bool_decide (pktOpcode p = P_CONTROL_V1))); [apply Hsame|].
  destruct (RELIABLE_RECV_BUFFER_SIZE <=? length (incomingPackets r))%nat; [apply Hsame|]. cbn [negb incomingPackets lastConsumed].
  set (pkts := sliceStable idLess (incomingPackets r ++ [p])).
  assert (Forall id32 pkts) as Hpk by (unfold pkts; rewrite sliceStable_perm; apply Forall_app; by split; [|constructor]).
  destruct (readyLoop (lastConsumed r) pkts) as [[ready keep] last'] eqn:E. intros [= _ <- <-].
  destruct (readyLoop_spec _ _ _ _ _ Hl Hpk E) as (H1 & H2 & H3 & H4 & H5). split_and!; try done.
  - cbn. destruct H5 as [pre E5]. rewrite E5 in Hpk. by apply Forall_app in Hpk as [_ ?].
  - intros q Hq. assert (q ∈ pkts) as Hin.
    { destruct Hq as [Hq|Hq]; [by apply H4|]. cbn in Hq. destruct H5 as [pre ->]. apply elem_of_app. by right. }
    unfold pkts in Hin. rewrite elem_of_sliceStable, elem_of_app, list_elem_of_singleton in Hin. tauto.
Qed.

Lemma moveUps_spec remote local ps r ups r' :
  receiverOk r → Forall id32 ps → moveUps remote local ps r = (ups, r') →
  receiverOk r' ∧ pktID <$> ups = after (lastConsumed r) (length ups) ∧
  lastConsumed r' = afterLast (lastConsumed r) (length ups) ∧
  (∀ q, q ∈ ups → q ∈ ps ∨ q ∈ incomingPackets r).
Proof.
  revert r ups. induction ps as [|p ps IH]; intros r ups Hr Hps; simpl.
  { intros [= <- <-]. split_and!; try done. by intros q ?%elem_of_nil. }
  apply Forall_cons in Hps as [Hp Hps]. destruct (moveUp remote local p r) as [[seen up] r1] eqn:E1.
  destruct (moveUps remote local ps r1) as [ups1 r2] eqn:E2. intros [= <- <-].
  destruct (moveUp_spec _ _ _ _ _ _ _ Hr Hp E1) as (Hr1 & Hi1 & Hl1 & Hin1).
  destruct (IH r1 ups1 Hr1 Hps E2) as (Hr2 & Hi2 & Hl2 & Hin2). rewrite Hl1 in Hi2, Hl2.
  rewrite fmap_app, length_app, after_app, afterLast_add, Hi1, Hi2. split_and!; try done.
  intros q [Hq|Hq]%elem_of_app.
  - destruct (Hin1 q (or_introl Hq)) as [->|?]; [left; left|by right].
  - destruct (Hin2 q Hq) as [?|Hin]; [left; by right|]. destruct (Hin1 q (or_intror Hin)) as [->|?]; [left; left|by right].
Qed.

Lemma after_lookup last n i :
  (last + N.of_nat n < 4294967296)%N → (i < n)%nat → after last n !! i = Some (last + N.of_nat i + 1)%N.
Proof.
  revert last i. induction n as [|n IH]; intros last i Hn Hi; [lia|]. simpl.
  assert (add32 last 1 = last + 1)%N as -> by (unfold add32; rewrite N.mod_small; lia).
  destruct i as [|i]; [simpl; f_equal; lia|]. simpl. rewrite IH by lia. f_equal. lia.
Qed.

(** Whatever arrives, in whatever order and however often, the TLS layer is
    handed the packets 1, 2, 3, ... in this order, each once, and only packets
    that arrived. *)
Theorem delivered_in_order remote local ps ups r' :
  Forall id32 ps → moveUps remote local ps newReliableReceiver = (ups, r') →
  ups ⊆ ps ∧ pktID <$> ups = after 0 (length ups) ∧
  ∀ i p, (N.of_nat (length ups) < 4294967296)%N → ups !! i = Some p → pktID p = (N.of_nat i + 1)%N.
Proof.
  intros Hps H. assert (receiverOk newReliableReceiver) as Hr by (split; [done|constructor]).
  destruct (moveUps_spec _ _ _ _ _ _ Hr Hps H) as (_ & Hi & _ & Hin).
  split_and!; [|done|].
  - intros q Hq. destruct (Hin q Hq) as [?|Hx]; [done|by apply elem_of_nil in Hx].
  - intros i p Hn Hp. cbn in Hi. assert ((pktID <$> ups) !! i = Some (pktID p)) as Hp' by by rewrite list_lookup_fmap, Hp.
    rewrite Hi, after_lookup in Hp'; [|lia|by eapply lookup_lt_Some]. injection Hp' as <-. lia.
Qed.

(** *** Nothing is withheld *)

(** The packet goes to the reordering queue. *)
Definition accepted (remote local : bytes) (p : Packet) : bool :=
  incomingSanityChecks remote local p && bool_decide (pktOpcode p = P_CONTROL_V1).

(** No packet found the queue full. *)
Fixpoint neverFull (remote local : bytes) (ps : list Packet) (r : reliableReceiver) : bool :=
  match ps with
  | [] => true
  | p :: ps => (negb (accepted remote local p) || (length (incomingPackets r) <? RELIABLE_RECV_BUFFER_SIZE)%nat)
               && neverFull remote local ps (moveUp remote local p r).2
  end.

Definition idLe (p q : Packet) : Prop := (pktID p ≤ pktID q)%N.

Lemma readyLoop_complete last pkts ready keep last' :
  (last < 4294967295)%N → Forall (λ p, (pktID p < 4294967295)%N) pkts → StronglySorted idLe pkts →
  readyLoop last pkts = (ready, keep, last') →
  (last ≤ last' < 4294967295)%N ∧ Forall (λ p, (last' + 1 < pktID p)%N) keep ∧
  (∀ p, p ∈ pkts → (pktID p ≤ last')%N ∨ p ∈ keep) ∧ keep ⊆ pkts.
Proof.
  revert last ready keep. induction pkts as [|p pkts IH]; intros last ready keep Hl Hp Hs; simpl.
  { intros [= <- <- <-]. split_and!; try done. by intros p ?%elem_of_nil. }
  apply Forall_cons in Hp as [Hid Hp]. inversion_clear Hs as [|? ? Hs' Hle].
  destruct (N.eqb_spec (sub32 (pktID p) last) 1) as [E|E].
  - apply sub32_one in E; [|lia..]. unfold add32 in *. rewrite N.mod_small in * by lia.
    destruct (readyLoop (last + 1) pkts) as [[rd kp] l'] eqn:Er. intros [= <- <- <-].
    destruct (IH (last + 1)%N rd kp ltac:(lia) Hp Hs' Er) as (H1 & H2 & H3 & H4). split_and!; try done; [lia|lia| |].
    + intros q [->|Hq]%elem_of_cons; [left; lia|by apply H3].
    + by apply list_subseteq_cons.
  - destruct (N.ltb_spec last (pktID p)).
    + intros [= <- <- <-]. split_and!; try done; [|by right].
      assert (last + 1 < pktID p)%N as Hgt.
      { destruct (decide (pktID p = last + 1)%N) as [Ex|]; [|lia]. exfalso. apply E. unfold sub32. rewrite Ex.
        replace (last + 1 + 4294967296 - last)%N with (1 + 1 * 4294967296)%N by lia. by rewrite N.Div0.mod_add. }
      constructor; [done|]. eapply Forall_impl; [exact Hle|]. intros q. unfold idLe. lia.
    + intros Er. destruct (IH _ _ _ Hl Hp Hs' Er) as (H1 & H2 & H3 & H4). split_and!; [lia|lia|done|..].
      * intros q [->|Hq]%elem_of_cons; [left; lia|by apply H3].
      * by apply list_subseteq_cons.
Qed.

#[export] Instance packetID_swo : StrictWeakOrder idLess.
Proof.
  split; unfold idLess; intros; rewrite ?N.ltb_lt, ?N.ltb_ge in *; try lia; apply N.ltb_irrefl.
Qed.

Lemma sorted_ids l : StronglySorted idLe (sliceStable idLess l).
Proof.
  induction (sliceStable_sorted idLess l) as [|p l' Hs IH Hx]; constructor; [done|].
  eapply Forall_impl; [exact Hx|]. intros q. unfold notAfter, idLess, idLe. by rewrite N.ltb_ge.
Qed.

(** [seen] holds the accepted packets so far. *)
Record nothingWithheld (seen : list Packet) (r : reliableReceiver) : Prop := {
  nw_last : (lastConsumed r < 4294967295)%N;
  nw_small : Forall (λ p, (pktID p < 4294967295)%N) (incomingPackets r);
  nw_gap : Forall (λ p, (lastConsumed r + 1 < pktID p)%N) (incomingPackets r);
  nw_seen : ∀ p, p ∈ seen → (pktID p ≤ lastConsumed r)%N ∨ p ∈ incomingPackets r
}.

Lemma nothingWithheld_step remote local seen p r :
  nothingWithheld seen r → (pktID p < 4294967295)%N →
  negb (accepted remote local p) || (length (incomingPackets r) <? RELIABLE_RECV_BUFFER_SIZE)%nat = true →
  nothingWithheld (if accepted remote local p then p :: seen else seen) (moveUp remote local p r).2.
Proof.
  intros [Hl Hsm Hg Hs] Hp Hf. unfold accepted, moveUp, MaybeInsertIncoming, NextIncomingSequence in *.
  destruct (incomingSanityChecks remote local p); [|done]. cbn [negb andb orb] in *.
  destruct (bool_decide (pktOpcode p = P_CONTROL_V1)); [|done]. cbn [negb orb] in *.
  apply Nat.ltb_lt in Hf. destruct (Nat.leb_spec RELIABLE_RECV_BUFFER_SIZE (length (incomingPackets r))); [lia|].
  cbn [negb incomingPackets lastConsumed].
  set (pkts := sliceStable idLess (incomingPackets r ++ [p])).
  assert (Forall (λ p, (pktID p < 4294967295)%N) pkts) as Hpk
    by (unfold pkts; rewrite sliceStable_perm; apply Forall_app; by split; [|constructor]).
  destruct (readyLoop (lastConsumed r) pkts) as [[ready keep] last'] eqn:E. cbn [snd].
  destruct (readyLoop_complete _ _ _ _ _ Hl Hpk (sorted_ids _) E) as (H1 & H2 & H3 & H4).
  assert (∀ q, q ∈ incomingPackets r ++ [p] → q ∈ pkts) as Hin by (intros q; unfold pkts; by rewrite elem_of_sliceStable).
  split; cbn; [lia| |done|].
  - rewrite Forall_forall in Hpk |- *. intros q Hq. by apply Hpk, H4.
  - intros q [->|Hq]%elem_of_cons; [apply H3, Hin, elem_of_app; right; by left|].
    destruct (Hs q Hq) as [?|Hq']; [left; lia|]. apply H3, Hin, elem_of_app. by left.
Qed.

Lemma nothingWithheld_run remote local ps seen r :
  nothingWithheld seen r → Forall (λ p, (pktID p < 4294967295)%N) ps → neverFull remote local ps r = true →
  ∃ seen', nothingWithheld seen' (moveUps remote local ps r).2 ∧
    ∀ p, p ∈ seen ∨ (p ∈ ps ∧ accepted remote local p = true) → p ∈ seen'.
Proof.
  revert seen r. induction ps as [|p ps IH]; intros seen r Hn Hps; simpl.
  { intros _. exists seen. split; [done|]. intros q [?|[Hq _]]; [done|by apply elem_of_nil in Hq]. }
  apply Forall_cons in Hps as [Hp Hps]. intros [Hf Hnf]%andb_true_iff.
  pose proof (nothingWithheld_step remote local seen p r Hn Hp Hf) as Hn1.
  destruct (IH _ _ Hn1 Hps Hnf) as (seen' & Hn' & Hin).
  destruct (moveUp remote local p r) as [[s up] r1] eqn:E1. cbn [snd] in *.
  destruct (moveUps remote local ps r1) as [ups r2]. cbn [snd] in *. exists seen'. split; [done|].
  intros q [Hq|[[->|Hq]%elem_of_cons Ha]]; apply Hin; [left|left|by right].
  - by destruct (accepted remote local p); [right|].
  - rewrite Ha. by left.
Qed.

Lemma received_all remote local ps k :
  Forall (λ p, (pktID p < 4294967295)%N) ps → neverFull remote local ps newReliableReceiver = true →
  (∀ i, (1 ≤ i ≤ k)%N → ∃ p, p ∈ ps ∧ accepted remote local p = true ∧ pktID p = i) →
  (k ≤ lastConsumed (moveUps remote local ps newReliableReceiver).2)%N.
Proof.
  intros Hps Hf Hall.
  destruct (nothingWithheld_run remote local ps [] newReliableReceiver) as (seen & [Hl _ Hg Hs] & Hin); [|done..|].
  { split; cbn; try done; [constructor..|]. by intros p ?%elem_of_nil. }
  set (r := (moveUps remote local ps newReliableReceiver).2) in *.
  destruct (decide (k ≤ lastConsumed r)%N) as [?|Hk]; [done|exfalso].
  destruct (Hall (lastConsumed r + 1)%N ltac:(lia)) as (p & Hp & Ha & Hid).
  destruct (Hs p (Hin p (or_intror (conj Hp Ha)))) as [?|Hq]; [lia|].
  rewrite Forall_forall in Hg. specialize (Hg p Hq). cbn in Hg. lia.
Qed.

(** Once the packets 1 to k have arrived, in any order, all of them have been
    handed up, as long as no packet found the queue full. *)
Theorem delivered_complete remote local ps k :
  Forall (λ p, (pktID p < 4294967295)%N) ps → neverFull remote local ps newReliableReceiver = true →
  (∀ i, (1 ≤ i ≤ k)%N → ∃ p, p ∈ ps ∧ accepted remote local p = true ∧ pktID p = i) →
  (k ≤ lastConsumed (moveUps remote local ps newReliableReceiver).2)%N.
Proof. apply received_all. Qed.

(** *** A full queue *)

(** Twelve packets that wait for an earlier one wedge the receiver: every packet
    that arrives from then on, the missing one included, is dropped, although the
    sender is told to acknowledge it. *)
Theorem full_queue_wedges remote local r ps p :
  length (incomingPackets r) = RELIABLE_RECV_BUFFER_SIZE →
  moveUps remote local ps r = ([], r) ∧
  (accepted remote local p = true →
   ∃ s, moveUp remote local p r = (Some s, [], r) ∧ seenID s = Some (pktID p)).
Proof.
  intros Hfull.
  assert (∀ q, ∃ s, moveUp remote local q r = (s, [], r) ∧ (accepted remote local q = true → s = Some (newIncomingPacketSeen q))) as Hstep.
  { intros q. unfold moveUp, MaybeInsertIncoming, accepted. rewrite Hfull, Nat.leb_refl.
    destruct (incomingSanityChecks remote local q); [|by eexists]. cbn.
    destruct (bool_decide (pktOpcode q = P_CONTROL_V1)); by eexists. }
  split.
  - induction ps as [|q ps IH]; [done|]. simpl. destruct (Hstep q) as (s & -> & _). by rewrite IH.
  - intros Ha. destruct (Hstep p) as (s & -> & Hs). rewrite (Hs Ha). eexists. split; [done|].
    unfold newIncomingPacketSeen, accepted in *. bools. subst. rewrite bool_decide_false; [done|]. by rewrite H0.
Qed.

(** *** Witnesses *)

(** The peer's session is all zeros here, our own too. *)
Definition controlPacket (id : N) : Packet := mkPacket P_CONTROL_V1 0 (zeros 3) (zeros 8) [] (zeros 8) id [].

Lemma delivered_in_order_witness :
  let ps := controlPacket <$> [2; 1; 1; 3]%N in
  ∃ ups r', moveUps (zeros 8) (zeros 8) ps newReliableReceiver = (ups, r') ∧ pktID <$> ups = [1; 2; 3]%N.
Proof.
  intros ps. destruct (moveUps (zeros 8) (zeros 8) ps newReliableReceiver) as [ups r'] eqn:E. exists ups, r'. split; [done|].
  assert (length ups = 3%nat) as Hl.
  { change ups with ((ups, r').1). rewrite <-E. vm_compute. reflexivity. }
  destruct (delivered_in_order (zeros 8) (zeros 8) ps ups r') as (_ & -> & _); [|exact E|].
  - repeat constructor.
  - rewrite Hl. vm_compute. reflexivity.
Defined.

Lemma delivered_complete_witness :
  (3 ≤ lastConsumed (moveUps (zeros 8) (zeros 8) (controlPacket <$> [2; 3; 1]%N) newReliableReceiver).2)%N.
Proof.
  apply (delivered_complete (zeros 8) (zeros 8) (controlPacket <$> [2; 3; 1]%N) 3).
  - repeat constructor.
  - vm_compute. reflexivity.
  - intros i Hi. exists (controlPacket i). split_and!; [|vm_compute; reflexivity|reflexivity].
    apply list_elem_of_fmap_2. assert (i = 1 ∨ i = 2 ∨ i = 3)%N as [->|[->| ->]] by lia; decided.
Defined.

(** Twelve copies of packet 2 before packet 1. *)
Lemma full_queue_wedges_witness :
  let r := (moveUps (zeros 8) (zeros 8) (replicate 12 (controlPacket 2)) newReliableReceiver).2 in
  moveUps (zeros 8) (zeros 8) [controlPacket 1] r = ([], r) ∧
  ∃ s, moveUp (zeros 8) (zeros 8) (controlPacket 1) r = (Some s, [], r) ∧ seenID s = Some 1%N.
Proof.
  intros r. destruct (full_queue_wedges (zeros 8) (zeros 8) r [controlPacket 1] (controlPacket 1)) as [H1 H2].
  - vm_compute. reflexivity.
  - split; [exact H1|]. apply H2. vm_compute. reflexivity.
Defined.
