(* ===== verification/ReliableSender.v ===== *)
(** * [minivpn/internal/reliabletransport]: the sender

    Packets in flight with their retransmission schedule, and the set of
    identifiers still to be acknowledged. The bodies of [moveDownWorker] and
    [blockOnTryingToSend] are functions of the state, the time and what arrived. *)

From stdpp Require Import sorting.
From S2P Require Import Prelude GoSort GoStrings GoCodec Domain Bytesx Packet Session Reliable.

(** ** Packets in flight *)

Record inFlightPacket := mkInFlight {
  deadline : Time;
  higherACKs : Z;
  ifPacket : Packet;
  retries : Z
}.
#[export] Instance inFlightPacket_eq_dec : EqDecision inFlightPacket.
Proof. solve_decision. Defined.
Definition ifID (p : inFlightPacket) : N := pktID (ifPacket p).

Definition newInFlightPacket (p : Packet) : inFlightPacket := mkInFlight zeroTime 0 p 0.
Definition ACKForHigherPacket (p : inFlightPacket) : inFlightPacket :=
  mkInFlight (deadline p) (higherACKs p +i 1)%go (ifPacket p) (retries p).

(** [backoff]: the shift and the product are those of a 64-bit duration. *)
Definition backoff (retries : Z) : Duration :=
  let b := (wrap64 (2 ^ retries) *i Second)%go in
  let maxBackoff := (MAX_BACKOFF_SECONDS * Second)%Z in
  if (maxBackoff <? b)%Z then maxBackoff else b.
Definition ScheduleForRetransmission (t : Time) (p : inFlightPacket) : inFlightPacket :=
  let retries := (retries p +i 1)%go in
  mkInFlight (timeAdd t (backoff retries)) (higherACKs p) (ifPacket p) retries.

Definition nearestDeadlineTo (t : Time) (seq : list inFlightPacket) : Time :=
  let timeout := timeAdd t (SENDER_TICKER_MS * Millisecond) in
  let timeout := foldl (λ timeout p, if timeBefore (deadline p) timeout then deadline p else timeout) timeout seq in
  if timeBefore timeout t then timeAdd t 1 else timeout.

Definition isReady (t : Time) (p : inFlightPacket) : bool := (3 <=? higherACKs p)%Z || timeBefore (deadline p) t.
Definition readyToSend (t : Time) (seq : list inFlightPacket) : list inFlightPacket :=
  filter (λ p, isReady t p = true) seq.

(** ** The set of identifiers to acknowledge *)

Definition maybeAdd (id : option N) (m : gset N) : gset N :=
  if (ACK_SET_CAPACITY <=? size m)%nat then m
  else match id with Some id => {[id]} ∪ m | None => m end.
(** [sorted]: the iteration order of the map does not matter. *)
Definition sortedIDs (m : gset N) : list N := sliceStable N.ltb (elements m).
Definition nextToACK (m : gset N) : list N * gset N :=
  let next := take MAX_ACKS_PER_OUTGOING_PACKET (sortedIDs m) in
  (next, m ∖ list_to_set next).

(** ** The sender *)

Record reliableSender := mkSender { inFlight : list inFlightPacket; pendingACKsToSend : gset N }.
Definition newReliableSender : reliableSender := mkSender [] ∅.

Definition TryInsertOutgoingPacket (p : Packet) (s : reliableSender) : bool * reliableSender :=
  if (RELIABLE_SEND_BUFFER_SIZE <=? length (inFlight s))%nat then (false, s)
  else (true, mkSender (inFlight s ++ [newInFlightPacket p]) (pendingACKsToSend s)).

Definition swap {A} (i j : nat) (l : list A) : list A :=
  match l !! i, l !! j with Some a, Some b => <[j := a]> (<[i := b]> l) | _, _ => l end.

(** The loop of [maybeEvictOrMarkWithHigherACK] over the array it ranges over,
    which the swap changes under it: index, iterations to come, array, and
    whether [inFlight] was shortened. *)
Fixpoint evictLoop (acked : N) (i n : nat) (pkts : list inFlightPacket) (evicted : bool)
    : list inFlightPacket * bool :=
  match n with
  | O => (pkts, evicted)
  | S n =>
      match pkts !! i with
      | None => (pkts, evicted)
      | Some p =>
          if (ifID p <? acked)%N then evictLoop acked (S i) n (<[i := ACKForHigherPacket p]> pkts) evicted
          else if (acked =? ifID p)%N then evictLoop acked (S i) n (swap i (length pkts - 1) pkts) true
          else evictLoop acked (S i) n pkts evicted
      end
  end.
Definition ifLess (p q : inFlightPacket) : bool := (ifID p <? ifID q)%N.
Definition maybeEvictOrMarkWithHigherACK (acked : N) (l : list inFlightPacket) : list inFlightPacket :=
  let '(pkts, evicted) := evictLoop acked 0 (length l) l false in
  sliceStable ifLess (if evicted then take (length l - 1) pkts else pkts).

Definition OnIncomingPacketSeen (seen : incomingPacketSeen) (s : reliableSender) : reliableSender :=
  mkSender (match seenACKs seen with
            | None => inFlight s
            | Some acks => foldl (flip maybeEvictOrMarkWithHigherACK) (inFlight s) acks
            end)
    (maybeAdd (seenID seen) (pendingACKsToSend s)).

Definition gracePeriodForOutgoingACKs : Duration := (20 * Millisecond)%Z.
Definition shouldWakeupAfterACK (t : Time) (s : reliableSender) : bool * Duration :=
  let n := size (pendingACKsToSend s) in
  fail_if (n <=? 0)%nat with (false, (60 * Second)%Z) ;;
  fail_if (2 <=? n)%nat with (true, 1%Z) ;;
  let timeout := nearestDeadlineTo t (inFlight s) in
  if (gracePeriodForOutgoingACKs <? timeout - t)%Z then (true, gracePeriodForOutgoingACKs) else (true, (timeout - t)%Z).

(** The loop of [blockOnTryingToSend] over the packets that are ready; the pointers
    in [scheduledNow] are those of [inFlight], so each is changed in place. *)
Fixpoint sendReady (now : Time) (l : list inFlightPacket) (acks : gset N)
    : list Packet * list inFlightPacket * gset N :=
  match l with
  | [] => ([], [], acks)
  | p :: l =>
      if isReady now p then
        let p := ScheduleForRetransmission now p in
        let '(next, acks) := nextToACK acks in
        let q := ifPacket p in
        let q := mkPacket (pktOpcode q) (pktKeyID q) (pktPeerID q) (pktLocalSessionID q) next (pktRemoteSessionID q)
                   (pktID q) (pktPayload q) in
        let p := mkInFlight (deadline p) (higherACKs p) q (retries p) in
        let '(sent, l, acks) := sendReady now l acks in
        (q :: sent, p :: l, acks)
      else let '(sent, l, acks) := sendReady now l acks in (sent, p :: l, acks)
  end.

Definition blockOnTryingToSend (m : Manager) (now : Time) (s : reliableSender) : list Packet * reliableSender :=
  if bool_decide (readyToSend now (inFlight s) = []) then
    fail_if bool_decide (pendingACKsToSend s = ∅) with ([], s) ;;
    let '(next, acks) := nextToACK (pendingACKsToSend s) in
    (match NewACKForPacketIDs next m with Ok p => [p] | Err _ => [] end, mkSender (inFlight s) acks)
  else
    let '(sent, l, acks) := sendReady now (inFlight s) (pendingACKsToSend s) in
    (sent, mkSender l acks).

(** One round of [moveDownWorker]: a packet from above, a packet the receiver has
    seen, or the ticker, with the session manager as it is then. *)
Inductive senderEvent :=
  | Outgoing (p : Packet)
  | Seen (seen : incomingPacketSeen)
  | Tick (now : Time) (m : Manager).
Definition moveDown (e : senderEvent) (s : reliableSender) : list Packet * reliableSender :=
  match e with
  | Outgoing p => ([], (TryInsertOutgoingPacket p s).2)
  | Seen seen => ([], OnIncomingPacketSeen seen s)
  | Tick now m => blockOnTryingToSend m now s
  end.
Fixpoint moveDowns (es : list senderEvent) (s : reliableSender) : list Packet * reliableSender :=
  match es with
  | [] => ([], s)
  | e :: es => let '(sent, s) := moveDown e s in
               let '(sents, s) := moveDowns es s in (sent ++ sents, s)
  end.

(** ** Properties *)

(** *** Retransmission *)

(** The interval doubles up to a minute; the product overflows at the 34th retry
    and the packet becomes due at once. *)
Theorem backoff_bounds r :
  (0 ≤ r ≤ 33)%Z → backoff r = (Z.min (2 ^ r) 60 * Second)%Z ∧ (0 < backoff r ≤ 60 * Second)%Z.
Proof.
  intros Hr. assert (∀ n, (n < 34)%N → backoff (Z.of_N n) = (Z.min (2 ^ Z.of_N n) 60 * Second)%Z ∧
    (0 < backoff (Z.of_N n) ≤ 60 * Second)%Z) as Hall.
  { apply (forall_below (λ n, backoff (Z.of_N n) = (Z.min (2 ^ Z.of_N n) 60 * Second)%Z ∧
      (0 < backoff (Z.of_N n) ≤ 60 * Second)%Z) 34). vm_compute. reflexivity. }
  specialize (Hall (Z.to_N r) ltac:(lia)). by rewrite Z2N.id in Hall by lia.
Qed.

Lemma backoff_overflow : (backoff 34 < 0)%Z.
Proof. vm_compute. reflexivity. Qed.

(** The ticker never waits for the past nor longer than a minute, and no packet
    becomes due before it fires. *)
Lemma nearestDeadline_fold seq timeout :
  let r := foldl (λ timeout p, if timeBefore (deadline p) timeout then deadline p else timeout) timeout seq in
  (r ≤ timeout)%Z ∧ Forall (λ p, (r ≤ deadline p)%Z) seq ∧ (r = timeout ∨ ∃ p, p ∈ seq ∧ r = deadline p).
Proof.
  cbv zeta. revert timeout. induction seq as [|p seq IH]; intros timeout; simpl; [by split_and!; [lia|constructor|left]|].
  unfold timeBefore in *. destruct (Z.ltb_spec (deadline p) timeout);
    [destruct (IH (deadline p)) as (H1 & H2 & H3)|destruct (IH timeout) as (H1 & H2 & H3)].
  - split_and!; [lia|by constructor|]. right. destruct H3 as [->|(q & Hq & ->)]; [exists p|exists q]; (split; [|done]); [left|by right].
  - split_and!; [lia|constructor; [lia|done]|]. destruct H3 as [->|(q & Hq & ->)]; [by left|right; exists q; split; [by right|done]].
Qed.

Theorem nearest_deadline t seq :
  let r := nearestDeadlineTo t seq in
  (t ≤ r ≤ t + 60 * Second)%Z ∧ Forall (λ p, (t ≤ deadline p)%Z → (r ≤ deadline p)%Z ∨ r = (t + 1)%Z) seq.
Proof.
  cbv zeta. unfold nearestDeadlineTo. cbv zeta.
  set (start := timeAdd t (SENDER_TICKER_MS * Millisecond)).
  destruct (nearestDeadline_fold seq start) as (H1 & H2 & H3). set (r := foldl _ start seq) in *.
  assert (start = t + 60 * Second)%Z as Hs by reflexivity. unfold timeBefore, timeAdd.
  destruct (Z.ltb_spec r t).
  - split; [unfold Second; lia|]. apply Forall_forall. auto.
  - split; [lia|]. eapply Forall_impl; [exact H2|]. auto.
Qed.

(** *** Acknowledgements *)

Definition ifLt (p q : inFlightPacket) : Prop := (ifID p < ifID q)%N.

(** What an acknowledgement should do: drop its packet, count it for the earlier ones. *)
Definition bump (acked : N) (p : inFlightPacket) : inFlightPacket :=
  if (ifID p <? acked)%N then ACKForHigherPacket p else p.
Definition acknowledge (acked : N) (l : list inFlightPacket) : list inFlightPacket :=
  bump acked <$> filter (λ p, ifID p ≠ acked) l.

Lemma evictLoop_lo acked pre lo n rest ev :
  Forall (λ p, (ifID p < acked)%N) lo →
  evictLoop acked (length pre) (length lo + n) (pre ++ lo ++ rest) ev =
  evictLoop acked (length pre + length lo) n (pre ++ (ACKForHigherPacket <$> lo) ++ rest) ev.
Proof.
  intros Hlo. revert pre. induction Hlo as [|p lo Hp _ IH]; intros pre.
  - cbn. by rewrite Nat.add_0_r.
  - cbn [length Nat.add evictLoop app]. rewrite list_lookup_middle by done.
    destruct (N.ltb_spec (ifID p) acked); [|lia].
    assert (<[length pre := ACKForHigherPacket p]> (pre ++ p :: lo ++ rest) = (pre ++ [ACKForHigherPacket p]) ++ lo ++ rest) as ->.
    { rewrite insert_app_r_alt, Nat.sub_diag by lia. cbn. by rewrite <-app_assoc. }
    replace (S (length pre)) with (length (pre ++ [ACKForHigherPacket p])) by (rewrite length_app; cbn; lia).
    rewrite IH, length_app. cbn [length fmap list_fmap]. rewrite <-app_assoc. cbn [app]. f_equal. lia.
Qed.

Lemma evictLoop_hi acked pre hi n rest ev :
  Forall (λ p, (acked < ifID p)%N) hi →
  evictLoop acked (length pre) (length hi + n) (pre ++ hi ++ rest) ev =
  evictLoop acked (length pre + length hi) n (pre ++ hi ++ rest) ev.
Proof.
  intros Hhi. revert pre. induction Hhi as [|p hi Hp _ IH]; intros pre.
  - cbn. by rewrite Nat.add_0_r.
  - cbn [length Nat.add evictLoop app]. rewrite list_lookup_middle by done.
    destruct (N.ltb_spec (ifID p) acked), (N.eqb_spec acked (ifID p)); try lia.
    replace (pre ++ p :: hi ++ rest) with ((pre ++ [p]) ++ hi ++ rest) by by rewrite <-app_assoc.
    replace (S (length pre)) with (length (pre ++ [p])) by (rewrite length_app; cbn; lia).
    rewrite IH, length_app. cbn [length]. f_equal. lia.
Qed.

Lemma swap_last {A} (pre : list A) x hi z : swap (length pre) (length (pre ++ x :: hi ++ [z]) - 1) (pre ++ x :: hi ++ [z]) = pre ++ z :: hi ++ [x].
Proof.
  unfold swap. rewrite list_lookup_middle by done.
  replace (length (pre ++ x :: hi ++ [z]) - 1)%nat with (length (pre ++ x :: hi)) by (rewrite !length_app; cbn; rewrite length_app; cbn; lia).
  replace (pre ++ x :: hi ++ [z]) with ((pre ++ x :: hi) ++ [z]) by by rewrite <-app_assoc.
  rewrite list_lookup_middle by done.
  rewrite <-app_assoc. cbn [app]. rewrite insert_app_r_alt, Nat.sub_diag by lia. cbn.
  replace (pre ++ z :: hi ++ [z]) with ((pre ++ z :: hi) ++ [z]) by by rewrite <-app_assoc.
  replace (length (pre ++ x :: hi)) with (length (pre ++ z :: hi)) by by rewrite !length_app.
  rewrite insert_app_r_alt, Nat.sub_diag by lia. cbn. by rewrite <-app_assoc.
Qed.

Lemma swap_self {A} (pre : list A) x : swap (length pre) (length (pre ++ [x]) - 1) (pre ++ [x]) = pre ++ [x].
Proof.
  unfold swap. replace (length (pre ++ [x]) - 1)%nat with (length pre) by (rewrite length_app; cbn; lia).
  assert ((pre ++ [x]) !! length pre = Some x) as E by by apply list_lookup_middle.
  rewrite E. by rewrite !list_insert_id by (rewrite ?list_insert_id; done).
Qed.

#[export] Instance ifLess_swo : StrictWeakOrder ifLess.
Proof. split; unfold ifLess; intros; rewrite ?N.ltb_lt, ?N.ltb_ge in *; try lia; apply N.ltb_irrefl. Qed.

Lemma sort_strict l l' : StronglySorted ifLt l' → l' ≡ₚ l → sliceStable ifLess l = l'.
Proof.
  intros Hs Hp. apply (sliceStable_eq ifLess); [|exact Hp|].
  - clear Hp. induction Hs as [|p l' Hs IH Hx]; constructor; [done|]. eapply Forall_impl; [exact Hx|].
    intros q. unfold notAfter, ifLess, ifLt. rewrite N.ltb_ge. lia.
  - intros x y Hx Hy Ht. unfold tied, ifLess in Ht. bools. rewrite !N.ltb_ge in *.
    assert (ifID x = ifID y) as Hid by lia. clear Hp. induction Hs as [|p l' Hs IH Hp]; [by apply elem_of_nil in Hx|].
    rewrite Forall_forall in Hp. unfold ifLt in Hp.
    apply elem_of_cons in Hx as [->|Hx], Hy as [->|Hy]; [done|apply Hp in Hy; lia|apply Hp in Hx; lia|by apply IH].
Qed.

(** A strictly sorted list splits at an identifier. *)
Lemma sorted_split acked l :
  StronglySorted ifLt l → ∃ lo mid hi, l = lo ++ mid ++ hi ∧ Forall (λ p, (ifID p < acked)%N) lo ∧
    Forall (λ p, (acked < ifID p)%N) hi ∧ (mid = [] ∨ ∃ x, mid = [x] ∧ ifID x = acked).
Proof.
  induction 1 as [|p l Hs (lo & mid & hi & -> & Hlo & Hhi & Hm) Hp].
  { exists [], [], []. by split_and!; [..|left]. }
  unfold ifLt in Hp. destruct (N.lt_trichotomy (ifID p) acked) as [Hlt|[Heq|Hgt]].
  - exists (p :: lo), mid, hi. split_and!; try done. by constructor.
  - exists [], [p], (lo ++ mid ++ hi). split_and!; try done; [|right; by exists p].
    eapply Forall_impl; [exact Hp|]. intros q. cbn. lia.
  - exists [], [], (p :: lo ++ mid ++ hi). split_and!; try done; [|by left]. constructor; [done|].
    eapply Forall_impl; [exact Hp|]. intros q. cbn. lia.
Qed.

Lemma filter_keep acked l : Forall (λ p, ifID p ≠ acked) l → filter (λ p, ifID p ≠ acked) l = l.
Proof. induction 1 as [|p l Hp _ IH]; [done|]. by rewrite filter_cons_True, IH. Qed.

Lemma acknowledge_split acked lo mid hi :
  Forall (λ p, (ifID p < acked)%N) lo → Forall (λ p, (acked < ifID p)%N) hi → (mid = [] ∨ ∃ x, mid = [x] ∧ ifID x = acked) →
  acknowledge acked (lo ++ mid ++ hi) = (ACKForHigherPacket <$> lo) ++ hi.
Proof.
  intros Hlo Hhi Hm. unfold acknowledge. rewrite !filter_app, !fmap_app.
  assert (filter (λ p, ifID p ≠ acked) mid = []) as ->.
  { destruct Hm as [->|(x & -> & Hx)]; [done|]. by rewrite filter_cons_False, filter_nil by tauto. }
  rewrite !filter_keep by (eapply Forall_impl; [eassumption|]; cbn; lia). cbn [fmap list_fmap app]. f_equal.
  - apply list_fmap_ext. intros i p Hp. unfold bump. apply (Forall_lookup_1 _ _ _ _ Hlo) in Hp. cbn in Hp.
    destruct (N.ltb_spec (ifID p) acked); [done|lia].
  - rewrite <-(list_fmap_id hi) at 2. apply list_fmap_ext. intros i p Hp. unfold bump.
    apply (Forall_lookup_1 _ _ _ _ Hhi) in Hp. cbn in Hp. destruct (N.ltb_spec (ifID p) acked); [lia|done].
Qed.

Lemma acknowledge_sorted acked l : StronglySorted ifLt l → StronglySorted ifLt (acknowledge acked l).
Proof.
  unfold acknowledge. assert (∀ p, ifID (bump acked p) = ifID p) as Hid by (intros p; unfold bump; by case_goal).
  induction 1 as [|p l Hs IH Hp]; [cbn; constructor|]. rewrite filter_cons. case_decide; [|done]. cbn. constructor; [done|].
  apply Forall_fmap, Forall_forall. intros q [_ Hq]%list_elem_of_filter. rewrite Forall_forall in Hp.
  unfold compose, ifLt in *. rewrite !Hid. by apply Hp.
Qed.

(** Although the loop swaps elements of the array it walks over, it does what an
    acknowledgement should do. *)
Lemma evict_spec acked l :
  StronglySorted ifLt l → maybeEvictOrMarkWithHigherACK acked l = acknowledge acked l.
Proof.
  intros Hs. pose proof (acknowledge_sorted acked l Hs) as Ha.
  destruct (sorted_split acked l Hs) as (lo & mid & hi & -> & Hlo & Hhi & Hm).
  rewrite (acknowledge_split acked lo mid hi Hlo Hhi Hm) in *. unfold maybeEvictOrMarkWithHigherACK.
  rewrite length_app. pose proof (evictLoop_lo acked [] lo (length (mid ++ hi)) (mid ++ hi) false Hlo) as E.
  cbn [length app Nat.add] in E. rewrite E. clear E. set (lo' := ACKForHigherPacket <$> lo) in *.
  assert (length lo = length lo') as Hll by (unfold lo'; by rewrite length_fmap). rewrite Hll.
  destruct Hm as [->|(x & -> & Hx)].
  - cbn [app]. pose proof (evictLoop_hi acked lo' hi 0 [] false Hhi) as E. rewrite Nat.add_0_r, app_nil_r in E.
    rewrite E. cbn [evictLoop]. by apply sort_strict.
  - assert (∀ pre rest n ev, evictLoop acked (length pre) (S n) (pre ++ x :: rest) ev =
      evictLoop acked (S (length pre)) n (swap (length pre) (length (pre ++ x :: rest) - 1) (pre ++ x :: rest)) true) as Hstep.
    { intros pre rest n ev. cbn [evictLoop]. rewrite list_lookup_middle by done. rewrite Hx, N.ltb_irrefl, N.eqb_refl. done. }
    cbn [app length]. destruct hi as [|z hi _] using rev_ind.
    + cbn [length]. rewrite Hstep, swap_self. cbn [evictLoop].
      replace (length lo' + 1 - 1)%nat with (length lo') by lia. rewrite take_app_length. rewrite app_nil_r in *.
      by apply sort_strict.
    + rewrite Hstep, swap_last. rewrite length_app. cbn [length]. apply Forall_app in Hhi as [Hhi Hz].
      replace (S (length lo')) with (length (lo' ++ [z])) by (rewrite length_app; cbn; lia).
      replace (lo' ++ z :: hi ++ [x]) with ((lo' ++ [z]) ++ hi ++ [x]) by by rewrite <-app_assoc.
      rewrite (evictLoop_hi acked (lo' ++ [z]) hi 1 [x] true Hhi).
      rewrite <-length_app, app_assoc, Hstep, swap_self. cbn [evictLoop].
      replace (length lo' + S (length hi + 1) - 1)%nat with (length ((lo' ++ [z]) ++ hi)) by (rewrite !length_app; cbn; lia).
      rewrite take_app_length. apply sort_strict; [done|]. rewrite <-app_assoc. cbn [app].
      rewrite app_assoc, Permutation_app_comm. cbn. by rewrite Permutation_middle.
Qed.

(** *** What is sent *)

Lemma nextToACK_spec m next m' :
  nextToACK m = (next, m') →
  next ++ elements m' ≡ₚ elements m ∧ (length next ≤ MAX_ACKS_PER_OUTGOING_PACKET)%nat ∧ StronglySorted N.lt next ∧ m' ⊆ m.
Proof.
  unfold nextToACK. intros [= <- <-]. set (n := MAX_ACKS_PER_OUTGOING_PACKET).
  pose proof (sliceStable_perm N.ltb (elements m)) as Hp. fold (sortedIDs m) in Hp.
  assert (NoDup (sortedIDs m)) as Hnd by (rewrite Hp; apply NoDup_elements).
  assert (StronglySorted N.lt (sortedIDs m)) as Hs.
  { assert (StrictWeakOrder N.ltb) as W
      by (split; intros; rewrite ?N.ltb_lt, ?N.ltb_ge in *; try lia; apply N.ltb_irrefl).
    pose proof (sliceStable_sorted N.ltb (elements m)) as Hs. fold (sortedIDs m) in Hs. clear Hp. revert Hnd.
    induction Hs as [|x l Hs IH Hx]; intros Hnd; constructor; apply NoDup_cons in Hnd as [Hx' Hnd]; [by apply IH|].
    rewrite Forall_forall in Hx |- *. intros y Hy. specialize (Hx y Hy). unfold notAfter in Hx. apply N.ltb_ge in Hx.
    assert (x ≠ y) by congruence. lia. }
  split_and!.
  - etransitivity; [|exact Hp]. etransitivity; [|by rewrite <-(take_drop n (sortedIDs m))].
    apply Permutation_app_head, NoDup_Permutation.
    + apply NoDup_elements.
    + rewrite <-(take_drop n (sortedIDs m)) in Hnd. by apply NoDup_app in Hnd as (_ & _ & ?).
    + intros x. rewrite elem_of_elements, elem_of_difference, elem_of_list_to_set, <-elem_of_elements, <-Hp.
      rewrite <-(take_drop n (sortedIDs m)) in Hnd. apply NoDup_app in Hnd as (_ & Hd & _).
      rewrite <-(take_drop n (sortedIDs m)) at 1. rewrite elem_of_app. specialize (Hd x). tauto.
  - rewrite length_take. lia.
  - rewrite <-(take_drop n (sortedIDs m)) in Hs. by apply StronglySorted_app_1_l in Hs.
  - apply subseteq_difference_l. done.
Qed.

(** A packet without the acknowledgements it carries. *)
Definition content (p : Packet) : Packet :=
  mkPacket (pktOpcode p) (pktKeyID p) (pktPeerID p) (pktLocalSessionID p) [] (pktRemoteSessionID p) (pktID p) (pktPayload p).

Lemma sendReady_spec now l acks sent l' acks' :
  sendReady now l acks = (sent, l', acks') →
  content ∘ ifPacket <$> l' = content ∘ ifPacket <$> l ∧ acks' ⊆ acks ∧
  content <$> sent = content ∘ ifPacket <$> readyToSend now l ∧
  concat (pktACKs <$> sent) ++ elements acks' ≡ₚ elements acks ∧
  Forall (λ q, (length (pktACKs q) ≤ MAX_ACKS_PER_OUTGOING_PACKET)%nat ∧ StronglySorted N.lt (pktACKs q)) sent.
Proof.
  revert acks sent l' acks'. induction l as [|p l IH]; intros acks sent l' acks'; cbn [sendReady].
  { intros [= <- <- <-]. by split_and!. }
  unfold readyToSend in *. rewrite filter_cons. destruct (isReady now p) eqn:Er.
  - destruct (nextToACK acks) as [next acks1] eqn:En.
    destruct (sendReady now l acks1) as [[sent1 l1] acks2] eqn:Es. intros [= <- <- <-].
    destruct (nextToACK_spec _ _ _ En) as (P1 & P2 & P3 & P4). destruct (IH _ _ _ _ Es) as (H1 & H2 & H3 & H4 & H5).
    cbn [decide]. rewrite decide_True by done. cbn. split_and!.
    + by f_equal.
    + set_solver.
    + by f_equal.
    + by rewrite <-app_assoc, H4.
    + by constructor.
  - destruct (sendReady now l acks) as [[sent1 l1] acks1] eqn:Es. intros [= <- <- <-].
    destruct (IH _ _ _ _ Es) as (H1 & H2 & H3 & H4 & H5). rewrite decide_False by done. cbn. split_and!; try done. by f_equal.
Qed.

Lemma readyToSend_elem now l p : p ∈ readyToSend now l ↔ isReady now p = true ∧ p ∈ l.
Proof. unfold readyToSend. by rewrite list_elem_of_filter. Qed.

(** The ticker flushes everything that is due, oldest first and unchanged but for
    the acknowledgements; every pending acknowledgement is either carried by
    exactly one of the packets, at most four to a packet and in ascending order, or
    is still pending. *)
Theorem flush_spec m now s sent s' :
  blockOnTryingToSend m now s = (sent, s') → remoteSessionID m ≠ None →
  (if decide (readyToSend now (inFlight s) = []) then Forall (λ q, pktOpcode q = P_ACK_V1) sent ∧ (length sent ≤ 1)%nat
   else content <$> sent = content ∘ ifPacket <$> readyToSend now (inFlight s)) ∧
  content ∘ ifPacket <$> inFlight s' = content ∘ ifPacket <$> inFlight s ∧
  concat (pktACKs <$> sent) ++ elements (pendingACKsToSend s') ≡ₚ elements (pendingACKsToSend s) ∧
  Forall (λ q, (length (pktACKs q) ≤ MAX_ACKS_PER_OUTGOING_PACKET)%nat ∧ StronglySorted N.lt (pktACKs q)) sent ∧
  (sent = [] ↔ readyToSend now (inFlight s) = [] ∧ pendingACKsToSend s = ∅).
Proof.
  unfold blockOnTryingToSend. intros E Hm. destruct (decide (readyToSend now (inFlight s) = [])) as [Hr|Hr].
  - rewrite bool_decide_true in E by done.
    destruct (decide (pendingACKsToSend s = ∅)) as [He|He].
    + rewrite bool_decide_true in E by done. injection E as <- <-. by split_and!; try split; cbn; auto.
    + rewrite bool_decide_false in E by done. destruct (nextToACK (pendingACKsToSend s)) as [next acks] eqn:En.
      unfold NewACKForPacketIDs in E. destruct (remoteSessionID m) as [remote|]; [|done]. injection E as <- <-.
      destruct (nextToACK_spec _ _ _ En) as (P1 & P2 & P3 & P4). cbn [inFlight pendingACKsToSend]. split_and!; try done.
      * by constructor.
      * cbn. by rewrite app_nil_r.
      * by constructor.
      * split; [done|]. intros [_ ?]. done.
  - rewrite bool_decide_false in E by done.
    destruct (sendReady now (inFlight s) (pendingACKsToSend s)) as [[sent1 l1] acks1] eqn:Es. injection E as <- <-.
    destruct (sendReady_spec _ _ _ _ _ _ Es) as (H1 & H2 & H3 & H4 & H5). cbn [inFlight pendingACKsToSend]. split_and!; try done.
    + split; [|intros [? _]; done]. intros ->. exfalso. apply Hr. symmetry in H3. by apply fmap_nil_inv in H3.
Qed.

(** *** Runs of the sender *)

(** The identifiers of the packets from above, and those the peer acknowledged. *)
Definition outgoingIDs (es : list senderEvent) : list N :=
  es ≫= λ e, match e with Outgoing p => [pktID p] | _ => [] end.
Definition ackedIDs (es : list senderEvent) : list N :=
  es ≫= λ e, match e with Seen seen => default [] (seenACKs seen) | _ => [] end.

(** [fresh] holds the identifiers still to come from above. *)
Record senderInv (fresh : list N) (s : reliableSender) : Prop := {
  si_sorted : StronglySorted N.lt ((ifID <$> inFlight s) ++ fresh);
  si_flight : (length (inFlight s) ≤ RELIABLE_SEND_BUFFER_SIZE)%nat;
  si_acks : (size (pendingACKsToSend s) ≤ ACK_SET_CAPACITY)%nat
}.

Lemma sorted_sublist (l l' : list N) : l' `sublist_of` l → StronglySorted N.lt l → StronglySorted N.lt l'.
Proof.
  induction 1 as [|x l' l Hsub IH|x l' l Hsub IH]; [done|..]; rewrite ?StronglySorted_cons; intros [Hx Hs]; [|by apply IH].
  split; [|by apply IH]. rewrite Forall_forall in Hx |- *. intros y Hy. by apply Hx, (elem_of_sublist _ _ _ Hy).
Qed.

Lemma ifLt_ids l : StronglySorted ifLt l ↔ StronglySorted N.lt (ifID <$> l).
Proof.
  induction l as [|p l IH]; [split; constructor|]. cbn. rewrite !StronglySorted_cons, IH, Forall_fmap. done.
Qed.

Lemma acknowledge_ids acked l : ifID <$> acknowledge acked l = filter (λ i, i ≠ acked) (ifID <$> l).
Proof.
  unfold acknowledge. induction l as [|p l IH]; [done|]. rewrite fmap_cons, !filter_cons. repeat case_decide; try done.
  rewrite !fmap_cons, IH. f_equal. unfold bump. by case_goal.
Qed.

Lemma evicts_spec acks l :
  StronglySorted ifLt l →
  foldl (flip maybeEvictOrMarkWithHigherACK) l acks = foldl (flip acknowledge) l acks ∧
  StronglySorted ifLt (foldl (flip acknowledge) l acks).
Proof.
  revert l. induction acks as [|a acks IH]; intros l Hs; [done|]. cbn. rewrite evict_spec by done.
  apply IH. by apply acknowledge_sorted.
Qed.

Lemma acknowledges_ids acks l : ifID <$> foldl (flip acknowledge) l acks `sublist_of` ifID <$> l.
Proof.
  revert l. induction acks as [|a acks IH]; intros l; [done|]. cbn. etransitivity; [apply IH|].
  cbn. rewrite acknowledge_ids. apply sublist_filter.
Qed.

Lemma acknowledges_gone acks l p : p ∈ foldl (flip acknowledge) l acks → ifID p ∉ acks.
Proof.
  revert l. induction acks as [|a acks IH]; intros l Hp; [apply not_elem_of_nil|]. cbn in Hp.
  apply not_elem_of_cons. split; [|by apply (IH _ Hp)].
  assert (ifID p ∈ ifID <$> acknowledge a l) as Hin.
  { eapply elem_of_sublist; [|apply (acknowledges_ids acks)]. by apply list_elem_of_fmap_2. }
  rewrite acknowledge_ids in Hin. by apply list_elem_of_filter in Hin as [? _].
Qed.

(** Exactly the acknowledged packets leave, exactly the packets before an
    acknowledged one are marked, and the queue stays sorted; the packet that was
    seen is scheduled for acknowledgement unless eight are. *)
Theorem seen_spec seen s :
  StronglySorted ifLt (inFlight s) →
  let s' := OnIncomingPacketSeen seen s in
  inFlight s' = foldl (flip acknowledge) (inFlight s) (default [] (seenACKs seen)) ∧
  StronglySorted ifLt (inFlight s') ∧
  (∀ p, p ∈ inFlight s' → ifID p ∉ default [] (seenACKs seen)) ∧
  (∀ id, seenID seen = Some id → (size (pendingACKsToSend s) < 8)%nat → id ∈ pendingACKsToSend s').
Proof.
  cbv zeta. intros Hs. unfold OnIncomingPacketSeen. cbn [inFlight pendingACKsToSend].
  assert (∀ acks, foldl (flip maybeEvictOrMarkWithHigherACK) (inFlight s) acks = foldl (flip acknowledge) (inFlight s) acks ∧
    StronglySorted ifLt (foldl (flip acknowledge) (inFlight s) acks)) as Hall by (intros acks; by apply evicts_spec).
  split_and!.
  - destruct (seenACKs seen) as [acks|]; [apply Hall|done].
  - destruct (seenACKs seen) as [acks|]; [|done]. destruct (Hall acks) as [-> ?]. done.
  - destruct (seenACKs seen) as [acks|]; [|intros p _; apply not_elem_of_nil]. destruct (Hall acks) as [-> _]. cbn.
    apply acknowledges_gone.
  - intros id -> Hn. unfold maybeAdd. destruct (Nat.leb_spec ACK_SET_CAPACITY (size (pendingACKsToSend s))) as [Hc|_].
    + unfold ACK_SET_CAPACITY in Hc. lia.
    + set_solver.
Qed.

Lemma content_ids (l l' : list inFlightPacket) : content ∘ ifPacket <$> l' = content ∘ ifPacket <$> l → ifID <$> l' = ifID <$> l.
Proof.
  intros H. apply (f_equal (fmap pktID)) in H. by rewrite <-!list_fmap_compose in H.
Qed.

(** The ticker changes no packet in flight but for its acknowledgements. *)
Lemma flush_keeps m now s :
  content ∘ ifPacket <$> inFlight (blockOnTryingToSend m now s).2 = content ∘ ifPacket <$> inFlight s ∧
  pendingACKsToSend (blockOnTryingToSend m now s).2 ⊆ pendingACKsToSend s.
Proof.
  unfold blockOnTryingToSend. destruct (bool_decide _).
  - destruct (bool_decide _); [done|]. destruct (nextToACK (pendingACKsToSend s)) as [next acks] eqn:En.
    by destruct (nextToACK_spec _ _ _ En) as (_ & _ & _ & ?).
  - destruct (sendReady now (inFlight s) (pendingACKsToSend s)) as [[sent1 l1] acks1] eqn:Es.
    by destruct (sendReady_spec _ _ _ _ _ _ Es) as (? & ? & _).
Qed.

(** What an event may do to the packets in flight. *)
Lemma moveDown_inv e es s :
  senderInv (outgoingIDs (e :: es)) s → senderInv (outgoingIDs es) (moveDown e s).2.
Proof.
  intros [Hs Hf Ha]. destruct e as [p|seen|now m]; cbn [moveDown snd].
  - unfold TryInsertOutgoingPacket. cbn in Hs. destruct (Nat.leb_spec RELIABLE_SEND_BUFFER_SIZE (length (inFlight s))); cbn [snd].
    + split; [|done..]. revert Hs. apply sorted_sublist. apply sublist_app; [done|by apply sublist_cons].
    + split; cbn; [|rewrite length_app; cbn; lia|done]. by rewrite fmap_app, <-app_assoc.
  - assert (StronglySorted ifLt (inFlight s)) as Hl by (rewrite ifLt_ids; by apply StronglySorted_app_1_l in Hs).
    unfold OnIncomingPacketSeen. split; cbn [inFlight pendingACKsToSend].
    + destruct (seenACKs seen) as [acks|]; [|done]. destruct (evicts_spec acks _ Hl) as [-> _].
      revert Hs. apply sorted_sublist. by apply sublist_app; [apply acknowledges_ids|].
    + destruct (seenACKs seen) as [acks|]; [|done]. destruct (evicts_spec acks _ Hl) as [-> _].
      pose proof (sublist_length _ _ (acknowledges_ids acks (inFlight s))) as Hlen. rewrite !length_fmap in Hlen. lia.
    + unfold maybeAdd. destruct (Nat.leb_spec ACK_SET_CAPACITY (size (pendingACKsToSend s))); [done|].
      destruct (seenID seen) as [id|]; [|done].
      pose proof (size_union_alt {[id]} (pendingACKsToSend s)) as E. rewrite E, size_singleton.
      assert (size (pendingACKsToSend s ∖ {[id]}) ≤ size (pendingACKsToSend s))%nat by (apply subseteq_size; set_solver). lia.
  - destruct (flush_keeps m now s) as [Hc Hp].
    split.
    + by rewrite (content_ids _ _ Hc).
    + apply (f_equal length) in Hc. rewrite !length_fmap in Hc. lia.
    + apply subseteq_size in Hp. lia.
Qed.

Lemma moveDowns_inv es s : senderInv (outgoingIDs es) s → senderInv [] (moveDowns es s).2.
Proof.
  revert s. induction es as [|e es IH]; intros s Hi; [done|]. cbn. apply moveDown_inv in Hi.
  destruct (moveDown e s) as [sent s1]. cbn in Hi. specialize (IH s1 Hi). by destruct (moveDowns es s1).
Qed.

(** The packets from above carry ascending identifiers (the session numbers them);
    then in every reachable state at most six packets are in flight, in strictly
    ascending order, and at most eight acknowledgements are pending. *)
Theorem sender_bounded es :
  StronglySorted N.lt (outgoingIDs es) →
  let s := (moveDowns es newReliableSender).2 in
  (length (inFlight s) ≤ 6)%nat ∧ StronglySorted ifLt (inFlight s) ∧ (size (pendingACKsToSend s) ≤ 8)%nat.
Proof.
  intros Hs s. destruct (moveDowns_inv es newReliableSender) as [H1 H2 H3].
  { split; cbn; [done|lia|]. rewrite size_empty. lia. }
  split_and!; [done| |done]. rewrite ifLt_ids. by rewrite app_nil_r in H1.
Qed.

(** *** Nothing is lost *)

Lemma moveDown_keeps e es s p :
  senderInv (outgoingIDs (e :: es)) s → p ∈ inFlight s → ifID p ∉ ackedIDs (e :: es) →
  ∃ p', p' ∈ inFlight (moveDown e s).2 ∧ content (ifPacket p') = content (ifPacket p).
Proof.
  intros [Hs Hf Ha] Hp Hack. destruct e as [q|seen|now m]; cbn [moveDown snd].
  - exists p. split; [|done]. unfold TryInsertOutgoingPacket. case_goal; cbn; [done|]. apply elem_of_app. by left.
  - assert (StronglySorted ifLt (inFlight s)) as Hl by (rewrite ifLt_ids; by apply StronglySorted_app_1_l in Hs).
    unfold OnIncomingPacketSeen. cbn [inFlight]. cbn in Hack. rewrite not_elem_of_app in Hack. destruct Hack as [Hack _].
    destruct (seenACKs seen) as [acks|]; [|by exists p]. destruct (evicts_spec acks _ Hl) as [-> _]. cbn in Hack.
    clear -Hp Hack. revert p Hp Hack. generalize (inFlight s) as l. induction acks as [|a acks IH]; intros l p Hp Hack; [by exists p|].
    apply not_elem_of_cons in Hack as [Ha Hack]. cbn.
    destruct (IH (acknowledge a l) (bump a p)) as (p' & Hp' & Hc).
    + apply list_elem_of_fmap_2. apply list_elem_of_filter. by split.
    + unfold bump. by case_goal.
    + exists p'. split; [done|]. rewrite Hc. unfold bump. by case_goal.
  - destruct (flush_keeps m now s) as [Hc _].
    apply (list_elem_of_fmap_2 (content ∘ ifPacket)) in Hp. rewrite <-Hc in Hp.
    apply list_elem_of_fmap in Hp as (p' & Hx & Hp'). exists p'. done.
Qed.

(** A packet in flight stays in flight, unchanged, until the peer acknowledges it,
    and goes out again on every tick after its deadline. *)
Theorem unacked_resent es s p :
  senderInv (outgoingIDs es) s → p ∈ inFlight s → ifID p ∉ ackedIDs es →
  let s' := (moveDowns es s).2 in
  ∃ p', p' ∈ inFlight s' ∧ content (ifPacket p') = content (ifPacket p) ∧
    ∀ m now, (deadline p' < now)%Z → content (ifPacket p) ∈ content <$> (blockOnTryingToSend m now s').1.
Proof.
  cbv zeta. revert s p. induction es as [|e es IH]; intros s p Hi Hp Hack.
  - exists p. split_and!; [done..|]. intros m now Hd. unfold blockOnTryingToSend. cbn [moveDowns snd].
    assert (p ∈ readyToSend now (inFlight s)) as Hr.
    { apply readyToSend_elem. split; [|done]. unfold isReady, timeBefore. apply orb_true_iff. right. by apply Z.ltb_lt. }
    rewrite bool_decide_false by (intros E; rewrite E in Hr; by apply elem_of_nil in Hr).
    destruct (sendReady now (inFlight s) (pendingACKsToSend s)) as [[sent1 l1] acks1] eqn:Es. cbn [fst].
    destruct (sendReady_spec _ _ _ _ _ _ Es) as (_ & _ & -> & _). by apply (list_elem_of_fmap_2 (content ∘ ifPacket)).
  - destruct (moveDown_keeps e es s p Hi Hp Hack) as (p1 & Hp1 & Hc1). apply moveDown_inv in Hi. cbn [moveDowns].
    destruct (moveDown e s) as [sent s1]. cbn [snd] in Hi, Hp1.
    assert (ifID p1 = ifID p) as Hid by (apply (f_equal pktID) in Hc1; exact Hc1).
    destruct (IH s1 p1 Hi Hp1) as (p' & Hp' & Hc' & Hd).
    { rewrite Hid. intros Hx. apply Hack. unfold ackedIDs. cbn. apply elem_of_app. by right. }
    destruct (moveDowns es s1) as [sents s2]. cbn [snd] in *. rewrite <-Hc1. exists p'. by split_and!.
Qed.

(** *** Witnesses *)

Definition outgoing (id : N) : Packet := mkPacket P_CONTROL_V1 0 (zeros 3) (zeros 8) [] (zeros 8) id [].
Definition sampleSender : reliableSender := mkSender (newInFlightPacket <$> (outgoing <$> [1; 2; 3]%N)) ∅.

Lemma sampleSender_sorted : StronglySorted ifLt (inFlight sampleSender).
Proof. repeat constructor. Defined.

Lemma backoff_bounds_witness : backoff 3 = (8 * Second)%Z ∧ (0 < backoff 3 ≤ 60 * Second)%Z.
Proof. apply (backoff_bounds 3). lia. Defined.

Lemma seen_spec_witness :
  StronglySorted ifLt (inFlight (OnIncomingPacketSeen (mkSeen (Some 7%N) (Some [2%N])) sampleSender)) ∧
  ifID <$> inFlight (OnIncomingPacketSeen (mkSeen (Some 7%N) (Some [2%N])) sampleSender) = [1; 3]%N.
Proof.
  split; [|vm_compute; reflexivity].
  apply (seen_spec (mkSeen (Some 7%N) (Some [2%N])) sampleSender). exact sampleSender_sorted.
Defined.

Lemma flush_spec_witness :
  let m := setRemoteID (Some (zeros 8)) sampleManager in
  ∃ sent s', blockOnTryingToSend m 0 sampleSender = (sent, s') ∧
    (sent = [] ↔ readyToSend 0 (inFlight sampleSender) = [] ∧ pendingACKsToSend sampleSender = ∅).
Proof.
  intros m. destruct (blockOnTryingToSend m 0 sampleSender) as [sent s'] eqn:E. exists sent, s'. split; [done|].
  apply (flush_spec m 0 sampleSender sent s' E). discriminate.
Defined.

Lemma sender_bounded_witness :
  let s := (moveDowns [Outgoing (outgoing 1); Outgoing (outgoing 2)] newReliableSender).2 in
  (length (inFlight s) ≤ 6)%nat ∧ StronglySorted ifLt (inFlight s) ∧ (size (pendingACKsToSend s) ≤ 8)%nat.
Proof. apply (sender_bounded [Outgoing (outgoing 1); Outgoing (outgoing 2)]). repeat constructor. Defined.

Lemma unacked_resent_witness :
  let es := [Seen (mkSeen None (Some [2%N])); Tick 0 sampleManager] in
  ∃ p', p' ∈ inFlight (moveDowns es sampleSender).2 ∧ content (ifPacket p') = content (outgoing 1) ∧
    ∀ m now, (deadline p' < now)%Z →
      content (outgoing 1) ∈ content <$> (blockOnTryingToSend m now (moveDowns es sampleSender).2).1.
Proof.
  intros es. apply (unacked_resent es sampleSender (newInFlightPacket (outgoing 1))).
  - split; [exact (proj1 (ifLt_ids (inFlight sampleSender)) sampleSender_sorted)|vm_compute; lia|cbn; rewrite size_empty; lia].
  - left.
  - decided.
Defined.
