(* ===== verification/Muxer.v ===== *)
(** * [minivpn]: framing, the packet muxer and the control channel

    [networkio/stream.go] frames raw packets on a stream; [packetmuxer/service.go]
    parses them, drives the three-way handshake and routes them; between the
    reliable transport and TLS, [controlchannel/controlchannel.go] turns records
    into packets and back. Each round of a worker's loop is a function of the state
    and of what arrived; what it writes to its channels is in its result. A worker
    that is told to shut down stops between two rounds. *)

From stdpp Require Import sorting.
From S2P Require Import Prelude GoSort GoStrings GoCodec Domain Bytesx Packet Session Reliable ReliableSender.

(** ** Framing *)

Definition WriteRawPacket (pkt : bytes) : result bytes :=
  fail_if (65535 <? N.of_nat (length pkt))%N with Err "openvpn: packet too large" ;;
  Ok (putUint16 (N.of_nat (length pkt)) ++ pkt).

(** A packet and what is left of the stream. *)
Definition ReadRawPacket (stream : bytes) : result (bytes * bytes) :=
  let? (lenbuf, stream) := readFull 2 stream in
  match lenbuf with
  | [h; l] => readFull (N.to_nat (uint16 h l)) stream
  | _ => Err "unexpected EOF"
  end.

(** ** The packet muxer *)

Record muxer := mkMuxer { hardResetCount : Z; tickerArmed : bool; muxSession : Manager }.

Inductive muxOutput :=
  | ToReliable (p : Packet)
  | ToData (p : Packet)
  | ToNetwork (b : bytes)
  | NotifyTLS.
#[export] Instance muxOutput_eq_dec : EqDecision muxOutput.
Proof. solve_decision. Defined.

(** [serializeAndEmit] beside its log and trace. *)
Definition serializeAndEmit (p : Packet) : result (list muxOutput) :=
  let? raw := packetBytes p in Ok [ToNetwork raw].

(** The counter and the state have changed when the packet cannot be sent. *)
Definition startHardReset (s : muxer) : result (list muxOutput) * muxer :=
  let count := (hardResetCount s +i 1)%go in
  let m := (SetNegotiationState S_PRE_START (muxSession s)).2 in
  match serializeAndEmit (NewHardResetPacket m) with
  | Err e => (Err e, mkMuxer count (tickerArmed s) m)
  | Ok out => (Ok out, mkMuxer count true m)
  end.

Definition finishThreeWayHandshake (p : Packet) (s : muxer) : outcome (list muxOutput * muxer) :=
  match SetRemoteSessionID (pktLocalSessionID p) (muxSession s) with
  | Value m => let m := (SetNegotiationState S_START m).2 in
               Value ([ToReliable p; NotifyTLS], mkMuxer (hardResetCount s) (tickerArmed s) m)
  | Error e => Error e
  | Panic e => Panic e
  end.

(** An [Error] leaves the state as it was. *)
Definition handleRawPacket (rawPacket : bytes) (s : muxer) : outcome (list muxOutput * muxer) :=
  match ParsePacket rawPacket with
  | Err _ => Value ([], s)
  | Ok p =>
      let state := negState (muxSession s) in
      fail_if bool_decide (state = S_PRE_START) && bool_decide (pktOpcode p = P_CONTROL_HARD_RESET_SERVER_V2)
        with finishThreeWayHandshake p (mkMuxer (hardResetCount s) false (muxSession s)) ;;
      fail_if IsControl (pktOpcode p) || bool_decide (pktOpcode p = P_ACK_V1) with Value ([ToReliable p], s) ;;
      fail_if (stateNumber state <? stateNumber S_GENERATED_KEYS)%Z && negb (IsData (pktOpcode p))
        with Error "malformed input" ;;
      Value ([ToData p], s)
  end.

(** What the worker that moves up may find; the other layers set the state too. *)
Inductive muxEvent :=
  | RawPacket (b : bytes)
  | TickerFires
  | HardReset
  | StateSet (s : NegotiationState).

(** One round: [None] stops the worker; a [Panic] stops the program. *)
Definition muxStep (e : muxEvent) (s : muxer) : outcome (list muxOutput * option muxer) :=
  match e with
  | RawPacket b => match handleRawPacket b s with
                   | Value (out, s) => Value (out, Some s)
                   | Error _ => Value ([], Some s)
                   | Panic e => Panic e
                   end
  | TickerFires =>
      if tickerArmed s then match startHardReset s with
                            | (Ok out, s) => Value (out, Some s)
                            | (Err _, _) => Value ([], None)
                            end
      else Value ([], Some s)
  | HardReset => match startHardReset s with
                 | (Ok out, s) => Value (out, Some s)
                 | (Err _, _) => Value ([], None)
                 end
  | StateSet sns => Value ([], Some (mkMuxer (hardResetCount s) (tickerArmed s) (SetNegotiationState sns (muxSession s)).2))
  end.
Fixpoint muxRun (es : list muxEvent) (s : muxer) : outcome (list muxOutput * option muxer) :=
  match es with
  | [] => Value ([], Some s)
  | e :: es =>
      match muxStep e s with
      | Value (out, Some s) => match muxRun es s with
                               | Value (outs, s) => Value (out ++ outs, s)
                               | Error e => Error e
                               | Panic e => Panic e
                               end
      | Value (out, None) => Value (out, None)
      | Error e => Error e
      | Panic e => Panic e
      end
  end.

(** The worker that moves down: a packet that cannot be serialized is dropped. *)
Definition muxDown (p : Packet) : list muxOutput :=
  match packetBytes p with Ok raw => [ToNetwork raw] | Err _ => [] end.

(** ** The control channel *)

Inductive controlOutput := ToTLS (payload : bytes) | ResetTLS.
Definition controlUp (p : Packet) (m : Manager) : list controlOutput * Manager :=
  if bool_decide (pktOpcode p = P_CONTROL_SOFT_RESET_V1) then
    fail_if (stateNumber (negState m) <? stateNumber S_GENERATED_KEYS)%Z with ([], m) ;;
    ([ResetTLS], (SetNegotiationState S_INITIAL m).2)
  else if bool_decide (pktOpcode p = P_CONTROL_V1) then ([ToTLS (pktPayload p)], m)
  else ([], m).

(** The worker stops when the session has no number left. *)
Fixpoint controlDowns (records : list bytes) (m : Manager) : list Packet * Manager :=
  match records with
  | [] => ([], m)
  | record :: records =>
      match newSessionPacket P_CONTROL_V1 record m with
      | (Ok p, m) => let '(ps, m) := controlDowns records m in (p :: ps, m)
      | (Err _, m) => ([], m)
      end
  end.

(** ** Properties *)

(** *** Framing *)

(** Frames can be concatenated: whatever follows a frame on the stream, reading
    returns exactly the packet that was written, and leaves exactly the rest. *)
Theorem frame_roundtrip pkt frame rest :
  WriteRawPacket pkt = Ok frame → ReadRawPacket (frame ++ rest) = Ok (pkt, rest).
Proof.
  unfold WriteRawPacket, ReadRawPacket. destruct (N.ltb_spec 65535 (N.of_nat (length pkt))); [done|]. intros E.
  set (n := N.of_nat (length pkt)) in *. assert (frame = putUint16 n ++ pkt) as -> by congruence. rewrite <-app_assoc.
  assert (readFull 2 (putUint16 n ++ pkt ++ rest) = Ok ([byteAt n 8; byteAt n 0], pkt ++ rest)) as -> by by apply readFull_app.
  cbn beta iota. rewrite uint16_put by lia. unfold n. rewrite Nat2N.id. by apply readFull_app.
Qed.

(** *** The handshake *)

(** Once the peer's session is known nothing can start the handshake again. *)
Record muxInv (s : muxer) : Prop := {
  mi_prestart : remoteSessionID (muxSession s) ≠ None → negState (muxSession s) ≠ S_PRE_START;
  mi_ticker : remoteSessionID (muxSession s) ≠ None → tickerArmed s = false
}.

Definition quiet (e : muxEvent) : Prop :=
  match e with HardReset => False | StateSet s => s ≠ S_PRE_START | _ => True end.

Definition notifications (out : list muxOutput) : nat := length (filter (λ o, o = NotifyTLS) out).
Definition handshaken (s : muxer) : nat := match remoteSessionID (muxSession s) with Some _ => 1 | None => 0 end.

Lemma hard_reset_sent s : ∃ raw s', startHardReset s = (Ok [ToNetwork raw], s') ∧
  muxSession s' = setNegState S_PRE_START (muxSession s) ∧ tickerArmed s' = true.
Proof.
  unfold startHardReset, serializeAndEmit. destruct (packetBytes _) as [raw|e] eqn:E.
  - eexists _, _. by split_and!.
  - exfalso. revert E. unfold packetBytes. cbn. done.
Qed.

Lemma muxStep_spec e s :
  muxInv s → quiet e → ∃ out s', muxStep e s = Value (out, Some s') ∧ muxInv s' ∧
    (notifications out + handshaken s = handshaken s')%nat ∧
    (remoteSessionID (muxSession s) ≠ None → remoteSessionID (muxSession s') = remoteSessionID (muxSession s)).
Proof.
  intros [Hp Ht] Hq. destruct e as [b| | |sns]; cbn [muxStep]; [| |done|].
  - unfold handleRawPacket. destruct (ParsePacket b) as [p|]; [|by eexists _, _].
    destruct (bool_decide _ && bool_decide _) eqn:E.
    + apply andb_true_iff in E as [E1 E2]. apply bool_decide_eq_true in E1, E2.
      unfold finishThreeWayHandshake, SetRemoteSessionID. cbn [muxSession].
      destruct (remoteSessionID (muxSession s)) as [id|] eqn:Er; [by destruct (Hp ltac:(done))|].
      rewrite bool_decide_false by (intros ?; done). eexists _, _. split; [done|]. split_and!; try done.
      unfold handshaken. by rewrite Er.
    + destruct (IsControl _ || _); [by eexists _, _|]. destruct (_ && negb _); by eexists _, _.
  - destruct (tickerArmed s) eqn:Ea; [|by eexists _, _].
    destruct (hard_reset_sent s) as (raw & s' & -> & Hs & Hts). eexists _, s'. split; [done|].
    destruct (remoteSessionID (muxSession s)) eqn:Er; [by specialize (Ht ltac:(done))|].
    split_and!; [by split; rewrite Hs; cbn; rewrite Er| |done]. unfold handshaken. rewrite Hs. cbn. by rewrite Er.
  - eexists _, _. split; [done|]. by split_and!.
Qed.

Lemma notifications_app a b : notifications (a ++ b) = (notifications a + notifications b)%nat.
Proof. unfold notifications. by rewrite filter_app, length_app. Qed.

Lemma muxRun_spec es s :
  muxInv s → Forall quiet es → ∃ out s', muxRun es s = Value (out, Some s') ∧ muxInv s' ∧
    (notifications out + handshaken s = handshaken s')%nat ∧
    (remoteSessionID (muxSession s) ≠ None → remoteSessionID (muxSession s') = remoteSessionID (muxSession s)).
Proof.
  intros Hi Hq. revert s Hi. induction Hq as [|e es He _ IH]; intros s Hi; cbn [muxRun]; [by eexists _, _|].
  destruct (muxStep_spec e s Hi He) as (out & s1 & -> & Hi1 & Hn1 & Hr1).
  destruct (IH s1 Hi1) as (outs & s2 & -> & Hi2 & Hn2 & Hr2). eexists _, _. split; [done|]. split_and!; [done|..].
  - rewrite notifications_app. lia.
  - intros Hr. rewrite Hr2; [by apply Hr1|]. by rewrite Hr1.
Qed.

(** The session of a tunnel starts with one hard reset. Whatever arrives from the
    network, in whatever order, and however often the ticker fires, the program
    does not stop, the TLS layer is told to start exactly when the peer's session
    is known and only once, and that session never changes again. *)
Theorem handshake_once es es' s :
  muxInv s → remoteSessionID (muxSession s) = None → Forall quiet (es ++ es') →
  ∃ out s1 out' s2,
    muxRun (HardReset :: es) s = Value (out, Some s1) ∧ muxRun es' s1 = Value (out', Some s2) ∧
    notifications out = handshaken s1 ∧ (notifications out + notifications out' = handshaken s2)%nat ∧
    (remoteSessionID (muxSession s1) ≠ None → remoteSessionID (muxSession s2) = remoteSessionID (muxSession s1)).
Proof.
  intros Hi Hr [Hq Hq']%Forall_app. cbn [muxRun muxStep].
  destruct (hard_reset_sent s) as (raw & s0 & -> & Hs & _).
  assert (muxInv s0) as Hi0 by (split; rewrite Hs; cbn; by rewrite Hr).
  assert (handshaken s0 = 0%nat) as H0 by (unfold handshaken; rewrite Hs; cbn; by rewrite Hr).
  destruct (muxRun_spec es s0 Hi0 Hq) as (out & s1 & -> & Hi1 & Hn1 & _).
  destruct (muxRun_spec es' s1 Hi1 Hq') as (out' & s2 & E2 & _ & Hn2 & Hr2).
  eexists _, s1, out', s2. split_and!; [done|done|..|done];
    rewrite notifications_app; change (notifications [ToNetwork raw]) with 0%nat; lia.
Qed.

(** A second hard reset in the same session would stop the program at the peer's reply. *)
Lemma second_hard_reset_panics s b p :
  remoteSessionID (muxSession s) ≠ None → ParsePacket b = Ok p → pktOpcode p = P_CONTROL_HARD_RESET_SERVER_V2 →
  muxRun [HardReset; RawPacket b] s = Panic "SetRemoteSessionID called more than once".
Proof.
  intros Hr Hb Hop. cbn [muxRun muxStep]. destruct (hard_reset_sent s) as (raw & s0 & -> & Hs & _).
  unfold handleRawPacket. rewrite Hb, Hs. cbn [negState setNegState]. rewrite !bool_decide_true by done. cbn [andb].
  unfold finishThreeWayHandshake, SetRemoteSessionID. cbn [muxSession remoteSessionID setNegState].
  by rewrite bool_decide_true.
Qed.

(** *** Routing *)

(** Every packet that goes up was parsed from the network: control packets and
    acknowledgements go to the reliable transport, everything else to the data
    channel, and before the keys exist only data packets do. *)
Theorem routing b s out s' :
  muxStep (RawPacket b) s = Value (out, Some s') →
  (∀ p, ToReliable p ∈ out → ParsePacket b = Ok p ∧ (IsControl (pktOpcode p) = true ∨ pktOpcode p = P_ACK_V1)) ∧
  (∀ p, ToData p ∈ out → ParsePacket b = Ok p ∧ IsControl (pktOpcode p) = false ∧ pktOpcode p ≠ P_ACK_V1 ∧
     (negState (muxSession s) ≠ S_GENERATED_KEYS → IsData (pktOpcode p) = true)) ∧
  (∀ raw, ToNetwork raw ∉ out).
Proof.
  cbn [muxStep]. unfold handleRawPacket. destruct (ParsePacket b) as [p|e] eqn:Hb.
  2:{ intros E. injection E as <- <-. by split_and!; intros ? ?%elem_of_nil. }
  destruct (bool_decide _ && bool_decide _) eqn:E1.
  - apply andb_true_iff in E1 as [_ E1]. apply bool_decide_eq_true in E1.
    unfold finishThreeWayHandshake. destruct (SetRemoteSessionID _ _); [|..]; intros E; try done; injection E as <- <-.
    + split_and!; intros q; rewrite ?elem_of_cons, ?elem_of_nil.
      * intros [[= ->]|[?|?]]; try done. split; [done|]. left. by rewrite E1.
      * intros [?|[?|?]]; done.
      * intros [?|[?|?]]; done.
    + by split_and!; intros ? ?%elem_of_nil.
  - destruct (IsControl (pktOpcode p) || bool_decide (pktOpcode p = P_ACK_V1)) eqn:E2.
    + intros E. injection E as <- <-. split_and!; intros q; rewrite list_elem_of_singleton; try done.
      intros [= ->]. split; [done|]. apply orb_true_iff in E2 as [?|?%bool_decide_eq_true]; [by left|by right].
    + apply orb_false_iff in E2 as [E2 E3%bool_decide_eq_false].
      destruct (_ && negb _) eqn:E4; intros E; injection E as <- <-.
      * by split_and!; intros ? ?%elem_of_nil.
      * split_and!; intros q; rewrite list_elem_of_singleton; try done. intros [= ->]. split_and!; try done.
        intros Hn. apply andb_false_iff in E4 as [E4|E4%negb_false_iff]; [|done]. exfalso.
        apply Z.ltb_ge in E4. by destruct (negState (muxSession s)).
Qed.

(** *** The control channel and the reliable transport together *)

Lemma controlDowns_spec records m :
  (localControlPacketID m ≤ maxUint32)%N →
  let ps := (controlDowns records m).1 in
  pktID <$> ps = idsFrom (localControlPacketID m) (length ps) ∧
  pktPayload <$> ps = take (length ps) records ∧
  Forall (λ p, pktOpcode p = P_CONTROL_V1 ∧ (pktID p < maxUint32)%N ∧ pktLocalSessionID p = localSessionID m) ps ∧
  (length ps = length records ∨ localControlPacketID (controlDowns records m).2 = maxUint32).
Proof.
  cbv zeta. revert m. induction records as [|r records IH]; intros m Hm; cbn [controlDowns]; [by split_and!; [..|left]|].
  unfold newSessionPacket, localControlPacketIDLocked. change (IsControl P_CONTROL_V1) with true. cbn iota.
  destruct (N.eqb_spec (localControlPacketID m) maxUint32) as [Hmax|Hmax]; [by split_and!; [..|right]|].
  rewrite inc32_small by lia.
  specialize (IH (setControlID (localControlPacketID m + 1)%N m) ltac:(cbn; lia)).
  destruct (controlDowns records _) as [ps m'] eqn:E. cbn [fst snd] in *.
  destruct IH as (H1 & H2 & H3 & H4). cbn. split_and!.
  - by f_equal.
  - by f_equal.
  - constructor; [|done]. cbn. split_and!; [done|lia|done].
  - destruct H4 as [->|?]; [by left|by right].
Qed.

Lemma idsFrom_lookup c n i : (i < n)%nat → idsFrom c n !! i = Some (c + N.of_nat i)%N.
Proof.
  revert c i. induction n as [|n IH]; intros c i Hi; [lia|]. destruct i as [|i]; cbn; [f_equal; lia|]. rewrite IH by lia. f_equal. lia.
Qed.

(** Identifiers below the maximum do not wrap around. *)
Lemma after_idsFrom last n :
  (last < maxUint32)%N → Forall (λ i, (i < maxUint32)%N) (after last n) →
  after last n = idsFrom (last + 1) n ∧ afterLast last n = (last + N.of_nat n)%N.
Proof.
  unfold maxUint32. revert last. induction n as [|n IH]; intros last Hl Ha; cbn; [split; [done|lia]|].
  cbn in Ha. apply Forall_cons in Ha as [H1 H2].
  assert (add32 last 1 = last + 1)%N as E by (unfold add32; rewrite N.mod_small; lia). rewrite E in *.
  destruct (IH (last + 1)%N H1 H2) as [-> ->]. split; [done|lia].
Qed.

Lemma content_eq p q : content p = content q → pktID p = pktID q ∧ pktPayload p = pktPayload q ∧
  pktOpcode p = pktOpcode q ∧ pktLocalSessionID p = pktLocalSessionID q.
Proof. unfold content. by intros [= ? ? ? ? ? ? ?]. Qed.

Section EndToEnd.
Context (records : list bytes) (m : Manager) (remote local : bytes) (arrivals : list Packet).
Hypothesis Hfresh : localControlPacketID m = 1%N.
Let sent : list Packet := (controlDowns records m).1.
Hypothesis Harrive : ∀ p, p ∈ arrivals → ∃ q, q ∈ sent ∧ content p = content q.

Lemma arrivals_small : Forall (λ p, (pktID p < maxUint32)%N) arrivals.
Proof.
  apply Forall_forall. intros p Hp. destruct (Harrive p Hp) as (q & Hq & (-> & _)%content_eq).
  destruct (controlDowns_spec records m) as (_ & _ & H & _); [rewrite Hfresh; done|].
  rewrite Forall_forall in H. by apply H.
Qed.

Lemma delivered_ids ups r :
  moveUps remote local arrivals newReliableReceiver = (ups, r) →
  pktID <$> ups = idsFrom 1 (length ups) ∧ lastConsumed r = N.of_nat (length ups) ∧ ups ⊆ arrivals.
Proof.
  intros E. assert (receiverOk newReliableReceiver) as Hr by (split; [done|constructor]).
  assert (Forall id32 arrivals) as H32.
  { eapply Forall_impl; [exact arrivals_small|]. unfold id32, maxUint32. intros p. cbn. lia. }
  destruct (moveUps_spec _ _ _ _ _ _ Hr H32 E) as (_ & Hi & Hl & Hin). cbn [lastConsumed newReliableReceiver] in *.
  assert (ups ⊆ arrivals) as Hsub.
  { intros p Hp. destruct (Hin p Hp) as [?|Hx]; [done|by apply elem_of_nil in Hx]. }
  destruct (after_idsFrom 0 (length ups)) as [E1 E2]; [done| |].
  - rewrite <-Hi. apply Forall_fmap, Forall_forall. intros p Hp. pose proof arrivals_small as Hs. rewrite Forall_forall in Hs.
    by apply Hs, Hsub.
  - split_and!; [by rewrite Hi, E1|by rewrite Hl, E2|done].
Qed.

Lemma delivered_prefix ups r :
  moveUps remote local arrivals newReliableReceiver = (ups, r) → pktPayload <$> ups = take (length ups) records.
Proof.
  intros E. destruct (delivered_ids ups r E) as (Hi & _ & Hsub).
  destruct (controlDowns_spec records m) as (Hid & Hpay & _ & _); [rewrite Hfresh; done|]. fold sent in Hid, Hpay.
  rewrite Hfresh in Hid. apply list_eq. intros i. rewrite list_lookup_fmap.
  destruct (ups !! i) as [p|] eqn:Hp; cbn.
  - assert (i < length ups)%nat as Hlt by by apply lookup_lt_Some in Hp.
    assert (pktID p = 1 + N.of_nat i)%N as Hpid.
    { apply (f_equal (.!! i)) in Hi. rewrite list_lookup_fmap, Hp, idsFrom_lookup in Hi by done. by injection Hi. }
    destruct (Harrive p) as (q & Hq & (Hqid & Hqp & _)%content_eq); [by apply Hsub; eapply list_elem_of_lookup_2|].
    apply list_elem_of_lookup in Hq as [j Hj]. assert (j < length sent)%nat as Hjl by by apply lookup_lt_Some in Hj.
    assert (pktID q = 1 + N.of_nat j)%N as Hqj.
    { apply (f_equal (.!! j)) in Hid. rewrite list_lookup_fmap, Hj, idsFrom_lookup in Hid by done. by injection Hid. }
    assert (j = i) as -> by lia. rewrite lookup_take_lt by done.
    apply (f_equal (.!! i)) in Hpay. rewrite list_lookup_fmap, Hj, lookup_take_lt in Hpay by done. by rewrite <-Hpay, Hqp.
  - apply lookup_ge_None in Hp. symmetry. apply lookup_take_ge. done.
Qed.
End EndToEnd.


(** *** Witnesses *)

Lemma frame_roundtrip_witness :
  ReadRawPacket ([byte_of 0; byte_of 1; byte_of 7] ++ [byte_of 9]) = Ok ([byte_of 7], [byte_of 9]).
Proof. apply (frame_roundtrip [byte_of 7]). vm_compute. reflexivity. Defined.

Definition sampleMuxer : muxer := mkMuxer 0 false sampleManager.
(** The server's reply: its session is eight bytes 1. *)
Definition serverReset : bytes := headByte P_CONTROL_HARD_RESET_SERVER_V2 0 :: replicate 8 (byte_of 1) ++ zeros 5.

Lemma handshake_once_witness :
  ∃ out s1 out' s2,
    muxRun [HardReset; TickerFires; RawPacket serverReset] sampleMuxer = Value (out, Some s1) ∧
    muxRun [RawPacket serverReset; StateSet S_ACTIVE] s1 = Value (out', Some s2) ∧
    notifications out = handshaken s1 ∧ (notifications out + notifications out' = handshaken s2)%nat ∧
    (remoteSessionID (muxSession s1) ≠ None → remoteSessionID (muxSession s2) = remoteSessionID (muxSession s1)).
Proof.
  apply (handshake_once [TickerFires; RawPacket serverReset] [RawPacket serverReset; StateSet S_ACTIVE] sampleMuxer).
  - split; intros H; by destruct H.
  - reflexivity.
  - repeat constructor; discriminate.
Defined.

Lemma handshake_sample :
  ∃ out s, muxRun [HardReset; RawPacket serverReset] sampleMuxer = Value (out, Some s) ∧ notifications out = 1%nat ∧
    RemoteSessionID (muxSession s) = replicate 8 (byte_of 1) ∧ negState (muxSession s) = S_START.
Proof. eexists _, _. split; [vm_compute; reflexivity|]. vm_compute. auto. Qed.

Lemma routing_witness :
  ∃ out s', muxStep (RawPacket serverReset) sampleMuxer = Value (out, Some s') ∧ ∀ raw, ToNetwork raw ∉ out.
Proof.
  assert (∃ out s', muxStep (RawPacket serverReset) sampleMuxer = Value (out, Some s')) as (out & s' & E).
  { eexists _, _. vm_compute. reflexivity. }
  exists out, s'. split; [exact E|]. apply (routing _ _ _ _ E).
Defined.

