(* ===== verification/VpnOptions.v ===== *)
(** * [minivpn/pkg/config]: the options of a profile

    [ReadConfigFile] and the functions below it turn an OpenVPN profile into
    [OpenVPNOptions]; [ServerOptionsString] and [Remote] use them. This is the parser
    [Tunnel.connect] takes as a parameter. [path/filepath] is that of a Unix system.
    A slice index out of range and a nil pointer are the value [Panic]. The file
    system is a parameter: what a file contains and what [os.Stat] says of a path. *)

From S2P Require Import Prelude GoStrings GoNet GoCodec Domain OvpnConfig Source Bytesx.

(** ** The options *)

Record OpenVPNOptions := mkOptions {
  optRemote : string; optPort : string; optProto : string;
  optUsername : string; optPassword : string;
  optCAPath : string; optCertPath : string; optKeyPath : string;
  optCA : string; optCert : string; optKey : string;
  optCipher : string; optAuth : string; optTLSMaxVer : string;
  optCompress : string; optProxyOBFS4 : string
}.

Definition setRemote r p o := mkOptions r p (optProto o) (optUsername o) (optPassword o) (optCAPath o) (optCertPath o)
  (optKeyPath o) (optCA o) (optCert o) (optKey o) (optCipher o) (optAuth o) (optTLSMaxVer o) (optCompress o) (optProxyOBFS4 o).
Definition setProto v o := mkOptions (optRemote o) (optPort o) v (optUsername o) (optPassword o) (optCAPath o) (optCertPath o)
  (optKeyPath o) (optCA o) (optCert o) (optKey o) (optCipher o) (optAuth o) (optTLSMaxVer o) (optCompress o) (optProxyOBFS4 o).
Definition setCredentials u p o := mkOptions (optRemote o) (optPort o) (optProto o) u p (optCAPath o) (optCertPath o)
  (optKeyPath o) (optCA o) (optCert o) (optKey o) (optCipher o) (optAuth o) (optTLSMaxVer o) (optCompress o) (optProxyOBFS4 o).
Definition setPaths ca cert key o := mkOptions (optRemote o) (optPort o) (optProto o) (optUsername o) (optPassword o) ca cert
  key (optCA o) (optCert o) (optKey o) (optCipher o) (optAuth o) (optTLSMaxVer o) (optCompress o) (optProxyOBFS4 o).
Definition setInline ca cert key o := mkOptions (optRemote o) (optPort o) (optProto o) (optUsername o) (optPassword o) (optCAPath o)
  (optCertPath o) (optKeyPath o) ca cert key (optCipher o) (optAuth o) (optTLSMaxVer o) (optCompress o) (optProxyOBFS4 o).
Definition setCipher v o := mkOptions (optRemote o) (optPort o) (optProto o) (optUsername o) (optPassword o) (optCAPath o)
  (optCertPath o) (optKeyPath o) (optCA o) (optCert o) (optKey o) v (optAuth o) (optTLSMaxVer o) (optCompress o) (optProxyOBFS4 o).
Definition setAuth v o := mkOptions (optRemote o) (optPort o) (optProto o) (optUsername o) (optPassword o) (optCAPath o)
  (optCertPath o) (optKeyPath o) (optCA o) (optCert o) (optKey o) (optCipher o) v (optTLSMaxVer o) (optCompress o) (optProxyOBFS4 o).
Definition setTLSMaxVer v o := mkOptions (optRemote o) (optPort o) (optProto o) (optUsername o) (optPassword o) (optCAPath o)
  (optCertPath o) (optKeyPath o) (optCA o) (optCert o) (optKey o) (optCipher o) (optAuth o) v (optCompress o) (optProxyOBFS4 o).
Definition setCompress v o := mkOptions (optRemote o) (optPort o) (optProto o) (optUsername o) (optPassword o) (optCAPath o)
  (optCertPath o) (optKeyPath o) (optCA o) (optCert o) (optKey o) (optCipher o) (optAuth o) (optTLSMaxVer o) v (optProxyOBFS4 o).
Definition setProxyOBFS4 v o := mkOptions (optRemote o) (optPort o) (optProto o) (optUsername o) (optPassword o) (optCAPath o)
  (optCertPath o) (optKeyPath o) (optCA o) (optCert o) (optKey o) (optCipher o) (optAuth o) (optTLSMaxVer o) (optCompress o) v.

Definition CompressionStub : string := "stub".
Definition CompressionEmpty : string := "empty".
Definition CompressionLZONo : string := "lzo-no".
Definition SupportedCiphers : list string :=
  ["AES-128-CBC"; "AES-192-CBC"; "AES-256-CBC"; "AES-128-GCM"; "AES-192-GCM"; "AES-256-GCM"].
Definition SupportedAuth : list string := ["SHA1"; "SHA256"; "SHA512"].
Definition badConfig (what : string) : string := "openvpn: bad config: " +:+ what.

Definition HasAuthInfo (o : OpenVPNOptions) : bool :=
  let present s := negb (bool_decide (s = "")) in
  if present (optCertPath o) && present (optKeyPath o) && present (optCAPath o) then true
  else if present (optCert o) && present (optKey o) && present (optCA o) then true
  else present (optUsername o) && present (optPassword o).

(** The second component of the cipher's name is the key size; without one the
    index is out of range. *)
Definition ServerOptionsString {U : UnicodeTables} (o : OpenVPNOptions) : outcome string :=
  fail_if bool_decide (optCipher o = "") with Value "" ;;
  match splitOn 45 (optCipher o) !! 1%nat with
  | None => Panic "index out of range [1]"
  | Some keysize =>
      let proto := toUpper (if bool_decide (optProto o = "tcp") then "tcp" else "udp") in
      let s := "V4,dev-type tun,link-mtu 1549,tun-mtu 1500,proto " +:+ proto +:+ "v4,cipher " +:+ optCipher o +:+
               ",auth " +:+ optAuth o +:+ ",keysize " +:+ keysize +:+ ",key-method 2,tls-client" in
      Value (if bool_decide (optCompress o = CompressionStub) then s +:+ ",compress stub"
             else if bool_decide (optCompress o = CompressionLZONo) then s +:+ ",lzo-comp no"
             else if bool_decide (optCompress o = CompressionEmpty) then s +:+ ",compress"
             else s)
  end.

(** [Config.Remote]: the address, the endpoint and the network that are dialled. *)
Definition Remote (o : OpenVPNOptions) : string * string * string :=
  (optRemote o, joinHostPort (optRemote o) (optPort o), optProto o).

(** ** [path/filepath] *)

Definition slash : string := "/".
Definition isAbs (path : string) : bool := hasPrefix path slash.
(** [Clean] on the elements of a path; [stack] is reversed. *)
Fixpoint cleanElems (rooted : bool) (stack : list string) (elems : list string) : list string :=
  match elems with
  | [] => reverse stack
  | e :: elems =>
      if bool_decide (e = "") || bool_decide (e = ".") then cleanElems rooted stack elems
      else if bool_decide (e = "..") then
        match stack with
        | top :: stack' => if bool_decide (top = "..") then cleanElems rooted (".." :: stack) elems
                           else cleanElems rooted stack' elems
        | [] => cleanElems rooted (if rooted then [] else [".."]) elems
        end
      else cleanElems rooted (e :: stack) elems
  end.
Definition cleanPath (path : string) : string :=
  let rooted := isAbs path in
  let body := join slash (cleanElems rooted [] (splitOn 47 path)) in
  if rooted then slash +:+ body else if bool_decide (body = "") then "." else body.
Definition joinPath (a b : string) : string :=
  if bool_decide (a = "") then (if bool_decide (b = "") then "" else cleanPath b) else cleanPath (a +:+ slash +:+ b).
(** [filepath.Split], the directory with its separator. *)
Definition splitDir (path : string) : string :=
  l2s (reverse (dropWhileb (λ c, negb (bool_decide (c = byte_of 47))) (reverse (s2l path)))).

(** ** Lines *)

(** [bufio.Scanner] with [ScanLines]: no line after the last newline, a carriage
    return at the end of a line is dropped, and a line that fills the buffer of
    64 KiB is an error. *)
Definition dropCR (l : bytes) : bytes :=
  match reverse l with
  | c :: r => if bool_decide (c = byte_of 13) then reverse r else l
  | [] => l
  end.
Definition tooLong (l : bytes) : bool := (65536 <=? N.of_nat (length l))%N.
Definition dropLastEmpty (ls : list bytes) : list bytes :=
  match reverse ls with [] :: r => reverse r | _ => ls end.
Definition scanLines (text : string) : result (list string) :=
  let ls := dropLastEmpty (splitb (byte_of 10) (s2l text)) in
  if existsb tooLong ls then Err "bufio.Scanner: token too long" else Ok ((λ l, l2s (dropCR l)) <$> ls).

(** ** The directives *)

(** What [os.Stat] says: a regular file, something else, no such file, or another error. *)
Inductive fileStat := StatRegular | StatIrregular | StatNotExist | StatFailed.

Section Parse.
Context (readFile : string → result string) (stat : string → fileStat) (getwd : result string).

(** Without a [FileInfo], which there is not after another error, [Mode] is a nil dereference. *)
Definition existsFile (path : string) : outcome bool :=
  match stat path with
  | StatNotExist => Value false
  | StatRegular => Value true
  | StatIrregular => Value false
  | StatFailed => Panic "invalid memory address or nil pointer dereference"
  end.
Definition getLinesFromFile (path : string) : result (list string) :=
  let? text := readFile path in scanLines text.

Definition toAbs (path basedir : string) : string := if isAbs path then path else joinPath basedir path.
Definition absPath (path : string) : result string :=
  if isAbs path then Ok (cleanPath path) else let? wd := getwd in Ok (joinPath wd path).
Definition isSubdir (parent sub : string) : bool :=
  match absPath parent, absPath sub with
  | Ok p, Ok s => hasPrefix s p
  | _, _ => false
  end.

Definition getCredentialsFromFile (path : string) : result (string * string) :=
  match getLinesFromFile path with
  | Err e => Err (badConfig e)
  | Ok [user; password] =>
      fail_if bool_decide (user = "") with Err (badConfig "empty username in creds file") ;;
      fail_if bool_decide (password = "") with Err (badConfig "empty password in creds file") ;;
      Ok (user, password)
  | Ok _ => Err (badConfig "malformed credentials file")
  end.

Definition parseProto (p : list string) (o : OpenVPNOptions) : outcome OpenVPNOptions :=
  match p with
  | [m] => if bool_decide (m = "udp") then Value (setProto "udp" o)
           else if bool_decide (m = "tcp") then Value (setProto "tcp" o)
           else Error (badConfig ("bad proto: " +:+ m))
  | _ => Error (badConfig "proto needs one arg")
  end.
Definition parseRemote (p : list string) (o : OpenVPNOptions) : outcome OpenVPNOptions :=
  match p with
  | [host; port] => Value (setRemote host port o)
  | _ => Error (badConfig "remote needs two args")
  end.
Definition parseCipher (p : list string) (o : OpenVPNOptions) : outcome OpenVPNOptions :=
  match p with
  | [cipher] => if bool_decide (cipher ∈ SupportedCiphers) then Value (setCipher cipher o)
                else Error (badConfig ("unsupported cipher: " +:+ cipher))
  | _ => Error (badConfig "cipher expects one arg")
  end.
Definition parseAuth (p : list string) (o : OpenVPNOptions) : outcome OpenVPNOptions :=
  match p with
  | [auth] => if bool_decide (auth ∈ SupportedAuth) then Value (setAuth auth o)
              else Error (badConfig ("unsupported auth: " +:+ auth))
  | _ => Error (badConfig "invalid auth entry")
  end.

(** What [parseCA], [parseCert], [parseKey] and [parseAuthUser] have in common: one
    argument, below the directory of the profile, a regular file. *)
Definition parseFile (name below : string) (p : list string) (basedir : string)
    (k : string → outcome OpenVPNOptions) : outcome OpenVPNOptions :=
  match p with
  | [path] =>
      let path := toAbs path basedir in
      fail_if negb (isSubdir basedir path) with Error (badConfig (below +:+ " must be below config path")) ;;
      match existsFile path with
      | Value true => k path
      | Value false => Error (badConfig (name +:+ " expects a valid file"))
      | Error e => Error e
      | Panic e => Panic e
      end
  | _ => Error (badConfig (name +:+ " expects a valid file"))
  end.
Definition parseCA (p : list string) (o : OpenVPNOptions) (basedir : string) : outcome OpenVPNOptions :=
  parseFile "ca" "ca" p basedir (λ path, Value (setPaths path (optCertPath o) (optKeyPath o) o)).
Definition parseCert (p : list string) (o : OpenVPNOptions) (basedir : string) : outcome OpenVPNOptions :=
  parseFile "cert" "cert" p basedir (λ path, Value (setPaths (optCAPath o) path (optKeyPath o) o)).
Definition parseKey (p : list string) (o : OpenVPNOptions) (basedir : string) : outcome OpenVPNOptions :=
  parseFile "key" "key" p basedir (λ path, Value (setPaths (optCAPath o) (optCertPath o) path o)).
Definition parseAuthUser (p : list string) (o : OpenVPNOptions) (basedir : string) : outcome OpenVPNOptions :=
  parseFile "auth-user-pass" "auth" p basedir (λ path,
    match getCredentialsFromFile path with
    | Ok (user, password) => Value (setCredentials user password o)
    | Err e => Error e
    end).

Definition parseCompress (p : list string) (o : OpenVPNOptions) : outcome OpenVPNOptions :=
  match p with
  | [] => Value (setCompress CompressionEmpty o)
  | [v] => if bool_decide (v = "stub") then Value (setCompress CompressionStub o)
           else Error (badConfig "compress: only empty/stub options supported")
  | _ => Error (badConfig "compress: only empty/stub options supported")
  end.
Definition parseCompLZO (p : list string) (o : OpenVPNOptions) : outcome OpenVPNOptions :=
  match p with
  | [] => Panic "index out of range [0] with length 0"
  | v :: _ => if bool_decide (v = "no") then Value (setCompress CompressionLZONo o)
              else Error (badConfig "comp-lzo: compression not supported")
  end.
Definition parseTLSVerMax (p : list string) (o : OpenVPNOptions) : outcome OpenVPNOptions :=
  match p with
  | [] => Value (setTLSMaxVer "1.3" o)
  | v :: _ => Value (if bool_decide (v = "1.2") then setTLSMaxVer "1.2" o else o)
  end.
Definition parseProxyOBFS4 (p : list string) (o : OpenVPNOptions) : outcome OpenVPNOptions :=
  match p with
  | [v] => Value (setProxyOBFS4 v o)
  | _ => Error (badConfig "proto-obfs4: need a properly configured proxy")
  end.

(** [pMap] and [pMapDir]. *)
Definition directives (dir : string) : list (string * (list string → OpenVPNOptions → outcome OpenVPNOptions)) :=
  [("proto", parseProto); ("remote", parseRemote); ("cipher", parseCipher); ("auth", parseAuth);
   ("compress", parseCompress); ("comp-lzo", parseCompLZO); ("proxy-obfs4", parseProxyOBFS4);
   ("tls-version-max", parseTLSVerMax);
   ("ca", λ p o, parseCA p o dir); ("cert", λ p o, parseCert p o dir); ("key", λ p o, parseKey p o dir);
   ("auth-user-pass", λ p o, parseAuthUser p o dir)].
Definition parseOption (o : OpenVPNOptions) (dir key : string) (p : list string) : outcome OpenVPNOptions :=
  match list_find (λ d, d.1 = key) (directives dir) with
  | Some (_, (_, fn)) => fn p o
  | None => Value o
  end.

(** ** The lines of a profile *)

Definition isOpeningTag (key : string) : bool := bool_decide (key ∈ ["<ca>"; "<cert>"; "<key>"]).
Definition isClosingTag (key : string) : bool := bool_decide (key ∈ ["</ca>"; "</cert>"; "</key>"]).
Definition parseTag (tag : string) : string :=
  if bool_decide (tag ∈ ["<ca>"; "</ca>"]) then "ca"
  else if bool_decide (tag ∈ ["<cert>"; "</cert>"]) then "cert"
  else if bool_decide (tag ∈ ["<key>"; "</key>"]) then "key"
  else "".
Definition parseInlineTag (o : OpenVPNOptions) (tag buf : string) : outcome OpenVPNOptions :=
  fail_if bool_decide (buf = "") with Error (badConfig "empty inline tag: 0") ;;
  if bool_decide (tag = "ca") then Value (setInline buf (optCert o) (optKey o) o)
  else if bool_decide (tag = "cert") then Value (setInline (optCA o) buf (optKey o) o)
  else if bool_decide (tag = "key") then Value (setInline (optCA o) (optCert o) buf o)
  else Error (badConfig ("unknown tag: " +:+ tag)).

(** The loop's variables [opt], [tag] and [inlineBuf], and its body. *)
Record lineState := mkLines { lsOpt : OpenVPNOptions; lsTag : string; lsBuf : string }.
Definition lineStep (dir : string) (st : lineState) (line : string) : outcome lineState :=
  let '(mkLines opt tag buf) := st in
  fail_if hasPrefix line "#" with Value st ;;
  let l := trimSpace line in
  fail_if isClosingTag l with
    match parseInlineTag opt tag buf with
    | Value opt => Value (mkLines opt "" "")
    | Error e => Error e
    | Panic e => Panic e
    end ;;
  fail_if negb (bool_decide (tag = "")) with Value (mkLines opt tag (buf +:+ l +:+ nl)) ;;
  fail_if isOpeningTag l with
    (if negb (bool_decide (buf = "")) then Error (badConfig "tag not closed")
     else Value (mkLines opt (parseTag l) buf)) ;;
  match splitOn 32 l with
  | [] => Value st
  | key :: parts =>
      match parseOption opt dir key parts with
      | Value opt => Value (mkLines opt tag buf)
      | Error e => Error e
      | Panic e => Panic e
      end
  end.
Fixpoint linesLoop (dir : string) (st : lineState) (lines : list string) : outcome lineState :=
  match lines with
  | [] => Value st
  | l :: lines => match lineStep dir st l with
                  | Value st => linesLoop dir st lines
                  | Error e => Error e
                  | Panic e => Panic e
                  end
  end.
Definition initialOptions : OpenVPNOptions := mkOptions "" "" "tcp" "" "" "" "" "" "" "" "" "" "" "" CompressionEmpty "".
Definition getOptionsFromLines (lines : list string) (dir : string) : outcome OpenVPNOptions :=
  match linesLoop dir (mkLines initialOptions "" "") lines with
  | Value st => Value (lsOpt st)
  | Error e => Error e
  | Panic e => Panic e
  end.
Definition ReadConfigFile (filePath : string) : outcome OpenVPNOptions :=
  match getLinesFromFile filePath with
  | Err e => Error e
  | Ok lines => getOptionsFromLines lines (splitDir filePath)
  end.
End Parse.

(** ** Well-formed options *)

(** What the parser guarantees of its result: supported names only, and files only
    below the directory of the profile. *)
Record wfOptions (stat : string → fileStat) (getwd : result string) (dir : string) (o : OpenVPNOptions) : Prop := {
  wo_proto : optProto o = "tcp" ∨ optProto o = "udp";
  wo_cipher : optCipher o = "" ∨ optCipher o ∈ SupportedCiphers;
  wo_auth : optAuth o = "" ∨ optAuth o ∈ SupportedAuth;
  wo_compress : optCompress o ∈ [CompressionStub; CompressionEmpty; CompressionLZONo];
  wo_paths : Forall (λ path, path = "" ∨ isSubdir getwd dir path = true ∧ stat path = StatRegular)
               [optCAPath o; optCertPath o; optKeyPath o]
}.

Section Properties.
Context (readFile : string → result string) (stat : string → fileStat) (getwd : result string).

Lemma parseFile_value name below p dir k o :
  parseFile stat getwd name below p dir k = Value o →
  ∃ path, isSubdir getwd dir path = true ∧ stat path = StatRegular ∧ k path = Value o.
Proof.
  unfold parseFile, existsFile. destruct p as [|path [|? ?]]; try done.
  destruct (isSubdir getwd dir (toAbs path dir)) eqn:E; [|done]. cbn [negb].
  destruct (stat (toAbs path dir)) eqn:Es; try done. eauto.
Qed.

Lemma parseOption_inv o dir key p o' :
  parseOption readFile stat getwd o dir key p = Value o' →
  o' = o ∨ ∃ fn, (key, fn) ∈ directives readFile stat getwd dir ∧ fn p o = Value o'.
Proof.
  unfold parseOption. destruct (list_find _ _) as [[i [key' fn]]|] eqn:E; [|intros [= ->]; auto].
  apply list_find_Some in E as (Hi & Hk & _). cbn in Hk. subst key'. right. exists fn.
  split; [by eapply list_elem_of_lookup_2|done].
Qed.

Lemma directive_wf dir key fn p o o' :
  (key, fn) ∈ directives readFile stat getwd dir → fn p o = Value o' → wfOptions stat getwd dir o → wfOptions stat getwd dir o'.
Proof.
  unfold directives. rewrite !elem_of_cons, elem_of_nil. intros H E [H1 H2 H3 H4 H5].
  rewrite !Forall_cons in H5. destruct H5 as (Hca & Hcert & Hkey & _).
  destruct_or? H; try done; injection H as -> ->.
  all: try (apply parseFile_value in E as (path & Hs & Hr & E)).
  all: unfold parseProto, parseRemote, parseCipher, parseAuth, parseCompress, parseCompLZO, parseProxyOBFS4,
    parseTLSVerMax in E; repeat case_hyp E; simplify_eq; bools.
  all: constructor; cbn [optProto optCipher optAuth optCompress optCAPath optCertPath optKeyPath setProto setRemote setCipher
      setAuth setCompress setPaths setCredentials setTLSMaxVer setProxyOBFS4]; auto.
  all: rewrite ?Forall_cons; auto 8 using Forall_nil_2.
  all: unfold CompressionStub, CompressionEmpty, CompressionLZONo; decided.
Qed.

Lemma lineStep_wf dir st l st' :
  lineStep readFile stat getwd dir st l = Value st' → wfOptions stat getwd dir (lsOpt st) → wfOptions stat getwd dir (lsOpt st').
Proof.
  unfold lineStep. destruct st as [o tag buf]. cbn [lsOpt]. intros E Hw.
  repeat case_hyp E; simplify_eq; try done; cbn [lsOpt].
  - unfold parseInlineTag in *. destruct Hw. repeat case_goal; repeat case_match; simplify_eq; by constructor.
  - destruct (parseOption_inv _ _ _ _ _ Heqo0) as [->|(fn & Hin & Hf)]; [done|]. by eapply directive_wf.
Qed.

Lemma linesLoop_inv (P : lineState → Prop) (Q : string → Prop) dir st lines st' :
  (∀ st l st', Q l → lineStep readFile stat getwd dir st l = Value st' → P st → P st') →
  Forall Q lines → P st → linesLoop readFile stat getwd dir st lines = Value st' → P st'.
Proof.
  intros Hstep HQ. revert st. induction HQ as [|l lines Hl HQ IH]; intros st Hst; cbn; [by intros [= <-]|].
  destruct (lineStep readFile stat getwd dir st l) as [st1| |] eqn:E; try done. apply IH. by eapply Hstep.
Qed.

Lemma parsed_wf lines dir o :
  getOptionsFromLines readFile stat getwd lines dir = Value o → wfOptions stat getwd dir o.
Proof.
  unfold getOptionsFromLines. destruct (linesLoop _ _ _ _ _ _) as [st| |] eqn:E; try done. intros [= <-].
  refine (linesLoop_inv (λ st, wfOptions stat getwd dir (lsOpt st)) (λ _, True) dir _ lines st _ _ _ E).
  - intros st0 l st1 _. apply lineStep_wf.
  - by apply Forall_forall.
  - constructor; [by left..|decided|by repeat constructor; left].
Qed.

End Properties.

(** ** Sanitized profiles *)

Lemma splitb_head sep b w ws : splitb sep b = w :: ws → (ws = [] ∧ b = w) ∨ ∃ t, b = w ++ sep :: t.
Proof.
  revert w ws. induction b as [|c b IH]; intros w ws; cbn [splitb].
  - intros H. injection H as H1 H2. subst. auto.
  - case_bool_decide as E.
    + intros H. injection H as H1 H2. subst. right. by exists b.
    + destruct (splitb sep b) as [|v vs] eqn:Eb; intros H; injection H as H1 H2; subst.
      * by destruct b; cbn [splitb] in Eb; repeat case_match.
      * destruct (IH v ws eq_refl) as [[-> ->]|[t ->]]; [by left|right; by exists t].
Qed.

Lemma splitOn_head sep l key rest :
  splitOn sep l = key :: rest → l = key ∨ ∃ tail, l = key +:+ str1 sep +:+ tail.
Proof.
  unfold splitOn. intros H. destruct (splitb (byte_of sep) (s2l l)) as [|w ws] eqn:E; [done|].
  injection H as H1 H2. subst. destruct (splitb_head _ _ _ _ E) as [[_ Hb]|[t Hb]].
  - left. apply s2l_inj. by rewrite s2l_l2s.
  - right. exists (l2s t). apply s2l_inj. by rewrite !s2l_app, !s2l_l2s, Hb.
Qed.

Section Sanitized.
Context {U : UnicodeTables} (readFile : string → result string) (stat : string → fileStat) (getwd : result string).

Lemma directiveName_key key rest l :
  solidWord key → splitOn 32 l = key :: rest → hasPrefix l "#" = false → hasPrefix l ";" = false → hasPrefix l "<" = false →
  directiveName l = trimPrefix (toLower key) "--".
Proof.
  intros [Hne Hw] Hs H1 H2 H3. unfold directiveName. rewrite H1, H2, H3, !orb_false_r.
  assert (s2l key ≠ []) as Hk by (intros E; apply Hne, s2l_inj; by rewrite E).
  assert (∀ t, fieldsb [] (s2l key ++ t) = fieldsb (reverse (s2l key)) t) as Hf.
  { intros t. rewrite fieldsb_word by done. by rewrite app_nil_r. }
  assert (∀ t, flush (reverse (s2l key)) t = s2l key :: t) as Hfl.
  { intros t. unfold flush. destruct (reverse (s2l key)) as [|c r] eqn:E; [|by rewrite <-E, reverse_involutive].
    apply (f_equal reverse) in E. rewrite reverse_involutive in E. done. }
  apply splitOn_head in Hs as [->|[t ->]].
  - rewrite bool_decide_false by done. unfold fields. rewrite <-(app_nil_r (s2l key)), Hf. cbn [fieldsb]. rewrite Hfl. cbn.
    by rewrite l2s_s2l.
  - rewrite bool_decide_false by (intros E; apply (f_equal s2l) in E; rewrite s2l_app in E; by destruct (s2l key)).
    unfold fields. rewrite !s2l_app, Hf. change (s2l (str1 32)) with [byte_of 32].
    change (fieldsb (reverse (s2l key)) ([byte_of 32] ++ s2l t)) with (flush (reverse (s2l key)) (fieldsb [] (s2l t))).
    rewrite Hfl. cbn. by rewrite l2s_s2l.
Qed.

Lemma hasPrefix_head c a s : hasPrefix (String c s) (String a "") = bool_decide (a = c).
Proof. unfold hasPrefix. cbn. by rewrite andb_true_r. Qed.

Lemma authUserPass_replaced l rest :
  splitOn 32 l = "auth-user-pass" :: rest → directiveName l ∈ replacedDirectives.
Proof.
  intros Hs. assert (∃ s, l = String (byte_of 97) s) as [s ->].
  { destruct (splitOn_head _ _ _ _ Hs) as [->|[t ->]]; by eexists. }
  rewrite (directiveName_key "auth-user-pass" rest); [decided|split; [done|decided]|done|..]; by rewrite hasPrefix_head.
Qed.

Definition noCredentials (o : OpenVPNOptions) : Prop := optUsername o = "" ∧ optPassword o = "".

Lemma directive_credentials dir key fn p o o' :
  key ≠ "auth-user-pass" → (key, fn) ∈ directives readFile stat getwd dir → fn p o = Value o' →
  noCredentials o → noCredentials o'.
Proof.
  unfold directives, noCredentials. rewrite !elem_of_cons, elem_of_nil. intros Hk H E Ho.
  destruct_or? H; try done; injection H as -> ->; try done.
  all: try (apply parseFile_value in E as (path & _ & _ & E)).
  all: unfold parseProto, parseRemote, parseCipher, parseAuth, parseCompress, parseCompLZO, parseProxyOBFS4,
    parseTLSVerMax in E; repeat case_hyp E; by simplify_eq.
Qed.

Lemma lineStep_credentials dir st l st' :
  directiveName (trimSpace l) ∉ replacedDirectives →
  lineStep readFile stat getwd dir st l = Value st' → noCredentials (lsOpt st) → noCredentials (lsOpt st').
Proof.
  unfold lineStep. destruct st as [o tag buf]. cbn [lsOpt]. intros Hd E Ho.
  repeat case_hyp E; simplify_eq; try done; cbn [lsOpt].
  - unfold parseInlineTag, noCredentials in *. repeat case_match; by simplify_eq.
  - destruct (parseOption_inv _ _ _ _ _ _ _ _ Heqo0) as [->|(fn & Hin & Hf)]; [done|].
    eapply directive_credentials; [|done..]. intros ->. by eapply Hd, authUserPass_replaced.
Qed.

Lemma dropLastEmpty_incl ls : dropLastEmpty ls ⊆ ls.
Proof.
  unfold dropLastEmpty. destruct (reverse ls) as [|[|c l] r] eqn:E; [reflexivity| |reflexivity].
  apply (f_equal reverse) in E. rewrite reverse_involutive in E. subst ls. rewrite reverse_cons. set_solver.
Qed.
Lemma dropCR_lacks l : byte_of 13 ∉ l → dropCR l = l.
Proof.
  unfold dropCR. intros H. destruct (reverse l) as [|c r] eqn:E; [done|]. rewrite bool_decide_false; [done|].
  intros ->. apply H, elem_of_reverse. rewrite E. left.
Qed.

(** The lines the engine reads of a sanitized profile are those the sanitizer kept. *)
Lemma scan_sanitized text out lines :
  SanitizeOpenVPNConfig text = Ok out → scanLines out = Ok lines → Forall clean lines.
Proof.
  intros Hs Hl. apply Forall_forall. intros line Hin.
  apply sanitize_lines in Hs as (kept & -> & Hsub & Hc & _ & Hne).
  pose proof (sanitize_split text _ kept eq_refl Hsub Hne) as Hsplit.
  unfold scanLines in Hl. destruct (existsb tooLong _); [done|]. injection Hl as <-.
  apply list_elem_of_fmap in Hin as (l & -> & Hin). apply dropLastEmpty_incl in Hin.
  assert (l2s l ∈ kept ++ [""]) as Hk by (rewrite <-Hsplit; by apply list_elem_of_fmap_2).
  assert (Forall (lacks (byte_of 13)) (kept ++ [""])) as Hcr.
  { apply Forall_app. split; [|repeat constructor; apply not_elem_of_nil].
    eapply lines_lack; [|done]. left. apply normalizeNewlines_lacks. }
  rewrite Forall_forall in Hcr. specialize (Hcr _ Hk). unfold lacks in Hcr. rewrite s2l_l2s in Hcr.
  rewrite dropCR_lacks by done. apply elem_of_app in Hk as [Hk| ->%list_elem_of_singleton]; [|apply clean_empty].
  rewrite Forall_forall in Hc. auto.
Qed.

(** The sanitizer keeps the engine from reading a credentials file: the options of a
    sanitized profile carry no user and no password, until [connect] sets its own. *)
Theorem sanitized_reads_no_credentials text out path o :
  SanitizeOpenVPNConfig text = Ok out → readFile path = Ok out →
  ReadConfigFile readFile stat getwd path = Value o → optUsername o = "" ∧ optPassword o = "".
Proof.
  intros Hs Hr. unfold ReadConfigFile, getLinesFromFile. rewrite Hr.
  destruct (scanLines out) as [lines|] eqn:El; [|done]. unfold getOptionsFromLines.
  destruct (linesLoop _ _ _ _ _ _) as [st| |] eqn:E; try done. intros [= <-].
  refine (linesLoop_inv readFile stat getwd (λ st, noCredentials (lsOpt st))
            (λ l, directiveName (trimSpace l) ∉ replacedDirectives) _ _ lines st _ _ _ E); [..|done].
  - intros st0 l st1. apply lineStep_credentials.
  - eapply Forall_impl; [by eapply scan_sanitized|]. by intros l [].
Qed.
End Sanitized.

(** ** Profiles read back *)

Section RoundTrip.
Context (readFile : string → result string) (stat : string → fileStat) (getwd : result string) (dir : string).

Definition concatLines (ls : list string) : string := foldr (λ l s, l +:+ nl +:+ s) "" ls.

(** A line of an inline block that is kept as it is. *)
Definition blockLine (l : string) : Prop := hasPrefix l "#" = false ∧ trimSpace l = l ∧ isClosingTag l = false.

Lemma block_loop ls rest o tag buf :
  tag ≠ "" → Forall blockLine ls →
  linesLoop readFile stat getwd dir (mkLines o tag buf) (ls ++ rest) =
  linesLoop readFile stat getwd dir (mkLines o tag (buf +:+ concatLines ls)) rest.
Proof.
  intros Ht Hls. revert buf. induction Hls as [|l ls (H1 & H2 & H3) Hls IH]; intros buf.
  - cbn [app concatLines foldr]. f_equal. f_equal. apply s2l_inj. by rewrite s2l_app, app_nil_r.
  - cbn [app linesLoop]. unfold lineStep. rewrite H1, H2, H3, bool_decide_false by done. cbn [negb].
    rewrite IH. f_equal. f_equal. cbn [concatLines foldr]. by rewrite !append_assoc.
Qed.

Lemma concatLines_nonempty ls : ls ≠ [] → concatLines ls ≠ "".
Proof.
  destruct ls as [|l ls]; [done|]. intros _ E. apply (f_equal s2l) in E. cbn in E. rewrite !s2l_app in E.
  apply (f_equal length) in E. rewrite !length_app in E. cbn in E. lia.
Qed.

(** The line of a directive. *)
Lemma directive_line key args o :
  Forall solidWord (key :: args) →
  hasPrefix key "#" = false → hasPrefix key "<" = false →
  lineStep readFile stat getwd dir (mkLines o "" "") (join " " (key :: args)) =
  match parseOption readFile stat getwd o dir key args with
  | Value o => Value (mkLines o "" "") | Error e => Error e | Panic e => Panic e
  end.
Proof.
  intros Hw H1 H2. set (line := join " " (key :: args)).
  assert (∃ c t u, key = String c t ∧ line = String c u) as (c & t & u & Ek & El).
  { destruct (Forall_inv Hw) as [Hne _]. destruct key as [|c t]; [done|].
    unfold line. destruct args as [|a args]; [by exists c, t, t|]. by do 3 eexists. }
  rewrite Ek, hasPrefix_head in H1, H2. bools.
  assert (hasPrefix line "#" = false) as Hp by (rewrite El, hasPrefix_head; by apply bool_decide_false).
  assert (∀ tags, Forall (λ s, ∃ s', s = String (byte_of 60) s') tags → bool_decide (line ∈ tags) = false) as Htag.
  { intros tags Ht. apply bool_decide_false. intros Hin. rewrite Forall_forall in Ht.
    destruct (Ht _ Hin) as [s' Es]. rewrite El in Es. injection Es as Ec _. apply H2. by rewrite Ec. }
  unfold lineStep. rewrite Hp. cbn [negb]. assert (trimSpace line = line) as -> by by apply trimSpace_words.
  unfold isClosingTag, isOpeningTag. rewrite !Htag by (repeat constructor; eexists; reflexivity).
  rewrite bool_decide_true by done. cbn [negb]. unfold line. rewrite splitOn_words; [done..|].
  eapply Forall_impl; [exact Hw|]. intros w. by apply solidWord_lacks.
Qed.

Definition inlineNames : list string := ["ca"; "cert"; "key"].
Lemma tag_open name o : name ∈ inlineNames →
  lineStep readFile stat getwd dir (mkLines o "" "") ("<" +:+ name +:+ ">") = Value (mkLines o name "").
Proof.
  unfold inlineNames. rewrite !elem_of_cons, elem_of_nil. intros H. by destruct_or? H; try done; subst name.
Qed.
Lemma tag_close name o buf : name ∈ inlineNames →
  lineStep readFile stat getwd dir (mkLines o name buf) ("</" +:+ name +:+ ">") =
  match parseInlineTag o name buf with
  | Value o => Value (mkLines o "" "") | Error e => Error e | Panic e => Panic e
  end.
Proof.
  unfold inlineNames. rewrite !elem_of_cons, elem_of_nil. intros H. by destruct_or? H; try done; subst name.
Qed.

Lemma inline_loop name ls rest o o' :
  name ∈ inlineNames → Forall blockLine ls → parseInlineTag o name (concatLines ls) = Value o' →
  linesLoop readFile stat getwd dir (mkLines o "" "") (("<" +:+ name +:+ ">") :: ls ++ ("</" +:+ name +:+ ">") :: rest) =
  linesLoop readFile stat getwd dir (mkLines o' "" "") rest.
Proof.
  intros Hn Hb Ho. cbn [linesLoop]. rewrite tag_open, block_loop by (done || by intros ->; revert Hn; decided).
  cbn [linesLoop]. change ("" +:+ concatLines ls) with (concatLines ls). by rewrite tag_close, Ho.
Qed.

(** The lines of a profile. *)
Definition profileLines (proto host port cipher auth : string) (ca cert key : list string) : list string :=
  [join " " ["proto"; proto]; join " " ["remote"; host; port]; join " " ["cipher"; cipher]; join " " ["auth"; auth]] ++
  "<ca>" :: ca ++ "</ca>" :: "<cert>" :: cert ++ "</cert>" :: "<key>" :: key ++ ["</key>"].

Lemma loop_directive name args o o' rest :
  name ∈ ["proto"; "remote"; "cipher"; "auth"] → Forall solidWord args →
  parseOption readFile stat getwd o dir name args = Value o' →
  linesLoop readFile stat getwd dir (mkLines o "" "") (join " " (name :: args) :: rest) =
  linesLoop readFile stat getwd dir (mkLines o' "" "") rest.
Proof.
  rewrite !elem_of_cons, elem_of_nil. intros Hn Ha Ho. cbn [linesLoop]. rewrite directive_line, Ho; [done|..].
  - constructor; [|done]. destruct_or? Hn; try done; subst name; (split; [done|decided]).
  - by destruct_or? Hn; try done; subst name.
  - by destruct_or? Hn; try done; subst name.
Qed.

Lemma supported_solid s : s ∈ SupportedCiphers ++ SupportedAuth ++ ["tcp"; "udp"] → solidWord s.
Proof.
  intros H. assert (Forall (λ s, s ≠ "" ∧ Forall (λ c, (code c < 128)%N ∧ space1 c = false) (s2l s))
    (SupportedCiphers ++ SupportedAuth ++ ["tcp"; "udp"])) as Ha by decided.
  rewrite Forall_forall in Ha. by apply Ha.
Qed.

Lemma option_cipher o c : c ∈ SupportedCiphers → parseOption readFile stat getwd o dir "cipher" [c] = Value (setCipher c o).
Proof. intros H. change (parseCipher [c] o = Value (setCipher c o)). unfold parseCipher. by rewrite bool_decide_true. Qed.
Lemma option_auth o a : a ∈ SupportedAuth → parseOption readFile stat getwd o dir "auth" [a] = Value (setAuth a o).
Proof. intros H. change (parseAuth [a] o = Value (setAuth a o)). unfold parseAuth. by rewrite bool_decide_true. Qed.

(** A profile with a protocol, a remote, a supported cipher and digest and its inline
    certificates is read as what it says. *)
Theorem profile_roundtrip proto host port cipher auth ca cert key :
  proto ∈ ["tcp"; "udp"] → solidWord host → solidWord port → cipher ∈ SupportedCiphers → auth ∈ SupportedAuth →
  ca ≠ [] → cert ≠ [] → key ≠ [] → Forall blockLine (ca ++ cert ++ key) →
  ∃ o, getOptionsFromLines readFile stat getwd (profileLines proto host port cipher auth ca cert key) dir = Value o ∧
    Remote o = (host, joinHostPort host port, proto) ∧ optPort o = port ∧ optCipher o = cipher ∧ optAuth o = auth ∧
    optCA o = concatLines ca ∧ optCert o = concatLines cert ∧ optKey o = concatLines key ∧ HasAuthInfo o = true.
Proof.
  intros Hp Hh Hpo Hc Ha Hca Hce Hk Hb. rewrite !Forall_app in Hb. destruct Hb as (Hb1 & Hb2 & Hb3).
  assert (solidWord proto ∧ solidWord cipher ∧ solidWord auth) as (? & ? & ?)
    by (split_and!; apply supported_solid; rewrite !elem_of_app; auto).
  unfold getOptionsFromLines, profileLines. cbn [app].
  rewrite (loop_directive "proto" [proto] _ (setProto proto initialOptions)); [|decided|rewrite ?Forall_cons; by auto using Forall_nil_2|].
  2: { rewrite !elem_of_cons, elem_of_nil in Hp. by destruct_or? Hp; try done; subst proto. }
  erewrite (loop_directive "remote" [host; port]); [|decided|rewrite ?Forall_cons; by auto using Forall_nil_2|reflexivity].
  erewrite (loop_directive "cipher" [cipher]); [|decided|rewrite ?Forall_cons; by auto using Forall_nil_2|by apply option_cipher].
  erewrite (loop_directive "auth" [auth]); [|decided|rewrite ?Forall_cons; by auto using Forall_nil_2|by apply option_auth].
  assert (∀ o ls, ls ≠ [] → parseInlineTag o "ca" (concatLines ls) = Value (setInline (concatLines ls) (optCert o) (optKey o) o) ∧
    parseInlineTag o "cert" (concatLines ls) = Value (setInline (optCA o) (concatLines ls) (optKey o) o) ∧
    parseInlineTag o "key" (concatLines ls) = Value (setInline (optCA o) (optCert o) (concatLines ls) o)) as Ht.
  { intros o ls Hls. unfold parseInlineTag. by rewrite bool_decide_false by (by apply concatLines_nonempty). }
  erewrite (inline_loop "ca"); [|decided|done|by apply Ht].
  erewrite (inline_loop "cert"); [|decided|done|by apply Ht].
  erewrite (inline_loop "key" key []); [|decided|done|by apply Ht].
  eexists. split; [reflexivity|]. split_and!; try done. unfold HasAuthInfo. cbn.
  by rewrite !(bool_decide_false (concatLines _ = "")) by (by apply concatLines_nonempty).
Qed.
End RoundTrip.

(** ** What a hostile profile does *)

#[local] Existing Instance asciiTables.

(** Only the profile itself is there; a path below it is not a directory. *)
Definition profileFile : string := "/data/run/node.ovpn".
Definition oneFile (text path : string) : result string :=
  if bool_decide (path = profileFile) then Ok text else Err "no such file or directory".
Definition oneStat (path : string) : fileStat :=
  if bool_decide (path = profileFile) then StatRegular
  else if hasPrefix path (profileFile +:+ "/") then StatFailed else StatNotExist.

(** What becomes of a profile: the row of the list, the sanitizer, the engine's parser. *)
Definition rowOf (profile : string) : list string :=
  ["public-vpn-1"; "203.0.113.7"; "500"; "12"; "1000"; "Japan"; "jp"; "3"; encodeToString (s2l profile)].
Definition sampleIndex : gmap string nat := indexHeader 0 ("HostName" :: sampleHeader) ∅.
Definition engineReads (profile : string) : outcome OpenVPNOptions :=
  match SanitizeOpenVPNConfig profile with
  | Ok out => ReadConfigFile (oneFile out) oneStat (Ok "/") profileFile
  | Err e => Error e
  end.
Definition listed (profile : string) (n : VpnNode) : Prop :=
  rowToNode (rowOf profile) sampleIndex = Some n.

Definition redirecting : string :=
  join nl ["proto tcp"; "remote 203.0.113.7 443"; "remote 192.168.1.1 80"; "cipher AES-128-CBC"; "auth SHA1"].

(** The list is checked for the first remote of a profile, the engine dials the last
    one: a node that passed as a public server can point into the private network. *)
Theorem profile_redirects :
  ∃ n o, listed redirecting n ∧ safeNode n ∧ RemoteHost n = "203.0.113.7" ∧
    engineReads redirecting = Value o ∧ Remote o = ("192.168.1.1", "192.168.1.1:80", "tcp").
Proof.
  assert (∃ n, listed redirecting n ∧ RemoteHost n = "203.0.113.7") as (n & Hn & Hr)
    by (eexists; split; vm_compute; reflexivity).
  exists n. eexists. split_and!; [done|by eapply rowToNode_safe|done|vm_compute; reflexivity|vm_compute; reflexivity].
Qed.

(** A listed profile that the sanitizer passes and that stops the program: the
    directive [comp-lzo] without an argument, or a certificate below a file. *)
Theorem profile_panics :
  Forall (λ line, let profile := join nl ["proto tcp"; "remote 203.0.113.7 443"; line] in
    ∃ n e, listed profile n ∧ safeNode n ∧ engineReads profile = Panic e)
    ["comp-lzo"; "ca /data/run/node.ovpn/x"].
Proof.
  repeat (apply Forall_cons; split; [cbv zeta|]); [..|by apply Forall_nil_2].
  all: match goal with |- context [listed ?p] =>
    assert (∃ n, listed p n) as [n Hn] by (eexists; vm_compute; reflexivity) end.
  all: exists n; eexists; split_and!; [done|by eapply rowToNode_safe|vm_compute; reflexivity].
Qed.

(** The test for a subdirectory compares strings: a sibling whose name starts with
    the name of the directory passes. *)
Lemma sibling_accepted : isSubdir (Ok "/") "/data/run/" "/data/run-old/secret.pem" = true.
Proof. vm_compute. reflexivity. Qed.


Definition credentialsProfile : string := join nl ["auth-user-pass"; "remote 203.0.113.7 443"; "auth-user-pass /etc/passwd"].
Lemma sanitized_reads_no_credentials_witness :
  ∃ out o, SanitizeOpenVPNConfig credentialsProfile = Ok out ∧ engineReads credentialsProfile = Value o ∧
    optUsername o = "" ∧ optPassword o = "".
Proof.
  do 2 eexists. split; [vm_compute; reflexivity|]. split; [vm_compute; reflexivity|].
  eapply (sanitized_reads_no_credentials
    (oneFile ("remote 203.0.113.7 443" +:+ nl)) oneStat (Ok "/") credentialsProfile ("remote 203.0.113.7 443" +:+ nl) profileFile);
    vm_compute; reflexivity.
Defined.

Lemma profile_roundtrip_witness :
  ∃ o, getOptionsFromLines (oneFile "") oneStat (Ok "/")
    (profileLines "tcp" "203.0.113.7" "443" "AES-128-CBC" "SHA1" ["CA"] ["CERT"] ["KEY"]) "/data/run/" = Value o ∧
    Remote o = ("203.0.113.7", "203.0.113.7:443", "tcp") ∧ HasAuthInfo o = true.
Proof.
  destruct (profile_roundtrip (oneFile "") oneStat (Ok "/") "/data/run/" "tcp" "203.0.113.7" "443" "AES-128-CBC" "SHA1"
    ["CA"] ["CERT"] ["KEY"]) as (o & H1 & H2 & _ & _ & _ & _ & _ & _ & H3).
  1: decided. 1, 2: split; [discriminate|decided]. 1, 2: decided. 1-3: discriminate.
  - unfold blockLine. repeat (apply Forall_cons; split; [split_and!; vm_compute; reflexivity|]). apply Forall_nil_2.
  - exists o. split; [exact H1|]. split; [exact H2|exact H3].
Defined.
