(* ===== verification/ControlMsg.v ===== *)
(** * [minivpn/internal/tlssession/controlmsg.go]: messages over the TLS session

    The key exchange of the client and of the server, and the push reply with the
    addresses of the tunnel. *)

From S2P Require Import Prelude GoStrings GoCodec Bytesx Packet Session VpnOptions.

(** ** The client's message *)

Definition controlMessageHeader : bytes := zeros 4.
Definition ivVer : string := "2.5.5".
Definition ivProto : string := "2".
Definition rawInfo : string := "IV_VER=" +:+ ivVer +:+ nl +:+ "IV_PROTO=" +:+ ivProto +:+ nl.
(** The error of this call is dropped; the string is short. *)
Definition peerInfo : bytes := match EncodeOptionStringToBytes (s2l rawInfo) with Ok b => b | Err _ => [] end.

Definition encodeClientControlMessageAsBytes {U : UnicodeTables} (k : KeySource) (o : OpenVPNOptions) : outcome bytes :=
  match ServerOptionsString o with
  | Panic e => Panic e
  | Error e => Error e
  | Value options =>
      match EncodeOptionStringToBytes (s2l options), EncodeOptionStringToBytes (s2l (optUsername o)),
            EncodeOptionStringToBytes (s2l (optPassword o)) with
      | Ok opt, Ok user, Ok pass =>
          Value (controlMessageHeader ++ [byte_of 2] ++ keySourceBytes k ++ opt ++ user ++ pass ++ peerInfo)
      | Err e, _, _ | _, Err e, _ | _, _, Err e => Error e
      end
  end.

(** ** The server's message *)

Definition parseServerControlMessage (message : bytes) : result (KeySource * string) :=
  fail_if (length message <? 4)%nat with Err "missing four-byte all-zero header" ;;
  fail_if negb (bool_decide (take 4 message = controlMessageHeader)) with Err "expected four-byte all-zero header" ;;
  fail_if (length message <? 71)%nat
    with Err ("cannot parse control message: bad len from server:" +:+ itoa (Z.of_nat (length message))) ;;
  match message !! 4%nat with
  | Some keyMethod =>
      fail_if negb (bool_decide (code keyMethod = 2)%N)
        with Err ("unsupported key method: " +:+ itoa (Z.of_N (code keyMethod))) ;;
      let random1 := take 32 (drop 5 message) in
      let random2 := take 32 (drop 37 message) in
      match DecodeOptionStringFromBytes (drop 69 message) with
      | Err _ => Err "cannot parse control message:bad options string"
      | Ok options => Ok (mkKeySource random1 random2 (zeros 48), l2s options)
      end
  | None => Err "cannot parse control message"
  end.

(** ** The push reply *)

(** The last option of a name wins, as in the map. *)
Fixpoint pushedOptions (opts : list string) (m : gmap string (list string)) : gmap string (list string) :=
  match opts with
  | [] => m
  | opt :: opts => pushedOptions opts (match splitOn 32 opt with k :: v => <[k := v]> m | [] => m end)
  end.
Definition pushedOptionsAsMap (resp : bytes) : gmap string (list string) :=
  fail_if bool_decide (resp = []) with ∅ ;;
  pushedOptions (splitOn 44 (l2s (take (length resp - 1) resp))) ∅.

Definition arg (m : gmap string (list string)) (key : string) (i : nat) : option string := default [] (m !! key) !! i.
Definition newTunnelInfoFromPushedOptions (m : gmap string (list string)) : TunnelInfo :=
  let gw := match arg m "route" 0, arg m "route-gateway" 0 with
            | Some r, _ => r
            | None, Some r => r
            | None, None => ""
            end in
  let ip := default "" (arg m "ifconfig" 0) in
  let netMask := default "" (arg m "ifconfig" 1) in
  let '(peerID, usePeerID) :=
    match m !! "peer-id" with
    | Some [v] => let '(peer, ok) := atoi v in if ok then (peer, true) else (0%Z, false)
    | _ => (0%Z, false)
    end in
  mkTunnelInfo gw ip 0 netMask peerID usePeerID.

Definition serverBadAuth : string := "AUTH_FAILED".
Definition serverPushReply : string := "PUSH_REPLY".
Definition parseServerPushReply (resp : bytes) : result TunnelInfo :=
  fail_if prefixb (s2l serverBadAuth) resp with Err "server says: bad auth" ;;
  fail_if negb (prefixb (s2l serverPushReply) resp) with Err "bad server reply:expected push reply" ;;
  Ok (newTunnelInfoFromPushedOptions (pushedOptionsAsMap resp)).

(** ** The key exchange *)

(** The peer's side: header, key method, key material, four option strings. *)
Definition readOption (b : bytes) : option (bytes * bytes) :=
  match b with
  | h :: l :: b =>
      let n := N.to_nat (uint16 h l) in
      if (1 <=? n)%nat && (n <=? length b)%nat then Some (take (n - 1) b, drop n b) else None
  | _ => None
  end.
Definition peerReads (message : bytes) : option (KeySource * list bytes) :=
  if bool_decide (take 5 message = zeros 4 ++ [byte_of 2]) then
    let b := drop 5 message in
    '(options, b') ← readOption (drop 112 b);
    '(user, b') ← readOption b';
    '(pass, b') ← readOption b';
    '(info, b') ← readOption b';
    if bool_decide (b' = [])
    then Some (mkKeySource (take 32 (drop 48 b)) (take 32 (drop 80 b)) (take 48 b), [options; user; pass; info])
    else None
  else None.

Lemma readOption_encode s enc rest : EncodeOptionStringToBytes s = Ok enc → readOption (enc ++ rest) = Some (s, rest).
Proof.
  unfold EncodeOptionStringToBytes. destruct (N.leb_spec 65535 (N.of_nat (length s))) as [|Hl]; [done|].
  intros [= <-]. cbn [app putUint16 readOption]. rewrite uint16_put by lia.
  replace (N.to_nat (N.of_nat (length s) + 1)) with (S (length s)) by lia.
  rewrite <-app_assoc, length_app. cbn [length app].
  destruct (Nat.leb_spec 1 (S (length s))), (Nat.leb_spec (S (length s)) (length s + S (length rest))); try lia.
  cbn [andb]. replace (S (length s) - 1)%nat with (length s) by lia.
  rewrite take_app_length. f_equal. f_equal. by rewrite (cons_middle (byte_of 0)), app_assoc, drop_app_length' by (rewrite length_app; cbn; lia).
Qed.

Definition wfKeys (k : KeySource) : Prop := length (R1 k) = 32%nat ∧ length (R2 k) = 32%nat ∧ length (PreMaster k) = 48%nat.

Lemma encode_cases s :
  (∃ enc, EncodeOptionStringToBytes s = Ok enc) ∨
  (∃ e, EncodeOptionStringToBytes s = Err e) ∧ (65535 ≤ N.of_nat (length s))%N.
Proof. unfold EncodeOptionStringToBytes. destruct (N.leb_spec 65535 (N.of_nat (length s))); eauto. Qed.

Lemma take_drop_mid (a b c : bytes) n m : length a = n → length b = m → take m (drop n (a ++ b ++ c)) = b.
Proof. intros <- <-. by rewrite drop_app_length, take_app_length. Qed.

(** The peer reads from the client's message exactly the key material, the options,
    the user, the password and the peer information it was made of; only a string
    that is too long for its length field makes it fail. *)
Theorem client_message_roundtrip {U : UnicodeTables} k o options :
  wfKeys k → ServerOptionsString o = Value options →
  match encodeClientControlMessageAsBytes k o with
  | Value message =>
      peerReads message = Some (k, [s2l options; s2l (optUsername o); s2l (optPassword o); s2l rawInfo])
  | Error _ => ∃ s, s ∈ [options; optUsername o; optPassword o] ∧ (65535 ≤ N.of_nat (length (s2l s)))%N
  | Panic _ => False
  end.
Proof.
  intros (H1 & H2 & H3) Ho. unfold encodeClientControlMessageAsBytes. rewrite Ho.
  destruct (encode_cases (s2l options)) as [[e1 E1]|[[e1 E1] Hl]]; rewrite E1.
  2: { repeat case_match; try done; (exists options; split; [set_solver|done]). }
  destruct (encode_cases (s2l (optUsername o))) as [[e2 E2]|[[e2 E2] Hl]]; rewrite E2.
  2: { repeat case_match; try done; (exists (optUsername o); split; [set_solver|done]). }
  destruct (encode_cases (s2l (optPassword o))) as [[e3 E3]|[[e3 E3] Hl]]; rewrite E3.
  2: { exists (optPassword o); split; [set_solver|done]. }
  assert (EncodeOptionStringToBytes (s2l rawInfo) = Ok peerInfo) as E4 by (vm_compute; reflexivity).
  unfold peerReads. rewrite bool_decide_true by done.
  change (drop 5 (controlMessageHeader ++ [byte_of 2] ++ ?x)) with x. unfold keySourceBytes. cbv zeta.
  set (rest := e1 ++ e2 ++ e3 ++ peerInfo).
  assert (drop 112 ((PreMaster k ++ R1 k ++ R2 k) ++ rest) = rest) as ->.
  { apply drop_app_length'. rewrite !length_app. lia. }
  unfold rest. rewrite (readOption_encode _ _ _ E1). cbn [mbind option_bind].
  rewrite (readOption_encode _ _ _ E2). cbn [mbind option_bind]. rewrite (readOption_encode _ _ _ E3). cbn [mbind option_bind].
  rewrite <-(app_nil_r peerInfo) at 1. rewrite (readOption_encode _ _ _ E4). cbn [mbind option_bind].
  rewrite bool_decide_true by done. fold rest. do 2 f_equal. destruct k as [r1 r2 pre]. cbn in *. f_equal.
  - rewrite <-!app_assoc. by apply take_drop_mid.
  - rewrite <-!app_assoc, (app_assoc pre). apply take_drop_mid; [rewrite length_app; lia|done].
  - rewrite <-!app_assoc. by rewrite take_app_length'.
Qed.

(** ** The server's message read *)

Definition serverMessage (r1 r2 options padding : bytes) : bytes :=
  controlMessageHeader ++ [byte_of 2] ++ r1 ++ r2 ++ options ++ padding.

(** The key material of the server is read as sent, and its options as far as nothing
    follows them: what pads the message ends up in the options, but for its last byte. *)
Theorem server_message_read r1 r2 s enc padding :
  length r1 = 32%nat → length r2 = 32%nat → EncodeOptionStringToBytes s = Ok enc →
  parseServerControlMessage (serverMessage r1 r2 enc padding) =
    Ok (mkKeySource r1 r2 (zeros 48),
        l2s (match padding with [] => s | _ => s ++ byte_of 0 :: take (length padding - 1) padding end)).
Proof.
  intros H1 H2 He. pose proof (option_string_padding s padding enc He) as Hd. unfold parseServerControlMessage.
  assert (71 ≤ length (serverMessage r1 r2 enc padding))%nat as Hl.
  { unfold serverMessage. rewrite !length_app, H1, H2. unfold EncodeOptionStringToBytes in He.
    destruct (65535 <=? _)%N; [done|]. injection He as <-. cbn. rewrite !length_app. cbn. lia. }
  destruct (Nat.ltb_spec (length (serverMessage r1 r2 enc padding)) 4),
    (Nat.ltb_spec (length (serverMessage r1 r2 enc padding)) 71); try lia.
  rewrite bool_decide_true by done. cbn [negb].
  change (serverMessage r1 r2 enc padding !! 4%nat) with (Some (byte_of 2)). cbn [negb]. rewrite bool_decide_true by done.
  cbn [negb]. assert (drop 69 (serverMessage r1 r2 enc padding) = enc ++ padding) as ->.
  { unfold serverMessage. rewrite !app_assoc. rewrite <-(app_assoc _ enc). apply drop_app_length'. by rewrite !length_app, H1, H2. }
  rewrite Hd. do 2 f_equal. f_equal.
  - unfold serverMessage. rewrite (app_assoc controlMessageHeader). by apply take_drop_mid.
  - unfold serverMessage. rewrite (app_assoc controlMessageHeader), (app_assoc _ r1).
    apply take_drop_mid; [by rewrite length_app, H1|done].
Qed.

(** Padding after the option that ends the string breaks the session: the MTU no
    longer is a number. *)
Lemma padded_options_refused {U : UnicodeTables} r :
  length r = 32%nat →
  ∃ enc k options, EncodeOptionStringToBytes (s2l "V4,tun-mtu 1500") = Ok enc ∧
    parseServerControlMessage (serverMessage r r enc (zeros 1)) = Ok (k, options) ∧
    isOk (newTunnelInfoFromRemoteOptionsString options) = false ∧
    newTunnelInfoFromRemoteOptionsString "V4,tun-mtu 1500" = Ok (mkTunnelInfo "" "" 1500 "" 0 false).
Proof.
  intros Hr. do 3 eexists. split; [vm_compute; reflexivity|]. split; [|split].
  - by apply (server_message_read r r (s2l "V4,tun-mtu 1500")).
  - vm_compute. reflexivity.
  - vm_compute. reflexivity.
Qed.

(** ** The push reply read *)

(** A reply as the server sends it, and the last option of a name. *)
Definition pushReply (opts : list (list string)) : bytes :=
  s2l (join "," (serverPushReply :: (join " " <$> opts))) ++ [byte_of 0].
Definition wfOption (opt : list string) : Prop :=
  opt ≠ [] ∧ Forall (λ w, lacks (byte_of 32) w ∧ lacks (byte_of 44) w) opt.
Fixpoint lastOption (key : string) (opts : list (list string)) : option (list string) :=
  match opts with
  | [] => None
  | opt :: opts =>
      match lastOption key opts with
      | Some v => Some v
      | None => match opt with k :: v => if bool_decide (k = key) then Some v else None | [] => None end
      end
  end.

Lemma splitOn_commas ws : ws ≠ [] → Forall (lacks (byte_of 44)) ws → splitOn 44 (join "," ws) = ws.
Proof. exact (splitOn_join 44 ws). Qed.

Lemma pushedOptions_lookup opts m key : Forall wfOption opts →
  pushedOptions (join " " <$> opts) m !! key = match lastOption key opts with Some v => Some v | None => m !! key end.
Proof.
  intros Hw. revert m. induction Hw as [|opt opts [Hne Ho] Hw IH]; intros m; [done|].
  rewrite fmap_cons. cbn [pushedOptions lastOption].
  rewrite splitOn_words by (done || by eapply Forall_impl; [exact Ho|intros ? []]). rewrite IH.
  destruct (lastOption key opts); [done|]. destruct opt as [|k v]; [done|].
  case_bool_decide; [subst; by rewrite lookup_insert_eq|by rewrite lookup_insert_ne].
Qed.

(** The addresses of the tunnel are those of the last option of each name; the reply
    is refused exactly if it says so or is none. *)
Theorem push_reply_read opts :
  Forall wfOption opts →
  let args key := default [] (lastOption key opts) in
  ∃ ti, parseServerPushReply (pushReply opts) = Ok ti ∧
    tiIP ti = default "" (args "ifconfig" !! 0%nat) ∧ tiNetMask ti = default "" (args "ifconfig" !! 1%nat) ∧
    tiGW ti = default "" (head (take 1 (args "route") ++ take 1 (args "route-gateway"))) ∧
    (tiUsePeerID ti = true ↔ ∃ v, lastOption "peer-id" opts = Some [v] ∧ atoi v = (tiPeerID ti, true)).
Proof.
  intros Hw args. unfold parseServerPushReply.
  assert (pushedOptionsAsMap (pushReply opts) = pushedOptions (join " " <$> opts) (<[serverPushReply := []]> ∅)) as Hm.
  { unfold pushedOptionsAsMap, pushReply. rewrite bool_decide_false by (by destruct (s2l _)).
    rewrite length_app. cbn [length]. rewrite Nat.add_sub, take_app_length, l2s_s2l, splitOn_commas; [done..|].
    constructor; [decided|]. apply Forall_fmap. eapply Forall_impl; [exact Hw|]. intros opt [_ Ho]. cbn.
    apply join_lacks; [decided|]. eapply Forall_impl; [exact Ho|]. by intros ? []. }
  assert (∀ key, key ≠ serverPushReply → pushedOptionsAsMap (pushReply opts) !! key = lastOption key opts) as Hl.
  { intros key Hk. rewrite Hm, pushedOptions_lookup by done. by destruct (lastOption key opts); [|rewrite lookup_insert_ne]. }
  assert (∃ rest, pushReply opts = s2l serverPushReply ++ rest) as [rest Hr].
  { unfold pushReply. destruct opts as [|o os]; [by eexists|]. rewrite fmap_cons.
    change (join "," (serverPushReply :: join " " o :: (join " " <$> os)))
      with (serverPushReply +:+ "," +:+ join "," (join " " o :: (join " " <$> os))).
    rewrite s2l_app, <-app_assoc. by eexists. }
  assert (prefixb (s2l serverBadAuth) (pushReply opts) = false) as -> by (rewrite Hr; reflexivity).
  assert (prefixb (s2l serverPushReply) (pushReply opts) = true) as -> by (rewrite Hr; reflexivity). cbn [negb].
  eexists. split; [done|]. unfold newTunnelInfoFromPushedOptions, arg.
  rewrite !Hl by done. fold (args "route") (args "route-gateway") (args "ifconfig").
  destruct (lastOption "peer-id" opts) as [[|v [|? ?]]|] eqn:Ep; [..|]; try destruct (atoi v) as [peer ok] eqn:Ea; try destruct ok.
  all: cbn; split_and!; try done.
  all: try (by destruct (args "route") as [|r1 l1], (args "route-gateway") as [|r2 l2]).
  all: split; [by eauto|]; intros (v' & ? & ?); congruence.
Qed.

(** ** Examples *)

#[local] Existing Instance asciiTables.

Definition sampleKeys : KeySource := mkKeySource (zeros 32) (zeros 32) (zeros 48).
Definition sampleServerOptions : OpenVPNOptions :=
  setCipher "AES-128-CBC" (setAuth "SHA1" (setCredentials "vpn" "vpn" initialOptions)).

Lemma client_message_roundtrip_witness :
  ∃ message options, encodeClientControlMessageAsBytes sampleKeys sampleServerOptions = Value message ∧
    ServerOptionsString sampleServerOptions = Value options ∧
    peerReads message = Some (sampleKeys, [s2l options; s2l "vpn"; s2l "vpn"; s2l rawInfo]).
Proof.
  do 2 eexists. split; [vm_compute; reflexivity|]. split; [vm_compute; reflexivity|].
  refine (client_message_roundtrip sampleKeys sampleServerOptions _ _ _); [by split_and!|vm_compute; reflexivity].
Defined.

Lemma server_message_read_witness :
  parseServerControlMessage (serverMessage (zeros 32) (zeros 32) [byte_of 0; byte_of 2; byte_of 86; byte_of 0] []) =
  Ok (mkKeySource (zeros 32) (zeros 32) (zeros 48), "V").
Proof. apply (server_message_read (zeros 32) (zeros 32) (s2l "V") _ []); reflexivity. Defined.

Definition sampleOpts : list (list string) :=
  [["ifconfig"; "10.8.0.2"; "255.255.255.0"]; ["route-gateway"; "10.8.0.1"]; ["peer-id"; "7"]].
Lemma push_reply_read_witness :
  ∃ ti, parseServerPushReply (pushReply sampleOpts) = Ok ti ∧ tiIP ti = "10.8.0.2" ∧ tiGW ti = "10.8.0.1" ∧
    tiUsePeerID ti = true.
Proof.
  assert (Forall wfOption sampleOpts) as Hw.
  { unfold sampleOpts, wfOption, lacks. repeat (apply Forall_cons; split; [split; [discriminate|decided]|]). apply Forall_nil_2. }
  destruct (push_reply_read sampleOpts Hw) as (ti & H1 & H2 & H3 & H4 & H5).
  exists ti. split; [exact H1|]. split; [exact H2|]. split; [exact H4|].
  vm_compute in H1. injection H1 as <-. reflexivity.
Defined.
