(* ===== verification/DataCrypto.v ===== *)
(** * [minivpn/internal/datachannel/crypto.go]: ciphers and key derivation

    AES as a block cipher, GCM and the digests are those of Go's crypto packages
    and parameters here, with their laws ([PrimitiveLaws]). CBC, HMAC and the
    pseudo-random function of TLS 1.0 are built on them. What panics is [Panic]. *)

From S2P Require Import Prelude GoStrings GoCodec Bytesx Packet Session.

(** ** Primitives *)

Class Primitives := {
  aesEncrypt : bytes → bytes → bytes;
  aesDecrypt : bytes → bytes → bytes;
  gcmSeal : bytes → bytes → bytes → bytes → bytes;
  gcmOpen : bytes → bytes → bytes → bytes → option bytes;
  md5 : bytes → bytes;
  sha1 : bytes → bytes;
  sha256 : bytes → bytes;
  sha512 : bytes → bytes
}.

Class PrimitiveLaws (P : Primitives) : Prop := {
  aes_inverse key block : length block = 16 → aesDecrypt key (aesEncrypt key block) = block;
  aes_encrypt_length key block : length block = 16 → length (aesEncrypt key block) = 16;
  aes_decrypt_length key block : length block = 16 → length (aesDecrypt key block) = 16;
  gcm_open_seal key nonce plaintext additional :
    gcmOpen key nonce (gcmSeal key nonce plaintext additional) additional = Some plaintext;
  gcm_seal_length key nonce plaintext additional :
    length (gcmSeal key nonce plaintext additional) = length plaintext + 16;
  md5_length b : length (md5 b) = 16;
  sha1_length b : length (sha1 b) = 20;
  sha256_length b : length (sha256 b) = 32;
  sha512_length b : length (sha512 b) = 64
}.

(** Go's outcome of a call inside another one: an error or panic ends the caller. *)
Notation "'let!' x ':=' c 'in' k" :=
  (match c with Value x => k | Error e => Error e | Panic e => Panic e end)
  (at level 10, x pattern, c at level 200, k at level 200) : go_scope.
Open Scope go_scope.

Definition ofResult {A} (r : result A) : outcome A := match r with Ok a => Value a | Err e => Error e end.
(** [fmt.Errorf("%w: %s", prefix, err)]. *)
Definition wrapError {A} (prefix : string) (o : outcome A) : outcome A :=
  match o with Error e => Error (prefix +:+ ": " +:+ e) | o => o end.

Definition xorByte (a b : ascii) : ascii := byte_of (N.lxor (code a) (code b)).
Definition xorBytes (a b : bytes) : bytes := zip_with xorByte a b.

(** *** Digests and HMAC *)

Inductive hash := MD5 | SHA1 | SHA256 | SHA512.
#[export] Instance hash_eq_dec : EqDecision hash.
Proof. solve_decision. Defined.

Definition hashSize (h : hash) : nat := match h with MD5 => 16 | SHA1 => 20 | SHA256 => 32 | SHA512 => 64 end.
Definition hashBlockSize (h : hash) : nat := match h with SHA512 => 128 | _ => 64 end.

Definition newHMACFactory (name : string) : option hash :=
  if bool_decide (name = "sha1") then Some SHA1
  else if bool_decide (name = "sha256") then Some SHA256
  else if bool_decide (name = "sha512") then Some SHA512
  else None.

Section Crypto.
Context {P : Primitives}.

Definition digest (h : hash) : bytes → bytes :=
  match h with MD5 => md5 | SHA1 => sha1 | SHA256 => sha256 | SHA512 => sha512 end.

(** [hmac.New(h, key)], written [message], [Sum(nil)]. *)
Definition hmac (h : hash) (key message : bytes) : bytes :=
  let key := array (hashBlockSize h) (if (hashBlockSize h <? length key)%nat then digest h key else key) in
  let ipad := (λ c, xorByte c (byte_of 54)) <$> key in
  let opad := (λ c, xorByte c (byte_of 92)) <$> key in
  digest h (opad ++ digest h (ipad ++ message)).

(** *** CBC *)

Fixpoint cbcEncryptBlocks (n : nat) (key prev l : bytes) : bytes :=
  match n with
  | O => []
  | S n => let c := aesEncrypt key (xorBytes (take 16 l) prev) in c ++ cbcEncryptBlocks n key c (drop 16 l)
  end.
Fixpoint cbcDecryptBlocks (n : nat) (key prev l : bytes) : bytes :=
  match n with
  | O => []
  | S n => xorBytes (aesDecrypt key (take 16 l)) prev ++ cbcDecryptBlocks n key (take 16 l) (drop 16 l)
  end.
(** [CryptBlocks]. *)
Definition cryptBlocks (f : nat → bytes → bytes → bytes → bytes) (key iv l : bytes) : outcome bytes :=
  fail_if negb (length l mod 16 =? 0)%nat with Panic "crypto/cipher: input not full blocks" ;;
  Value (f (length l / 16)%nat key iv l).

(** ** [dataCipherAES] *)

Definition cipherModeCBC : string := "cbc".
Definition cipherModeGCM : string := "gcm".
Definition cipherNameAES : string := "aes".

Definition ErrInvalidKeySize : string := "invalid key size".
Definition ErrUnsupportedCipher : string := "unsupported cipher".
Definition ErrUnsupportedMode : string := "unsupported mode".
Definition ErrCannotEncrypt : string := "cannot encrypt".
Definition ErrCannotDecrypt : string := "cannot decrypt".

Record encryptedData := mkEncrypted { encIV : bytes; encCiphertext : bytes; encAEAD : bytes }.
Record plaintextData := mkPlaintext { plnIV : bytes; plnPlaintext : bytes; plnAEAD : bytes }.

Record dataCipherAES := mkCipher { ksb : Z; mode : string }.
Definition keySizeBytes (a : dataCipherAES) : Z := ksb a.
Definition isAEAD (a : dataCipherAES) : bool := negb (bool_decide (mode a = cipherModeCBC)).
Definition blockSize (a : dataCipherAES) : Z :=
  if bool_decide (mode a ∈ [cipherModeCBC; cipherModeGCM]) then 16 else 0.

(** [key\[:keySizeBytes\]] and [aes.NewCipher]. *)
Definition cipherKey (a : dataCipherAES) (key : bytes) : outcome bytes :=
  fail_if (Z.of_nat (length key) <? keySizeBytes a)%Z with Error ErrInvalidKeySize ;;
  fail_if negb (bool_decide (keySizeBytes a ∈ [16; 24; 32]%Z))
    with Error ("crypto/aes: invalid key size " +:+ itoa (keySizeBytes a)) ;;
  Value (take (Z.to_nat (keySizeBytes a)) key).

Definition wrongIV (prefix : string) (iv : bytes) : string :=
  prefix +:+ ": wrong size for iv: " +:+ itoa (Z.of_nat (length iv)).

(** The plaintext, and what follows it in the memory it is a slice of: the padding. *)
Definition decrypt_ (a : dataCipherAES) (key : bytes) (data : encryptedData) : outcome (bytes * bytes) :=
  let! k := cipherKey a key in
  if bool_decide (mode a = cipherModeCBC) then
    fail_if negb (length (encIV data) =? 16)%nat with Error (wrongIV ErrCannotDecrypt (encIV data)) ;;
    let! padded := cryptBlocks cbcDecryptBlocks k (encIV data) (encCiphertext data) in
    let! plaintext := BytesUnpadPKCS7 padded 16 in
    Value (plaintext, drop (length plaintext) padded)
  else if bool_decide (mode a = cipherModeGCM) then
    fail_if negb (length (encIV data) =? 12)%nat with Error (wrongIV ErrCannotDecrypt (encIV data)) ;;
    match gcmOpen k (encIV data) (encCiphertext data) (encAEAD data) with
    | Some plaintext => Value (plaintext, [])
    | None => Error "cipher: message authentication failed"
    end
  else Error ErrUnsupportedMode.

Definition encrypt_ (a : dataCipherAES) (key : bytes) (data : plaintextData) : outcome bytes :=
  let! k := cipherKey a key in
  if bool_decide (mode a = cipherModeCBC) then
    fail_if negb (length (plnIV data) =? 16)%nat with Error (wrongIV ErrCannotEncrypt (plnIV data)) ;;
    fail_if negb (length (plnPlaintext data) mod 16 =? 0)%nat with Error (ErrCannotEncrypt +:+ ": wrong padding") ;;
    cryptBlocks cbcEncryptBlocks k (plnIV data) (plnPlaintext data)
  else if bool_decide (mode a = cipherModeGCM) then
    fail_if negb (length (plnIV data) =? 12)%nat with Error (wrongIV ErrCannotEncrypt (plnIV data)) ;;
    Value (gcmSeal k (plnIV data) (plnPlaintext data) (plnAEAD data))
  else Error ErrUnsupportedMode.

Definition newDataCipher (name : string) (bits : Z) (m : string) : result dataCipherAES :=
  fail_if negb (Z.rem bits 8 =? 0)%Z || (512 <? bits)%Z || (bits <? 64)%Z
    with Err (ErrInvalidKeySize +:+ ": " +:+ itoa bits) ;;
  fail_if negb (bool_decide (name = cipherNameAES)) with Err (ErrUnsupportedCipher +:+ ": " +:+ name) ;;
  fail_if negb (bool_decide (m ∈ [cipherModeCBC; cipherModeGCM])) with Err (ErrUnsupportedMode +:+ ": " +:+ m) ;;
  Ok (mkCipher (bits / 8) m).

Definition newDataCipherFromCipherSuite (c : string) : result dataCipherAES :=
  if bool_decide (c = "AES-128-CBC") then newDataCipher cipherNameAES 128 cipherModeCBC
  else if bool_decide (c = "AES-192-CBC") then newDataCipher cipherNameAES 192 cipherModeCBC
  else if bool_decide (c = "AES-256-CBC") then newDataCipher cipherNameAES 256 cipherModeCBC
  else if bool_decide (c = "AES-128-GCM") then newDataCipher cipherNameAES 128 cipherModeGCM
  else if bool_decide (c = "AES-256-GCM") then newDataCipher cipherNameAES 256 cipherModeGCM
  else Err ErrUnsupportedCipher.

(** ** Key derivation *)

(** [copy(result\[j:\], b)]. *)
Definition copyAt (j : nat) (b result : bytes) : bytes :=
  take j result ++ take (length result - j) b ++ drop (j + length b) result.

(** The loop of [pHash], [None] when the fuel runs out. *)
Fixpoint pHashLoop (fuel : nat) (h : hash) (secret seed a : bytes) (j : nat) (result : bytes) : option bytes :=
  if (length result <=? j)%nat then Some result
  else match fuel with
       | O => None
       | S fuel =>
           let b := hmac h secret (a ++ seed) in
           pHashLoop fuel h secret seed (hmac h secret a) (j + length b) (copyAt j b result)
       end.
(** One round writes at least a byte ([pHash_total]). *)
Definition pHash (result secret seed : bytes) (h : hash) : option bytes :=
  pHashLoop (length result) h secret seed (hmac h secret seed) 0 result.

Definition splitPreMasterSecret (secret : bytes) : bytes * bytes :=
  (take ((length secret + 1) / 2) secret, drop (length secret / 2) secret).

Definition prf10 (result secret label seed : bytes) : option bytes :=
  let labelAndSeed := label ++ seed in
  let (s1, s2) := splitPreMasterSecret secret in
  result ← pHash result s1 labelAndSeed MD5;
  result2 ← pHash (zeros (length result)) s2 labelAndSeed SHA1;
  Some (xorBytes result result2).

Definition prf (secret label clientSeed serverSeed clientSid serverSid : bytes) (olen : nat) : option bytes :=
  prf10 (zeros olen) secret label (clientSeed ++ serverSeed ++ clientSid ++ serverSid).

(** ** Reference: the PRF of RFC 2246, section 5 *)

(** A(n). *)
Fixpoint chainA (h : hash) (secret seed : bytes) (n : nat) : bytes :=
  match n with O => seed | S n => hmac h secret (chainA h secret seed n) end.
(** The blocks [HMAC(secret, A(i) + seed)] for i from [from + 1] on. *)
Fixpoint expansion (h : hash) (secret seed : bytes) (from n : nat) : bytes :=
  match n with
  | O => []
  | S n => hmac h secret (chainA h secret seed (S from) ++ seed) ++ expansion h secret seed (S from) n
  end.
Definition P_hash (h : hash) (secret seed : bytes) (size : nat) : bytes := take size (expansion h secret seed 0 size).
Definition halves (secret : bytes) : bytes * bytes :=
  let n := Nat.div2 (S (length secret)) in (take n secret, drop (length secret - n) secret).
Definition PRF (secret label seed : bytes) (size : nat) : bytes :=
  let (s1, s2) := halves secret in
  xorBytes (P_hash MD5 s1 (label ++ seed) size) (P_hash SHA1 s2 (label ++ seed) size).

End Crypto.

(** ** Properties *)

Lemma xorByte_cancel a b : xorByte (xorByte a b) b = a.
Proof.
  unfold xorByte. rewrite code_byte_of.
  - by rewrite N.lxor_assoc, N.lxor_nilpotent, N.lxor_0_r, byte_of_code.
  - apply N.log2_lt_cancel. change (N.log2 256) with 8%N.
    destruct (decide (N.lxor (code a) (code b) = 0)%N) as [->|Hne]; [done|].
    eapply N.le_lt_trans; [apply N.log2_lxor|].
    assert (∀ c, (N.log2 (code c) < 8)%N) as Hc; [|by apply N.max_lub_lt].
    intros c. destruct (decide (code c = 0)%N) as [->|]; [done|].
    apply N.log2_lt_pow2; [lia|]. apply code_lt.
Qed.

Lemma xorBytes_length a b : length a = length b → length (xorBytes a b) = length a.
Proof. intros ?. unfold xorBytes. rewrite length_zip_with. lia. Qed.

Lemma xorBytes_cancel a b : length a = length b → xorBytes (xorBytes a b) b = a.
Proof.
  revert b. induction a as [|x a IH]; intros [|y b] [=]; [done|].
  cbn. unfold xorBytes in IH. by rewrite xorByte_cancel, IH.
Qed.

Lemma array_length n b : length (array n b) = n.
Proof. unfold array, zeros. rewrite length_take, length_app, length_replicate. lia. Qed.

Lemma array_id n b : length b = n → array n b = b.
Proof. intros <-. unfold array. by rewrite take_app_length. Qed.

Lemma copyAt_length j b l : (j ≤ length l)%nat → length (copyAt j b l) = length l.
Proof. intros. unfold copyAt. rewrite !length_app, !length_take, length_drop. lia. Qed.

Lemma halves_split secret : splitPreMasterSecret secret = halves secret.
Proof.
  unfold splitPreMasterSecret, halves. rewrite Nat.div2_div, Nat.add_1_r.
  do 2 f_equal. generalize (length secret) as n. intros n.
  pose proof (Nat.div_mod_eq n 2). pose proof (Nat.div_mod_eq (S n) 2).
  pose proof (Nat.mod_upper_bound n 2). pose proof (Nat.mod_upper_bound (S n) 2). lia.
Qed.

Section Laws.
Context {P : Primitives} {L : PrimitiveLaws P}.

Lemma digest_length h b : length (digest h b) = hashSize h.
Proof. destruct h; cbn; [apply md5_length|apply sha1_length|apply sha256_length|apply sha512_length]. Qed.
Lemma hmac_length h key b : length (hmac h key b) = hashSize h.
Proof. apply digest_length. Qed.
Lemma hashSize_pos h : (0 < hashSize h ≤ 64)%nat.
Proof. destruct h; cbn; lia. Qed.

(** *** CBC *)

Lemma cbcEncrypt_length n key prev l :
  length prev = 16 → length l = (16 * n)%nat → length (cbcEncryptBlocks n key prev l) = (16 * n)%nat.
Proof.
  revert prev l. induction n as [|n IH]; intros prev l Hp Hl; [done|].
  cbn [cbcEncryptBlocks]. cbv zeta.
  assert (length (xorBytes (take 16 l) prev) = 16) by (rewrite xorBytes_length; rewrite length_take; lia).
  rewrite length_app, IH; rewrite ?aes_encrypt_length, ?length_drop; lia.
Qed.

Lemma cbc_roundtrip n key prev l :
  length prev = 16 → length l = (16 * n)%nat →
  cbcDecryptBlocks n key prev (cbcEncryptBlocks n key prev l) = l.
Proof.
  revert prev l. induction n as [|n IH]; intros prev l Hp Hl; cbn [cbcEncryptBlocks cbcDecryptBlocks].
  { by destruct l. }
  cbv zeta. assert (length (take 16 l) = 16) as Ht by (rewrite length_take; lia).
  assert (length (xorBytes (take 16 l) prev) = 16) by (rewrite xorBytes_length; lia).
  rewrite take_app_length', drop_app_length' by (rewrite aes_encrypt_length; lia).
  rewrite aes_inverse, xorBytes_cancel, IH, take_drop; rewrite ?aes_encrypt_length, ?length_drop; lia || done.
Qed.

(** *** The loop of [pHash] writes the expansion *)

Lemma expansion_length h secret seed from n : length (expansion h secret seed from n) = (n * hashSize h)%nat.
Proof.
  revert from. induction n as [|n IH]; intros from; [done|]. cbn [expansion].
  rewrite length_app, hmac_length, IH. lia.
Qed.

Lemma expansion_app h secret seed from n k :
  expansion h secret seed from (n + k) = expansion h secret seed from n ++ expansion h secret seed (from + n) k.
Proof.
  revert from. induction n as [|n IH]; intros from; cbn [expansion Nat.add app]; [by rewrite Nat.add_0_r|].
  by rewrite IH, <-app_assoc, Nat.add_succ_r.
Qed.

Lemma expansion_prefix h secret seed n k size : (size ≤ n * hashSize h)%nat → (n ≤ k)%nat →
  take size (expansion h secret seed 0 k) = take size (expansion h secret seed 0 n).
Proof.
  intros Hs Hk. replace k with (n + (k - n))%nat by lia.
  rewrite expansion_app, take_app_le; [done|]. rewrite expansion_length. lia.
Qed.

(** After [i] rounds the first [i] blocks are written, cut at the end of the buffer. *)
Definition written (h : hash) (secret seed : bytes) (i size : nat) : bytes :=
  take size (expansion h secret seed 0 i ++ zeros size).

Lemma written_length h secret seed i size : length (written h secret seed i size) = size.
Proof. unfold written, zeros. rewrite length_take, length_app, length_replicate. lia. Qed.

Lemma written_step h secret seed i size : (i * hashSize h < size)%nat →
  copyAt (i * hashSize h) (hmac h secret (chainA h secret seed (S i) ++ seed)) (written h secret seed i size) =
  written h secret seed (S i) size.
Proof.
  intros Hi. pose proof (hashSize_pos h). pose proof (expansion_length h secret seed 0 i) as He.
  set (b := hmac h secret (chainA h secret seed (S i) ++ seed)).
  assert (length b = hashSize h) as Hb by apply hmac_length.
  unfold copyAt. rewrite written_length. unfold written.
  replace (S i) with (i + 1)%nat by lia. rewrite expansion_app. cbn [expansion Nat.add]. fold b. rewrite app_nil_r.
  revert He. generalize (expansion h secret seed 0 i) as e. intros e He.
  rewrite take_take, Nat.min_l, take_app_length' by lia.
  rewrite <-app_assoc, !(take_app_ge e), He, drop_app_ge, He by lia. f_equal. unfold zeros.
  rewrite take_app, !take_replicate, drop_replicate. do 2 f_equal. lia.
Qed.

Lemma written_done h secret seed i size : (size ≤ i * hashSize h)%nat →
  written h secret seed i size = P_hash h secret seed size.
Proof.
  intros Hi. pose proof (hashSize_pos h). unfold written, P_hash.
  rewrite take_app_le by (rewrite expansion_length; lia).
  destruct (Nat.le_ge_cases i size); [symmetry|]; apply expansion_prefix; nia || lia.
Qed.

Lemma pHashLoop_reference h secret seed fuel i size : (size ≤ i + fuel)%nat →
  pHashLoop fuel h secret seed (chainA h secret seed (S i)) (i * hashSize h) (written h secret seed i size) =
  Some (P_hash h secret seed size).
Proof.
  pose proof (hashSize_pos h). revert i. induction fuel as [|fuel IH]; intros i Hf; cbn [pHashLoop];
    rewrite written_length; destruct (Nat.leb_spec size (i * hashSize h)) as [Hd|Hd];
    try (by rewrite written_done); [nia|].
  cbv zeta. rewrite written_step, hmac_length by done.
  replace (i * hashSize h + hashSize h)%nat with (S i * hashSize h)%nat by lia.
  apply (IH (S i)). lia.
Qed.

Lemma pHash_reference h secret seed size : pHash (zeros size) secret seed h = Some (P_hash h secret seed size).
Proof.
  unfold pHash. assert (length (zeros size) = size) as -> by apply length_replicate.
  replace (zeros size) with (written h secret seed 0 size).
  - apply (pHashLoop_reference h secret seed size 0 size). lia.
  - unfold written, zeros. cbn [expansion app]. by rewrite take_replicate, Nat.min_id.
Qed.

Lemma P_hash_length h secret seed size : length (P_hash h secret seed size) = size.
Proof.
  pose proof (hashSize_pos h). unfold P_hash. rewrite length_take, expansion_length. nia.
Qed.

Lemma prf_reference secret label clientSeed serverSeed clientSid serverSid olen :
  prf secret label clientSeed serverSeed clientSid serverSid olen =
    Some (PRF secret label (clientSeed ++ serverSeed ++ clientSid ++ serverSid) olen) ∧
  length (PRF secret label (clientSeed ++ serverSeed ++ clientSid ++ serverSid) olen) = olen.
Proof.
  unfold prf, prf10, PRF. rewrite halves_split. destruct (halves secret) as [s1 s2]. rewrite !pHash_reference.
  cbn [mbind option_bind]. rewrite P_hash_length, pHash_reference. split; [done|].
  rewrite xorBytes_length; by rewrite !P_hash_length.
Qed.

(** C39. The loop over the digests ends, and the key derivation is the pseudo-random
    function of TLS 1.0: whatever the lengths, it returns as many bytes as asked
    for, the two expansions of RFC 2246 over the halves of the secret combined. *)
Theorem prf_is_tls10 secret label clientSeed serverSeed clientSid serverSid olen :
  prf secret label clientSeed serverSeed clientSid serverSid olen =
    Some (PRF secret label (clientSeed ++ serverSeed ++ clientSid ++ serverSid) olen) ∧
  length (PRF secret label (clientSeed ++ serverSeed ++ clientSid ++ serverSid) olen) = olen.
Proof. apply prf_reference. Qed.

End Laws.

(** ** Primitives to compute with

    Not secure, but lawful: a block is reversed, a tag is the end of what it
    authenticates, a digest the last bytes of the message backwards. *)

Definition plainTag (nonce plaintext additional : bytes) : bytes := array 16 (rev (plaintext ++ nonce ++ additional)).
Definition plainOpen (nonce ciphertext additional : bytes) : option bytes :=
  let plaintext := take (length ciphertext - 16) ciphertext in
  if bool_decide (ciphertext = plaintext ++ plainTag nonce plaintext additional) then Some plaintext else None.

Definition plainPrimitives : Primitives := {|
  aesEncrypt _ block := rev block;
  aesDecrypt _ block := rev block;
  gcmSeal _ nonce plaintext additional := plaintext ++ plainTag nonce plaintext additional;
  gcmOpen _ nonce ciphertext additional := plainOpen nonce ciphertext additional;
  md5 b := array 16 (rev b);
  sha1 b := array 20 (rev b);
  sha256 b := array 32 (rev b);
  sha512 b := array 64 (rev b)
|}.


Lemma plainTag_length nonce plaintext additional : length (plainTag nonce plaintext additional) = 16%nat.
Proof. apply array_length. Qed.

Lemma plainLaws : PrimitiveLaws plainPrimitives.
Proof.
  split; cbn; intros; rewrite ?length_app, ?length_rev, ?rev_involutive, ?array_length, ?plainTag_length; try done.
  unfold plainOpen. cbv zeta. rewrite length_app, plainTag_length, Nat.add_sub, take_app_length.
  by rewrite bool_decide_true.
Defined.

Lemma prf_is_tls10_witness :
  PrimitiveLaws plainPrimitives ∧
  (∃ key, prf (P := plainPrimitives) (s2l "secret") (s2l "label") (s2l "client") (s2l "server") [] [] 48 = Some key ∧ length key = 48%nat).
Proof.
  split; [apply plainLaws|]. eexists.
  apply (prf_is_tls10 (P := plainPrimitives) (L := plainLaws) (s2l "secret") (s2l "label") (s2l "client") (s2l "server") [] [] 48).
Defined.
