(* ===== verification/DataChannel.v ===== *)
(** * [minivpn/internal/datachannel]: the data channel

    [controller.go], [state.go], [read.go] and [write.go] whole, and the loop bodies
    of the workers of [service.go]. A [DataChannel] is one the constructor returned
    without an error, so its cipher and hash are set; its [log] is not ([dcLog]): the
    constructor never assigns it. The session manager is an argument; the random
    bytes of an IV are the argument [iv]. Debug and info messages are left out. *)

From S2P Require Import Prelude GoStrings GoCodec Bytesx Packet Session VpnOptions DataCrypto.

(** ** State *)

(** An hmac object is its key; [None] is nil. *)
Record dataChannelState := mkState {
  dataCipher : dataCipherAES;
  stHash : hash;
  hmacLocal : option bytes;
  hmacRemote : option bytes;
  cipherKeyLocal : bytes;
  cipherKeyRemote : bytes;
  hmacKeyLocal : bytes;
  hmacKeyRemote : bytes;
  remotePacketID : N
}.
Record DataChannel := mkChannel { dcOptions : OpenVPNOptions; dcState : dataChannelState; dcLog : bool }.

Definition setDCState (st : dataChannelState) (d : DataChannel) : DataChannel := mkChannel (dcOptions d) st (dcLog d).
Definition SetRemotePacketID (id : N) (st : dataChannelState) : dataChannelState :=
  mkState (dataCipher st) (stHash st) (hmacLocal st) (hmacRemote st) (cipherKeyLocal st) (cipherKeyRemote st)
    (hmacKeyLocal st) (hmacKeyRemote st) id.
Definition keyExpired : string := "key is expired".
Definition RemotePacketID (st : dataChannelState) : result N :=
  fail_if (remotePacketID st =? maxUint32)%N with Err keyExpired ;;
  Ok (remotePacketID st).

Definition nilPointer : string := "runtime error: invalid memory address or nil pointer dereference".
Definition outOfRange : string := "runtime error: index out of range".
Definition badSlice : string := "runtime error: slice bounds out of range".

(** [d.log.Warnf], then go on. *)
Definition warnf {A} (log : bool) (k : outcome A) : outcome A := if log then k else Panic nilPointer.

Definition NewDataChannelFromOptions {U : UnicodeTables} (opt : OpenVPNOptions) : outcome DataChannel :=
  fail_if bool_decide (optCipher opt = "") with Panic "need a configured cipher option" ;;
  fail_if bool_decide (optAuth opt = "") with Panic "need a configured auth option" ;;
  let! dataCipher := ofResult (newDataCipherFromCipherSuite (optCipher opt)) in
  match newHMACFactory (toLower (optAuth opt)) with
  | None => Error ("improperly initialized: no such mac: " +:+ optAuth opt)
  | Some hmacHash =>
      Value (mkChannel opt (mkState dataCipher hmacHash None None (zeros 64) (zeros 64) (zeros 64) (zeros 64) 0) false)
  end.

(** ** Framing *)

Definition framed (compress : string) : bool := bool_decide (compress ∈ ["stub"; "lzo-no"]).

Definition doCompress (b : bytes) (compress : string) : outcome bytes :=
  if bool_decide (compress = "stub") then
    match b with
    | [] => Panic outOfRange
    | c :: rest => Value (byte_of 251 :: rest ++ [c])
    end
  else if bool_decide (compress = "lzo-no") then Value (byte_of 250 :: b)
  else Value b.

Definition doPadding (b : bytes) (compress : string) (blockSize : Z) : outcome bytes :=
  match last b with
  | None => Error "padding error: nothing to pad"
  | Some endByte =>
      if bool_decide (compress = "stub") then
        let! padded := BytesPadPKCS7 (take (length b - 1) b) blockSize in
        Value (take (length padded - 1) padded ++ [endByte])
      else BytesPadPKCS7 b blockSize
  end.

Definition prependPacketID (p : N) (buf : bytes) : bytes := putUint32 p ++ buf.
Definition dataOpcodeAndKeyHeader (opcode : Opcode) (m : Manager) : ascii := headByte opcode (keyID m).
Definition opcodeAndKeyHeader (m : Manager) : ascii := dataOpcodeAndKeyHeader P_DATA_V2 m.
(** [uint32(PeerID)]. *)
Definition peerNumber (m : Manager) : N := Z.to_N (tiPeerID (tunnelInfo m) mod 4294967296)%Z.

(** What the compression byte asks for. *)
Definition unswap (compr : ascii) (payload : bytes) : outcome bytes :=
  if (code compr =? 251)%N then
    match last payload with
    | None => Panic outOfRange
    | Some end_ => Value (end_ :: take (length payload - 1) payload)
    end
  else if (code compr =? 0)%N || (code compr =? 250)%N then Value payload
  else Error ("bad compression: cannot handle compression " +:+
              l2s (hexPad (if (code compr <? 16)%N then 1 else 2) (code compr))).

(** [b] is a slice of a longer buffer, of which [spare] follows: [b\[:4\]] may reach
    into it, [b\[4:\]] may not. *)
Definition maybeDecompress (b spare : bytes) (st : dataChannelState) (opt : OpenVPNOptions) :
    outcome bytes * dataChannelState :=
  if isAEAD (dataCipher st) then
    (if framed (optCompress opt) then
       match b with [] => Panic outOfRange | compr :: payload => unswap compr payload end
     else unswap (byte_of 0) b, st)
  else
    match b ++ spare with
    | i1 :: i2 :: i3 :: i4 :: _ =>
        let id := uint32 i1 i2 i3 i4 in
        match RemotePacketID st with
        | Err e => (Error e, st)
        | Ok lastKnownRemote =>
            fail_if (id <=? lastKnownRemote)%N with (Error "replay attack", st) ;;
            (if framed (optCompress opt) then
               match drop 4 b with [] => Panic outOfRange | compr :: payload => unswap compr payload end
             else if (length b <? 4)%nat then Panic badSlice
             else unswap (byte_of 0) (drop 4 b), SetRemotePacketID id st)
        end
    | _ => (Panic badSlice, st)
    end.

Section Channel.
Context {P : Primitives}.

(** [Reset], two [Write]s, [Sum]. *)
Definition computeHMAC (st : dataChannelState) (key : option bytes) (iv ciphertext : bytes) : outcome bytes :=
  match key with None => Panic nilPointer | Some key => Value (hmac (stHash st) key (iv ++ ciphertext)) end.

(** ** Keys *)

Definition setupKeys (dck : DataChannelKey) (m : Manager) (st : dataChannelState) : outcome dataChannelState :=
  fail_if negb (keyReady dck) with Error "bad data-channel key: key not ready" ;;
  match keyLocal dck, keyRemote dck with
  | Some local, Some remote =>
      match prf (PreMaster local) (s2l "OpenVPN master secret") (R1 local) (R1 remote) [] [] 48 with
      | None => Error "out of fuel"
      | Some master =>
          match prf master (s2l "OpenVPN key expansion") (R2 local) (R2 remote) (localSessionID m) (RemoteSessionID m) 256 with
          | None => Error "out of fuel"
          | Some keys =>
              let keyLocal := take 64 keys in
              let hmacLocal := take 64 (drop 64 keys) in
              let keyRemote := take 64 (drop 128 keys) in
              let hmacRemote := take 64 (drop 192 keys) in
              let size := hashSize (stHash st) in
              Value (mkState (dataCipher st) (stHash st) (Some (take size hmacLocal)) (Some (take size hmacRemote))
                keyLocal keyRemote hmacLocal hmacRemote (remotePacketID st))
          end
      end
  | _, _ => Panic nilPointer
  end.

(** ** Writing *)

Definition encryptAndEncodePayloadAEAD (padded : bytes) (st : dataChannelState) (m : Manager) : outcome bytes * Manager :=
  let (nextPacketID, m) := LocalDataPacketID m in
  match nextPacketID with
  | Err _ => (Error "bad packet id", m)
  | Ok id =>
      let aead := WriteUint32 (WriteUint24 [opcodeAndKeyHeader m] (peerNumber m)) id in
      let iv := WriteUint32 [] id ++ take 8 (hmacKeyLocal st) in
      (let! encrypted := encrypt_ (dataCipher st) (cipherKeyLocal st) (mkPlaintext iv padded aead) in
       fail_if (length encrypted <? 16)%nat with Panic badSlice ;;
       let boundary := (length encrypted - 16)%nat in
       Value (aead ++ drop boundary encrypted ++ take boundary encrypted), m)
  end.

Definition encryptAndEncodePayloadNonAEAD (iv : result bytes) (padded : bytes) (st : dataChannelState) (m : Manager) :
    outcome bytes :=
  let! iv := ofResult iv in
  let! ciphertext := encrypt_ (dataCipher st) (cipherKeyLocal st) (mkPlaintext iv padded []) in
  let! computedMAC := computeHMAC st (hmacLocal st) iv ciphertext in
  Value ((if tiUsePeerID (tunnelInfo m)
          then WriteUint24 [dataOpcodeAndKeyHeader P_DATA_V2 m] (peerNumber m) else [])
         ++ computedMAC ++ iv ++ ciphertext).

Definition encryptAndEncodePayload (iv : result bytes) (plaintext : bytes) (d : DataChannel) (m : Manager) :
    outcome bytes * Manager :=
  let st := dcState d in
  fail_if bool_decide (plaintext = []) with (Error (ErrCannotEncrypt +:+ ": nothing to encrypt"), m) ;;
  match doPadding plaintext (optCompress (dcOptions d)) (blockSize (dataCipher st)) with
  | Value padded =>
      let (encrypted, m) :=
        if isAEAD (dataCipher st) then encryptAndEncodePayloadAEAD padded st m
        else (encryptAndEncodePayloadNonAEAD iv padded st m, m) in
      (wrapError ErrCannotEncrypt encrypted, m)
  | o => (wrapError ErrCannotEncrypt o, m)
  end.

Definition withPeerID (peerID : Z) (p : Packet) : Packet :=
  mkPacket (pktOpcode p) (pktKeyID p)
    [byte_of (Z.to_N (peerID / 65536 mod 256)); byte_of (Z.to_N (peerID / 256 mod 256)); byte_of (Z.to_N (peerID mod 256))]
    (pktLocalSessionID p) (pktACKs p) (pktRemoteSessionID p) (pktID p) (pktPayload p).

Definition writePacket (iv : result bytes) (payload : bytes) (d : DataChannel) (m : Manager) : outcome Packet * Manager :=
  let aead := isAEAD (dataCipher (dcState d)) in
  let (payload, m) :=
    if aead then (payload, m)
    else let (localPacketID, m) := LocalDataPacketID m in
         (prependPacketID (match localPacketID with Ok id => id | Err _ => 0 end) payload, m) in
  match doCompress payload (optCompress (dcOptions d)) with
  | Value payload =>
      let (encrypted, m) := encryptAndEncodePayload iv payload d m in
      (let! encrypted := wrapError ErrCannotEncrypt encrypted in
       let opcode := if aead || tiUsePeerID (tunnelInfo m) then P_DATA_V2 else P_DATA_V1 in
       let packet := NewPacket opcode (keyID m) encrypted in
       Value (if bool_decide (opcode = P_DATA_V2) then withPeerID (tiPeerID (tunnelInfo m)) packet else packet), m)
  | Error e => (Error (ErrCannotEncrypt +:+ ": " +:+ e), m)
  | Panic e => (Panic e, m)
  end.

(** ** Reading *)

Definition decodeEncryptedPayloadAEAD (buf : bytes) (m : Manager) (st : dataChannelState) : outcome encryptedData :=
  fail_if (length buf <? 20)%nat with Error ("too short: " +:+ itoa (Z.of_nat (length buf)) +:+ " bytes") ;;
  let packet_id := take 4 buf in
  let headers := WriteUint24 [opcodeAndKeyHeader m] (peerNumber m) ++ packet_id in
  Value (mkEncrypted (packet_id ++ take 8 (hmacKeyRemote st)) (drop 20 buf ++ take 16 (drop 4 buf)) headers).

(** The sizes are added as [uint8]. *)
Definition decodeEncryptedPayloadNonAEAD (log : bool) (buf : bytes) (st : dataChannelState) : outcome encryptedData :=
  match hmacRemote st with
  | None => Panic nilPointer
  | Some _ =>
      let hashSize := hashSize (stHash st) in
      let minLen := Z.to_nat ((Z.of_nat hashSize + blockSize (dataCipher st)) mod 256) in
      fail_if (length buf <? minLen)%nat
        with Error ("cannot decode: too short (" +:+ itoa (Z.of_nat (length buf)) +:+ " bytes)") ;;
      let receivedHMAC := take hashSize buf in
      let iv := take (minLen - hashSize) (drop hashSize buf) in
      let cipherText := drop minLen buf in
      let! computedHMAC := computeHMAC st (hmacRemote st) iv cipherText in
      fail_if negb (bool_decide (computedHMAC = receivedHMAC))
        with warnf log (Error (ErrCannotDecrypt +:+ ": bad hmac")) ;;
      Value (mkEncrypted iv cipherText [])
  end.

Definition decodeEncryptedPayload (buf : bytes) (d : DataChannel) (m : Manager) : outcome encryptedData :=
  if isAEAD (dataCipher (dcState d)) then decodeEncryptedPayloadAEAD buf m (dcState d)
  else decodeEncryptedPayloadNonAEAD (dcLog d) buf (dcState d).

(** The plaintext and its spare bytes; [hmacKeyRemote] is an array, never empty. *)
Definition decrypt (encrypted : bytes) (d : DataChannel) (m : Manager) : outcome (bytes * bytes) :=
  let! encryptedData := wrapError ErrCannotDecrypt (decodeEncryptedPayload encrypted d m) in
  fail_if bool_decide (encCiphertext encryptedData = []) with Error (ErrCannotDecrypt +:+ ": nothing to decrypt") ;;
  wrapError ErrCannotDecrypt (decrypt_ (dataCipher (dcState d)) (cipherKeyRemote (dcState d)) encryptedData).

Definition readPacket (p : Packet) (d : DataChannel) (m : Manager) : outcome bytes * DataChannel :=
  fail_if bool_decide (pktPayload p = []) with (Error (ErrCannotDecrypt +:+ ": empty payload"), d) ;;
  fail_if negb (IsData (pktOpcode p)) with (Panic "ReadPacket expects data packet", d) ;;
  match decrypt (pktPayload p) d m with
  | Value (plaintext, spare) =>
      let (payload, st) := maybeDecompress plaintext spare (dcState d) (dcOptions d) in (payload, setDCState st d)
  | Error e => (Error e, d)
  | Panic e => (Panic e, d)
  end.

(** ** Workers *)

(** What the workers share, with what they have sent to the muxer and to the TUN. *)
Record dataWorkers := mkWorkers {
  wsChannel : DataChannel; wsManager : Manager; firstKeyReady : bool; sentDown : list Packet; sentUp : list bytes
}.
Inductive dataEvent :=
  | KeyReady (key : DataChannelKey)
  | TUNToData (data : bytes) (iv : result bytes)
  | MuxerToData (pkt : Packet).

(** The body of the loop of [moveDownWorker]. *)
Definition moveDownData (data : bytes) (iv : result bytes) (ws : dataWorkers) : outcome dataWorkers :=
  let (packet, m) := writePacket iv data (wsChannel ws) (wsManager ws) in
  match packet with
  | Value packet => Value (mkWorkers (wsChannel ws) m (firstKeyReady ws) (sentDown ws ++ [packet]) (sentUp ws))
  | Error _ => Value (mkWorkers (wsChannel ws) m (firstKeyReady ws) (sentDown ws) (sentUp ws))
  | Panic e => Panic e
  end.
(** The body of the loop of [moveUpWorker]. *)
Definition moveUpData (pkt : Packet) (ws : dataWorkers) : outcome dataWorkers :=
  let (decrypted, d) := readPacket pkt (wsChannel ws) (wsManager ws) in
  match decrypted with
  | Value decrypted =>
      Value (mkWorkers d (wsManager ws) (firstKeyReady ws) (sentDown ws)
               (if (length decrypted =? 16)%nat then sentUp ws else sentUp ws ++ [decrypted]))
  | Error _ => Value (mkWorkers d (wsManager ws) (firstKeyReady ws) (sentDown ws) (sentUp ws))
  | Panic e => Panic e
  end.
(** The body of the loop of [keyWorker]. *)
Definition takeKey (key : DataChannelKey) (ws : dataWorkers) : outcome dataWorkers :=
  match setupKeys key (wsManager ws) (dcState (wsChannel ws)) with
  | Value st => Value (mkWorkers (setDCState st (wsChannel ws)) (SetNegotiationState S_GENERATED_KEYS (wsManager ws)).2
                         true (sentDown ws) (sentUp ws))
  | Error _ => Value ws
  | Panic e => Panic e
  end.

(** An event is taken once its worker waits for it: before the first key what comes
    from the TUN and the muxer stays where it is. *)
Definition channelStep (e : dataEvent) (ws : dataWorkers) : outcome dataWorkers :=
  match e with
  | KeyReady key => takeKey key ws
  | TUNToData data iv => if firstKeyReady ws then moveDownData data iv ws else Value ws
  | MuxerToData pkt => if firstKeyReady ws then moveUpData pkt ws else Value ws
  end.
Fixpoint dataRun (es : list dataEvent) (ws : dataWorkers) : outcome dataWorkers :=
  match es with
  | [] => Value ws
  | e :: es => let! ws := channelStep e ws in dataRun es ws
  end.

End Channel.
