(* ===== verification/DataChannelProps.v ===== *)
(** * The data channel: properties

    [DataChannel] proved: which options give a channel, the keys it derives, what
    comes out at the other end of the wire in CBC and in GCM sessions, replays,
    nonces, and the workers under every order of events. *)

From S2P Require Import Prelude GoStrings GoCodec Bytesx Packet Session VpnOptions DataCrypto DataChannel.

(** The options of a profile, and the suites the channel is made for. *)
Definition channelSuites : list string := ["AES-128-CBC"; "AES-192-CBC"; "AES-256-CBC"; "AES-128-GCM"; "AES-256-GCM"].

(** A cipher the constructor makes. *)
Record goodCipher (a : dataCipherAES) : Prop := {
  gc_key : keySizeBytes a ∈ [16; 24; 32]%Z;
  gc_mode : mode a ∈ [cipherModeCBC; cipherModeGCM]
}.
(** A state whose keys are set. *)
Record ready (st : dataChannelState) : Prop := {
  rd_cipher : goodCipher (dataCipher st);
  rd_hmac : hmacLocal st = Some (take (hashSize (stHash st)) (hmacKeyLocal st));
  rd_hmacRemote : hmacRemote st = Some (take (hashSize (stHash st)) (hmacKeyRemote st));
  rd_local : length (cipherKeyLocal st) = 64%nat;
  rd_remote : length (cipherKeyRemote st) = 64%nat;
  rd_hmacLocal : length (hmacKeyLocal st) = 64%nat;
  rd_hmacRemoteKey : length (hmacKeyRemote st) = 64%nat
}.

Lemma newDataCipher_good c a : newDataCipherFromCipherSuite c = Ok a → c ∈ channelSuites ∧ goodCipher a.
Proof.
  unfold newDataCipherFromCipherSuite. repeat case_bool_decide; try done;
    intros Ha; cbv in Ha; injection Ha as <-; subst c; (split; [|split]); decided.
Qed.

(** Of the cipher suites and digests a profile may name, the data channel is
    made for all but AES-192-GCM: with that suite its workers are not started, so
    nobody takes the key and the start waits until its time is up. *)
Theorem channel_for_options {U : UnicodeTables} opt : optCipher opt ∈ SupportedCiphers → optAuth opt ∈ SupportedAuth →
  (∃ d, NewDataChannelFromOptions opt = Value d ∧ goodCipher (dataCipher (dcState d)) ∧ dcLog d = false) ∨
  (optCipher opt = "AES-192-GCM" ∧ NewDataChannelFromOptions opt = Error ErrUnsupportedCipher).
Proof.
  intros Hc Ha.
  assert (∃ h, newHMACFactory (toLower (optAuth opt)) = Some h) as [h Hh].
  { unfold SupportedAuth in Ha. repeat (apply elem_of_cons in Ha as [->|Ha]; [eexists; vm_compute; reflexivity|]).
    by apply elem_of_nil in Ha. }
  assert (optAuth opt ≠ "") by (intros He; rewrite He in Ha; revert Ha; decided).
  assert (optCipher opt ≠ "") by (intros He; rewrite He in Hc; revert Hc; decided).
  unfold NewDataChannelFromOptions. rewrite !bool_decide_false, Hh by done.
  destruct (newDataCipherFromCipherSuite (optCipher opt)) as [a|e] eqn:Hs.
  - left. eexists. split; [done|]. split; [|done]. cbn. by eapply newDataCipher_good.
  - right. cbn [ofResult]. revert Hc Hs. generalize (optCipher opt) as c. intros c Hc Hs. unfold SupportedCiphers in Hc.
    repeat (apply elem_of_cons in Hc as [->|Hc];
            [vm_compute in Hs; first [discriminate Hs|by injection Hs as <-]|]).
    by apply elem_of_nil in Hc.
Qed.

Section Laws.
Context {P : Primitives} {L : PrimitiveLaws P}.

(** *** Keys *)

Lemma setupKeys_spec dck local remote m st :
  goodCipher (dataCipher st) → keyReady dck = true → keyLocal dck = Some local → keyRemote dck = Some remote →
  ∃ st', setupKeys dck m st = Value st' ∧ ready st' ∧
    cipherKeyLocal st' ++ hmacKeyLocal st' ++ cipherKeyRemote st' ++ hmacKeyRemote st' =
      PRF (PRF (PreMaster local) (s2l "OpenVPN master secret") (R1 local ++ R1 remote) 48)
        (s2l "OpenVPN key expansion") (R2 local ++ R2 remote ++ localSessionID m ++ RemoteSessionID m) 256 ∧
    dataCipher st' = dataCipher st ∧ stHash st' = stHash st ∧ remotePacketID st' = remotePacketID st.
Proof.
  intros Hc Hr Hl Hm. unfold setupKeys. rewrite Hr, Hl, Hm. cbn [negb].
  destruct (prf_reference (PreMaster local) (s2l "OpenVPN master secret") (R1 local) (R1 remote) [] [] 48) as [-> _].
  rewrite !app_nil_r. set (master := PRF (PreMaster local) _ _ _).
  destruct (prf_reference master (s2l "OpenVPN key expansion") (R2 local) (R2 remote) (localSessionID m) (RemoteSessionID m) 256)
    as [-> Hlen].
  set (keys := PRF master _ _ _) in *. clearbody keys. clear master. eexists. split; [done|].
  assert (take 64 keys ++ take 64 (drop 64 keys) ++ take 64 (drop 128 keys) ++ take 64 (drop 192 keys) = keys) as Hk.
  { assert (∀ n, take 64 (drop n keys) ++ drop (n + 64) keys = drop n keys) as Hn.
    { intros n. by rewrite <-drop_drop, take_drop. }
    rewrite (take_ge (drop 192 keys)) by (rewrite length_drop; lia).
    pose proof (Hn 128%nat) as H1. pose proof (Hn 64%nat) as H2. cbn [Nat.add] in H1, H2. by rewrite H1, H2, take_drop. }
  split; [|split; [exact Hk|done]].
  split; cbn [dataCipher hmacLocal hmacRemote stHash cipherKeyLocal cipherKeyRemote hmacKeyLocal hmacKeyRemote];
    try done; rewrite length_take, ?length_drop, Hlen; lia.
Qed.

(** A complete key gives four keys of 64 bytes: the consecutive parts of the key
    block that TLS 1.0's function derives from both sides' random bytes and session
    identifiers, the HMAC keys cut to the size of the digest. The packet counter of
    the other side is kept. *)
Theorem keys_derived dck local remote m st :
  goodCipher (dataCipher st) → keyReady dck = true → keyLocal dck = Some local → keyRemote dck = Some remote →
  ∃ st', setupKeys dck m st = Value st' ∧ ready st' ∧
    cipherKeyLocal st' ++ hmacKeyLocal st' ++ cipherKeyRemote st' ++ hmacKeyRemote st' =
      PRF (PRF (PreMaster local) (s2l "OpenVPN master secret") (R1 local ++ R1 remote) 48)
        (s2l "OpenVPN key expansion") (R2 local ++ R2 remote ++ localSessionID m ++ RemoteSessionID m) 256 ∧
    dataCipher st' = dataCipher st ∧ stHash st' = stHash st ∧ remotePacketID st' = remotePacketID st.
Proof. apply setupKeys_spec. Qed.

(** *** One packet, encrypted and decrypted *)

Lemma goodCipher_key a key : goodCipher a → length key = 64%nat → ∃ k, cipherKey a key = Value k.
Proof.
  intros [Hk _] Hl. unfold cipherKey. rewrite Hl, bool_decide_true by done. cbn [negb].
  assert ((Z.of_nat 64 <? keySizeBytes a)%Z = false) as ->; [|by eexists].
  apply Z.ltb_ge. rewrite !elem_of_cons, elem_of_nil in Hk. lia.
Qed.

Lemma cbc_cipher a : goodCipher a → isAEAD a = false → mode a = cipherModeCBC.
Proof. unfold isAEAD. case_bool_decide; done. Qed.
Lemma gcm_cipher a : goodCipher a → isAEAD a = true → mode a = cipherModeGCM ∧ mode a ≠ cipherModeCBC.
Proof.
  intros [_ Hm] Ha. unfold isAEAD in Ha. case_bool_decide as Hn; [done|].
  rewrite !elem_of_cons, elem_of_nil in Hm. naive_solver.
Qed.

Lemma blockSize_good a : goodCipher a → blockSize a = 16%Z.
Proof. intros [_ Hm]. unfold blockSize. by rewrite bool_decide_true. Qed.

Lemma cbc_decrypt_encrypt a key iv padded : goodCipher a → isAEAD a = false → length key = 64%nat →
  length iv = 16%nat → (length padded mod 16 = 0)%nat →
  ∃ c, encrypt_ a key (mkPlaintext iv padded []) = Value c ∧ length c = length padded ∧
    ∀ aead, decrypt_ a key (mkEncrypted iv c aead) =
      (let! plaintext := BytesUnpadPKCS7 padded 16 in Value (plaintext, drop (length plaintext) padded)).
Proof.
  intros Hg Ha Hk Hiv Hp. destruct (goodCipher_key a key Hg Hk) as [k Hck].
  pose proof (cbc_cipher a Hg Ha) as Hm.
  assert (length padded = 16 * (length padded / 16))%nat as Hd by (pose proof (Nat.div_mod_eq (length padded) 16); lia).
  unfold encrypt_, decrypt_. cbn [plnIV plnPlaintext plnAEAD encIV encCiphertext]. rewrite Hck, bool_decide_true, Hiv, Hp by done.
  cbn [Nat.eqb negb]. unfold cryptBlocks at 1. rewrite Hp. cbn [Nat.eqb negb].
  pose proof (cbcEncrypt_length (length padded / 16) k iv padded Hiv Hd) as Hc.
  eexists. split; [done|]. split; [lia|]. intros _. unfold cryptBlocks. rewrite Hc, <-Hd, Hp. cbn [Nat.eqb negb].
  by rewrite cbc_roundtrip.
Qed.

Lemma gcm_decrypt_encrypt a key iv padded aead : goodCipher a → isAEAD a = true → length key = 64%nat →
  length iv = 12%nat →
  ∃ c, encrypt_ a key (mkPlaintext iv padded aead) = Value c ∧ length c = (length padded + 16)%nat ∧
    decrypt_ a key (mkEncrypted iv c aead) = Value (padded, []).
Proof.
  intros Hg Ha Hk Hiv. destruct (goodCipher_key a key Hg Hk) as [k Hck].
  destruct (gcm_cipher a Hg Ha) as [Hm Hn].
  unfold encrypt_, decrypt_. cbn [plnIV plnPlaintext plnAEAD encIV encCiphertext encAEAD]. rewrite Hck, (bool_decide_false _ Hn), (bool_decide_true _ Hm), Hiv.
  cbn [Nat.eqb negb]. eexists. split; [done|]. split; [apply gcm_seal_length|]. by rewrite gcm_open_seal.
Qed.

(** *** The wire *)

(** A data packet of this session with [body] behind the header. *)
Definition header (m : Manager) : bytes := WriteUint24 [opcodeAndKeyHeader m] (peerNumber m).
Definition sent (m : Manager) (v2 : bool) (body : bytes) : Packet :=
  if v2 then withPeerID (tiPeerID (tunnelInfo m)) (NewPacket P_DATA_V2 (keyID m) (header m ++ body))
  else NewPacket P_DATA_V1 (keyID m) body.

Lemma sent_wire m v2 body : (keyID m < 8)%N → body ≠ [] →
  ∃ wire p, packetBytes (sent m v2 body) = Ok wire ∧ ParsePacket wire = Ok p ∧
    pktPayload p = body ∧ IsData (pktOpcode p) = true.
Proof.
  intros Hk Hb. destruct body as [|b body]; [done|].
  destruct v2; (eexists; eexists; split; [reflexivity|]).
  - cbn [header sent withPeerID NewPacket pktPayload WriteUint24 app]. unfold header, WriteUint24, putUint32.
    cbn [drop app]. unfold opcodeAndKeyHeader, dataOpcodeAndKeyHeader.
    destruct (headByte_decodes P_DATA_V2 (keyID m)) as [Ho Hi]; [done..|].
    cbn [ParsePacket]. rewrite Ho, Hi. cbn. split; [reflexivity|]. done.
  - cbn [sent NewPacket pktPayload pktOpcode pktKeyID].
    destruct (headByte_decodes P_DATA_V1 (keyID m)) as [Ho Hi]; [done..|].
    cbn [ParsePacket]. rewrite Ho, Hi. cbn. done.
Qed.

(** The other end of a tunnel that runs the same code: what it expects to receive is
    what this end sends. *)
Record mirrors (st st' : dataChannelState) (m m' : Manager) : Prop := {
  mi_cipher : dataCipher st' = dataCipher st;
  mi_hash : stHash st' = stHash st;
  mi_key : cipherKeyRemote st' = cipherKeyLocal st;
  mi_hmac : hmacRemote st' = hmacLocal st;
  mi_hmacKey : hmacKeyRemote st' = hmacKeyLocal st;
  mi_id : keyID m' = keyID m;
  mi_info : tunnelInfo m' = tunnelInfo m
}.

Lemma nonAEAD_body iv padded st m st' m' log :
  ready st → isAEAD (dataCipher st) = false → mirrors st st' m m' → length iv = 16%nat →
  (length padded mod 16 = 0)%nat → padded ≠ [] →
  ∃ body, encryptAndEncodePayloadNonAEAD (Ok iv) padded st m =
            Value ((if tiUsePeerID (tunnelInfo m) then header m else []) ++ body) ∧ body ≠ [] ∧
    ∃ data, decodeEncryptedPayloadNonAEAD log body st' = Value data ∧ encCiphertext data ≠ [] ∧
      decrypt_ (dataCipher st') (cipherKeyRemote st') data =
        (let! plaintext := BytesUnpadPKCS7 padded 16 in Value (plaintext, drop (length plaintext) padded)).
Proof.
  intros [Hg Hh _ Hl _ _ _] Ha [Mc Mh Mk Mm _ _ _] Hiv Hp Hn.
  destruct (cbc_decrypt_encrypt (dataCipher st) (cipherKeyLocal st) iv padded Hg Ha Hl Hiv Hp) as (c & He & Hc & Hd).
  unfold encryptAndEncodePayloadNonAEAD. cbn [ofResult]. rewrite He, Hh. cbn [computeHMAC]. 
  set (mac := hmac (stHash st) _ (iv ++ c)).
  assert (length mac = hashSize (stHash st)) as Hmac by apply hmac_length.
  assert (c ≠ []) as Hcn by (intros ->; by destruct padded).
  pose proof (hashSize_pos (stHash st)) as Hs.
  eexists. split; [reflexivity|]. split; [by destruct mac, iv|].
  exists (mkEncrypted iv c []). unfold decodeEncryptedPayloadNonAEAD, computeHMAC.
  rewrite Mm, Hh, Mh, Mc, (blockSize_good _ Hg), Mk. cbv zeta.
  replace (Z.to_nat ((Z.of_nat (hashSize (stHash st)) + 16) mod 256)) with (hashSize (stHash st) + 16)%nat
    by (rewrite Z.mod_small; lia).
  rewrite !length_app, Hmac, Hiv. destruct (Nat.ltb_spec (hashSize (stHash st) + (16 + length c)) (hashSize (stHash st) + 16)); [lia|].
  rewrite Nat.add_comm, Nat.add_sub, (Nat.add_comm 16), <-drop_drop, take_app_length', drop_app_length' by done.
  rewrite take_app_length', drop_app_length' by done. fold mac. rewrite bool_decide_true by done. cbn [negb].
  split; [done|]. split; [done|]. apply Hd.
Qed.

(** *** The padding *)

Lemma pad16 b : ∃ padded, BytesPadPKCS7 b 16 = Value padded ∧ (length padded mod 16 = 0)%nat ∧ padded ≠ [] ∧
  BytesUnpadPKCS7 padded 16 = Value b ∧ ∃ spare, padded = b ++ spare.
Proof.
  destruct (pkcs7_roundtrip b 16) as (padded & Hp & Hm & Hl & Hu); [lia|]. exists padded.
  split; [done|]. split; [|split; [by destruct padded; cbn in Hl; [lia|]|split; [done|]]].
  - apply Nat2Z.inj. by rewrite Nat2Z.inj_mod.
  - unfold BytesPadPKCS7 in Hp. cbn [Z.leb Z.ltb Z.compare] in Hp. injection Hp as <-. by eexists.
Qed.

Lemma unframed c : framed c = false → c ≠ "stub" ∧ c ≠ "lzo-no".
Proof. unfold framed. case_bool_decide as Hc; [done|]. intros _. rewrite !elem_of_cons, elem_of_nil in Hc. naive_solver. Qed.

Lemma unframed_padding b c : framed c = false → b ≠ [] → doPadding b c 16 = BytesPadPKCS7 b 16.
Proof.
  intros [Hs _]%unframed Hb. unfold doPadding. destruct (last b) eqn:Hl; [by rewrite bool_decide_false|].
  by apply last_None in Hl.
Qed.
Lemma unframed_compress b c : framed c = false → doCompress b c = Value b.
Proof. intros [Hs Hz]%unframed. unfold doCompress. by rewrite !bool_decide_false. Qed.

Lemma maybeDecompress_id id payload spare st opt :
  isAEAD (dataCipher st) = false → framed (optCompress opt) = false → (id < maxUint32)%N →
  (remotePacketID st < id)%N →
  maybeDecompress (putUint32 id ++ payload) spare st opt = (Value payload, SetRemotePacketID id st).
Proof.
  intros Ha Hf Hi Hr. unfold maybeDecompress. rewrite Ha, Hf. cbn [putUint32 app].
  rewrite uint32_put by (unfold maxUint32 in Hi; lia). unfold RemotePacketID.
  destruct (N.eqb_spec (remotePacketID st) maxUint32); [lia|]. destruct (N.leb_spec id (remotePacketID st)); [lia|].
  done.
Qed.

Lemma readPacket_decrypted p d m data plaintext spare :
  pktPayload p ≠ [] → IsData (pktOpcode p) = true → decodeEncryptedPayload (pktPayload p) d m = Value data →
  encCiphertext data ≠ [] →
  decrypt_ (dataCipher (dcState d)) (cipherKeyRemote (dcState d)) data = Value (plaintext, spare) →
  readPacket p d m = let (payload, st) := maybeDecompress plaintext spare (dcState d) (dcOptions d) in (payload, setDCState st d).
Proof.
  intros Hp Ho Hd Hn Hc. unfold readPacket, decrypt. rewrite bool_decide_false, Ho, Hd by done. cbn [negb wrapError].
  by rewrite bool_decide_false, Hc by done.
Qed.

Lemma value_inj {A} (a b : A) : Value a = Value b → a = b.
Proof. congruence. Qed.

(** What a packet of a CBC session is decrypted to at the other end: what
    [doCompress] made of identifier and payload. *)
Lemma cbc_wire iv payload d m d' m' :
  ready (dcState d) → isAEAD (dataCipher (dcState d)) = false → mirrors (dcState d) (dcState d') m m' →
  optCompress (dcOptions d) ≠ "stub" → (keyID m < 8)%N → length iv = 16%nat →
  let id := match (LocalDataPacketID m).1 with Ok id => id | Err _ => 0%N end in
  ∃ p wire p' plaintext spare, writePacket (Ok iv) payload d m = (Value p, (LocalDataPacketID m).2) ∧
    packetBytes p = Ok wire ∧ ParsePacket wire = Ok p' ∧
    doCompress (putUint32 id ++ payload) (optCompress (dcOptions d)) = Value plaintext ∧
    readPacket p' d' m' =
      let (x, st) := maybeDecompress plaintext spare (dcState d') (dcOptions d') in (x, setDCState st d').
Proof.
  intros Hr Ha Hm Hf Hk Hiv id. set (m1 := (LocalDataPacketID m).2).
  assert (keyID m1 = keyID m ∧ tunnelInfo m1 = tunnelInfo m) as [Hk1 Ht1]
    by (unfold m1, LocalDataPacketID; by destruct (_ =? _)%N).
  assert (∃ plaintext, doCompress (putUint32 id ++ payload) (optCompress (dcOptions d)) = Value plaintext ∧ plaintext ≠ [])
    as (pt & Hpt & Hpn).
  { unfold doCompress. rewrite bool_decide_false by done. case_bool_decide; by eexists. }
  destruct (pad16 pt) as (padded & Hpad & Hmod & Hne & Hun & spare & Hsp).
  assert (mirrors (dcState d) (dcState d') m1 m') as Hm1 by (destruct Hm; split; congruence).
  destruct (nonAEAD_body iv padded (dcState d) m1 (dcState d') m' (dcLog d') Hr Ha Hm1 Hiv Hmod Hne)
    as (body & Hw & Hb & data & Hdec & Hct & Hcr).
  assert (isAEAD (dataCipher (dcState d')) = false) as Ha' by (by rewrite (mi_cipher _ _ _ _ Hm)).
  destruct (sent_wire m1 (tiUsePeerID (tunnelInfo m1)) body) as (wire & p' & Hbytes & Hparse & Hpay & Hop); [by rewrite Hk1|done|].
  rewrite Hun in Hcr. eexists (sent m1 (tiUsePeerID (tunnelInfo m1)) body), wire, p', pt, _.
  split; [|do 3 (split; [done|])].
  - unfold writePacket. rewrite Ha, (surjective_pairing (LocalDataPacketID m)). fold m1 id. unfold prependPacketID. rewrite Hpt.
    unfold encryptAndEncodePayload, doPadding. rewrite bool_decide_false, (blockSize_good _ (rd_cipher _ Hr)) by done.
    destruct (last pt) eqn:Hl; [|by apply last_None in Hl].
    rewrite bool_decide_false, Hpad, Ha, Hw by done. cbn [wrapError orb]. unfold sent.
    by destruct (tiUsePeerID (tunnelInfo m1)).
  - rewrite <-Hpay in Hb, Hdec. erewrite readPacket_decrypted; [reflexivity|done|done| |done|exact Hcr].
    unfold decodeEncryptedPayload. by rewrite Ha'.
Qed.


(** When the identifiers of a CBC session are used up, the error is dropped and
    every further packet is sent with the identifier zero, which the other end takes
    for a replay: the tunnel looks alive and carries nothing. *)
Theorem cbc_exhausted_unreadable iv payload d m d' m' :
  ready (dcState d) → isAEAD (dataCipher (dcState d)) = false → mirrors (dcState d) (dcState d') m m' →
  framed (optCompress (dcOptions d)) = false → (keyID m < 8)%N → length iv = 16%nat →
  localDataPacketID m = maxUint32 →
  ∃ p wire p' e, writePacket (Ok iv) payload d m = (Value p, m) ∧
    packetBytes p = Ok wire ∧ ParsePacket wire = Ok p' ∧ readPacket p' d' m' = (Error e, d').
Proof.
  intros Hr Ha Hm Hf Hk Hiv Hi.
  destruct (cbc_wire iv payload d m d' m') as (p & wire & p' & pt & spare & Hw & Hb & Hp & Hc & Hrd); try done;
    [by apply unframed|].
  unfold LocalDataPacketID in Hw, Hc. rewrite Hi, N.eqb_refl in Hw, Hc. cbn [fst snd] in Hw, Hc.
  rewrite unframed_compress in Hc by done. apply (value_inj _ _) in Hc as <-.
  unfold maybeDecompress in Hrd. rewrite (mi_cipher _ _ _ _ Hm), Ha in Hrd. cbn [putUint32 app] in Hrd.
  rewrite uint32_put in Hrd by done. unfold RemotePacketID in Hrd. exists p, wire, p'.
  destruct d' as [o st l]. cbn [dcState dcOptions] in *.
  destruct (remotePacketID st =? maxUint32)%N; [|destruct (N.leb_spec 0 (remotePacketID st)); [|lia]];
    eexists; do 3 (split; [done|]); rewrite Hrd; done.
Qed.

Lemma unswap_refused c payload : code c ∉ [0; 250; 251]%N → ∃ e, unswap c payload = Error e.
Proof.
  rewrite !not_elem_of_cons. intros (H0 & H1 & H2 & _). unfold unswap.
  rewrite (proj2 (N.eqb_neq _ _) H2), (proj2 (N.eqb_neq _ _) H0), (proj2 (N.eqb_neq _ _) H1). by eexists.
Qed.

(** With [comp-lzo no] in a CBC session the compression byte is written before the
    identifier but read after it: the other end finds the last byte of the identifier
    where the compression byte should be and refuses the packet, unless that byte
    happens to be one of three. *)
Theorem lzo_no_unreadable iv payload d m d' m' :
  ready (dcState d) → isAEAD (dataCipher (dcState d)) = false → mirrors (dcState d) (dcState d') m m' →
  optCompress (dcOptions d) = "lzo-no" → optCompress (dcOptions d') = "lzo-no" → (keyID m < 8)%N → length iv = 16%nat →
  (localDataPacketID m < maxUint32)%N → (localDataPacketID m mod 256)%N ∉ [0; 250; 251]%N →
  ∃ p wire p' e d1, writePacket (Ok iv) payload d m = (Value p, setDataID (localDataPacketID m + 1) m) ∧
    packetBytes p = Ok wire ∧ ParsePacket wire = Ok p' ∧ readPacket p' d' m' = (Error e, d1).
Proof.
  intros Hr Ha Hm Hf Hf' Hk Hiv Hi Hid.
  destruct (cbc_wire iv payload d m d' m') as (p & wire & p' & pt & spare & Hw & Hb & Hp & Hc & Hrd); try done;
    [by rewrite Hf|].
  unfold LocalDataPacketID in Hw, Hc. destruct (N.eqb_spec (localDataPacketID m) maxUint32); [lia|].
  rewrite inc32_small in Hw by done. cbn [fst snd] in Hw, Hc.
  rewrite Hf in Hc. change (doCompress (putUint32 (localDataPacketID m) ++ payload) "lzo-no")
    with (Value (byte_of 250 :: putUint32 (localDataPacketID m) ++ payload)) in Hc. apply (value_inj _ _) in Hc as <-.
  exists p, wire, p'. rewrite Hrd. clear Hrd.
  unfold maybeDecompress. rewrite (mi_cipher _ _ _ _ Hm), Ha, Hf'. cbn [putUint32 app drop].
  change (framed "lzo-no") with true. cbv iota zeta.
  assert (code (byteAt (localDataPacketID m) 0) = (localDataPacketID m mod 256)%N) as Hcode
    by (rewrite byteAt_code; change (2 ^ 0)%N with 1%N; by rewrite N.div_1_r).
  destruct (unswap_refused (byteAt (localDataPacketID m) 0) payload) as [e He]; [by rewrite Hcode|].
  rewrite He. destruct (RemotePacketID (dcState d')) as [last|]; [destruct (_ <=? last)%N|];
    by eexists; eexists.
Qed.

Lemma decodeAEAD id tag ct m st : length tag = 16%nat →
  decodeEncryptedPayloadAEAD (putUint32 id ++ tag ++ ct) m st =
  Value (mkEncrypted (putUint32 id ++ take 8 (hmacKeyRemote st)) (ct ++ tag) (WriteUint32 (header m) id)).
Proof.
  intros Ht. unfold decodeEncryptedPayloadAEAD. rewrite !length_app, Ht.
  destruct (Nat.ltb_spec (length (putUint32 id) + (16 + length ct)) 20) as [H|_]; [cbn in H; lia|]. cbv zeta.
  replace (drop 20 (putUint32 id ++ tag ++ ct)) with ct.
  - rewrite (take_app_length' (putUint32 id)), (drop_app_length' (putUint32 id)), take_app_length' by done. done.
  - change 20%nat with (4 + 16)%nat. by rewrite <-drop_drop, !drop_app_length'.
Qed.

(** In a GCM session the other end reads the payload with the PKCS#7 padding the
    writer put behind it: the padding GCM does not need is added to every packet,
    and nothing takes it off. *)
Theorem gcm_wire_keeps_padding iv payload d m d' m' :
  ready (dcState d) → isAEAD (dataCipher (dcState d)) = true → mirrors (dcState d) (dcState d') m m' →
  framed (optCompress (dcOptions d)) = false → framed (optCompress (dcOptions d')) = false →
  (keyID m < 8)%N → payload ≠ [] → (localDataPacketID m < maxUint32)%N →
  ∃ p wire p' padded, writePacket iv payload d m = (Value p, setDataID (localDataPacketID m + 1) m) ∧
    packetBytes p = Ok wire ∧ ParsePacket wire = Ok p' ∧ BytesPadPKCS7 payload 16 = Value padded ∧
    (length payload < length padded)%nat ∧ readPacket p' d' m' = (Value padded, d').
Proof.
  intros Hr Ha Hm Hf Hf' Hk Hp Hi. set (id := localDataPacketID m) in *. set (m1 := setDataID (id + 1) m).
  destruct (pkcs7_roundtrip payload 16) as (padded & Hpad & _ & Hlen & _); [lia|].
  destruct Hm as [Mc Mh Mk Mm Mmk Mi Mt]. pose proof (rd_cipher _ Hr) as Hg.
  set (iv12 := putUint32 id ++ take 8 (hmacKeyLocal (dcState d))).
  assert (length iv12 = 12%nat) as Hiv.
  { unfold iv12. rewrite length_app, length_take, (rd_hmacLocal _ Hr). done. }
  set (aead := WriteUint32 (header m1) id).
  destruct (gcm_decrypt_encrypt (dataCipher (dcState d)) (cipherKeyLocal (dcState d)) iv12 padded aead Hg Ha (rd_local _ Hr) Hiv)
    as (c & He & Hc & Hd).
  set (body := putUint32 id ++ drop (length c - 16) c ++ take (length c - 16) c).
  assert (body ≠ []) as Hb by done.
  destruct (sent_wire m1 true body Hk Hb) as (wire & p' & Hbytes & Hparse & Hpay & Hop).
  exists (sent m1 true body), wire, p', padded. split; [|do 4 (split; [done|])].
  - unfold writePacket. rewrite Ha, unframed_compress by done.
    unfold encryptAndEncodePayload. rewrite bool_decide_false, (blockSize_good _ Hg), unframed_padding, Hpad, Ha by done.
    unfold encryptAndEncodePayloadAEAD, LocalDataPacketID. fold id. destruct (N.eqb_spec id maxUint32); [lia|].
    rewrite inc32_small by done. fold m1. cbv zeta. fold (header m1). fold aead.
    unfold WriteUint32 at 1. cbn [app]. fold iv12. rewrite He. destruct (Nat.ltb_spec (length c) 16); [lia|].
    cbn [wrapError orb]. rewrite bool_decide_true by done. unfold sent, aead, WriteUint32. by rewrite <-app_assoc.
  - assert (length (drop (length c - 16) c) = 16%nat) as Ht by (rewrite length_drop; lia).
    rewrite <-Hpay in Hb. erewrite readPacket_decrypted; [|done|done| |..].
    + unfold maybeDecompress. rewrite Mc, Ha, Hf'. cbn. by destruct d'.
    + unfold decodeEncryptedPayload. rewrite Mc, Ha, Hpay. by apply decodeAEAD.
    + cbn [encCiphertext]. rewrite take_drop. by destruct c; cbn in Hc; [lia|].
    + rewrite Mc, Mk, Mmk, take_drop. unfold header, opcodeAndKeyHeader, dataOpcodeAndKeyHeader, peerNumber.
      rewrite Mi, Mt. exact Hd.
Qed.

(** *** Replays *)

(** Everything but the last identifier seen. *)
Definition sameKeys (d d' : DataChannel) : Prop :=
  dcOptions d' = dcOptions d ∧ dcLog d' = dcLog d ∧ dcState d' = SetRemotePacketID (remotePacketID (dcState d')) (dcState d).

Lemma sameKeys_refl d : sameKeys d d.
Proof. split; [done|]. split; [done|]. by destruct (dcState d). Qed.
Lemma sameKeys_trans d1 d2 d3 : sameKeys d1 d2 → sameKeys d2 d3 → sameKeys d1 d3.
Proof.
  intros (H1 & H2 & H3) (H4 & H5 & H6). split; [congruence|]. split; [congruence|].
  rewrite H6. rewrite H3 at 1. done.
Qed.

Lemma decrypt_sameKeys buf d d' m : sameKeys d d' → decrypt buf d' m = decrypt buf d m.
Proof.
  intros (Ho & Hl & Hs). unfold decrypt, decodeEncryptedPayload. rewrite Hl, Hs. done.
Qed.

Lemma maybeDecompress_state b spare st opt x st' : maybeDecompress b spare st opt = (x, st') →
  st' = st ∨ (isAEAD (dataCipher st) = false ∧ ∃ id, st' = SetRemotePacketID id st ∧ (remotePacketID st < id)%N ∧
              ∀ st2 opt2, isAEAD (dataCipher st2) = false → (id ≤ remotePacketID st2)%N →
                ∃ e, maybeDecompress b spare st2 opt2 = (Error e, st2)).
Proof.
  unfold maybeDecompress. destruct (isAEAD (dataCipher st)); [intros [= _ <-]; by left|].
  destruct (b ++ spare) as [|i1 [|i2 [|i3 [|i4 l]]]]; try (intros [= _ <-]; by left).
  unfold RemotePacketID at 1. destruct (_ =? maxUint32)%N; [intros [= _ <-]; by left|].
  destruct (N.leb_spec (uint32 i1 i2 i3 i4) (remotePacketID st)); intros [= _ <-]; [by left|].
  right. split; [done|]. eexists. split; [done|]. split; [done|]. intros st2 opt2 Ha2 Hle. rewrite Ha2.
  unfold RemotePacketID. destruct (_ =? maxUint32)%N; [by eexists|].
  destruct (N.leb_spec (uint32 i1 i2 i3 i4) (remotePacketID st2)); [by eexists|lia].
Qed.

Lemma readPacket_advances p d m : sameKeys d (readPacket p d m).2 ∧
  (remotePacketID (dcState d) ≤ remotePacketID (dcState (readPacket p d m).2))%N.
Proof.
  unfold readPacket. case_bool_decide; [split; [apply sameKeys_refl|done]|].
  destruct (IsData (pktOpcode p)); [|split; [apply sameKeys_refl|done]]. cbn [negb].
  destruct (decrypt (pktPayload p) d m) as [[b spare]| |]; try (split; [apply sameKeys_refl|done]).
  destruct (maybeDecompress b spare (dcState d) (dcOptions d)) as [x st] eqn:Hm.
  destruct (maybeDecompress_state _ _ _ _ _ _ Hm) as [->|(_ & id & -> & Hid & _)]; cbn; (split; [|lia]).
  - split; [done|]. split; [done|]. by destruct (dcState d).
  - done.
Qed.

(** What is left of the channel after packets were read. *)
Definition readAll (ps : list Packet) (d : DataChannel) (m : Manager) : DataChannel :=
  foldl (λ d p, (readPacket p d m).2) d ps.

Lemma readAll_advances ps d m : sameKeys d (readAll ps d m) ∧
  (remotePacketID (dcState d) ≤ remotePacketID (dcState (readAll ps d m)))%N.
Proof.
  revert d. induction ps as [|p ps IH]; intros d; [split; [apply sameKeys_refl|done]|]. cbn [readAll foldl].
  destruct (readPacket_advances p d m) as [Hk Hl]. destruct (IH (readPacket p d m).2) as [Hk' Hl'].
  split; [by eapply sameKeys_trans|]. unfold readAll in Hl'. lia.
Qed.

(** C36. In a CBC session a packet that was delivered is refused ever after, whatever
    packets are read in between: nothing is delivered twice. *)
Theorem cbc_no_replay p d m x d1 ps :
  isAEAD (dataCipher (dcState d)) = false → readPacket p d m = (Value x, d1) →
  ∃ e, readPacket p (readAll ps d1 m) m = (Error e, readAll ps d1 m).
Proof.
  intros Ha Hr. destruct (readAll_advances ps d1 m) as [Hk Hl]. revert Hk Hl.
  generalize (readAll ps d1 m) as d2. intros d2 Hk Hl.
  assert (sameKeys d d1) as Hk1 by (change d1 with (Value x, d1).2; rewrite <-Hr; apply readPacket_advances).
  pose proof (sameKeys_trans _ _ _ Hk1 Hk) as Hk2. unfold readPacket in *.
  destruct (bool_decide (pktPayload p = [])); [done|]. destruct (negb (IsData (pktOpcode p))); [done|].
  rewrite (decrypt_sameKeys _ d d2 m Hk2). destruct (decrypt (pktPayload p) d m) as [[b spare]|e|]; [|done..].
  destruct (maybeDecompress b spare (dcState d) (dcOptions d)) as [y st] eqn:Hm. injection Hr as -> <-.
  assert (isAEAD (dataCipher (dcState d2)) = false) as Ha2 by (destruct Hk2 as (_ & _ & ->); done).
  destruct (maybeDecompress_state _ _ _ _ _ _ Hm) as [->|(_ & id & -> & _ & Href)].
  - exfalso. unfold maybeDecompress in Hm. rewrite Ha in Hm.
    destruct (b ++ spare) as [|i1 [|i2 [|i3 [|i4 l]]]]; [done..|].
    unfold RemotePacketID in Hm. destruct (_ =? maxUint32)%N; [done|].
    destruct (N.leb_spec (uint32 i1 i2 i3 i4) (remotePacketID (dcState d))); [done|].
    injection Hm as _ Hs. apply (f_equal remotePacketID) in Hs. cbn in Hs. lia.
  - cbn [setDCState dcState SetRemotePacketID remotePacketID] in Hl.
    destruct (Href (dcState d2) (dcOptions d2) Ha2 Hl) as [e ->]. exists e. by destruct d2.
Qed.

(** A GCM session does not look at the identifiers: a packet that was delivered is
    delivered again as often as it arrives. *)
Lemma gcm_replays p d m ps :
  isAEAD (dataCipher (dcState d)) = true → readPacket p (readAll ps d m) m = readPacket p d m.
Proof.
  intros Ha. assert (∀ q, (readPacket q d m).2 = d) as Hq.
  { intros q. unfold readPacket. case_bool_decide; [done|]. destruct (IsData (pktOpcode q)); [|done]. cbn [negb].
    destruct (decrypt (pktPayload q) d m) as [[b spare]| |]; [|done..]. unfold maybeDecompress. rewrite Ha. by destruct d. }
  assert (readAll ps d m = d) as ->; [|done].
  induction ps as [|q ps IH]; [done|]. cbn [readAll foldl]. by rewrite Hq.
Qed.

(** *** Nonces *)

(** The payloads written one after another. *)
Fixpoint writeAll (l : list (result bytes * bytes)) (d : DataChannel) (m : Manager) : list (outcome Packet) :=
  match l with
  | [] => []
  | (iv, payload) :: l => let (o, m) := writePacket iv payload d m in o :: writeAll l d m
  end.
(** The part of the nonce of a GCM packet that is not fixed by the key. *)
Definition packetNonce (p : Packet) : bytes := take 4 (drop 4 (pktPayload p)).

Lemma putUint32_inj a b : (a < 4294967296)%N → (b < 4294967296)%N → putUint32 a = putUint32 b → a = b.
Proof. unfold putUint32. intros Ha Hb [=]. rewrite <-(uint32_put a Ha), <-(uint32_put b Hb). congruence. Qed.

Lemma writePacket_aead iv payload d m o m' : isAEAD (dataCipher (dcState d)) = true →
  writePacket iv payload d m = (o, m') →
  (m' = m ∨ m' = (LocalDataPacketID m).2) ∧
  ∀ p, o = Value p → ∃ id, LocalDataPacketID m = (Ok id, m') ∧ packetNonce p = putUint32 id.
Proof.
  intros Ha. unfold writePacket. rewrite Ha. cbv iota zeta.
  destruct (doCompress _ _) as [b| |]; [|intros [= <- <-]; by split; [left|]..].
  unfold encryptAndEncodePayload. case_bool_decide; [intros [= <- <-]; by split; [left|]|].
  destruct (doPadding _ _ _) as [padded| |]; [|intros [= <- <-]; by split; [left|]..]. rewrite Ha.
  unfold encryptAndEncodePayloadAEAD. destruct (LocalDataPacketID m) as [[id|e] m1] eqn:Hid; cbn [snd].
  2: { intros [= <- <-]. by split; [right|]. }
  cbv zeta. destruct (encrypt_ _ _ _) as [c| |]; [|intros [= <- <-]; by split; [right|]..].
  destruct (length c <? 16)%nat; [intros [= <- <-]; by split; [right|]|].
  cbn [wrapError]. intros [= <- <-]. split; [by right|]. intros p [= <-]. by exists id.
Qed.

Lemma LocalDataPacketID_next m m' : m' = m ∨ m' = (LocalDataPacketID m).2 → (localDataPacketID m ≤ maxUint32)%N →
  (localDataPacketID m ≤ localDataPacketID m' ≤ maxUint32)%N ∧
  ∀ id, LocalDataPacketID m = (Ok id, m') → id = localDataPacketID m ∧ (localDataPacketID m < localDataPacketID m')%N.
Proof.
  unfold LocalDataPacketID. intros Hm Hle. destruct (N.eqb_spec (localDataPacketID m) maxUint32) as [He|].
  - destruct Hm as [->|Hm]; [by split; [lia|]|]. cbn in Hm. subst. by split; [lia|].
  - rewrite inc32_small in * by lia. cbn [snd] in Hm. split.
    + destruct Hm as [->| ->]; cbn [localDataPacketID setDataID]; lia.
    + intros id [= <- <-]. cbn. split; [done|lia].
Qed.

Lemma writeAll_nonces l d m j q : isAEAD (dataCipher (dcState d)) = true → (localDataPacketID m ≤ maxUint32)%N →
  writeAll l d m !! j = Some (Value q) →
  ∃ id, packetNonce q = putUint32 id ∧ (localDataPacketID m ≤ id < maxUint32)%N.
Proof.
  intros Ha. revert m j. induction l as [|[iv payload] l IH]; intros m j Hm Hj; [done|]. cbn [writeAll] in Hj.
  destruct (writePacket iv payload d m) as [o m'] eqn:Hw. destruct (writePacket_aead _ _ _ _ _ _ Ha Hw) as [Hn Hp].
  destruct (LocalDataPacketID_next m m' Hn Hm) as [Hle Hid]. destruct j as [|j].
  - injection Hj as ->. destruct (Hp q eq_refl) as (id & Hl & Hq). exists id. destruct (Hid id Hl). split; [done|lia].
  - destruct (IH m' j) as (id & Hq & Hb); [lia|done|]. exists id. split; [done|lia].
Qed.


(** *** The workers *)

(** What holds of the workers whatever happens: no logger, a good cipher, and keys
    as soon as the first one is said to be ready. *)
Record workersOK (ws : dataWorkers) : Prop := {
  ok_log : dcLog (wsChannel ws) = false;
  ok_cipher : goodCipher (dataCipher (dcState (wsChannel ws)));
  ok_ready : firstKeyReady ws = true → ready (dcState (wsChannel ws))
}.

Lemma sameKeys_ready d d' : sameKeys d d' → ready (dcState d) → ready (dcState d').
Proof. intros (_ & _ & ->) []. by split. Qed.

Lemma moveUpData_ok pkt ws ws' : workersOK ws → moveUpData pkt ws = Value ws' →
  workersOK ws' ∧ sameKeys (wsChannel ws) (wsChannel ws') ∧ firstKeyReady ws' = firstKeyReady ws.
Proof.
  intros [Hl Hc Hr]. unfold moveUpData. pose proof (readPacket_advances pkt (wsChannel ws) (wsManager ws)) as [Hk _].
  destruct (readPacket pkt (wsChannel ws) (wsManager ws)) as [[x|e|e] d]; intros [= <-]; cbn [snd] in Hk;
    (split; [|by split]; split; cbn [wsChannel firstKeyReady]; [by destruct Hk as (_ & -> & _)|
      by destruct Hk as (_ & _ & ->)|intros; by eapply sameKeys_ready, Hr]).
Qed.

Lemma takeKey_ok key ws ws' : workersOK ws → takeKey key ws = Value ws' → workersOK ws'.
Proof.
  intros [Hl Hc Hr]. unfold takeKey. destruct (setupKeys key (wsManager ws) (dcState (wsChannel ws))) as [st|e|e] eqn:Hs;
    intros [= <-]; [|by split].
  unfold setupKeys in Hs. destruct (keyReady key) eqn:Hready; [|done]. cbn [negb] in Hs.
  destruct (keyLocal key) as [local|] eqn:Hlocal; [|done]. destruct (keyRemote key) as [remote|] eqn:Hremote; [|done].
  destruct (setupKeys_spec key local remote (wsManager ws) (dcState (wsChannel ws)) Hc Hready Hlocal Hremote)
    as (st' & Hs' & Hrd & _ & Hd & _).
  unfold setupKeys in Hs'. rewrite Hready, Hlocal, Hremote in Hs'. cbn [negb] in Hs'. rewrite Hs in Hs'. injection Hs' as <-.
  split; cbn; [done|by rewrite Hd|done].
Qed.

Lemma channelStep_ok e ws ws' : workersOK ws → channelStep e ws = Value ws' → workersOK ws'.
Proof.
  intros Hok. destruct e as [key|data iv|pkt]; cbn [channelStep].
  - by apply takeKey_ok.
  - destruct (firstKeyReady ws) eqn:Hf; [|by intros [= <-]]. unfold moveDownData.
    destruct (writePacket _ _ _ _) as [[p|e|e] m]; intros [= <-]; by destruct Hok.
  - destruct (firstKeyReady ws) eqn:Hf; [|by intros [= <-]]. intros H. by eapply moveUpData_ok.
Qed.

(** The workers as [StartWorkers] starts them. *)
Definition started (d : DataChannel) (m : Manager) : dataWorkers := mkWorkers d m false [] [].

Lemma dataRun_ok {U : UnicodeTables} opt d m es ws :
  NewDataChannelFromOptions opt = Value d → dataRun es (started d m) = Value ws → workersOK ws.
Proof.
  intros Hn. assert (workersOK (started d m)) as Hok.
  { unfold NewDataChannelFromOptions in Hn. destruct (bool_decide _); [done|]. destruct (bool_decide _); [done|].
    destruct (newDataCipherFromCipherSuite (optCipher opt)) as [a|] eqn:Ha; [|done]. cbn [ofResult] in Hn.
    destruct (newHMACFactory _); [|done]. injection Hn as <-. split; cbn; [done|by eapply newDataCipher_good|done]. }
  revert Hok. generalize (started d m) as w0. intros w0 Hok. revert w0 Hok.
  induction es as [|e es IH]; intros w0 Hok; cbn [dataRun]; [by intros [= <-]|].
  destruct (channelStep e w0) as [w1| |] eqn:He; [|done..]. apply IH. by eapply channelStep_ok.
Qed.

(** The data channel never encrypts, decrypts or authenticates without keys:
    whatever keys, packets and payloads arrive and in whatever order, once a worker
    takes a packet the cipher is one it supports and all keys are set to their
    sizes. *)
Theorem keys_before_data {U : UnicodeTables} opt d m es ws :
  NewDataChannelFromOptions opt = Value d → dataRun es (started d m) = Value ws → firstKeyReady ws = true →
  ready (dcState (wsChannel ws)).
Proof. intros Hn Hr. by eapply ok_ready, dataRun_ok. Qed.

(** C38. In a CBC session one packet with a wrong HMAC takes the process down: the
    warning is written to a logger the constructor never sets, and nothing recovers
    from that panic. Whoever can write to the connection can send it. *)
Theorem bad_hmac_crashes {U : UnicodeTables} opt d m es ws pkt key :
  NewDataChannelFromOptions opt = Value d → dataRun es (started d m) = Value ws → firstKeyReady ws = true →
  isAEAD (dataCipher (dcState (wsChannel ws))) = false → IsData (pktOpcode pkt) = true →
  let size := hashSize (stHash (dcState (wsChannel ws))) in
  hmacRemote (dcState (wsChannel ws)) = Some key → (size + 16 ≤ length (pktPayload pkt))%nat →
  take size (pktPayload pkt) ≠ hmac (stHash (dcState (wsChannel ws))) key (drop size (pktPayload pkt)) →
  channelStep (MuxerToData pkt) ws = Panic nilPointer.
Proof.
  intros Hn Hr Hf Ha Ho size Hk Hlen Hmac. destruct (dataRun_ok opt d m es ws Hn Hr) as [Hlog Hc _].
  pose proof (hashSize_pos (stHash (dcState (wsChannel ws)))) as Hs. fold size in Hs.
  cbn [channelStep]. rewrite Hf. unfold moveUpData, readPacket.
  rewrite bool_decide_false by (intros He; rewrite He in Hlen; cbn in Hlen; lia). rewrite Ho. cbn [negb].
  unfold decrypt, decodeEncryptedPayload. rewrite Ha. unfold decodeEncryptedPayloadNonAEAD. rewrite Hk, (blockSize_good _ Hc), Hlog.
  cbv zeta. fold size. replace (Z.to_nat ((Z.of_nat size + 16) mod 256)) with (size + 16)%nat by (rewrite Z.mod_small; lia).
  destruct (Nat.ltb_spec (length (pktPayload pkt)) (size + 16)); [lia|]. cbn [computeHMAC].
  replace (size + 16 - size)%nat with 16%nat by lia. rewrite <-drop_drop, take_drop.
  rewrite bool_decide_false by (intros He; by apply Hmac). done.
Qed.

End Laws.

(** ** A session to compute with *)

Definition sampleOptions (cipher compress : string) : OpenVPNOptions :=
  setCompress compress (setAuth "SHA1" (setCipher cipher initialOptions)).
Definition sampleSource (n : N) : KeySource :=
  mkKeySource (replicate 32 (byte_of n)) (replicate 32 (byte_of (n + 1))) (replicate 48 (byte_of (n + 2))).
Definition sampleKey : DataChannelKey := mkDataChannelKey 0 true (Some (sampleSource 10)) (Some (sampleSource 20)).
(** The keys of [sampleKey]; the other end has them the other way round. *)
Definition sampleState (ksb : Z) (mode : string) : dataChannelState :=
  match setupKeys (P := plainPrimitives) sampleKey sampleManager
          (mkState (mkCipher ksb mode) SHA1 None None (zeros 64) (zeros 64) (zeros 64) (zeros 64) 0) with
  | Value st => st
  | _ => mkState (mkCipher ksb mode) SHA1 None None [] [] [] [] 0
  end.
Definition swapped (st : dataChannelState) : dataChannelState :=
  mkState (dataCipher st) (stHash st) (hmacRemote st) (hmacLocal st) (cipherKeyRemote st) (cipherKeyLocal st)
    (hmacKeyRemote st) (hmacKeyLocal st) (remotePacketID st).
Definition sampleChannel (cipher mode compress : string) : DataChannel :=
  mkChannel (sampleOptions cipher compress) (sampleState 16 mode) false.
Definition otherEnd (d : DataChannel) : DataChannel := setDCState (swapped (dcState d)) d.

Lemma sampleState_ready mode : mode ∈ [cipherModeCBC; cipherModeGCM] → ready (sampleState 16 mode).
Proof.
  intros Hm. unfold sampleState. set (st0 := mkState _ _ _ _ _ _ _ _ _).
  destruct (setupKeys_spec (P := plainPrimitives) (L := plainLaws) sampleKey (sampleSource 10) (sampleSource 20) sampleManager st0)
    as (st & -> & Hr & _); try done. by split; [decided|].
Qed.
Lemma mirrors_swapped st m : mirrors st (swapped st) m m.
Proof. by split. Qed.

Lemma channel_for_options_witness :
  optCipher (sampleOptions "AES-128-CBC" "empty") ∈ SupportedCiphers ∧
  ((∃ d, NewDataChannelFromOptions (U := asciiTables) (sampleOptions "AES-128-CBC" "empty") = Value d ∧
         goodCipher (dataCipher (dcState d)) ∧ dcLog d = false) ∨
   (optCipher (sampleOptions "AES-128-CBC" "empty") = "AES-192-GCM" ∧
    NewDataChannelFromOptions (U := asciiTables) (sampleOptions "AES-128-CBC" "empty") = Error ErrUnsupportedCipher)).
Proof. split; [decided|]. apply (channel_for_options (U := asciiTables)); decided. Defined.

Lemma keys_derived_witness : ∃ st',
  setupKeys (P := plainPrimitives) sampleKey sampleManager (sampleState 16 "cbc") = Value st' ∧ ready st'.
Proof.
  destruct (keys_derived (P := plainPrimitives) (L := plainLaws) sampleKey (sampleSource 10) (sampleSource 20) sampleManager
    (sampleState 16 "cbc")) as (st' & Hs & Hr & _); [apply rd_cipher, sampleState_ready; decided|reflexivity..|]. exists st'. exact (conj Hs Hr).
Defined.


Lemma cbc_exhausted_unreadable_witness :
  let d := sampleChannel "AES-128-CBC" cipherModeCBC "empty" in
  let m := setDataID maxUint32 sampleManager in
  ∃ p wire p' e, packetBytes p = Ok wire ∧ ParsePacket wire = Ok p' ∧
    readPacket (P := plainPrimitives) p' (otherEnd d) m = (Error e, otherEnd d).
Proof.
  intros d m. destruct (cbc_exhausted_unreadable (P := plainPrimitives) (L := plainLaws) (zeros 16) (s2l "hello") d m (otherEnd d) m)
    as (p & wire & p' & e & _ & Hb & Hp & Hr);
    [by apply sampleState_ready; decided|reflexivity|apply mirrors_swapped|reflexivity..|].
  exists p, wire, p', e. exact (conj Hb (conj Hp Hr)).
Defined.

Lemma lzo_no_unreadable_witness :
  let d := sampleChannel "AES-128-CBC" cipherModeCBC "lzo-no" in
  ∃ p wire p' e d1, packetBytes p = Ok wire ∧ ParsePacket wire = Ok p' ∧
    readPacket (P := plainPrimitives) p' (otherEnd d) sampleManager = (Error e, d1).
Proof.
  intros d. destruct (lzo_no_unreadable (P := plainPrimitives) (L := plainLaws) (zeros 16) (s2l "hello") d sampleManager (otherEnd d) sampleManager)
    as (p & wire & p' & e & d1 & _ & Hb & Hp & Hr);
    [by apply sampleState_ready; decided|reflexivity|apply mirrors_swapped|reflexivity..|decided|].
  exists p, wire, p', e, d1. exact (conj Hb (conj Hp Hr)).
Defined.

Lemma gcm_wire_keeps_padding_witness :
  let d := sampleChannel "AES-128-GCM" cipherModeGCM "empty" in
  ∃ p wire p' padded, packetBytes p = Ok wire ∧ ParsePacket wire = Ok p' ∧ BytesPadPKCS7 (s2l "hello") 16 = Value padded ∧
    readPacket (P := plainPrimitives) p' (otherEnd d) sampleManager = (Value padded, otherEnd d).
Proof.
  intros d. destruct (gcm_wire_keeps_padding (P := plainPrimitives) (L := plainLaws) (Err "unused") (s2l "hello") d sampleManager (otherEnd d) sampleManager)
    as (p & wire & p' & padded & _ & Hb & Hp & Hpad & _ & Hr);
    [by apply sampleState_ready; decided|reflexivity|apply mirrors_swapped|reflexivity|reflexivity|reflexivity|done|reflexivity|].
  exists p, wire, p', padded. exact (conj Hb (conj Hp (conj Hpad Hr))).
Defined.

(** A CBC packet on the wire, and what the sample session makes of it. *)
Definition samplePacketCBC : Packet :=
  match writePacket (P := plainPrimitives) (Ok (zeros 16)) (s2l "hello") (sampleChannel "AES-128-CBC" cipherModeCBC "empty") sampleManager with
  | (Value p, _) => p
  | _ => NewPacket P_DATA_V1 0 []
  end.

Lemma cbc_no_replay_witness :
  let d := otherEnd (sampleChannel "AES-128-CBC" cipherModeCBC "empty") in
  ∃ d1 e, readPacket (P := plainPrimitives) samplePacketCBC d sampleManager = (Value (s2l "hello"), d1) ∧
    readPacket (P := plainPrimitives) samplePacketCBC (readAll (P := plainPrimitives) [samplePacketCBC] d1 sampleManager) sampleManager =
      (Error e, readAll (P := plainPrimitives) [samplePacketCBC] d1 sampleManager).
Proof.
  intros d. set (d1 := (readPacket (P := plainPrimitives) samplePacketCBC d sampleManager).2).
  assert (readPacket (P := plainPrimitives) samplePacketCBC d sampleManager = (Value (s2l "hello"), d1)) as Hr by (vm_compute; reflexivity).
  destruct (cbc_no_replay (P := plainPrimitives) samplePacketCBC d sampleManager (s2l "hello") d1 [samplePacketCBC] eq_refl Hr) as [e He].
  exists d1, e. exact (conj Hr He).
Defined.

Definition sampleWrites : list (result bytes * bytes) := [(Err "", s2l "a"); (Err "", []); (Err "", s2l "b")].

(** The workers of a CBC session after the first key. *)
Definition sampleStarted : dataWorkers :=
  match NewDataChannelFromOptions (U := asciiTables) (sampleOptions "AES-128-CBC" "empty") with
  | Value d => started d sampleManager
  | _ => started (sampleChannel "" "" "") sampleManager
  end.
Definition sampleWorkers : dataWorkers :=
  match dataRun (P := plainPrimitives) [KeyReady sampleKey] sampleStarted with Value ws => ws | _ => sampleStarted end.

Lemma keys_before_data_witness :
  firstKeyReady sampleWorkers = true ∧ ready (dcState (wsChannel sampleWorkers)).
Proof.
  split; [vm_compute; reflexivity|].
  apply (keys_before_data (P := plainPrimitives) (L := plainLaws) (U := asciiTables) (sampleOptions "AES-128-CBC" "empty")
    (wsChannel sampleStarted) sampleManager [KeyReady sampleKey]); vm_compute; reflexivity.
Defined.

(** No HMAC of this session starts with these bytes. *)
Definition forged : bytes := zeros 20 ++ replicate 44 (byte_of 1).
Lemma bad_hmac_crashes_witness :
  channelStep (P := plainPrimitives) (MuxerToData (NewPacket P_DATA_V1 0 (forged))) sampleWorkers = Panic nilPointer.
Proof.
  assert (hmacRemote (dcState (wsChannel sampleWorkers)) =
          Some (default [] (hmacRemote (dcState (wsChannel sampleWorkers))))) as Hk by (vm_compute; reflexivity).
  assert (take 20 (forged) ≠ hmac (P := plainPrimitives) SHA1 (default [] (hmacRemote (dcState (wsChannel sampleWorkers)))) (drop 20 (forged)))
    as Hmac by decided.
  apply (bad_hmac_crashes (P := plainPrimitives) (L := plainLaws) (U := asciiTables) (sampleOptions "AES-128-CBC" "empty")
    (wsChannel sampleStarted) sampleManager [KeyReady sampleKey] sampleWorkers (NewPacket P_DATA_V1 0 (forged))
    (default [] (hmacRemote (dcState (wsChannel sampleWorkers)))));
    [vm_compute; reflexivity..|exact Hk|vm_compute; lia|].
  assert (stHash (dcState (wsChannel sampleWorkers)) = SHA1) as Hs by (vm_compute; reflexivity). rewrite Hs. exact Hmac.
Defined.
