(* ===== verification/TlsSession.v ===== *)
(** * [minivpn/internal/tlssession/tlssession.go]: the key exchange over TLS

    [doTLSAuth] whole, after the handshake of TLS, which is a parameter like the
    connection it gives: whether each [Write] succeeds and what each [Read] returns
    ([TLSConn]). What the function does that others see, in order, is a list of
    [tlsEvent]. The active key is shared: [AddRemoteKey] changes it in the manager. *)

From S2P Require Import Prelude GoStrings GoCodec Bytesx Packet Session VpnOptions ControlMsg DataCrypto DataChannel DataChannelProps.

(** ** The connection *)

Record TLSConn := mkTLSConn {
  tlsHandshakeFn : result unit;
  connWrite : nat → option string;
  connRead : nat → result bytes
}.

Inductive tlsEvent :=
  | Wrote (message : bytes)
  | StateSet (s : NegotiationState)
  | KeyUp (key : DataChannelKey).

Section Auth.
Context {U : UnicodeTables} (options : OpenVPNOptions) (conn : TLSConn).

(** ** Messages *)

(** The [n]-th [Write] on the connection. *)
Definition tlsWrite (n : nat) (message : bytes) : outcome bytes :=
  match connWrite conn n with Some e => Error e | None => Value message end.

Definition sendAuthRequestMessage (activeKey : DataChannelKey) : outcome bytes :=
  match keyLocal activeKey with
  | None => Panic nilPointer
  | Some local => let! ctrlMsg := encodeClientControlMessageAsBytes local options in tlsWrite 0 ctrlMsg
  end.
Definition recvAuthReplyMessage : result (KeySource * string) :=
  let? data := connRead conn 0 in parseServerControlMessage data.
Definition pushRequest : bytes := s2l "PUSH_REQUEST" ++ [byte_of 0].
Definition sendPushRequestMessage : outcome bytes := tlsWrite 1 pushRequest.
Definition recvPushResponseMessage : result TunnelInfo :=
  let? data := connRead conn 1 in parseServerPushReply data.

(** ** [doTLSAuth] *)

(** What is sent on [errorch] ([Value] for nil), the manager, what was done. *)
Definition authResult : Type := outcome DataChannelKey * Manager * list tlsEvent.
(** The rest of the function, after [done] events. *)
Definition after (done : list tlsEvent) (r : authResult) : authResult :=
  let '(o, m, es) := r in (o, m, done ++ es).
Definition failed (e : string) (m : Manager) : authResult := (Error e, m, []).
Definition setState (s : NegotiationState) (m : Manager) (k : Manager → authResult) : authResult :=
  after [StateSet s] (k (SetNegotiationState s m).2).
Definition written (w : outcome bytes) (m : Manager) (k : authResult) : authResult :=
  match w with
  | Value b => after [Wrote b] k
  | Error e => failed e m
  | Panic e => (Panic e, m, [])
  end.

(** The error of [AddRemoteKey] is dropped. *)
Definition addRemote (remoteKey : KeySource) (k : DataChannelKey) : DataChannelKey :=
  match AddRemoteKey remoteKey k with Ok k => k | Err _ => k end.

Definition pushPhase (i : nat) (m : Manager) : authResult :=
  written sendPushRequestMessage m
    (match recvPushResponseMessage with
     | Err e => failed e m
     | Ok tinfo =>
         setState S_ACTIVE (UpdateTunnelInfo tinfo m) (λ m,
           match keys m !! i with
           | Some activeKey => (Value activeKey, m, [KeyUp activeKey])
           | None => (Panic outOfRange, m, [])
           end)
     end).

Definition replyPhase (i : nat) (m : Manager) : authResult :=
  match recvAuthReplyMessage with
  | Err e => failed e m
  | Ok (remoteKey, serverOptions) =>
      match InitTunnelInfo serverOptions m with
      | (Err e, m) => failed e m
      | (Ok _, m) => setState S_GOT_KEY (setKeys (alter (addRemote remoteKey) i (keys m)) m) (pushPhase i)
      end
  end.

Definition doTLSAuth (m : Manager) : authResult :=
  match tlsHandshakeFn conn with
  | Err e => failed e m
  | Ok _ =>
      match ActiveKey m with
      | Err e => failed e m
      | Ok i =>
          match keys m !! i with
          | None => (Panic outOfRange, m, [])
          | Some activeKey =>
              written (sendAuthRequestMessage activeKey) m (setState S_SENT_KEY m (replyPhase i))
          end
      end
  end.

End Auth.

(** ** Properties *)

(** The manager before the exchange: one key, with the local half, as
    [NewManager] makes it. *)
Definition freshManager (local : KeySource) (m : Manager) : Prop :=
  keyID m = 0%N ∧ keys m = [mkDataChannelKey 0 false (Some local) None].

Definition keyUps (es : list tlsEvent) : list DataChannelKey :=
  es ≫= λ e, match e with KeyUp k => [k] | _ => [] end.
Definition statesSet (es : list tlsEvent) : list NegotiationState :=
  es ≫= λ e, match e with StateSet s => [s] | _ => [] end.

Section Properties.
Context {U : UnicodeTables} (options : OpenVPNOptions) (conn : TLSConn).

Lemma fresh_key local m : freshManager local m →
  ActiveKey m = Ok 0%nat ∧ keys m !! 0%nat = Some (mkDataChannelKey 0 false (Some local) None).
Proof. intros [Hk Hs]. unfold ActiveKey. rewrite Hs, Hk. done. Qed.

(** On every branch: the states of the negotiation are passed in order; the data
    channel is given a key exactly when the exchange succeeds, and then it has both
    halves, the session is active, and its addresses are those of the push reply. *)
Theorem auth_outcome local m : freshManager local m →
  let '(o, m', es) := doTLSAuth options conn m in
  statesSet es `prefix_of` [S_SENT_KEY; S_GOT_KEY; S_ACTIVE] ∧
  match o with
  | Value key =>
      keyUps es = [key] ∧ statesSet es = [S_SENT_KEY; S_GOT_KEY; S_ACTIVE] ∧ negState m' = S_ACTIVE ∧
      keyReady key = true ∧ keyLocal key = Some local ∧ is_Some (keyRemote key) ∧
      ∃ ti, recvPushResponseMessage conn = Ok ti ∧ tiIP (tunnelInfo m') = tiIP ti ∧
            tiPeerID (tunnelInfo m') = tiPeerID ti ∧ tiUsePeerID (tunnelInfo m') = tiUsePeerID ti
  | _ => keyUps es = [] ∧ (negState m' = S_ACTIVE → negState m = S_ACTIVE)
  end.
Proof.
  intros Hf. destruct (fresh_key local m Hf) as [Ha Hk]. destruct Hf as [_ Hks]. unfold doTLSAuth.
  destruct (tlsHandshakeFn conn); [|cbn; split; [apply prefix_nil|done]]. rewrite Ha, Hk.
  destruct (sendAuthRequestMessage options conn _) as [req|e|e]; cbn [written];
    [|cbn; (split; [apply prefix_nil|done])..].
  unfold setState, replyPhase.
  destruct (recvAuthReplyMessage conn) as [[remote sopts]|e];
    [|cbn; split; [by exists [S_GOT_KEY; S_ACTIVE]|done]].
  unfold InitTunnelInfo. destruct (newTunnelInfoFromRemoteOptionsString sopts) as [ti0|e];
    [|cbn; split; [by exists [S_GOT_KEY; S_ACTIVE]|done]].
  unfold pushPhase. destruct (sendPushRequestMessage conn) as [push|e|e]; cbn [written];
    [|cbn; (split; [by exists [S_ACTIVE]|done])..].
  destruct (recvPushResponseMessage conn) as [ti|e]; [|cbn; split; [by exists [S_ACTIVE]|done]].
  unfold setState. cbn [SetNegotiationState snd keys setNegState setKeys setTunnelInfo UpdateTunnelInfo]. rewrite Hks.
  cbn. split; [by exists []|]. do 5 (split; [done|]). split; [by eexists|]. by exists ti.
Qed.

(** C32. With a peer that keeps the protocol the exchange succeeds, and both ends have
    the same key material: the client's key holds what the peer sent, the peer reads
    from the first message what the client holds, so the key blocks derived on both
    sides agree; the addresses are those the peer pushed. *)
Theorem key_exchange {P : Primitives} {L : PrimitiveLaws P} local m r1 r2 sopts enc push request suite st :
  freshManager local m → wfKeys local → tlsHandshakeFn conn = Ok tt → (∀ n, connWrite conn n = None) →
  ServerOptionsString options = Value suite →
  encodeClientControlMessageAsBytes local options = Value request →
  length r1 = 32%nat → length r2 = 32%nat → EncodeOptionStringToBytes sopts = Ok enc →
  isOk (newTunnelInfoFromRemoteOptionsString (l2s sopts)) = true →
  connRead conn 0 = Ok (serverMessage r1 r2 enc []) →
  Forall wfOption push → connRead conn 1 = Ok (pushReply push) →
  goodCipher (dataCipher st) →
  ∃ key m' seen, doTLSAuth options conn m =
      (Value key, m', [Wrote request; StateSet S_SENT_KEY; StateSet S_GOT_KEY; Wrote pushRequest; StateSet S_ACTIVE; KeyUp key]) ∧
    peerReads request = Some (seen, [s2l suite; s2l (optUsername options); s2l (optPassword options); s2l rawInfo]) ∧
    (∃ st', setupKeys key m' st = Value st' ∧ ready st' ∧
       cipherKeyLocal st' ++ hmacKeyLocal st' ++ cipherKeyRemote st' ++ hmacKeyRemote st' =
         PRF (PRF (PreMaster seen) (s2l "OpenVPN master secret") (R1 seen ++ r1) 48) (s2l "OpenVPN key expansion")
           (R2 seen ++ r2 ++ localSessionID m ++ RemoteSessionID m) 256) ∧
    tiIP (tunnelInfo m') = default "" (default [] (lastOption "ifconfig" push) !! 0%nat).
Proof.
  intros Hf Hw Hh Hwr Hs He H1 H2 Henc Hti Hr0 Hp Hr1 Hg.
  destruct (fresh_key local m Hf) as [Ha Hk]. destruct Hf as [_ Hks].
  pose proof (client_message_roundtrip local options suite Hw Hs) as Hread. rewrite He in Hread.
  destruct (push_reply_read push Hp) as (ti & Hparse & Hip & _).
  destruct (newTunnelInfoFromRemoteOptionsString (l2s sopts)) as [ti0|] eqn:Hti0; [|done].
  set (key := mkDataChannelKey 0 true (Some local) (Some (mkKeySource r1 r2 (zeros 48)))).
  unfold doTLSAuth. rewrite Hh, Ha, Hk. unfold sendAuthRequestMessage. cbn [keyLocal]. rewrite He. unfold tlsWrite. rewrite Hwr.
  unfold replyPhase, recvAuthReplyMessage. rewrite Hr0, (server_message_read r1 r2 sopts enc []) by done.
  unfold InitTunnelInfo. rewrite Hti0. unfold pushPhase, sendPushRequestMessage, recvPushResponseMessage, tlsWrite.
  rewrite Hwr, Hr1, Hparse. unfold setState, written, after.
  cbn [SetNegotiationState snd keys setNegState setKeys setTunnelInfo UpdateTunnelInfo]. rewrite Hks.
  cbn [alter list_alter lookup list_lookup addRemote AddRemoteKey keyReady keyIndex keyLocal app]. fold key.
  eexists key, _, local. split; [reflexivity|]. split; [exact Hread|]. split; [|exact Hip].
  edestruct (setupKeys_spec key local (mkKeySource r1 r2 (zeros 48))) as (st' & Hst & Hrd & Hkeys & _); [exact Hg|done..|].
  exists st'. split; [exact Hst|]. split; [exact Hrd|]. rewrite Hkeys. done.
Qed.

(** A second exchange in the same session succeeds and hands the old key up: the
    error of [AddRemoteKey] is dropped, whatever key material the peer has sent. *)
Lemma second_exchange_old_key key m o m' es :
  keyID m = 0%N → keys m = [key] → keyReady key = true → doTLSAuth options conn m = (o, m', es) →
  ∀ key', o = Value key' → key' = key.
Proof.
  intros Hi Hks Hr. unfold doTLSAuth. destruct (tlsHandshakeFn conn); [|by intros [= <- _ _]].
  assert (ActiveKey m = Ok 0%nat) as Ha by (unfold ActiveKey; by rewrite Hks, Hi). rewrite Ha, Hks. cbn [lookup list_lookup].
  destruct (sendAuthRequestMessage options conn key); cbn [written]; [|by intros [= <- _ _]..].
  unfold setState, replyPhase. destruct (recvAuthReplyMessage conn) as [[remote sopts]|]; [|by intros [= <- _ _]].
  unfold InitTunnelInfo. destruct (newTunnelInfoFromRemoteOptionsString sopts); [|by intros [= <- _ _]].
  unfold pushPhase. destruct (sendPushRequestMessage conn); cbn [written]; [|by intros [= <- _ _]..].
  destruct (recvPushResponseMessage conn); [|by intros [= <- _ _]].
  unfold setState. cbn [SetNegotiationState snd keys setNegState setKeys setTunnelInfo UpdateTunnelInfo]. rewrite Hks.
  cbn [alter list_alter lookup list_lookup]. unfold addRemote, AddRemoteKey. rewrite Hr. intros [= <- _ _] key' [= <-]. done.
Qed.

End Properties.

(** ** A peer to run against *)

Definition samplePush : list (list string) := [["ifconfig"; "10.8.0.2"; "255.255.255.0"]; ["route-gateway"; "10.8.0.1"]].
Definition sampleServerString : bytes := s2l "V4,dev-type tun,tun-mtu 1500".
Definition sampleConn : TLSConn := {|
  tlsHandshakeFn := Ok tt;
  connWrite _ := None;
  connRead n := match n with
                | O => match EncodeOptionStringToBytes sampleServerString with
                       | Ok enc => Ok (serverMessage (zeros 32) (zeros 32) enc []) | Err e => Err e end
                | _ => Ok (pushReply samplePush)
                end
|}.
Definition freshSample : Manager :=
  mkManager 0 [mkDataChannelKey 0 false (Some sampleKeys) None] 1 1 (zeros 8) S_START (Some (zeros 8)) zeroTunnelInfo.

Lemma auth_outcome_witness :
  let '(o, m', es) := doTLSAuth (U := asciiTables) sampleServerOptions sampleConn freshSample in
  isOk (match o with Value k => Ok k | _ => Err "" end) = true ∧ statesSet es `prefix_of` [S_SENT_KEY; S_GOT_KEY; S_ACTIVE].
Proof.
  pose proof (auth_outcome (U := asciiTables) sampleServerOptions sampleConn sampleKeys freshSample (conj eq_refl eq_refl)) as H.
  destruct (doTLSAuth sampleServerOptions sampleConn freshSample) as [[o m'] es] eqn:He.
  split; [|exact (proj1 H)]. vm_compute in He. injection He as <- _ _. reflexivity.
Defined.

Lemma key_exchange_witness :
  ∃ key m' es, doTLSAuth (U := asciiTables) sampleServerOptions sampleConn freshSample = (Value key, m', es) ∧
    tiIP (tunnelInfo m') = "10.8.0.2".
Proof.
  destruct (encodeClientControlMessageAsBytes (U := asciiTables) sampleKeys sampleServerOptions) as [request| |] eqn:He;
    [|vm_compute in He; discriminate He..].
  destruct (EncodeOptionStringToBytes sampleServerString) as [enc|] eqn:Henc; [|vm_compute in Henc; discriminate Henc].
  destruct (ServerOptionsString (U := asciiTables) sampleServerOptions) as [suite| |] eqn:Hs; [|vm_compute in Hs; discriminate Hs..].
  assert (Forall wfOption samplePush) as Hp.
  { unfold samplePush, wfOption, lacks. repeat (apply Forall_cons; split; [split; [discriminate|decided]|]). apply Forall_nil_2. }
  destruct (key_exchange (P := plainPrimitives) (L := plainLaws) (U := asciiTables) sampleServerOptions sampleConn sampleKeys freshSample
    (zeros 32) (zeros 32) sampleServerString enc samplePush request suite (sampleState 16 cipherModeCBC))
    as (key & m' & seen & Hd & _ & _ & Hip);
    [by split|by split_and!|reflexivity|reflexivity|exact Hs|exact He|reflexivity|reflexivity|exact Henc|vm_compute; reflexivity
    |unfold sampleConn; cbn [connRead]; by rewrite Henc|exact Hp|reflexivity|apply rd_cipher, sampleState_ready; decided|].
  eexists key, m', _. split; [exact Hd|]. rewrite Hip. reflexivity.
Defined.
