(* ===== verification/TlsCert.v ===== *)
(** * [minivpn/internal/tlssession/tlshandshake.go]: certificates and the TLS handshake

    Which certificates the engine takes from a profile, how it sets up TLS with them,
    and [tlsAuth], which puts the key exchange of [TlsSession] behind the handshake.
    The parsing and the verification of certificates ([crypto/x509]) and the TLS of
    the imitated client ([utls]) are parameters, with what their documentation promises
    as laws. *)

From S2P Require Import Prelude GoStrings GoNet GoCodec Bytesx Packet Session VpnOptions ControlMsg DataCrypto DataChannel DataChannelProps TlsSession.

(** ** [crypto/x509] and the key pairs of [tls] *)

(** [x509.VerifyOptions], a pool being its certificates; the other fields stay zero. *)
Record VerifyOptions (C : Type) := mkVerifyOptions { DNSName : string; Roots : list C; Intermediates : list C }.
Arguments mkVerifyOptions {C}. Arguments DNSName {C}. Arguments Roots {C}. Arguments Intermediates {C}.

(** [pemCertificates] are the certificates [AppendCertsFromPEM] finds in a text. *)
Class X509 := {
  Certificate : Type;
  KeyPair : Type;
  pemCertificates : string → list Certificate;
  ParseCertificate : bytes → result Certificate;
  Verify : Certificate → VerifyOptions Certificate → option string;
  X509KeyPair : string → string → result KeyPair;
  LoadX509KeyPair : string → string → result KeyPair
}.

(** A text without PEM blocks is no key pair. *)
Definition noPEM : string := "tls: failed to find any PEM data in certificate input".
Class X509Laws (X : X509) : Prop := { empty_key_pair key : X509KeyPair "" key = Err noPEM }.

(** ** Loading *)

Record certPaths := mkCertPaths { certPath : string; keyPath : string; caPath : string }.
(** [cert] and [key] can be nil, which is not the same as empty. *)
Record certBytes := mkCertBytes { bytesCert : option string; bytesKey : option string; bytesCA : string }.

Section Loading.
Context {X : X509}.

(** No key pair is the zero [tls.Certificate]. *)
Record certConfig := mkCertConfig { cert : option KeyPair; ca : list Certificate }.

Definition badCA (e : string) : string := "bad ca conf: " +:+ e.
Definition badKeypair (e : string) : string := "bad keypair conf: " +:+ e.

(** The pool of [AppendCertsFromPEM], and its [ok]. *)
Definition AppendCertsFromPEM (pool : list Certificate) (data : string) : list Certificate * bool :=
  (pool ++ pemCertificates data, negb (Nat.eqb (length (pemCertificates data)) 0)).

Definition loadCertAndCAFromPath (readFile : string → result string) (pth : certPaths) : result certConfig :=
  match readFile (caPath pth) with
  | Err e => Err (badCA e)
  | Ok caData =>
      let '(pool, ok) := AppendCertsFromPEM [] caData in
      fail_if negb ok with Err (badCA "cannot parse ca cert") ;;
      if negb (bool_decide (certPath pth = "")) && negb (bool_decide (keyPath pth = "")) then
        match LoadX509KeyPair (certPath pth) (keyPath pth) with
        | Err e => Err (badKeypair e)
        | Ok kp => Ok (mkCertConfig (Some kp) pool)
        end
      else Ok (mkCertConfig None pool)
  end.

Definition loadCertAndCAFromBytes (crt : certBytes) : result certConfig :=
  let '(pool, ok) := AppendCertsFromPEM [] (bytesCA crt) in
  fail_if negb ok with Err (badCA "cannot parse ca cert") ;;
  match bytesCert crt, bytesKey crt with
  | Some c, Some k =>
      match X509KeyPair c k with
      | Err e => Err (badKeypair e)
      | Ok kp => Ok (mkCertConfig (Some kp) pool)
      end
  | _, _ => Ok (mkCertConfig None pool)
  end.

Definition ShouldLoadCertsFromPath (o : OpenVPNOptions) : bool :=
  negb (bool_decide (optCertPath o = "")) && negb (bool_decide (optKeyPath o = "")) && negb (bool_decide (optCAPath o = "")).

(** Options that were read from a file never hold nil: [getOptionsFromLines] starts
    from empty slices and an inline block replaces them by what it holds. *)
Definition newCertConfigFromOptions (readFile : string → result string) (o : OpenVPNOptions) : result certConfig :=
  if ShouldLoadCertsFromPath o then
    loadCertAndCAFromPath readFile (mkCertPaths (optCertPath o) (optKeyPath o) (optCAPath o))
  else loadCertAndCAFromBytes (mkCertBytes (Some (optCert o)) (Some (optKey o)) (optCA o)).

(** ** Verifying the server *)

Definition cannotVerify (e : string) : string := "cannot verify chain: " +:+ e.
Definition certVerifyOptions : VerifyOptions Certificate := mkVerifyOptions "" [] [].

Fixpoint parseIntermediates (rawCerts : list bytes) : result (list Certificate) :=
  match rawCerts with
  | [] => Ok []
  | rawCert :: rest =>
      match ParseCertificate rawCert with
      | Err e => Err (cannotVerify ("parse intermediate certificate: " +:+ e))
      | Ok certificate => let? rest := parseIntermediates rest in Ok (certificate :: rest)
      end
  end.

(** The callback: [None] accepts the certificates. *)
Definition customVerify (authority : list Certificate) (rawCerts : list bytes) : option string :=
  match rawCerts with
  | [] => Some (cannotVerify "no certificates presented")
  | rawLeaf :: rest =>
      match ParseCertificate rawLeaf with
      | Err e => Some (cannotVerify ("parse leaf certificate: " +:+ e))
      | Ok leaf =>
          match parseIntermediates rest with
          | Err e => Some e
          | Ok intermediates =>
              let opts := mkVerifyOptions (DNSName certVerifyOptions) authority intermediates in
              match Verify leaf opts with Some e => Some (cannotVerify e) | None => None end
          end
      end
  end.

(** ** [initTLS] *)

Record tlsConfig := mkTLSConfig {
  Certificates : list (option KeyPair);
  InsecureSkipVerify : bool;
  VerifyPeerCertificate : list bytes → option string;
  DynamicRecordSizingDisabled : bool;
  MinVersion : N;
  MaxVersion : N
}.
Definition VersionTLS12 : N := 0x0303.
Definition VersionTLS13 : N := 0x0304.

Definition initTLS (cfg : certConfig) : result tlsConfig :=
  Ok (mkTLSConfig [cert cfg] true (customVerify (ca cfg)) true VersionTLS12 VersionTLS13).

End Loading.
Arguments certConfig : clear implicits.
Arguments tlsConfig : clear implicits.

(** ** [utls] *)

(** The server, as [utls] meets it, presents a list of certificates; [Handshake]
    fails or succeeds with them. *)
Class UTLS (X : X509) := {
  ClientHelloSpec : Type;
  FingerprintClientHello : bytes → result ClientHelloSpec;
  ApplyPreset : ClientHelloSpec → option string;
  Handshake : ClientHelloSpec → tlsConfig X → list bytes → option string
}.

(** [VerifyPeerCertificate]: an error it returns aborts the handshake. *)
Class UTLSLaws (X : X509) (L : UTLS X) : Prop := {
  handshake_verifies spec conf presented :
    Handshake spec conf presented = None → VerifyPeerCertificate conf presented = None
}.

(** *** The recorded hello *)

(** [hex.DecodeString]; the byte in the message of an invalid one is left out. *)
Fixpoint hexDecode (s : bytes) : result bytes :=
  match s with
  | [] => Ok []
  | [a] => match hexDigit a with None => Err "encoding/hex: invalid byte" | Some _ => Err "encoding/hex: odd length hex string" end
  | a :: b :: s =>
      match hexDigit a, hexDigit b with
      | Some x, Some y => let? rest := hexDecode s in Ok (byte_of (16 * x + y) :: rest)
      | _, _ => Err "encoding/hex: invalid byte"
      end
  end.

Definition vpnClientHelloHex : string := 
  "1603010114010001100303534e0a0f2687b240f7c7dfbb51c4aac33639f28173aa5d7bcebb159695ab0855208b835bf240a83df66885d6747b5bbf1b631e8c34ae469c629d7eb76e247128eb0032130213031301c02cc030009fcca9cca8ccaac02bc02f009ec024c028006bc023c0270067c00ac0140039c009c013003300ff01000095000b000403000102000a00160014001d0017001e00190018010001010102010301040016000000170000000d002a0028040305030603080708080809080a080b080408050806040105010601030303010302040205020602002b0009080304030303020301002d00020101003300260024001d0020a10bc24becb583293c317220e6725205d3a177a4a974090f6ffcf13a43da7035".

Section Handshake.
Context {X : X509} {L : UTLS X}.

Definition badParrot (e : string) : string := "cannot parrot: " +:+ e.

(** The client that is made has the spec applied. *)
Definition parrotTLSFactory : result ClientHelloSpec :=
  match hexDecode (s2l vpnClientHelloHex) with
  | Err e => Err (badParrot ("cannot decode raw fingerprint: " +:+ e))
  | Ok raw =>
      match FingerprintClientHello raw with
      | Err e => Err (badParrot ("fingerprinting failed: " +:+ e))
      | Ok spec =>
          match ApplyPreset spec with
          | Some e => Err (badParrot ("cannot apply spec: " +:+ e))
          | None => Ok spec
          end
      end
  end.

Definition tlsHandshake (conf : tlsConfig X) (presented : list bytes) : result unit :=
  let? spec := parrotTLSFactory in
  match Handshake spec conf presented with
  | Some e => Err ("handshake failure: " +:+ e)
  | None => Ok tt
  end.

(** ** [tlsAuth] *)

(** Up to the shutdown (which [StartTun] models): the connection behaves like [conn]
    once the handshake is over. *)
Definition tlsAuth {U : UnicodeTables} (readFile : string → result string) (options : OpenVPNOptions)
    (presented : list bytes) (conn : TLSConn) (m : Manager) : authResult :=
  match newCertConfigFromOptions readFile options with
  | Err e => failed e m
  | Ok certCfg =>
      match initTLS certCfg with
      | Err e => failed e m
      | Ok conf => doTLSAuth options (mkTLSConn (tlsHandshake conf presented) (connWrite conn) (connRead conn)) m
      end
  end.

End Handshake.

(** ** Properties *)

(** The text the authorities of a profile are read from. *)
Definition authorityText (readFile : string → result string) (o : OpenVPNOptions) : result string :=
  if ShouldLoadCertsFromPath o then readFile (optCAPath o) else Ok (optCA o).

(** What [customVerify] accepts: a leaf the authorities certify, with the rest of what
    is presented as intermediates, whatever name is on it. *)
Definition certified {X : X509} (authority : list Certificate) (presented : list bytes) : Prop :=
  ∃ rawLeaf rest leaf intermediates,
    presented = rawLeaf :: rest ∧ ParseCertificate rawLeaf = Ok leaf ∧
    Forall2 (λ raw c, ParseCertificate raw = Ok c) rest intermediates ∧
    Verify leaf (mkVerifyOptions "" authority intermediates) = None.

Section Properties.
Context {X : X509}.

Lemma parseIntermediates_ok rest certificates :
  parseIntermediates rest = Ok certificates ↔ Forall2 (λ raw c, ParseCertificate raw = Ok c) rest certificates.
Proof.
  split.
  - revert certificates. induction rest as [|raw rest IH]; intros cs H; simpl in H; [by simplify_eq; constructor|].
    destruct (ParseCertificate raw) as [c|] eqn:Hc; [|done].
    destruct (parseIntermediates rest) as [cs'|]; [|done]. simplify_eq. constructor; auto.
  - induction 1 as [|raw c rest cs Hc _ IH]; [done|]. cbn [parseIntermediates]. by rewrite Hc, IH.
Qed.

Theorem customVerify_spec authority presented :
  customVerify authority presented = None ↔ certified authority presented.
Proof.
  split.
  - destruct presented as [|rawLeaf rest]; [done|]. cbn [customVerify].
    destruct (ParseCertificate rawLeaf) as [leaf|] eqn:Hl; [|done].
    destruct (parseIntermediates rest) as [cs|] eqn:Hr; [|done]. cbn [certVerifyOptions DNSName].
    destruct (Verify leaf _) eqn:Hv; [done|]. intros _.
    exists rawLeaf, rest, leaf, cs. by rewrite <-parseIntermediates_ok.
  - intros (rawLeaf & rest & leaf & cs & -> & Hl & Hr%parseIntermediates_ok & Hv).
    cbn [customVerify certVerifyOptions DNSName]. by rewrite Hl, Hr, Hv.
Qed.

(** Where the certificates come from: all from the paths, or all inline; the pool is
    never empty. *)
Lemma config_from_options readFile o cfg : newCertConfigFromOptions readFile o = Ok cfg →
  ∃ text, authorityText readFile o = Ok text ∧ ca cfg = pemCertificates text ∧ pemCertificates text ≠ [] ∧
    ∃ kp, cert cfg = Some kp ∧
      (if ShouldLoadCertsFromPath o then LoadX509KeyPair (optCertPath o) (optKeyPath o)
       else X509KeyPair (optCert o) (optKey o)) = Ok kp.
Proof.
  unfold newCertConfigFromOptions, authorityText. destruct (ShouldLoadCertsFromPath o) eqn:Hs.
  - unfold ShouldLoadCertsFromPath in Hs. bools.
    unfold loadCertAndCAFromPath. cbn [caPath certPath keyPath].
    destruct (readFile (optCAPath o)) as [text|]; [|done]. cbn [AppendCertsFromPEM app].
    destruct (pemCertificates text) as [|c cs] eqn:Hp; cbn [length Nat.eqb negb]; [done|].
    rewrite !bool_decide_false by done. cbn [negb andb].
    destruct (LoadX509KeyPair _ _) as [kp|]; [|done]. intros [= <-]. exists text. rewrite Hp. by eauto 7.
  - unfold loadCertAndCAFromBytes. cbn [bytesCA bytesCert bytesKey AppendCertsFromPEM app].
    destruct (pemCertificates (optCA o)) as [|c cs] eqn:Hp; cbn [length Nat.eqb negb]; [done|].
    destruct (X509KeyPair _ _) as [kp|]; [|done]. intros [= <-]. exists (optCA o). rewrite Hp. by eauto 7.
Qed.

Context {L : UTLS X}.

Lemma doTLSAuth_needs_handshake {U : UnicodeTables} options conn m e :
  tlsHandshakeFn conn = Err e → doTLSAuth options conn m = failed e m.
Proof. unfold doTLSAuth. by intros ->. Qed.

(** C5. Nothing leaves the client before the server has proved itself: if [tlsAuth]
    writes anything at all (the first message holds the user's name and password) or
    succeeds, the server presented a certificate that the authorities of the profile,
    and no others, certify. The name on it is not looked at. *)
Theorem exit_authenticated {LL : UTLSLaws X L} {U : UnicodeTables} readFile options presented conn m o m' es :
  tlsAuth readFile options presented conn m = (o, m', es) →
  es ≠ [] ∨ (∃ key, o = Value key) →
  ∃ text, authorityText readFile options = Ok text ∧ certified (pemCertificates text) presented.
Proof.
  unfold tlsAuth. destruct (newCertConfigFromOptions readFile options) as [cfg|] eqn:Hc;
    [|by intros [= <- _ <-] [?|[? ?]]].
  destruct (config_from_options _ _ _ Hc) as (text & Ht & Hca & _).
  cbn [initTLS]. set (conf := mkTLSConfig _ _ _ _ _ _). intros Hd Hw. exists text. split; [done|].
  assert (tlsHandshake conf presented = Ok tt) as Hh.
  { destruct (tlsHandshake conf presented) as [[]|e] eqn:Hh; [done|]. exfalso.
    rewrite (doTLSAuth_needs_handshake options (mkTLSConn (Err e) _ _) m e eq_refl) in Hd.
    injection Hd as <- _ <-. by destruct Hw as [?|[? ?]]. }
  apply customVerify_spec. rewrite <-Hca. change (VerifyPeerCertificate conf presented = None).
  unfold tlsHandshake in Hh. destruct parrotTLSFactory as [spec|]; [|done].
  destruct (Handshake spec conf presented) eqn:Hs; [done|]. by apply (handshake_verifies spec).
Qed.

(** The version a profile allows is not used. *)
Lemma tls_version_ignored readFile o o' : newCertConfigFromOptions readFile (setTLSMaxVer o' o) = newCertConfigFromOptions readFile o.
Proof. done. Qed.

(** A profile for a user name and password, without a client certificate, can be read
    and has what [HasAuthInfo] asks for, but the engine never gets to the handshake:
    its certificate is not nil but empty, and an empty text is no key pair. *)
Theorem password_profile_fails {XL : X509Laws X} {U : UnicodeTables} readFile options presented conn m :
  ShouldLoadCertsFromPath options = false → optCert options = "" →
  ∃ e, tlsAuth readFile options presented conn m = (Error e, m, []) ∧
    (e = badCA "cannot parse ca cert" ∨ e = badKeypair noPEM).
Proof.
  intros Hs Hc. unfold tlsAuth, newCertConfigFromOptions, loadCertAndCAFromBytes. rewrite Hs.
  cbn [bytesCA bytesCert bytesKey AppendCertsFromPEM app].
  destruct (negb (negb _)); [by eauto|]. rewrite Hc, empty_key_pair. eauto.
Qed.

End Properties.

(** ** Concrete runs *)

(** The recorded hello is one TLS record (version 3.1, 276 bytes) that holds exactly one
    ClientHello (272 bytes, version 3.3). *)
Lemma hello_wellformed :
  match hexDecode (s2l vpnClientHelloHex) with
  | Ok raw => length raw = (5 + 276)%nat ∧
      map code (take 11 raw) = [22; 3; 1; 276 / 256; 276 mod 256; 1; 0; 272 / 256; 272 mod 256; 3; 3]%N
  | Err _ => False
  end.
Proof. vm_compute. split; reflexivity. Qed.

(** A toy x509: a certificate is a text, and an authority certifies the texts that
    name it; the text of a pool is one certificate. *)
#[local] Instance toyX509 : X509 := {|
  Certificate := string;
  KeyPair := string * string;
  pemCertificates s := if bool_decide (s = "") then [] else [s];
  ParseCertificate raw := Ok (l2s raw);
  Verify leaf opts := if existsb (λ a, hasPrefix leaf (a +:+ ":")) (Roots opts) then None else Some "x509: certificate signed by unknown authority";
  X509KeyPair c k := if bool_decide (c = "") then Err noPEM else Ok (c, k);
  LoadX509KeyPair c k := Err "no such file or directory"
|}.
#[local] Instance toyX509Laws : X509Laws toyX509.
Proof. by constructor. Qed.
#[local] Instance toyUTLS : UTLS toyX509 := {|
  ClientHelloSpec := bytes;
  FingerprintClientHello := Ok;
  ApplyPreset _ := None;
  Handshake spec conf presented := VerifyPeerCertificate conf presented
|}.
#[local] Instance toyUTLSLaws : UTLSLaws toyX509 toyUTLS.
Proof. by constructor. Qed.

Definition certOptions : OpenVPNOptions := setInline "authority" "client" "key" sampleServerOptions.
Definition noFiles : string → result string := λ _, Err "no such file or directory".

Lemma exit_authenticated_witness :
  ∃ key m' es, tlsAuth (U := asciiTables) noFiles certOptions [s2l "authority:exit"] sampleConn freshSample = (Value key, m', es) ∧
    certified ["authority"] [s2l "authority:exit"].
Proof.
  destruct (tlsAuth (U := asciiTables) noFiles certOptions [s2l "authority:exit"] sampleConn freshSample) as [[o m'] es] eqn:He.
  destruct o as [key| |]; [|vm_compute in He; discriminate He..].
  destruct (exit_authenticated (U := asciiTables) noFiles certOptions [s2l "authority:exit"] sampleConn freshSample
    (Value key) m' es He (or_intror (ex_intro _ key eq_refl))) as (text & Ht & Hc).
  exists key, m', es. split; [reflexivity|]. injection Ht as <-. exact Hc.
Defined.

(** Another authority's certificate is refused, and nothing is written. *)
Example other_authority_refused :
  (tlsAuth (U := asciiTables) noFiles certOptions [s2l "impostor:exit"] sampleConn freshSample).2 = [].
Proof. vm_compute. reflexivity. Qed.

(** A profile of the list for a user name and password, as the manager writes it. *)
Definition passwordProfile : string :=
  join nl ["proto tcp"; "remote 203.0.113.7 443"; "cipher AES-128-CBC"; "auth SHA1"; "auth-user-pass"; "<ca>"; "authority"; "</ca>"].

Lemma password_profile_fails_witness :
  ∃ o, engineReads passwordProfile = Value o ∧ HasAuthInfo (setCredentials "vpn" "vpn" o) = true ∧
    ∃ e, tlsAuth (U := asciiTables) noFiles (setCredentials "vpn" "vpn" o) [s2l "authority:exit"] sampleConn freshSample
         = (Error e, freshSample, []).
Proof.
  destruct (engineReads passwordProfile) as [o| |] eqn:He; [|vm_compute in He; discriminate He..].
  exists o. split; [reflexivity|]. vm_compute in He. apply (value_inj _ _) in He as <-. split; [reflexivity|].
  match goal with |- ∃ e, tlsAuth _ ?o ?presented ?conn ?m = _ =>
    destruct (password_profile_fails (U := asciiTables) noFiles o presented conn m eq_refl eq_refl) as (e & Hr & _) end.
  exists e. exact Hr.
Defined.
