(* ===== verification/NetworkIO.v ===== *)
(** * [minivpn/internal/networkio] and [tlssession/tlsbio.go]: the ends of the engine

    The connection to the server: what is dialled, its framing, closing it once, and the
    two workers that move packets between it and the muxer, as a step relation. Below
    that the BIO that lets TLS read and write the records of the control channel as a
    stream of bytes. The socket is a parameter: which pieces each [Read] gets, and
    whether a [Write] fails. *)

From S2P Require Import Prelude GoStrings GoCodec Bytesx Packet Muxer.

(** ** Connections *)

(** [net.Conn]: its [LocalAddr().Network()]. *)
Class NetConn (C : Type) := { localNetwork : C → string }.
Inductive FramingConn (C : Type) := datagramConn (conn : C) | streamConn (conn : C).
Arguments datagramConn {C}. Arguments streamConn {C}.

Definition DialContext {C} `{NetConn C} (dial : string → string → result C) (network address : string)
    : result (FramingConn C) :=
  match dial network address with
  | Err e => Err e
  | Ok conn =>
      if bool_decide (localNetwork conn ∈ ["udp"; "udp4"; "udp6"]) then Ok (datagramConn conn)
      else Ok (streamConn conn)
  end.

(** [sync.Once] and the calls of [Close] on the connection below. *)
Record closeOnceConn := mkCloseOnce { onceDone : bool; underlyingCloses : nat }.
Definition newCloseOnceConn : closeOnceConn := mkCloseOnce false 0.
Definition Close (answer : option string) (c : closeOnceConn) : option string * closeOnceConn :=
  if onceDone c then (None, c) else (answer, mkCloseOnce true (S (underlyingCloses c))).

(** ** Framing *)

Inductive framing := Datagram | Stream.
#[export] Instance framing_eq_dec : EqDecision framing.
Proof. solve_decision. Defined.

(** [io.ReadFull] of [n] more bytes, [acc] read so far: each [Read] returns what there is
    of the next piece, at most what is asked for; after the last piece the connection
    fails with [ended]. *)
Fixpoint readFullFrom (ended : string) (n : nat) (acc : bytes) (pieces : list bytes) : result (bytes * list bytes) :=
  match n, pieces with
  | O, _ => Ok (acc, pieces)
  | _, [] => Err (if bool_decide (ended = "EOF") && negb (bool_decide (acc = [])) then "unexpected EOF" else ended)
  | _, piece :: pieces =>
      if (length piece <=? n)%nat then readFullFrom ended (n - length piece) (acc ++ piece) pieces
      else Ok (acc ++ take n piece, drop n piece :: pieces)
  end.

Definition streamRead (ended : string) (pieces : list bytes) : result (bytes * list bytes) :=
  let? (lenbuf, pieces) := readFullFrom ended 2 [] pieces in
  match lenbuf with
  | [h; l] => readFullFrom ended (N.to_nat (uint16 h l)) [] pieces
  | _ => Err "unexpected EOF"
  end.

(** One datagram; what does not fit the buffer is lost. *)
Definition datagramRead (ended : string) (pieces : list bytes) : result (bytes * list bytes) :=
  match pieces with
  | [] => Err ended
  | datagram :: pieces => Ok (take (N.to_nat 65535) datagram, pieces)
  end.
Definition datagramWrite (pkt : bytes) : result bytes :=
  fail_if (65535 <? N.of_nat (length pkt))%N with Err "openvpn: packet too large" ;; Ok pkt.

Definition readRaw (f : framing) : string → list bytes → result (bytes * list bytes) :=
  match f with Datagram => datagramRead | Stream => streamRead end.
(** What is passed to [Write] of the socket. *)
Definition writeRaw (f : framing) : bytes → result bytes :=
  match f with Datagram => datagramWrite | Stream => WriteRawPacket end.

(** ** The workers *)

(** [upHeld] is the packet [moveUpWorker] has read and not delivered; [fromMuxer] what
    the muxer will hand down, [taken] what it has; [wireOut] the writes that
    succeeded. *)
Record network := mkNetwork {
  wireIn : list bytes; upHeld : option bytes; delivered : list bytes; upDone : bool;
  fromMuxer : list bytes; taken : list bytes; wireOut : list bytes; downDone : bool;
  stopping : bool
}.
Definition startWorkers (pieces packets : list bytes) : network := mkNetwork pieces None [] false packets [] [] false false.

Definition setUp i h d e st s := mkNetwork i h d e (fromMuxer s) (taken s) (wireOut s) (downDone s) st.
Definition setDown q t o e st s := mkNetwork (wireIn s) (upHeld s) (delivered s) (upDone s) q t o e st.

Inductive netStep (f : framing) (ended : string) (s : network) : network → Prop :=
  (* moveUpWorker *)
  | up_read pkt rest :
      upDone s = false → upHeld s = None → readRaw f ended (wireIn s) = Ok (pkt, rest) →
      netStep f ended s (setUp rest (Some pkt) (delivered s) false (stopping s) s)
  | up_read_fails e :
      upDone s = false → upHeld s = None → readRaw f ended (wireIn s) = Err e →
      netStep f ended s (setUp (wireIn s) None (delivered s) true true s)
  | up_deliver pkt :
      upDone s = false → upHeld s = Some pkt →
      netStep f ended s (setUp (wireIn s) None (delivered s ++ [pkt]) false (stopping s) s)
  | up_stop pkt :
      upDone s = false → upHeld s = Some pkt → stopping s = true →
      netStep f ended s (setUp (wireIn s) (Some pkt) (delivered s) true true s)
  (* moveDownWorker *)
  | down_write pkt q out :
      downDone s = false → fromMuxer s = pkt :: q → writeRaw f pkt = Ok out →
      netStep f ended s (setDown q (taken s ++ [pkt]) (wireOut s ++ [out]) false (stopping s) s)
  | down_write_fails pkt q :
      downDone s = false → fromMuxer s = pkt :: q →
      netStep f ended s (setDown q (taken s) (wireOut s) true true s)
  | down_stop :
      downDone s = false → stopping s = true →
      netStep f ended s (setDown (fromMuxer s) (taken s) (wireOut s) true true s)
  (* another worker *)
  | others_stop :
      stopping s = false →
      netStep f ended s (mkNetwork (wireIn s) (upHeld s) (delivered s) (upDone s) (fromMuxer s) (taken s) (wireOut s) (downDone s) true).

(** ** [tlsBio] *)

(** What the [select] of [Read] takes: a record from the control channel, or the hangup. *)
Inductive bioChoice := Extra (record : bytes) | Hangup.

(** [Read] of at most [n] bytes: the result, the buffer, the choices not made yet; [None]
    while it blocks. *)
Fixpoint bioRead (n : nat) (buffer : bytes) (choices : list bioChoice) : option (result bytes * bytes * list bioChoice) :=
  if (0 <? Nat.min n (length buffer))%nat then Some (Ok (take n buffer), drop n buffer, choices)
  else match choices with
       | [] => None
       | Extra record :: choices => bioRead n (buffer ++ record) choices
       | Hangup :: choices => Some (Err "use of closed network connection", buffer, choices)
       end.

(** [Write] hands the caller's own buffer to the control channel: buffers live in
    memory and the channel holds where they are. [hangup] is what the [select] took. *)
Record bioOut := mkBioOut { memory : gmap nat bytes; directionDown : list nat }.
Definition bioWrite (hangup : bool) (data : nat) (w : bioOut) : result nat * bioOut :=
  if hangup then (Err "use of closed network connection", w)
  else (Ok (length (default [] (memory w !! data))), mkBioOut (memory w) (directionDown w ++ [data])).
(** What the control channel sends when it gets to it. *)
Definition transmitted (w : bioOut) : list bytes := map (λ b, default [] (memory w !! b)) (directionDown w).

(** ** Properties *)

(** *** Connections *)

Lemma DialContext_framing {C} `{NetConn C} dial network address (conn : C) : dial network address = Ok conn →
  DialContext dial network address = Ok (if bool_decide (localNetwork conn ∈ ["udp"; "udp4"; "udp6"]) then datagramConn conn else streamConn conn).
Proof. unfold DialContext. intros ->. by case_bool_decide. Qed.

(** However often it is closed, the socket is closed once, by the first call, which
    alone reports how that went. *)
Lemma closes_once answers c : onceDone c = false →
  foldl (λ '(es, c) a, let '(e, c) := Close a c in (es ++ [e], c)) ([], c) answers =
  match answers with
  | [] => ([], c)
  | a :: more => (a :: map (λ _, None) more, mkCloseOnce true (S (underlyingCloses c)))
  end.
Proof.
  intros Hc. destruct answers as [|a more]; [done|]. cbn [foldl]. unfold Close at 2. rewrite Hc. cbn [app].
  assert (∀ es d, onceDone d = true →
    foldl (λ '(es, c) a, let '(e, c) := Close a c in (es ++ [e], c)) (es, d) more = (es ++ map (λ _, None) more, d)) as H.
  { induction more as [|b more IH]; intros es d Hd; cbn [foldl map]; [by rewrite app_nil_r|].
    unfold Close at 2. rewrite Hd, IH by done. by rewrite <-app_assoc. }
  by rewrite (H [a]).
Qed.

(** *** Framing *)

Lemma readFullFrom_spec ended n acc pieces :
  match readFullFrom ended n acc pieces with
  | Ok (b, pieces') => ∃ x, b = acc ++ x ∧ length x = n ∧ concat pieces = x ++ concat pieces'
  | Err _ => length (concat pieces) < n
  end.
Proof.
  revert n acc. induction pieces as [|piece pieces IH]; intros [|n] acc; cbn [readFullFrom];
    [exists []; by rewrite app_nil_r|cbn; lia|exists []; by rewrite app_nil_r|].
  destruct (Nat.leb_spec (length piece) (S n)).
  - specialize (IH (S n - length piece) (acc ++ piece)).
    destruct (readFullFrom _ _ _ _) as [[b pieces']|]; cbn [concat]; rewrite ?length_app; [|lia].
    destruct IH as (x & -> & Hx & Hc). exists (piece ++ x).
    rewrite length_app, Hc, !app_assoc. split_and!; [done|lia|done].
  - exists (take (S n) piece). cbn [concat]. rewrite app_assoc, take_drop, length_take. split_and!; [done|lia|done].
Qed.

Lemma readFull_split n b x r : readFull n b = Ok (x, r) ↔ b = x ++ r ∧ length x = n.
Proof.
  split; [|intros [-> <-]; by apply readFull_app]. unfold readFull. destruct (Nat.leb_spec n (length b)); [|by destruct bool_decide].
  intros [= <- <-]. by rewrite take_drop, length_take_le.
Qed.

Lemma readFull_short n b : length b < n → ∃ e, readFull n b = Err e.
Proof. intros H. unfold readFull. destruct (Nat.leb_spec n (length b)); [lia|eauto]. Qed.

(** Reading does not depend on how the stream is cut into pieces: it is
    [ReadRawPacket] of the whole. *)
Theorem cuts_irrelevant ended pieces :
  match streamRead ended pieces with
  | Ok (pkt, pieces') => ReadRawPacket (concat pieces) = Ok (pkt, concat pieces')
  | Err _ => ∃ e, ReadRawPacket (concat pieces) = Err e
  end.
Proof.
  unfold streamRead, ReadRawPacket. pose proof (readFullFrom_spec ended 2 [] pieces) as H2.
  destruct (readFullFrom ended 2 [] pieces) as [[lenbuf ps]|];
    [|destruct (readFull_short _ _ H2) as [e' ->]; eauto].
  destruct H2 as (x & -> & Hx & Hc). rewrite Hc, (readFull_app 2 x) by done. cbn [app].
  destruct x as [|h [|l [|]]]; try done.
  pose proof (readFullFrom_spec ended (N.to_nat (uint16 h l)) [] ps) as Hn.
  destruct (readFullFrom _ _ _ ps) as [[pkt ps']|]; [|destruct (readFull_short _ _ Hn) as [e' ->]; eauto].
  destruct Hn as (y & -> & Hy & ->). by apply readFull_app.
Qed.

(** What was read stays read when more arrives. *)
Lemma ReadRawPacket_app b k pkt r : ReadRawPacket b = Ok (pkt, r) → ReadRawPacket (b ++ k) = Ok (pkt, r ++ k).
Proof.
  unfold ReadRawPacket. destruct (readFull 2 b) as [[lenbuf s]|] eqn:H2; [|done].
  apply readFull_split in H2 as [-> Hl]. rewrite <-app_assoc, (readFull_app 2 lenbuf) by done.
  destruct lenbuf as [|h [|l [|]]]; try done. intros [-> Hn]%readFull_split. rewrite <-app_assoc. by apply readFull_app.
Qed.

(** *** The workers *)

Definition framed (f : framing) : list bytes → list bytes → Prop := Forall2 (λ pkt out, writeRaw f pkt = Ok out).

(** What [moveDownWorker] has written are the first of the muxer's packets. *)
Record downInv (f : framing) (packets : list bytes) (s : network) : Prop := {
  dn_framed : framed f (taken s) (wireOut s);
  dn_order : taken s `prefix_of` packets;
  dn_rest : downDone s = false → packets = taken s ++ fromMuxer s
}.

Lemma downInv_step f ended packets s s' : downInv f packets s → netStep f ended s s' → downInv f packets s'.
Proof.
  intros [Hf Ho Hr] Hs.
  destruct Hs as [pkt rest|e|pkt|pkt|pkt q out Hd Hq Hw|pkt q Hd|Hd|]; constructor;
    cbn [setUp setDown taken wireOut downDone fromMuxer]; try done.
  - apply Forall2_app; [done|by apply Forall2_cons].
  - rewrite (Hr Hd), Hq. exists q. by rewrite <-app_assoc.
  - intros _. by rewrite (Hr Hd), Hq, <-app_assoc.
Qed.

Lemma downInv_reachable f ended pieces packets s :
  rtc (netStep f ended) (startWorkers pieces packets) s → downInv f packets s.
Proof.
  intros Hr. assert (downInv f packets (startWorkers pieces packets)) as H0 by (constructor; [constructor|apply prefix_nil|done]).
  revert H0. induction Hr as [|s s1 s2 Hs _ IH]; [done|]. intros H0. apply IH. by eapply downInv_step.
Qed.

(** [moveUpWorker] goes through the packets [sent], of which the pieces still to come
    and [k], which never comes, hold the rest. *)
Definition upInv (sent : list bytes) (k : bytes) (s : network) : Prop :=
  ∃ rest frames, sent = delivered s ++ option_list (upHeld s) ++ rest ∧
    framed Stream rest frames ∧ concat (wireIn s) ++ k = concat frames.

Lemma streamRead_framed ended pieces pkt pieces' k rest frames :
  streamRead ended pieces = Ok (pkt, pieces') → framed Stream rest frames → concat pieces ++ k = concat frames →
  ∃ rest' frames', rest = pkt :: rest' ∧ framed Stream rest' frames' ∧ concat pieces' ++ k = concat frames'.
Proof.
  intros Hr Hf Hc. pose proof (cuts_irrelevant ended pieces) as Hs. rewrite Hr in Hs.
  apply (ReadRawPacket_app _ k) in Hs. rewrite Hc in Hs.
  destruct Hf as [|p fr rest frames Hp Hf]; [done|]. cbn [concat] in Hs.
  rewrite (frame_roundtrip p fr (concat frames) Hp) in Hs. injection Hs as -> Hk. eauto.
Qed.

Lemma upInv_step ended sent k s s' : upInv sent k s → netStep Stream ended s s' → upInv sent k s'.
Proof.
  intros (rest & frames & Hs & Hf & Hc) Hstep.
  destruct Hstep as [pkt pieces _ Hh Hr|e _ Hh|pkt _ Hh|pkt _ Hh|? ? ? ?|? ? ?| |];
    unfold upInv; cbn [setUp setDown delivered upHeld wireIn]; rewrite ?Hh in Hs; try by eauto.
  - destruct (streamRead_framed _ _ _ _ _ _ _ Hr Hf Hc) as (rest' & frames' & -> & ? & ?).
    exists rest', frames'. by rewrite Hs.
  - exists rest, frames. cbn [option_list app] in *. by rewrite <-app_assoc.
Qed.

Lemma upInv_reachable ended packets sent k s0 s : s0 = startWorkers (wireIn s0) packets →
  (∃ frames, framed Stream sent frames ∧ concat (wireIn s0) ++ k = concat frames) →
  rtc (netStep Stream ended) s0 s → upInv sent k s.
Proof.
  intros H0 (frames & Hf & Hc) Hr.
  assert (upInv sent k s0) as Hi by (rewrite H0; exists sent, frames; split_and!; [done|done|by rewrite <-Hc, H0]).
  clear H0 Hf Hc. revert Hi. induction Hr as [|s s1 s2 Hs _ IH]; [done|]. intros Hi. apply IH. by eapply upInv_step.
Qed.

(** C31. Two engines over TCP: whatever the two ends do and however the network cuts what one
    end wrote, or cuts it off, the other end's muxer gets the packets that were handed
    to the first end, whole and in order, a prefix of them. When everything written
    arrives, a reader that is still running and has delivered less finds the next
    packet. *)
Theorem network_carries ended ended' pieces0 sent peer pieces packets s :
  rtc (netStep Stream ended) (startWorkers pieces0 sent) peer →
  rtc (netStep Stream ended') (startWorkers pieces packets) s →
  concat pieces `prefix_of` concat (wireOut peer) →
  delivered s `prefix_of` sent ∧
  (concat pieces = concat (wireOut peer) → upDone s = false → upHeld s = None → delivered s ≠ taken peer →
   ∃ pkt rest, readRaw Stream ended' (wireIn s) = Ok (pkt, rest) ∧ (delivered s ++ [pkt]) `prefix_of` sent).
Proof.
  intros Hp Hs [k Hk]. destruct (downInv_reachable _ _ _ _ _ Hp) as [Hf Ho _].
  destruct (upInv_reachable ended' packets (taken peer) k (startWorkers pieces packets) s) as (rest & frames & Ht & Hfr & Hc);
    [done|by exists (wireOut peer)|done|].
  split.
  { trans (taken peer); [|done]. rewrite Ht. by exists (option_list (upHeld s) ++ rest). }
  intros Hall _ Hh Hne. rewrite Hh in Ht. cbn [option_list app] in Ht.
  assert (k = []) as ->. { rewrite Hall in Hk. apply (f_equal length) in Hk. rewrite length_app in Hk. destruct k; [done|cbn in Hk; lia]. }
  rewrite app_nil_r in Hc. destruct Hfr as [|pkt fr rest frames Hw Hfr]; [by rewrite app_nil_r in Ht|].
  pose proof (cuts_irrelevant ended' (wireIn s)) as Hr. rewrite Hc in Hr. cbn [concat] in Hr.
  rewrite (frame_roundtrip pkt fr (concat frames) Hw) in Hr.
  cbn [readRaw]. destruct (streamRead ended' (wireIn s)) as [[pkt' rest']|]; [|by destruct Hr].
  injection Hr as <- _. exists pkt, rest'. split; [done|].
  trans (taken peer); [|done]. rewrite Ht. exists rest. by rewrite <-app_assoc.
Qed.

(** Over UDP what reaches the muxer is what arrived, one datagram a packet. *)
Theorem datagrams_delivered ended pieces packets s :
  rtc (netStep Datagram ended) (startWorkers pieces packets) s →
  delivered s `prefix_of` map (take (N.to_nat 65535)) pieces.
Proof.
  intros Hr. assert (∀ s0, rtc (netStep Datagram ended) s0 s → ∀ all,
    all = delivered s0 ++ option_list (upHeld s0) ++ map (take (N.to_nat 65535)) (wireIn s0) → delivered s `prefix_of` all) as H.
  { clear Hr. induction 1 as [s0|s0 s1 s2 Hs _ IH]; intros all ->; [by eexists|]. apply IH.
    destruct Hs as [pkt rest _ Hh Hr|e _ Hh|pkt _ Hh|pkt _ Hh|? ? ? ?|? ? ?| |];
      cbn [setUp setDown delivered upHeld wireIn]; rewrite ?Hh; try done.
    - cbn [readRaw datagramRead] in Hr. destruct (wireIn s0) as [|d ds]; [done|]. by injection Hr as <- <-.
    - cbn [option_list app]. by rewrite <-app_assoc. }
  by apply (H _ Hr).
Qed.

(** *** The end of the workers *)

Definition wireWeight (pieces : list bytes) : nat := length (concat pieces) + length pieces.
Definition netMeasure (s : network) : nat :=
  (if upDone s then 0 else 1 + 2 * wireWeight (wireIn s) + length (option_list (upHeld s)))
  + (if downDone s then 0 else 1 + length (fromMuxer s)) + Nat.b2n (negb (stopping s)).

Lemma readFullFrom_pieces ended n acc pieces b pieces' :
  readFullFrom ended n acc pieces = Ok (b, pieces') → length pieces' <= length pieces.
Proof.
  revert n acc. induction pieces as [|piece pieces IH]; intros [|n] acc; cbn [readFullFrom]; try (by intros [= _ <-]); try done.
  destruct (_ <=? _)%nat; [|by intros [= _ <-]]. intros H%IH. cbn [length]. lia.
Qed.

Lemma readRaw_weight f ended pieces pkt pieces' :
  readRaw f ended pieces = Ok (pkt, pieces') → wireWeight pieces' < wireWeight pieces.
Proof.
  unfold wireWeight. destruct f; cbn [readRaw].
  - destruct pieces; [done|]. intros [= _ <-]. cbn [concat length]. rewrite length_app. lia.
  - unfold streamRead. pose proof (readFullFrom_spec ended 2 [] pieces) as H2.
    destruct (readFullFrom ended 2 [] pieces) as [[lenbuf ps]|] eqn:E2; [|done].
    destruct H2 as (x & -> & Hx & ->). apply readFullFrom_pieces in E2.
    destruct x as [|h [|l [|]]]; try done. cbn [app]. intros Hr. pose proof (readFullFrom_pieces _ _ _ _ _ _ Hr).
    pose proof (readFullFrom_spec ended (N.to_nat (uint16 h l)) [] ps) as Hn. rewrite Hr in Hn.
    destruct Hn as (y & _ & _ & ->). cbn [length]. rewrite length_app. lia.
Qed.

Lemma netStep_measure f ended s s' : netStep f ended s s' → netMeasure s' < netMeasure s.
Proof.
  intros Hs. unfold netMeasure.
  destruct Hs as [pkt rest Hu Hh Hr|e Hu Hh _|pkt Hu Hh|pkt Hu Hh Hst|pkt q out Hd Hq _|pkt q Hd Hq|Hd Hst|Hst];
    cbn [setUp setDown upDone upHeld wireIn downDone fromMuxer stopping];
    try (rewrite Hu, Hh; cbn [option_list option_rect length]); try (rewrite Hd, ?Hq; cbn [length]); try (rewrite Hst; cbn [negb Nat.b2n]);
    try (destruct (stopping s); cbn [negb Nat.b2n]; lia); try lia.
  apply readRaw_weight in Hr. destruct (stopping s); cbn [negb Nat.b2n]; lia.
Qed.

Lemma upDone_stops f ended pieces packets s :
  rtc (netStep f ended) (startWorkers pieces packets) s → upDone s = true → stopping s = true.
Proof.
  intros Hr. assert (upDone (startWorkers pieces packets) = true → stopping (startWorkers pieces packets) = true) as H0 by done.
  revert H0. induction Hr as [|s s1 s2 Hs _ IH]; [done|]. intros H0. apply IH.
  destruct Hs; cbn [setUp setDown upDone stopping]; try done; by intros ?%H0.
Qed.

(** The workers of the connection end: every run is bounded, and a run stops only when
    both are done and have told the others to shut down. *)
Theorem network_ends f ended pieces packets k s :
  nsteps (netStep f ended) k (startWorkers pieces packets) s →
  k <= 3 + 2 * wireWeight pieces + length packets ∧
  ((∀ s', ¬ netStep f ended s s') → upDone s = true ∧ downDone s = true ∧ stopping s = true).
Proof.
  intros Hk. split.
  - assert (k + netMeasure s <= netMeasure (startWorkers pieces packets)) as H.
    { clear -Hk. induction Hk as [|k s0 s1 s2 Hs _ IH]; [lia|]. apply netStep_measure in Hs. lia. }
    trans (k + netMeasure s); [lia|]. etrans; [exact H|].
    unfold netMeasure, startWorkers. cbn [upDone upHeld wireIn downDone fromMuxer stopping option_list option_rect length negb Nat.b2n]. lia.
  - intros Hst. destruct (upDone s) eqn:Hu.
    + pose proof (upDone_stops f ended pieces packets s (rtc_nsteps_2 _ _ _ Hk) Hu) as Hs.
      destruct (downDone s) eqn:Hd; [done|]. by destruct (Hst _ (down_stop f ended s Hd Hs)).
    + exfalso. destruct (upHeld s) as [pkt|] eqn:Hh; [by eapply Hst, up_deliver|].
      destruct (readRaw f ended (wireIn s)) as [[pkt rest]|e] eqn:Hr; [by eapply Hst, up_read|by eapply Hst, up_read_fails].
Qed.

(** *** [tlsBio] *)

Definition extras (choices : list bioChoice) : bytes :=
  choices ≫= λ c, match c with Extra record => record | Hangup => [] end.

(** TLS reads the records as one stream of bytes: nothing is lost, doubled or moved, and
    a read of at least one byte never returns an empty result. *)
Theorem bioRead_stream n buffer choices r buffer' choices' :
  bioRead n buffer choices = Some (r, buffer', choices') →
  ∃ done, choices = done ++ choices' ∧
  match r with
  | Ok data => buffer ++ extras done = data ++ buffer' ∧ 0 < length data <= n
  | Err _ => Hangup ∈ done ∧ buffer ++ extras done = buffer'
  end.
Proof.
  revert buffer. induction choices as [|c choices IH]; intros buffer; cbn [bioRead];
    (destruct (Nat.ltb_spec 0 (Nat.min n (length buffer)));
     [intros [= <- <- <-]; exists []; cbn; rewrite app_nil_r, take_drop, length_take; split_and!; [done..|lia|lia]|]); [done|].
  destruct c as [record|].
  - intros (dn & -> & Hd)%IH. exists (Extra record :: dn). split; [done|]. cbn [extras mbind list_bind]. rewrite <-app_assoc in Hd.
    destruct r; [done|]. destruct Hd as [? ?]. split; [by right|done].
  - intros [= <- <- <-]. exists [Hangup]. split_and!; [done|by left|]. cbn. by rewrite app_nil_r.
Qed.

(** It returns as soon as there is a byte to return, or the hangup is taken. *)
Lemma bioRead_blocks n buffer choices : 0 < n →
  bioRead n buffer choices = None → buffer = [] ∧ (Hangup ∉ choices) ∧ extras choices = [].
Proof.
  intros Hn. revert buffer. induction choices as [|c choices IH]; intros buffer; cbn [bioRead];
    (destruct (Nat.ltb_spec 0 (Nat.min n (length buffer))) as [|Hb]; [done|]);
    assert (buffer = []) as -> by (destruct buffer; [done|cbn [length] in Hb; lia]).
  - intros _. split_and!; [done|apply not_elem_of_nil|done].
  - destruct c as [record|]; [|done]. intros (Hr & Hh & He)%IH. cbn [app] in Hr. subst record. split_and!; [done| |done].
    rewrite elem_of_cons. intros [?|?]; done.
Qed.

(** [Write] keeps the caller's buffer: what the caller puts there after [Write] has
    returned is what the control channel sends, and sends again. *)
Lemma write_not_copied data record later w : memory w !! data = Some record → directionDown w = [] →
  let '(r, w') := bioWrite false data w in
  r = Ok (length record) ∧ transmitted w' = [record] ∧
  transmitted (mkBioOut (<[data := later]> (memory w')) (directionDown w')) = [later].
Proof.
  intros Hm Hd. unfold bioWrite, transmitted. cbn [memory directionDown]. rewrite Hd. cbn [app map].
  by rewrite Hm, lookup_insert_eq.
Qed.

(** ** Concrete runs *)

Definition twoPackets : list bytes := [s2l "first"; s2l "second"].
Definition peerDone : network :=
  mkNetwork [] None [] false [] twoPackets (map (λ p, putUint16 (N.of_nat (length p)) ++ p) twoPackets) false false.
Lemma peer_runs : rtc (netStep Stream "EOF") (startWorkers [] twoPackets) peerDone.
Proof.
  eapply rtc_l; [eapply down_write; reflexivity|]. eapply rtc_l; [eapply down_write; reflexivity|]. reflexivity.
Qed.

(** What the peer wrote, cut inside the length of the first frame and inside the second
    packet, and cut off there. *)
Definition cutPieces : list bytes := [[byte_of 0]; [byte_of 5] ++ s2l "fir"; s2l "st" ++ [byte_of 0; byte_of 6] ++ s2l "sec"].
Definition readerDone : network :=
  mkNetwork [[byte_of 0; byte_of 6] ++ s2l "sec"] None [s2l "first"] true [] [] [] false true.
Lemma reader_runs : rtc (netStep Stream "EOF") (startWorkers cutPieces []) readerDone.
Proof.
  eapply rtc_l; [eapply up_read; vm_compute; reflexivity|]. eapply rtc_l; [eapply up_deliver; reflexivity|].
  eapply rtc_l; [eapply up_read_fails; vm_compute; reflexivity|]. reflexivity.
Qed.

Lemma network_carries_witness :
  concat cutPieces `prefix_of` concat (wireOut peerDone) ∧ delivered readerDone `prefix_of` twoPackets.
Proof.
  assert (concat cutPieces `prefix_of` concat (wireOut peerDone)) as Hp by (exists (s2l "ond"); vm_compute; reflexivity).
  split; [exact Hp|]. exact (proj1 (network_carries _ _ _ _ _ _ _ _ peer_runs reader_runs Hp)).
Defined.

Definition allDone : network := setDown [] [] [] true true readerDone.
Lemma reader_ends : nsteps (netStep Stream "EOF") 4 (startWorkers cutPieces []) allDone.
Proof.
  eapply nsteps_l; [eapply up_read; vm_compute; reflexivity|]. eapply nsteps_l; [eapply up_deliver; reflexivity|].
  eapply nsteps_l; [eapply up_read_fails; vm_compute; reflexivity|]. eapply nsteps_l; [eapply down_stop; reflexivity|].
  constructor.
Qed.

Lemma network_ends_witness :
  4 <= 3 + 2 * wireWeight cutPieces + 0 ∧ upDone allDone = true ∧ downDone allDone = true ∧ stopping allDone = true.
Proof.
  destruct (network_ends Stream "EOF" cutPieces [] 4 allDone reader_ends) as [Hk He].
  split; [exact Hk|]. apply He. intros s' Hs. inversion Hs; discriminate.
Defined.
