(* ===== verification/StartTun.v ===== *)
(** * [minivpn/internal/tun.StartTUN]: start, failure and shutdown of the engine

    The goroutines that meet when a tunnel starts, as a step relation: [StartTUN]
    with the [Close] it defers on failure, the TLS worker with the goroutine of
    [doTLSAuth] ([TlsSession] says what that does), the key worker of the data
    channel, and the other ten workers, which are only counted: they may end at any
    time and take the rest down ([StartShutdown]). [Ready], [Failure] and [errorch]
    are channels without a buffer; [SetNegotiationState] sends on [Ready] while it
    holds the lock of the session manager. [notifications] bounds how often the layers
    below start TLS. *)

From S2P Require Import Prelude.

(** ** State *)

Inductive closeStage := CloseHangup | CloseConn | CloseShutdown | CloseWait.
(** [StartTUN]: before its select, at it, in the deferred [Close], back. *)
Inductive starter := Starting | Selecting | Closing (err : string) (pc : closeStage) | Started | Failed (err : string).
(** The TLS worker: its loop, [tlsAuth], with a failure to offer, ended. *)
Inductive tlsWorker := TLSLoop | TLSAuth | TLSFails (err : string) | TLSDone.
(** The goroutine of [doTLSAuth]: none, running, at its send on [errorch]. *)
Inductive authRun := NoAuth | AuthRuns | AuthReports (err : option string).
(** The key worker: at its select, with a key, in the send on [Ready], ended. *)
Inductive keyState := KeyWaits | KeyTaken | KeySends | KeyDone.

Record engine := mkEngine {
  main : starter;
  tls : tlsWorker;
  auth : authRun;
  notifications : nat;
  keyBuffered : bool;
  key : keyState;
  firstKey : bool;
  others : nat;
  stopping : bool;
  hungUp : bool;
  connClosed : bool
}.

Definition setMain v e := mkEngine v (tls e) (auth e) (notifications e) (keyBuffered e) (key e) (firstKey e) (others e)
  (stopping e) (hungUp e) (connClosed e).
Definition setTLS t a n e := mkEngine (main e) t a n (keyBuffered e) (key e) (firstKey e) (others e)
  (stopping e) (hungUp e) (connClosed e).
Definition setKey b k e := mkEngine (main e) (tls e) (auth e) (notifications e) b k (firstKey e) (others e)
  (stopping e) (hungUp e) (connClosed e).
Definition setFirst e := mkEngine (main e) (tls e) (auth e) (notifications e) (keyBuffered e) (key e) true (others e)
  (stopping e) (hungUp e) (connClosed e).
Definition setOthers n e := mkEngine (main e) (tls e) (auth e) (notifications e) (keyBuffered e) (key e) (firstKey e) n
  (stopping e) (hungUp e) (connClosed e).
(** [StartShutdown]. *)
Definition shut e := mkEngine (main e) (tls e) (auth e) (notifications e) (keyBuffered e) (key e) (firstKey e) (others e)
  true (hungUp e) (connClosed e).
Definition hangUp e := mkEngine (main e) (tls e) (auth e) (notifications e) (keyBuffered e) (key e) (firstKey e) (others e)
  (stopping e) true (connClosed e).
Definition closeConn e := mkEngine (main e) (tls e) (auth e) (notifications e) (keyBuffered e) (key e) (firstKey e) (others e)
  (stopping e) (hungUp e) true.

(** What [startWorkers] leaves: twelve workers, two of them spelled out. *)
Definition initial (n : nat) : engine := mkEngine Starting TLSLoop NoAuth n false KeyWaits false 10 false false false.

(** ** Steps *)

Inductive engineStep (e : engine) : engine → Prop :=
  | step_select : main e = Starting → engineStep e (setMain Selecting e)
  (* the timer or the context *)
  | step_give_up err : main e = Selecting → engineStep e (setMain (Closing err CloseHangup) e)
  | step_hangup err : main e = Closing err CloseHangup → engineStep e (hangUp (setMain (Closing err CloseConn) e))
  | step_conn err : main e = Closing err CloseConn → engineStep e (closeConn (setMain (Closing err CloseShutdown) e))
  | step_shutdown err : main e = Closing err CloseShutdown → engineStep e (shut (setMain (Closing err CloseWait) e))
  | step_waited err :
      main e = Closing err CloseWait → others e = 0%nat → tls e = TLSDone → key e = KeyDone →
      engineStep e (setMain (Failed err) e)
  (* the TLS worker *)
  | step_notified n : tls e = TLSLoop → auth e = NoAuth → notifications e = S n → engineStep e (setTLS TLSAuth AuthRuns n e)
  | step_auth_key : auth e = AuthRuns → keyBuffered e = false →
      engineStep e (setKey true (key e) (setTLS (tls e) (AuthReports None) (notifications e) e))
  | step_auth_fails err : auth e = AuthRuns → engineStep e (setTLS (tls e) (AuthReports (Some err)) (notifications e) e)
  | step_auth_done : tls e = TLSAuth → auth e = AuthReports None → engineStep e (setTLS TLSLoop NoAuth (notifications e) e)
  | step_auth_failed err : tls e = TLSAuth → auth e = AuthReports (Some err) →
      engineStep e (setTLS (TLSFails err) NoAuth (notifications e) e)
  | step_failure_sent err : tls e = TLSFails err → main e = Selecting →
      engineStep e (shut (setMain (Closing err CloseHangup) (setTLS TLSDone (auth e) (notifications e) e)))
  | step_failure_dropped err : tls e = TLSFails err → main e ≠ Selecting →
      engineStep e (shut (setTLS TLSDone (auth e) (notifications e) e))
  | step_tls_stops : tls e = TLSLoop ∨ tls e = TLSAuth → stopping e = true →
      engineStep e (setTLS TLSDone (auth e) (notifications e) e)
  (* the key worker *)
  | step_key_taken : key e = KeyWaits → keyBuffered e = true → engineStep e (setKey false KeyTaken e)
  | step_key_bad : key e = KeyTaken → engineStep e (setKey (keyBuffered e) KeyWaits e)
  | step_key_set : key e = KeyTaken → engineStep e (setKey (keyBuffered e) KeySends e)
  | step_ready : key e = KeySends → main e = Selecting →
      engineStep e (setFirst (setMain Started (setKey (keyBuffered e) KeyWaits e)))
  | step_key_stops : key e = KeyWaits → stopping e = true → engineStep e (setKey (keyBuffered e) KeyDone e)
  (* any other worker *)
  | step_other_ends n : others e = S n → engineStep e (shut (setOthers n e)).

Definition reachableFrom (e e' : engine) : Prop := rtc engineStep e e'.
Definition stuck (e : engine) : Prop := ∀ e', ¬ engineStep e e'.

(** ** Properties *)

Ltac engine_simpl :=
  cbn [main tls auth notifications keyBuffered key firstKey others stopping hungUp connClosed
       setMain setTLS setKey setFirst setOthers shut hangUp closeConn] in *.
(** Cases on the step of [H], the equations of its guards substituted. *)
Ltac step_cases H := destruct H; engine_simpl; simplify_eq.

(** What holds of every engine that was started: once the connection is being closed
    down the stages behind are over; a tunnel is handed out only with keys. *)
Record engineOK (e : engine) : Prop := {
  eo_wait err : main e = Closing err CloseWait → stopping e = true;
  eo_first : main e = Started → firstKey e = true;
  eo_tls : tls e = TLSDone → stopping e = true;
  eo_key : key e = KeyDone → stopping e = true;
  eo_others : others e < 10 → stopping e = true;
  eo_hung err pc : main e = Closing err pc → pc ≠ CloseHangup → hungUp e = true;
  eo_auth : tls e = TLSAuth → auth e ≠ NoAuth;
  eo_loop : tls e = TLSLoop → auth e = NoAuth;
  eo_conn err pc : main e = Closing err pc → pc = CloseShutdown ∨ pc = CloseWait → connClosed e = true;
  eo_failed err : main e = Failed err →
    hungUp e = true ∧ connClosed e = true ∧ others e = 0 ∧ tls e = TLSDone ∧ key e = KeyDone
}.

Lemma initial_ok n : engineOK (initial n).
Proof. by split; cbn; try lia. Qed.

Lemma engineStep_ok e e' : engineOK e → engineStep e e' → engineOK e'.
Proof.
  intros [H1 H2 H3 H4 H5 H6 H7 H8 H9 H10] Hs.
  step_cases Hs; split; engine_simpl; intros; simplify_eq; try done; try lia; eauto; try congruence.
  all: try (apply H5; lia).
  all: try (eapply H6; [eassumption|congruence]).
  all: repeat match goal with
         | H : main _ = Failed _ |- _ => destruct (H10 _ H) as (? & ? & ? & ? & ?); clear H
         | H : _ ∨ _ |- _ => destruct H; simplify_eq
         end.
  all: try match goal with H : auth _ = AuthRuns |- _ => by rewrite H8 in H by done end.
  all: split_and!; congruence || by eauto.
Qed.

Lemma reachable_ok n e : reachableFrom (initial n) e → engineOK e.
Proof.
  intros Hr. assert (engineOK (initial n)) as H0 by apply initial_ok. revert H0.
  induction Hr as [e|e e1 e2 Hs _ IH]; intros He; [done|]. apply IH. by eapply engineStep_ok.
Qed.

(** *** Termination *)

Definition mainLeft (m : starter) : nat :=
  match m with
  | Starting => 6 | Selecting => 5 | Closing _ CloseHangup => 4 | Closing _ CloseConn => 3 | Closing _ CloseShutdown => 2
  | Closing _ CloseWait => 1 | Started | Failed _ => 0
  end.
Definition tlsLeft (t : tlsWorker) : nat := match t with TLSAuth => 3 | TLSFails _ => 2 | TLSLoop => 1 | TLSDone => 0 end.
Definition authLeft (a : authRun) : nat := match a with AuthRuns => 10 | AuthReports _ => 1 | NoAuth => 0 end.
Definition keyLeft (k : keyState) : nat := match k with KeyTaken => 3 | KeySends => 2 | KeyWaits => 1 | KeyDone => 0 end.
Definition engineMeasure (e : engine) : nat :=
  mainLeft (main e) + tlsLeft (tls e) + authLeft (auth e) + 20 * notifications e + 5 * Nat.b2n (keyBuffered e)
  + keyLeft (key e) + others e.

Lemma engineStep_measure e e' : engineStep e e' → engineMeasure e' < engineMeasure e.
Proof.
  intros Hs. unfold engineMeasure.
  step_cases Hs; repeat match goal with H : _ = _ |- _ => rewrite H end; 
    cbn [mainLeft tlsLeft authLeft keyLeft Nat.b2n]; try lia.
  all: match goal with H : _ ∨ _ |- _ => destruct H as [-> | ->] end; cbn [tlsLeft]; lia.
Qed.

Lemma nsteps_measure k e e' : nsteps engineStep k e e' → k + engineMeasure e' <= engineMeasure e.
Proof.
  induction 1 as [|k e e1 e2 Hs _ IH]; [lia|]. pose proof (engineStep_measure _ _ Hs). lia.
Qed.

Lemma stuck_cases e : engineOK e → stuck e →
  main e = Started ∨ (∃ err, main e = Failed err) ∨
  (∃ err, main e = Closing err CloseWait ∧ key e = KeySends ∧ tls e = TLSDone ∧ others e = 0).
Proof.
  intros Hok Hst. destruct (main e) as [| |err pc| |err] eqn:Hm; [..|by left|by right; left; exists err].
  - by edestruct Hst; apply step_select.
  - edestruct Hst. by apply (step_give_up e "").
  - destruct pc; [edestruct Hst; by eapply step_hangup|edestruct Hst; by eapply step_conn|edestruct Hst; by eapply step_shutdown|].
    pose proof (eo_wait e Hok err Hm) as Hs. right; right. exists err. split; [done|].
    destruct (others e) as [|n] eqn:Ho; [|edestruct Hst; by eapply step_other_ends].
    destruct (tls e) eqn:Ht; [edestruct Hst; eapply step_tls_stops; auto|edestruct Hst; eapply step_tls_stops; auto| |].
    { edestruct Hst; eapply step_failure_dropped; [done|by rewrite Hm]. }
    destruct (key e) eqn:Hk; [edestruct Hst; by eapply step_key_stops|edestruct Hst; by eapply step_key_bad|done|].
    edestruct Hst; by eapply step_waited.
Qed.


(** When a start has failed nothing of it is left: the connection is closed, the
    twelve workers are over, and whoever reads or writes is told; when it has
    succeeded the keys of the data channel are set. *)
Theorem start_outcome n e : reachableFrom (initial n) e →
  (main e = Started → firstKey e = true) ∧
  (∀ err, main e = Failed err → hungUp e = true ∧ connClosed e = true ∧ others e = 0 ∧ tls e = TLSDone ∧ key e = KeyDone).
Proof. intros Hr%reachable_ok. split; [apply Hr|intros err; apply Hr]. Qed.

(** *** The race for [Ready] *)

Definition handedOver (e : engine) : Prop :=
  key e = KeySends ∧ main e ≠ Starting ∧ main e ≠ Selecting ∧ main e ≠ Started ∧ ∀ err, main e ≠ Failed err.

Lemma handedOver_step e e' : handedOver e → engineStep e e' → handedOver e'.
Proof.
  intros (Hk & H1 & H2 & H3 & H4) Hs. unfold handedOver.
  step_cases Hs; try congruence; split_and!; try done; try congruence; intros; congruence.
Qed.

(** A run up to the point where the key worker holds the lock and offers [Ready],
    and [StartTUN] has given up meanwhile. *)
Definition lateKey : engine :=
  mkEngine (Closing "context deadline exceeded" CloseHangup) TLSLoop NoAuth 0 false KeySends false 10 false false false.

Lemma lateKey_reachable : reachableFrom (initial 1) lateKey.
Proof.
  unfold reachableFrom, initial.
  eapply rtc_l; [by apply step_select|]. eapply rtc_l; [by eapply (step_notified _ 0)|].
  eapply rtc_l; [by apply step_auth_key|]. eapply rtc_l; [by apply step_auth_done|].
  eapply rtc_l; [by apply step_key_taken|]. eapply rtc_l; [by apply (step_give_up _ "context deadline exceeded")|].
  eapply rtc_l; [by apply step_key_set|]. apply rtc_refl.
Qed.

(** C34. If the time is up while the key worker sets up the keys, [StartTUN] never
    returns: the worker waits in its send on [Ready], with the lock of the session
    manager, for a receiver that has gone, and the deferred [Close] waits for the
    worker. Whatever happens afterwards. *)
Theorem start_can_hang : reachableFrom (initial 1) lateKey ∧
  ∀ e, reachableFrom lateKey e → key e = KeySends ∧ main e ≠ Started ∧ ∀ err, main e ≠ Failed err.
Proof.
  split; [apply lateKey_reachable|]. intros e Hr.
  assert (handedOver lateKey) as H0 by (by split_and!).
  assert (handedOver e) as (Hk & _ & _ & Hs & Hf); [|done].
  induction Hr as [|e e1 e2 Hs _ IH]; [done|]. apply IH. by eapply handedOver_step.
Qed.

(** *** Failures nobody reports *)

(** All workers have ended because one of them has: the peer closed the connection,
    say. *)
Definition deserted : engine := mkEngine Selecting TLSDone NoAuth 0 false KeyDone false 0 true false false.

(** If the connection breaks during the handshake all workers end, but [StartTUN]
    is not told: the only thing left to happen is that its time runs out. *)
Theorem broken_connection_unnoticed : reachableFrom (initial 0) deserted ∧
  ∀ e, engineStep deserted e → ∃ err, e = setMain (Closing err CloseHangup) deserted.
Proof.
  split.
  - unfold reachableFrom, initial. eapply rtc_l; [by apply step_select|].
    do 10 (eapply rtc_l; [by eapply step_other_ends|]; cbn).
    eapply rtc_l; [eapply step_tls_stops; [by left|done]|]. eapply rtc_l; [by apply step_key_stops|]. apply rtc_refl.
  - intros e Hs. inversion Hs; cbn in *; simplify_eq; try (by eexists). by destruct H.
Qed.

(** The goroutine of [doTLSAuth] is not counted: when the TLS worker stops before it
    reports, it stays at its send on [errorch] for ever. *)
Lemma auth_goroutine_leaks : ∃ e, reachableFrom (initial 1) e ∧ main e = Failed "timeout" ∧
  auth e = AuthReports None ∧ stuck e.
Proof.
  eexists. split; [|split; [|split]].
  - unfold reachableFrom, initial. eapply rtc_l; [by apply step_select|]. eapply rtc_l; [by eapply (step_notified _ 0)|].
    eapply rtc_l; [by apply step_auth_key|]. eapply rtc_l; [by apply (step_give_up _ "timeout")|].
    eapply rtc_l; [by eapply step_hangup|]. eapply rtc_l; [by eapply step_conn|]. eapply rtc_l; [by eapply step_shutdown|].
    do 10 (eapply rtc_l; [by eapply step_other_ends|]; cbn).
    eapply rtc_l; [eapply step_tls_stops; [by right|done]|]. eapply rtc_l; [by apply step_key_stops|].
    eapply rtc_l; [by eapply step_waited|]. cbn. apply rtc_refl.
  - reflexivity.
  - reflexivity.
  - intros e Hs. inversion Hs; cbn in *; simplify_eq; by destruct H.
Qed.

(** *** Examples *)


Lemma start_outcome_witness : ∃ e, reachableFrom (initial 1) e ∧ main e = Failed "timeout" ∧ connClosed e = true.
Proof.
  destruct auth_goroutine_leaks as (e & Hr & Hm & _). exists e. split; [exact Hr|]. split; [exact Hm|].
  destruct (proj2 (start_outcome 1 e Hr) "timeout" Hm) as (_ & Hc & _). exact Hc.
Defined.
