(* ===== verification/Html.v ===== *)
(** * Markup: escaping and the reader of the browser

    The console builds markup by concatenating strings and assigns it to
    [innerHTML]. [escapeHtml] is the function of [web/static.go]; [tokenize] is
    the part of the HTML standard's tokenizer that such markup meets (text,
    start and end tags, quoted, unquoted and empty attributes, the character
    references of [escapeHtml]); comments, doctypes and other references are left
    as text, and neither newlines nor NUL are normalised. UTF-8 keeps ASCII apart
    from other characters, so it is read byte by byte. *)

From S2P Require Import Prelude GoStrings.

(** ** Escaping *)

(** The table of [escapeHtml]. *)
Definition escapeChar (c : ascii) : bytes :=
  match code c with
  | 38%N => s2l "&amp;"
  | 60%N => s2l "&lt;"
  | 62%N => s2l "&gt;"
  | 34%N => s2l "&quot;"
  | 39%N => s2l "&#039;"
  | _ => [c]
  end.
Definition escapeHtml (s : string) : string := l2s (s2l s ≫= escapeChar).

(** A piece of markup, with its quotation marks written as apostrophes. *)
Definition markup (s : string) : string :=
  l2s ((λ c : ascii, if (code c =? 39)%N then byte_of 34 else c) <$> s2l s).

(** ** Tokens *)

Record Tag := mkTag { tagName : string; tagAttrs : list (string * string) }.

Inductive token :=
  | Text (s : string)
  | StartTag (t : Tag)
  | EndTag (name : string).

Inductive lexState :=
  | Data (b : bytes)
  | DataRef (b r : bytes)
  | TagOpen (b : bytes)
  | EndOpen (b : bytes)
  | TagName (isEnd : bool) (n : bytes)
  | BeforeAttr (isEnd : bool) (t : Tag)
  | AttrName (isEnd : bool) (t : Tag) (n : bytes)
  | BeforeValue (isEnd : bool) (t : Tag) (n : bytes)
  | Quoted (isEnd : bool) (t : Tag) (n b : bytes)
  | QuotedRef (isEnd : bool) (t : Tag) (n b r : bytes)
  | Unquoted (isEnd : bool) (t : Tag) (n b : bytes).

Definition push (b : bytes) (c : ascii) : bytes := b ++ [c].
Definition lowerByte (c : ascii) : ascii :=
  if (65 <=? code c)%N && (code c <=? 90)%N then byte_of (code c + 32) else c.
Definition isLetter (c : ascii) : bool :=
  (97 <=? code (lowerByte c))%N && (code (lowerByte c) <=? 122)%N.
Definition isDigitByte (c : ascii) : bool := (48 <=? code c)%N && (code c <=? 57)%N.
Definition isBlankByte (c : ascii) : bool :=
  (code c =? 32)%N || (code c =? 9)%N || (code c =? 10)%N || (code c =? 12)%N || (code c =? 13)%N.

Definition addAttr (t : Tag) (n b : bytes) : Tag := mkTag (tagName t) (tagAttrs t ++ [(l2s n, l2s b)]).
Definition emitTag (isEnd : bool) (t : Tag) : lexState * list token :=
  (Data [], [if isEnd then EndTag (tagName t) else StartTag t]).

(** The references [escapeHtml] writes; any other stays as it is. *)
Definition refChar (r : bytes) : option ascii :=
  if bool_decide (r = s2l "amp") then Some (byte_of 38)
  else if bool_decide (r = s2l "lt") then Some (byte_of 60)
  else if bool_decide (r = s2l "gt") then Some (byte_of 62)
  else if bool_decide (r = s2l "quot") then Some (byte_of 34)
  else if bool_decide (r = s2l "#039") then Some (byte_of 39)
  else None.
Definition endRef (r : bytes) : bytes :=
  match refChar r with Some c => [c] | None => byte_of 38 :: push r (byte_of 59) end.
Definition isRefChar (c : ascii) : bool := isLetter c || isDigitByte c || (code c =? 35)%N.

Definition dataStep (b : bytes) (c : ascii) : lexState * list token :=
  if (code c =? 60)%N then (TagOpen b, [])
  else if (code c =? 38)%N then (DataRef b [], [])
  else (Data (push b c), []).

Definition attrStep (isEnd : bool) (t : Tag) (c : ascii) : lexState * list token :=
  if isBlankByte c || (code c =? 47)%N then (BeforeAttr isEnd t, [])
  else if (code c =? 62)%N then emitTag isEnd t
  else (AttrName isEnd t [lowerByte c], []).

Definition quotedStep (isEnd : bool) (t : Tag) (n b : bytes) (c : ascii) : lexState * list token :=
  if (code c =? 34)%N then (BeforeAttr isEnd (addAttr t n b), [])
  else if (code c =? 38)%N then (QuotedRef isEnd t n b [], [])
  else (Quoted isEnd t n (push b c), []).

(** A token is put out when its last byte has been read; a text, which may be
    empty, at the tag after it. *)
Definition lexStep (st : lexState) (c : ascii) : lexState * list token :=
  match st with
  | Data b => dataStep b c
  | DataRef b r =>
      if (code c =? 59)%N then (Data (b ++ endRef r), [])
      else if isRefChar c then (DataRef b (push r c), [])
      else dataStep (b ++ byte_of 38 :: r) c
  | TagOpen b =>
      if isLetter c then (TagName false [lowerByte c], [Text (l2s b)])
      else if (code c =? 47)%N then (EndOpen b, [])
      else dataStep (push b (byte_of 60)) c
  | EndOpen b =>
      if isLetter c then (TagName true [lowerByte c], [Text (l2s b)])
      else dataStep (push (push b (byte_of 60)) (byte_of 47)) c
  | TagName isEnd n =>
      if isBlankByte c || (code c =? 47)%N then (BeforeAttr isEnd (mkTag (l2s n) []), [])
      else if (code c =? 62)%N then emitTag isEnd (mkTag (l2s n) [])
      else (TagName isEnd (push n (lowerByte c)), [])
  | BeforeAttr isEnd t => attrStep isEnd t c
  | AttrName isEnd t n =>
      if (code c =? 61)%N then (BeforeValue isEnd t n, [])
      else if isBlankByte c || (code c =? 47)%N || (code c =? 62)%N then attrStep isEnd (addAttr t n []) c
      else (AttrName isEnd t (push n (lowerByte c)), [])
  | BeforeValue isEnd t n =>
      if (code c =? 34)%N then (Quoted isEnd t n [], [])
      else if isBlankByte c then (BeforeValue isEnd t n, [])
      else if (code c =? 62)%N then emitTag isEnd (addAttr t n [])
      else (Unquoted isEnd t n [c], [])
  | Quoted isEnd t n b => quotedStep isEnd t n b c
  | QuotedRef isEnd t n b r =>
      if (code c =? 59)%N then (Quoted isEnd t n (b ++ endRef r), [])
      else if isRefChar c then (QuotedRef isEnd t n b (push r c), [])
      else quotedStep isEnd t n (b ++ byte_of 38 :: r) c
  | Unquoted isEnd t n b =>
      if isBlankByte c then (BeforeAttr isEnd (addAttr t n b), [])
      else if (code c =? 62)%N then emitTag isEnd (addAttr t n b)
      else (Unquoted isEnd t n (push b c), [])
  end.

Fixpoint lexRun (st : lexState) (l : bytes) : lexState * list token :=
  match l with
  | [] => (st, [])
  | c :: l => let '(st, o) := lexStep st c in let '(st, o') := lexRun st l in (st, o ++ o')
  end.

(** The text at the end; an unfinished tag is dropped, as the standard says. *)
Definition lexEnd (st : lexState) : list token :=
  match st with
  | Data b => [Text (l2s b)]
  | DataRef b r => [Text (l2s (b ++ byte_of 38 :: r))]
  | TagOpen b => [Text (l2s (push b (byte_of 60)))]
  | EndOpen b => [Text (l2s (push (push b (byte_of 60)) (byte_of 47)))]
  | _ => []
  end.

Definition emptyText (t : token) : Prop := t = Text "".
#[export] Instance Tag_eq_dec : EqDecision Tag.
Proof. solve_decision. Defined.
#[export] Instance token_eq_dec : EqDecision token.
Proof. solve_decision. Defined.
#[export] Instance emptyText_dec t : Decision (emptyText t) := decide (t = Text "").

(** The tokens of a piece of markup, empty texts left out. *)
Definition rawTokens (s : string) : list token :=
  let '(st, o) := lexRun (Data []) (s2l s) in o ++ lexEnd st.
Definition visibleTokens (l : list token) : list token := filter (λ t, ¬ emptyText t) l.
Definition tokenize (s : string) : list token := visibleTokens (rawTokens s).

(** ** Lemmas *)

Lemma lexRun_app st l l' :
  lexRun st (l ++ l') = let '(st, o) := lexRun st l in let '(st, o') := lexRun st l' in (st, o ++ o').
Proof.
  revert st. induction l as [|c l IH]; intros st; cbn [lexRun app].
  - by destruct (lexRun st l').
  - destruct (lexStep st c) as [st1 o1]. rewrite IH. destruct (lexRun st1 l) as [st2 o2].
    destruct (lexRun st2 l') as [st3 o3]. by rewrite app_assoc.
Qed.

(** One byte, escaped, is that byte again. *)
Lemma lexRun_escapeChar_data b c : lexRun (Data b) (escapeChar c) = (Data (push b c), []).
Proof. destruct c as [[] [] [] [] [] [] [] []]; reflexivity. Qed.
Lemma lexRun_escapeChar_quoted e t n b c :
  lexRun (Quoted e t n b) (escapeChar c) = (Quoted e t n (push b c), []).
Proof. destruct c as [[] [] [] [] [] [] [] []]; reflexivity. Qed.

(** Escaped text stays text, and is the text that was escaped: in the content of
    an element and in a quoted attribute. *)
Lemma lexRun_escape_data b s : lexRun (Data b) (s2l (escapeHtml s)) = (Data (b ++ s2l s), []).
Proof.
  unfold escapeHtml. rewrite s2l_l2s. generalize (s2l s) as l. intros l. revert b.
  induction l as [|c l IH]; intros b; [by rewrite app_nil_r|].
  rewrite bind_cons, lexRun_app, lexRun_escapeChar_data, IH. unfold push. by rewrite <-app_assoc.
Qed.
Lemma lexRun_escape_quoted e t n b s :
  lexRun (Quoted e t n b) (s2l (escapeHtml s)) = (Quoted e t n (b ++ s2l s), []).
Proof.
  unfold escapeHtml. rewrite s2l_l2s. generalize (s2l s) as l. intros l. revert b.
  induction l as [|c l IH]; intros b; [by rewrite app_nil_r|].
  rewrite bind_cons, lexRun_app, lexRun_escapeChar_quoted, IH. unfold push. by rewrite <-app_assoc.
Qed.

Lemma visibleTokens_app l l' : visibleTokens (l ++ l') = visibleTokens l ++ visibleTokens l'.
Proof. apply filter_app. Qed.

(** Text that is read back: what a cell of a table shows. *)
Lemma tokenize_escape s : tokenize (escapeHtml s) = visibleTokens [Text s].
Proof. unfold tokenize, rawTokens. rewrite lexRun_escape_data. cbn [lexEnd app]. by rewrite l2s_s2l. Qed.

(** *** Reading concatenations

    [Reads m toks]: markup that begins and ends with a tag and reads as [toks]. *)
Definition Reads (m : string) (toks : list token) : Prop :=
  ∀ b, lexRun (Data b) (s2l m) = (Data [], Text (l2s b) :: toks).

Lemma lex_seq st st' st'' o o' x y :
  lexRun st (s2l x) = (st', o) → lexRun st' (s2l y) = (st'', o') → lexRun st (s2l (x +:+ y)) = (st'', o ++ o').
Proof. intros H1 H2. by rewrite s2l_app, lexRun_app, H1, H2. Qed.

(** Text that needs no escaping inside a quoted attribute. *)
Definition plain (s : string) : Prop :=
  Forall (λ c : ascii, (code c =? 34)%N = false ∧ (code c =? 38)%N = false) (s2l s).
Lemma lexRun_plain_quoted e t n b s : plain s → lexRun (Quoted e t n b) (s2l s) = (Quoted e t n (b ++ s2l s), []).
Proof.
  unfold plain. generalize (s2l s) as l. intros l Hl. revert b.
  induction Hl as [|c l [H1 H2] Hl IH]; intros b; [by rewrite app_nil_r|].
  cbn [lexRun lexStep]. unfold quotedStep. rewrite H1, H2, IH. unfold push. by rewrite <-app_assoc.
Qed.

(** The pieces of a concatenation, one after the other: a closed piece is
    evaluated, an escaped one is text. *)
Ltac lex_literal :=
  lazymatch goal with
  | |- lexRun ?st (s2l ?lit) = _ =>
      let l := eval vm_compute in (s2l lit) in
      change (s2l lit) with l;
      let r := eval cbv -[push app s2l l2s addAttr] in (lexRun st l) in
      change (lexRun st l) with r; reflexivity
  end.
Ltac lex_piece :=
  first [ apply lexRun_escape_data | apply lexRun_escape_quoted
        | (apply lexRun_plain_quoted; assumption) | lex_literal ].
Ltac lex_all :=
  lazymatch goal with
  | |- lexRun _ (s2l (_ +:+ _)) = _ => eapply lex_seq; [lex_all|]; lex_all
  | _ => lex_piece
  end.
Ltac reads :=
  intros ?b; eapply eq_trans; [lex_all|];
  unfold push, addAttr; cbn [app tagName tagAttrs l2s String.string_of_list_ascii];
  rewrite ?l2s_app, ?l2s_s2l; reflexivity.

Lemma Reads_visible m toks : Reads m toks → tokenize m = visibleTokens toks.
Proof.
  intros H. unfold tokenize, rawTokens. rewrite H. cbn [lexEnd app l2s String.string_of_list_ascii].
  change (Text "" :: toks ++ [Text ""]) with ([Text ""] ++ toks ++ [Text ""]).
  rewrite !visibleTokens_app. change (visibleTokens [Text ""]) with (@nil token). by rewrite app_nil_r.
Qed.

Lemma join_empty_cons (m : string) ms : join "" (m :: ms) = m +:+ join "" ms.
Proof. destruct ms; cbn [join]; [apply s2l_inj; by rewrite s2l_app, app_nil_r|done]. Qed.

(** What [Reads] finds in markup, without the empty texts. *)
Definition ReadsAs (m : string) (toks : list token) : Prop := ∃ raw, Reads m raw ∧ visibleTokens raw = toks.

(** A list of such pieces reads as the pieces one after the other. *)
Lemma lexRun_concat {A} (f : A → string) (g : A → list token) (l : list A) b :
  (∀ x, ReadsAs (f x) (g x)) → ∃ b' toks, lexRun (Data b) (s2l (join "" (f <$> l))) = (Data b', toks) ∧
    visibleTokens (toks ++ [Text (l2s b')]) = visibleTokens [Text (l2s b)] ++ (l ≫= g).
Proof.
  intros H. revert b. induction l as [|x l IH]; intros b.
  - exists b, []. by rewrite app_nil_r.
  - destruct (IH []) as (b' & toks & E & Ht). destruct (H x) as (raw & Hraw & Hx).
    rewrite fmap_cons, join_empty_cons. exists b', (Text (l2s b) :: raw ++ toks).
    rewrite s2l_app, lexRun_app, Hraw, E. split; [done|].
    change (Text (l2s b) :: raw ++ toks) with ([Text (l2s b)] ++ raw ++ toks).
    by rewrite bind_cons, <-!app_assoc, !visibleTokens_app, <-(visibleTokens_app toks), Ht, Hx.
Qed.
Lemma tokenize_all {A} (f : A → string) (g : A → list token) (l : list A) :
  (∀ x, ReadsAs (f x) (g x)) → tokenize (join "" (f <$> l)) = l ≫= g.
Proof.
  intros H. destruct (lexRun_concat f g l [] H) as (b' & toks & E & Ht).
  unfold tokenize, rawTokens. rewrite E. cbn [lexEnd]. by rewrite Ht.
Qed.
Lemma tokenize_reads m toks : ReadsAs m toks → tokenize m = toks.
Proof. intros (raw & Hraw & <-). by apply Reads_visible. Qed.

(** *** The tokens of an element and of a text *)

Definition textOf (s : string) : list token := visibleTokens [Text s].
Definition el (name : string) (attrs : list (string * string)) (children : list token) : list token :=
  StartTag (mkTag name attrs) :: children ++ [EndTag name].

Lemma visible_start t l : visibleTokens (StartTag t :: l) = StartTag t :: visibleTokens l.
Proof. unfold visibleTokens. rewrite filter_cons_True; [done|discriminate]. Qed.
Lemma visible_end n l : visibleTokens (EndTag n :: l) = EndTag n :: visibleTokens l.
Proof. unfold visibleTokens. rewrite filter_cons_True; [done|discriminate]. Qed.
Lemma visible_empty l : visibleTokens (Text "" :: l) = visibleTokens l.
Proof. unfold visibleTokens. rewrite filter_cons_False; [done|]. intros H. by apply H. Qed.
Lemma visible_text s l : visibleTokens (Text s :: l) = textOf s ++ visibleTokens l.
Proof. unfold textOf. by rewrite <-visibleTokens_app. Qed.
Lemma visible_nil : visibleTokens [] = [].
Proof. done. Qed.
Lemma textOf_ne s : s ≠ "" → textOf s = [Text s].
Proof. intros H. unfold textOf, visibleTokens. rewrite filter_cons_True; [done|]. unfold emptyText. congruence. Qed.

Lemma strapp_assoc (a b c : string) : (a +:+ b) +:+ c = a +:+ b +:+ c.
Proof. apply s2l_inj. by rewrite !s2l_app, app_assoc. Qed.

(** Markup read into elements. *)
Ltac visible :=
  repeat first [rewrite visible_start | rewrite visible_end | rewrite visible_empty | rewrite visible_text | rewrite visible_nil];
  unfold el; rewrite ?app_nil_r; repeat progress (cbn [app]; rewrite <-?app_assoc); rewrite ?strapp_assoc; reflexivity.
