(* ===== verification/ConsolePage.v ===== *)
(** * [internal/web/static.go]: the page

    The markup of the console as the browser receives it, and the elements the
    script finds in it: every element with an [id], and the buttons marked
    [data-filter] and [data-sub-kind], with their content, classes and attributes. *)

From S2P Require Import Prelude GoStrings Html.

(** ** The markup *)

(** The login view. *)
Definition loginMarkup : string := markup "<main id='login' class='login-view'>
    <section class='login-form-side'>
      <div class='login-form-wrap'>
        <div class='login-brand'>
          <div class='app-mark' aria-hidden='true'></div>
          <div><h1>住宅出口控制台</h1><div class='brand-meta'>Residential IP Manager</div></div>
        </div>
        <div class='login-copy'>
          <h2>欢迎回来</h2>
          <p>使用配置文件中的凭据登录。</p>
        </div>
        <form id='loginForm'>
          <div class='field'><label for='username'>账号</label><input id='username' autocomplete='username' value='admin' /></div>
          <div class='field'><label for='password'>密码</label><input id='password' type='password' autocomplete='current-password' /></div>
          <button id='loginSubmit' class='primary login-submit' type='submit'>登录</button>
          <div id='loginError' class='form-error' role='alert'></div>
        </form>
      </div>
    </section>
    <section class='login-scene' aria-hidden='true'>
      <div class='scene-route'>
        <div class='scene-node'><span class='scene-dot'></span><span>本机应用</span></div>
        <div class='scene-node'><span class='scene-dot'></span><span>VMESS</span></div>
        <div class='scene-node'><span class='scene-dot'></span><span>VPNGate</span></div>
        <div class='scene-node'><span class='scene-dot'></span><span>公网出口</span></div>
      </div>
    </section>
  </main>".

(** The console: its top bar, *)
Definition topbarMarkup : string := markup "<main id='app' class='app-shell hidden'>
    <header class='topbar'>
      <div class='topbar-inner'>
        <div class='brand'>
          <div class='app-mark' aria-hidden='true'></div>
          <div><h1>住宅出口控制台</h1><div id='brandStatus' class='brand-meta'>正在读取服务状态</div></div>
        </div>
        <div class='toolbar' aria-label='主要操作'>
          <button id='connectBtn' class='primary'><span class='button-symbol'>↗</span><span class='button-label'>自动连接</span></button>
          <button id='envBtn' class='icon-button' title='运行环境' aria-label='运行环境'>ⓘ</button>
          <span class='toolbar-separator'></span>
          <button id='logoutBtn' class='quiet'><span class='button-symbol'>↪</span><span class='button-label'>退出</span></button>
        </div>
      </div>
    </header>".

(** the route of the traffic, *)
Definition routeMarkup : string := markup "<div class='content'>
      <section class='route-section' aria-labelledby='stateText'>
        <div class='route-head'>
          <div>
            <div class='state-line'><span id='stateLight' class='state-light'></span><span id='stateText' class='state-title'>准备就绪</span></div>
            <p id='messageText' class='route-message'>等待服务状态</p>
          </div>
          <div class='route-actions'>
            <span id='verificationState' class='badge'>尚未验证</span>
            <button id='verifyBtn' class='hidden'><span class='button-symbol'>✓</span>立即验证出口</button>
            <button id='disconnectBtn' class='danger hidden'>断开出口</button>
          </div>
        </div>
        <div class='route-panel'>
          <div id='pathLocal' class='route-step'>
            <span class='route-label'><span class='route-dot'></span>本机代理</span>
            <span id='localProxyValue' class='route-value'>127.0.0.1:1080</span>
            <span id='localProxyDetail' class='route-detail'>等待 VMESS 核心</span>
          </div>
          <div id='pathVMESS' class='route-step'>
            <span class='route-label'><span class='route-dot'></span>VMESS 服务</span>
            <span id='vmessValue' class='route-value'>端口 10086</span>
            <span id='vmessDetail' class='route-detail'>正在读取状态</span>
          </div>
          <div id='pathVPN' class='route-step'>
            <span class='route-label'><span class='route-dot'></span>VPNGate 隧道</span>
            <span id='activeNode' class='route-value'>未连接</span>
            <span id='tunnelDetail' class='route-detail'>等待选择节点</span>
          </div>
          <div id='pathExit' class='route-step'>
            <span class='route-label'><span class='route-dot'></span>公网出口</span>
            <span id='exitIP' class='route-value mono'>尚未验证</span>
            <span id='exitDetail' class='route-detail'>连接后显示出口地址</span>
          </div>
        </div>
      </section>".

(** the numbers, *)
Definition metricsMarkup : string := markup "<section class='metrics' aria-label='节点统计'>
        <div class='metric'><span class='metric-label'>节点总数</span><strong id='countNodes' class='metric-value'>0</strong></div>
        <div class='metric'><span class='metric-label'>当前可用</span><strong id='countAvailable' class='metric-value'>0</strong></div>
        <div class='metric'><span class='metric-label'>严格家宽</span><strong id='countStrict' class='metric-value'>0</strong></div>
        <div class='metric'><span class='metric-label'>候选节点</span><strong id='countCandidate' class='metric-value'>0</strong></div>
      </section>".

(** the table of nodes, *)
Definition nodesMarkup : string := markup "<section class='workspace'>
        <div class='panel'>
          <div class='panel-head'>
            <div class='panel-title'><h2>VPNGate 节点</h2><span id='visibleCount' class='panel-count'>0 个结果</span></div>
            <div class='panel-actions'>
              <div class='search-wrap'><input id='nodeSearch' class='search-input' type='search' placeholder='搜索国家、IP 或 ISP' aria-label='搜索节点' /></div>
              <button id='refreshBtn' class='icon-button' title='刷新节点' aria-label='刷新节点'>↻</button>
            </div>
          </div>
          <div class='node-tools'>
            <div id='nodeFilters' class='segmented' aria-label='节点筛选'>
              <button class='active' data-filter='all'>全部</button>
              <button data-filter='available'>可用</button>
              <button data-filter='strict_home'>严格家宽</button>
            </div>
            <div class='panel-actions'>
              <button id='classifyBtn' class='compact'>家宽判定</button>
              <button id='probeBtn' class='compact'>TCP 探活</button>
            </div>
          </div>
          <div id='nodeEmpty' class='empty-state hidden'><strong>暂无匹配节点</strong><span>刷新节点或调整筛选条件。</span></div>
          <div id='tableWrap' class='table-wrap'>
            <table>
              <thead><tr><th>地区</th><th>节点地址</th><th>ISP / ASN</th><th>连接耗时</th><th>纯度</th><th>状态</th><th></th></tr></thead>
              <tbody id='nodeRows'></tbody>
            </table>
          </div>
        </div>".

(** the subscription, the log and the notice. *)
Definition sideMarkup : string := markup "<aside class='side-stack'>
          <section class='panel'>
            <div class='panel-head'><h2>VMESS 订阅</h2><span id='subscriptionState' class='badge'>待解析</span></div>
            <div class='subscription-body'>
              <div><strong id='subscriptionHost'>自动选择地址</strong><div id='subMeta' class='micro'>正在读取订阅配置</div></div>
              <div id='subscriptionFormats' class='segmented subscription-format' aria-label='订阅格式'>
                <button class='active' data-sub-kind='quantumult-x'>Quantumult X</button>
                <button data-sub-kind='vmess'>通用 VMESS</button>
              </div>
              <div id='subscriptionURL' class='subscription-address mono'>-</div>
              <div class='subscription-actions'>
                <button id='copySubBtn' class='primary'>复制订阅地址</button>
                <a id='subLink' class='subscription-open' href='#' target='_blank' rel='noopener' title='打开订阅' aria-label='打开订阅'>↗</a>
              </div>
            </div>
          </section>
          <section class='panel'>
            <div class='panel-head'><h2>运行日志</h2><button id='reloadLogsBtn' class='quiet compact'>刷新</button></div>
            <div id='logs' class='logs'><div class='empty-state'><strong>暂无日志</strong></div></div>
          </section>
        </aside>
      </section>
      <footer class='legal-notice'>GNU GPL v3 开源软件 · 第三方许可见发布包与源代码</footer>
    </div>
  </main>".

(** The dialogs and the toasts. *)
Definition dialogsMarkup : string := markup "<dialog id='environmentDialog'>
    <div class='dialog-head'><h2>运行环境</h2><button class='quiet icon-button' data-close-dialog='environmentDialog' aria-label='关闭'>×</button></div>
    <div class='dialog-body'><div id='diagnosticList' class='diagnostic-list'></div></div>
    <div class='dialog-actions'>
      <button id='proxyToggleBtn'>停止 VMESS</button>
      <button class='primary' data-close-dialog='environmentDialog'>完成</button>
    </div>
  </dialog>

  <dialog id='confirmDialog'>
    <div class='dialog-head'><h2 id='confirmTitle'>确认操作</h2></div>
    <div class='dialog-body'><p id='confirmMessage' class='confirm-copy'></p></div>
    <div class='dialog-actions'><button id='confirmCancel'>取消</button><button id='confirmAccept' class='danger'>继续</button></div>
  </dialog>

  <div id='toasts' class='toast-region' aria-live='polite'></div>".

Definition bodyMarkup : string :=
  loginMarkup +:+ topbarMarkup +:+ routeMarkup +:+ metricsMarkup +:+ nodesMarkup +:+ sideMarkup +:+ dialogsMarkup.

(** ** Elements *)

(** What the script reads and writes of an element. *)
Record Elem := mkElem {
  eContent : list token;
  eClass : list string;
  eDisabled : bool;
  eValue : string;
  eHref : string
}.

Definition attr (t : Tag) (name : string) : option string := list_to_map (M := gmap string string) (tagAttrs t) !! name.
Definition classWords (s : string) : list string := filter (λ w, w ≠ "") (splitOn 32 s).

(** Elements without an end tag. *)
Definition isVoid (t : Tag) : bool := bool_decide (tagName t = "input").

(** The content of an element whose start tag has just been read: up to the end
    tag that closes it. *)
Fixpoint inner (depth : nat) (l : list token) : list token :=
  match l with
  | [] => []
  | StartTag t :: l => StartTag t :: inner (if isVoid t then depth else S depth) l
  | EndTag n :: l => match depth with O => [] | S depth => EndTag n :: inner depth l end
  | Text s :: l => Text s :: inner depth l
  end.

Definition elemOf (t : Tag) (rest : list token) : Elem :=
  mkElem (if isVoid t then [] else inner 0 rest) (classWords (default "" (attr t "class")))
    (bool_decide (is_Some (attr t "disabled"))) (default "" (attr t "value")) (default "" (attr t "href")).

(** The names an element goes by. *)
Definition filterKey (v : string) : string := "[data-filter]" +:+ v.
Definition kindKey (v : string) : string := "[data-sub-kind]" +:+ v.
Definition elemKeys (t : Tag) : list string :=
  option_list (attr t "id") ++ option_list (filterKey <$> attr t "data-filter")
  ++ option_list (kindKey <$> attr t "data-sub-kind").

Fixpoint elementList (l : list token) : list (string * Elem) :=
  match l with
  | [] => []
  | StartTag t :: l => ((λ k, (k, elemOf t l)) <$> elemKeys t) ++ elementList l
  | _ :: l => elementList l
  end.
Definition pageElements : list (string * Elem) := elementList (tokenize bodyMarkup).
Definition initialElements : gmap string Elem := list_to_map pageElements.

(** ** The page is well formed *)

(** Every end tag closes the element opened last. *)
Fixpoint nested (opened : list string) (l : list token) : bool :=
  match l with
  | [] => bool_decide (opened = [])
  | StartTag t :: l => nested (if isVoid t then opened else tagName t :: opened) l
  | EndTag n :: l => match opened with o :: opened => bool_decide (n = o) && nested opened l | [] => false end
  | Text _ :: l => nested opened l
  end.

Lemma page_nested : nested [] (tokenize bodyMarkup) = true.
Proof. vm_compute. reflexivity. Qed.

Lemma page_ids_distinct : NoDup (fst <$> pageElements).
Proof. decided. Qed.
