(* ===== verification/ConsoleView.v ===== *)
(** * [internal/web/static.go]: what the script shows

    The global variables of the script and the elements of the page are the
    record [Page]; a function of the script that draws is a function on it. The
    objects the script draws are the values the server encodes ([Server.Body]): a
    member is the field with that JSON tag; [x || d] on a string takes [d] for the
    empty string, which is also what an omitted member gives. Numbers are exact,
    as they are below 2^53. What belongs to the browser (its locale, its case
    tables, its URL parser, the members every object inherits) is the class
    [Browser]. *)

From S2P Require Import Prelude GoStrings GoNet GoCodec Domain Html ConsolePage.
From S2P Require Import Verify Config ProxyCore Subscription Tunnel Server.

(** ** The browser *)

(** The parts of a [URL] object; the path has the query and the fragment. *)
Record URL := mkURL { urlProtocol : string; urlHostname : string; urlPort : string; urlPath : string }.

Class Browser := {
  toLowerCase : string → string;
  toUpperCase : string → string;
  jsTrim : string → string;
  (** What [o[key]] gives, as text, if [o] has no such member itself. *)
  inherited : string → option string;
  (** [new Date(at).toLocaleTimeString(...)], [Intl.NumberFormat('zh-CN').format]. *)
  localeTime : Time → string;
  localeNumber : N → string;
  (** [new URL(path, window.location.href)], the host parser of its setter. *)
  newURL : string → URL;
  parseHostname : string → option string
}.

(** ** The page *)

(** A button of the table: the node it connects, and what [runAction] changes. *)
Record RowButton := mkRow { rowNode : string; rowDisabled : bool; rowContent : list token }.
Record Toast := mkToast { toastClass : list string; toastContent : list token }.

(** The globals, the elements, the rows drawn last (and how often rows were
    drawn), the toasts and the open dialogs, the topmost first. *)
Record Page := mkPage {
  pgNodes : list VpnNode;
  pgSnapshot : option ConnectionSnapshot;
  pgEnvironment : option (EnvironmentReport * ProxyCore.Status);
  proxyRunning : bool;
  nodeFilter : string;
  subscriptionURL : string;
  subscriptionKind : string;
  subscriptionURLs : gmap string string;
  loadingAll : bool;
  elements : gmap string Elem;
  rowsDrawn : nat;
  rows : list RowButton;
  toasts : list Toast;
  dialogs : list string
}.

Definition setPgNodes v p := mkPage v (pgSnapshot p) (pgEnvironment p) (proxyRunning p) (nodeFilter p) (subscriptionURL p) (subscriptionKind p) (subscriptionURLs p) (loadingAll p) (elements p) (rowsDrawn p) (rows p) (toasts p) (dialogs p).
Definition setPgSnapshot v p := mkPage (pgNodes p) v (pgEnvironment p) (proxyRunning p) (nodeFilter p) (subscriptionURL p) (subscriptionKind p) (subscriptionURLs p) (loadingAll p) (elements p) (rowsDrawn p) (rows p) (toasts p) (dialogs p).
Definition setPgEnvironment v p := mkPage (pgNodes p) (pgSnapshot p) v (proxyRunning p) (nodeFilter p) (subscriptionURL p) (subscriptionKind p) (subscriptionURLs p) (loadingAll p) (elements p) (rowsDrawn p) (rows p) (toasts p) (dialogs p).
Definition setProxyRunning v p := mkPage (pgNodes p) (pgSnapshot p) (pgEnvironment p) v (nodeFilter p) (subscriptionURL p) (subscriptionKind p) (subscriptionURLs p) (loadingAll p) (elements p) (rowsDrawn p) (rows p) (toasts p) (dialogs p).
Definition setNodeFilter v p := mkPage (pgNodes p) (pgSnapshot p) (pgEnvironment p) (proxyRunning p) v (subscriptionURL p) (subscriptionKind p) (subscriptionURLs p) (loadingAll p) (elements p) (rowsDrawn p) (rows p) (toasts p) (dialogs p).
Definition setSubscriptionChoice url kind p := mkPage (pgNodes p) (pgSnapshot p) (pgEnvironment p) (proxyRunning p) (nodeFilter p) url kind (subscriptionURLs p) (loadingAll p) (elements p) (rowsDrawn p) (rows p) (toasts p) (dialogs p).
Definition setSubscriptionURLs v p := mkPage (pgNodes p) (pgSnapshot p) (pgEnvironment p) (proxyRunning p) (nodeFilter p) (subscriptionURL p) (subscriptionKind p) v (loadingAll p) (elements p) (rowsDrawn p) (rows p) (toasts p) (dialogs p).
Definition setLoadingAll v p := mkPage (pgNodes p) (pgSnapshot p) (pgEnvironment p) (proxyRunning p) (nodeFilter p) (subscriptionURL p) (subscriptionKind p) (subscriptionURLs p) v (elements p) (rowsDrawn p) (rows p) (toasts p) (dialogs p).
Definition setElements v p := mkPage (pgNodes p) (pgSnapshot p) (pgEnvironment p) (proxyRunning p) (nodeFilter p) (subscriptionURL p) (subscriptionKind p) (subscriptionURLs p) (loadingAll p) v (rowsDrawn p) (rows p) (toasts p) (dialogs p).
Definition setRows drawn v p := mkPage (pgNodes p) (pgSnapshot p) (pgEnvironment p) (proxyRunning p) (nodeFilter p) (subscriptionURL p) (subscriptionKind p) (subscriptionURLs p) (loadingAll p) (elements p) drawn v (toasts p) (dialogs p).
Definition setToasts v p := mkPage (pgNodes p) (pgSnapshot p) (pgEnvironment p) (proxyRunning p) (nodeFilter p) (subscriptionURL p) (subscriptionKind p) (subscriptionURLs p) (loadingAll p) (elements p) (rowsDrawn p) (rows p) v (dialogs p).
Definition setDialogs v p := mkPage (pgNodes p) (pgSnapshot p) (pgEnvironment p) (proxyRunning p) (nodeFilter p) (subscriptionURL p) (subscriptionKind p) (subscriptionURLs p) (loadingAll p) (elements p) (rowsDrawn p) (rows p) (toasts p) v.

(** The page as the script starts. *)
Definition initialPage : Page :=
  mkPage [] None None false "all" "" "quantumult-x" ∅ false initialElements 0 [] [] [].

(** *** Elements

    [$ id]. Where the page has no such element the script would throw; here the
    element would be added, and [draw_keeps_ids] shows that none ever is. *)
Definition noElem : Elem := mkElem [] [] false "" "".
Definition elem (p : Page) (id : string) : Elem := default noElem (elements p !! id).
Definition onElem (id : string) (f : Elem → Elem) (p : Page) : Page :=
  setElements (<[id := f (elem p id)]> (elements p)) p.

Definition setContent (c : list token) (e : Elem) : Elem := mkElem c (eClass e) (eDisabled e) (eValue e) (eHref e).
Definition setClasses (c : list string) (e : Elem) : Elem := mkElem (eContent e) c (eDisabled e) (eValue e) (eHref e).
Definition setDisabled (b : bool) (e : Elem) : Elem := mkElem (eContent e) (eClass e) b (eValue e) (eHref e).
Definition setValue (v : string) (e : Elem) : Elem := mkElem (eContent e) (eClass e) (eDisabled e) v (eHref e).
Definition setHref (v : string) (e : Elem) : Elem := mkElem (eContent e) (eClass e) (eDisabled e) (eValue e) v.

(** [textContent =], [innerHTML =], [className =], [classList.toggle]. *)
Definition textContent (id s : string) : Page → Page := onElem id (setContent (visibleTokens [Text s])).
Definition innerHTML (id s : string) : Page → Page := onElem id (setContent (tokenize s)).
Definition className (id s : string) : Page → Page := onElem id (setClasses (classWords s)).
Definition toggled (c : string) (on : bool) (l : list string) : list string :=
  if on then (if bool_decide (c ∈ l) then l else l ++ [c]) else filter (λ x, x ≠ c) l.
Definition toggleClass (id c : string) (on : bool) : Page → Page :=
  onElem id (λ e, setClasses (toggled c on (eClass e)) e).
Definition disable (id : string) (b : bool) : Page → Page := onElem id (setDisabled b).

(** Statements, in order. *)
Definition andThen (f g : Page → Page) : Page → Page := λ p, g (f p).
Notation "f '>>' g" := (andThen f g) (at level 62, right associativity) : go_scope.

(** ** Labels *)

(** [a || b] on strings. *)
Definition jsOr (a b : string) : string := if bool_decide (a = "") then b else a.

Definition stateName (s : ConnectionState) : string :=
  match s with
  | StateIdle => "idle" | StateFetchingNodes => "fetching_nodes" | StateProbingNodes => "probing_nodes"
  | StateConnecting => "connecting" | StateVerifying => "verifying" | StateConnected => "connected"
  | StateFailingOver => "failing_over" | StateDisconnecting => "disconnecting" | StateError => "error"
  | StateOther s => s
  end.
Definition statusName (s : NodeStatus) : string :=
  match s with
  | NodeUnknown => "unknown" | NodeChecking => "checking" | NodeAvailable => "available"
  | NodeUnavailable => "unavailable" | NodeCooldown => "cooldown" | NodeOther s => s
  end.
Definition purityName (g : Purity) : string :=
  match g with
  | PurityRejected => "rejected" | PurityCandidate => "candidate" | PurityStrictHome => "strict_home"
  | PurityOther s => s
  end.

Definition stateLabels : list (string * string) :=
  [("idle", "准备就绪"); ("fetching_nodes", "正在刷新节点"); ("probing_nodes", "正在检测节点");
   ("connecting", "正在建立隧道"); ("verifying", "正在复核出口"); ("connected", "出口已连接");
   ("failing_over", "正在切换节点"); ("disconnecting", "正在断开"); ("error", "需要处理")].
Definition purityLabels : list (string * string) :=
  [("strict_home", "严格家宽"); ("candidate", "候选"); ("rejected", "已排除")].
Definition statusLabels : list (string * string) :=
  [("available", "可用"); ("unavailable", "不可用"); ("checking", "检测中"); ("cooldown", "冷却中"); ("unknown", "未知")].

Definition stateTone (state : string) : string :=
  if bool_decide (state = "connected") then "connected"
  else if bool_decide (state = "error") then "error"
  else if bool_decide (state ∈ ["fetching_nodes"; "probing_nodes"; "connecting"; "verifying"; "failing_over"; "disconnecting"])
  then "busy" else "".
Definition purityTone (value : string) : string :=
  if bool_decide (value = "strict_home") then "good"
  else if bool_decide (value = "candidate") then "info"
  else if bool_decide (value = "rejected") then "bad" else "".
Definition nodeStatusTone (value : string) : string :=
  if bool_decide (value = "available") then "good"
  else if bool_decide (value = "checking") then "info"
  else if bool_decide (value = "cooldown") then "warn"
  else if bool_decide (value = "unavailable") then "bad" else "".
Definition latencyTone (value : Z) : string :=
  if (value <? 180)%Z then "good" else if (450 <? value)%Z then "warn" else "".

(** [(n / unit).toFixed(1)]: the division is exact, a tie goes up. *)
Definition toFixed1 (n unit : N) : string :=
  let tenths := ((20 * n + unit) / (2 * unit))%N in
  itoa (Z.of_N (tenths / 10)) +:+ "." +:+ itoa (Z.of_N (tenths mod 10)).
Definition formatBytes (n : N) : string :=
  if (n <? 1024)%N then itoa (Z.of_N n) +:+ " B"
  else if (n <? 1048576)%N then toFixed1 n 1024 +:+ " KB"
  else if (n <? 1073741824)%N then toFixed1 n 1048576 +:+ " MB"
  else toFixed1 n 1073741824 +:+ " GB".

(** [list.filter(Boolean).join(' · ')] and the like. *)
Definition joinPresent (sep : string) (l : list string) : string := join sep (filter (λ s, s ≠ "") l).

Definition toast (message : string) (isError : bool) (p : Page) : Page :=
  setToasts (toasts p ++ [mkToast (classWords ("toast" +:+ (if isError then " error" else "")))
    (tokenize (markup "<span class='toast-mark'></span><span class='toast-text'>" +:+ escapeHtml message +:+ markup "</span>"))]) p.

Definition showApp (value : bool) : Page → Page :=
  toggleClass "login" "hidden" value >> toggleClass "app" "hidden" (negb value) >>
  (if value then id else onElem "password" (setValue "")).

(** ** Drawing *)

Section View.
Context {B : Browser}.

(** [table[key] || other]. *)
Definition label (table : list (string * string)) (key other : string) : string :=
  match list_to_map (M := gmap string string) table !! key with
  | Some text => text
  | None => default other (inherited key)
  end.

(** *** Status *)

Definition exitDetailText (snap : ConnectionSnapshot) : string :=
  let metadata := default ∅ (Metadata snap) in
  let country := default "" (metadata !! "exit_country") in
  if bool_decide (country = "") then "连接后显示出口地址"
  else joinPresent " · " [country; default "" (metadata !! "exit_asn")].

Definition busyStates : list string := ["fetching_nodes"; "probing_nodes"; "connecting"; "verifying"; "failing_over"].

Definition renderVerification (snap : ConnectionSnapshot) (state : string) : Page → Page :=
  match LastVerifiedAt snap with
  | Some at_ => textContent "verificationState" ("验证通过 · " +:+ localeTime at_) >> className "verificationState" "badge good"
  | None =>
      textContent "verificationState" (if bool_decide (state = "connected") then "等待出口验证" else "尚未验证") >>
      className "verificationState" "badge"
  end.

Definition renderCounts (c : Counts) : Page → Page :=
  textContent "countNodes" (itoa (cntNodes c)) >> textContent "countAvailable" (itoa (cntAvailable c)) >>
  textContent "countStrict" (itoa (cntStrictHome c)) >> textContent "countCandidate" (itoa (cntCandidate c)).

Definition renderStatus (snap : ConnectionSnapshot) (c : Counts) : Page → Page :=
  let state := jsOr (stateName (State snap)) "idle" in
  let connected := bool_decide (state = "connected") in
  textContent "stateText" (label stateLabels state state) >>
  textContent "messageText" (jsOr (Message snap) "等待操作") >>
  textContent "brandStatus" (if connected then "VPNGate 出口在线" else label stateLabels state "服务运行中") >>
  className "stateLight" ("state-light " +:+ stateTone state) >>
  textContent "activeNode" (jsOr (ActiveNodeID snap) "未连接") >>
  textContent "exitIP" (jsOr (ExitIP snap) "尚未验证") >>
  textContent "exitDetail" (exitDetailText snap) >>
  toggleClass "disconnectBtn" "hidden" (negb connected) >>
  toggleClass "verifyBtn" "hidden" (negb connected) >>
  disable "connectBtn" (bool_decide (state ∈ busyStates)) >>
  disable "verifyBtn" (negb connected) >>
  renderVerification snap state >>
  renderCounts c.

Definition renderProxy (proxy : ProxyCore.Status) : Page → Page :=
  let running := stRunning proxy in
  setProxyRunning running >>
  toggleClass "pathLocal" "active" (running && negb (bool_decide (stLocalSOCKS proxy = ""))) >>
  toggleClass "pathVMESS" "active" running >>
  textContent "localProxyValue" (jsOr (stLocalSOCKS proxy) "127.0.0.1:1080") >>
  textContent "localProxyDetail" (if running then "SOCKS5 已就绪" else "代理服务未运行") >>
  textContent "vmessDetail" (if running then "VMESS 入站已就绪" else jsOr (stMessage proxy) "服务未运行") >>
  textContent "proxyToggleBtn" (if running then "停止 VMESS" else "启动 VMESS") >>
  toggleClass "proxyToggleBtn" "danger" running.

(** *** Environment *)

Definition tunnelDetailText (vpn : EnvironmentReport) : string :=
  if Running vpn then jsOr (LocalIP vpn) "隧道在线" +:+ " · " +:+ formatBytes (BytesIn vpn) +:+ " 下行"
  else jsOr (envMessage vpn) "等待选择节点".

Definition diagnosticRows (vpn : EnvironmentReport) (proxy : ProxyCore.Status) : list (string * string) :=
  [("OpenVPN 引擎", jsOr (Engine vpn) "内嵌协议引擎");
   ("隧道状态", if Running vpn then "已连接" else if Connecting vpn then "连接中" else "未连接");
   ("隧道地址", jsOr (LocalIP vpn) "-");
   ("VPNGate 网关", jsOr (Gateway vpn) "-");
   ("收发数据包", localeNumber (PacketsIn vpn) +:+ " / " +:+ localeNumber (PacketsOut vpn));
   ("收发流量", formatBytes (BytesIn vpn) +:+ " / " +:+ formatBytes (BytesOut vpn));
   ("VMESS 服务", if stRunning proxy then "运行中" else "未运行");
   ("本机 SOCKS", jsOr (stLocalSOCKS proxy) "-");
   ("系统权限", jsOr (PrivilegeHint vpn) "无需额外权限")].

Definition diagnosticMarkup (row : string * string) : string :=
  markup "<div class='diagnostic-row'><span>" +:+ escapeHtml row.1 +:+ markup "</span><span class='mono'>" +:+
  escapeHtml row.2 +:+ markup "</span></div>".

Definition renderEnvironment (vpn : EnvironmentReport) (proxy : ProxyCore.Status) : Page → Page := λ p,
  (toggleClass "pathVPN" "active" (Running vpn) >>
   toggleClass "pathExit" "active" (match pgSnapshot p with Some s => negb (bool_decide (ExitIP s = "")) | None => false end) >>
   textContent "tunnelDetail" (tunnelDetailText vpn) >>
   innerHTML "diagnosticList" (join "" (diagnosticMarkup <$> diagnosticRows vpn proxy))) p.

(** *** Nodes *)

Definition searchText (node : VpnNode) : string :=
  toLowerCase (joinPresent " " [Country node; CountryCode node; NodeIP node; ISP node; ASN node; City node]).
Definition nodeVisible (filter query : string) (node : VpnNode) : bool :=
  if bool_decide (filter = "available") && negb (bool_decide (statusName (Domain.Status node) = "available")) then false
  else if bool_decide (filter = "strict_home") && negb (bool_decide (purityName (PurityGrade node) = "strict_home")) then false
  else if bool_decide (query = "") then true
  else contains (searchText node) query.
Definition filteredNodes (p : Page) : list VpnNode :=
  let query := toLowerCase (jsTrim (eValue (elem p "nodeSearch"))) in
  filter (λ node, nodeVisible (nodeFilter p) query node = true) (pgNodes p).

Record LatencyView := mkLatency { lvValue : string; lvDetail : string; lvTone : string }.
Definition latencyView (node : VpnNode) : LatencyView :=
  let samples := if bool_decide (ProbeAttempts node = 0%Z) then "未采样"
                 else itoa (ProbeSuccesses node) +:+ "/" +:+ itoa (ProbeAttempts node) +:+ " 次" in
  if negb (bool_decide (toLowerCase (Protocol node) = "tcp")) then mkLatency "不适用" "UDP" ""
  else if LatencySuspicious node then mkLatency "待复测" (samples +:+ " · 疑似本机接管") "warn"
  else match LatencyMS node with
       | Some ms => mkLatency (itoa ms +:+ " ms") (samples +:+ " · TCP 中位数") (latencyTone ms)
       | None =>
           if (0 <? AdvertisedPingMS node)%Z then mkLatency (itoa (AdvertisedPingMS node) +:+ " ms") "VPNGate 参考值" ""
           else mkLatency "-" samples ""
       end.

Definition rowActive (p : Page) (node : VpnNode) : bool :=
  match pgSnapshot p with Some s => bool_decide (ActiveNodeID s = ID node) && negb (bool_decide (ID node = "")) | None => false end.

Definition rowMarkup (active : bool) (node : VpnNode) : string :=
  let latency := latencyView node in
  let isp := jsOr (joinPresent " · " [ISP node; ASN node]) "-" in
  join "" [
    markup "<tr class='" +:+ (if active then "active-row" else "") +:+ markup "'>";
    markup "<td><div class='country-cell'><span class='country-code'>" +:+ escapeHtml (jsOr (CountryCode node) "--") +:+
      "</span><span>" +:+ escapeHtml (jsOr (Country node) (jsOr (City node) "未知")) +:+ "</span></div></td>";
    markup "<td><div class='ip-cell'>" +:+ escapeHtml (NodeIP node) +:+ ":" +:+ escapeHtml (itoa (RemotePort node)) +:+
      markup "</div><div class='micro'>" +:+ escapeHtml (toUpperCase (Protocol node)) +:+ "</div></td>";
    markup "<td class='isp-cell' title='" +:+ escapeHtml isp +:+ markup "'>" +:+ escapeHtml isp +:+ "</td>";
    markup "<td><div class='latency-cell' title='" +:+ escapeHtml (LastError node) +:+ markup "'><span class='latency " +:+
      lvTone latency +:+ markup "'>" +:+ escapeHtml (lvValue latency) +:+ markup "</span><span class='micro'>" +:+
      escapeHtml (lvDetail latency) +:+ "</span></div></td>";
    markup "<td><span class='badge " +:+ purityTone (purityName (PurityGrade node)) +:+ markup "'>" +:+
      escapeHtml (label purityLabels (purityName (PurityGrade node)) (jsOr (purityName (PurityGrade node)) "未判定")) +:+ "</span></td>";
    markup "<td><span class='badge " +:+ nodeStatusTone (statusName (Domain.Status node)) +:+ markup "'>" +:+
      escapeHtml (label statusLabels (statusName (Domain.Status node)) (jsOr (statusName (Domain.Status node)) "未知")) +:+ "</span></td>";
    markup "<td><button class='compact " +:+ (if active then "primary" else "") +:+ markup "' data-node='" +:+
      escapeHtml (ID node) +:+ markup "' " +:+ (if active then "disabled" else "") +:+ ">" +:+
      (if active then "当前" else "连接") +:+ "</button></td>";
    "</tr>"].

(** [document.querySelectorAll('[data-node]')]. *)
Fixpoint nodeButtons (l : list token) : list RowButton :=
  match l with
  | [] => []
  | StartTag t :: l =>
      match attr t "data-node" with
      | Some node => [mkRow node (bool_decide (is_Some (attr t "disabled"))) (inner 0 l)]
      | None => []
      end ++ nodeButtons l
  | _ :: l => nodeButtons l
  end.

Definition renderNodes (p : Page) : Page :=
  let visible := filteredNodes p in
  let none := bool_decide (visible = []) in
  let p := (textContent "visibleCount" (itoa (Z.of_nat (length visible)) +:+ " 个结果") >>
            toggleClass "nodeEmpty" "hidden" (negb none) >>
            toggleClass "tableWrap" "hidden" none >>
            innerHTML "nodeRows" (join "" ((λ node, rowMarkup (rowActive p node) node) <$> visible))) p in
  setRows (S (rowsDrawn p)) (nodeButtons (eContent (elem p "nodeRows"))) p.

(** *** The log *)

Definition logMarkup (item : LogEntry) : string :=
  let level := toLowerCase (jsOr (Level item) "info") in
  markup "<div class='log'><span class='log-time'>" +:+ escapeHtml (localeTime (At item)) +:+ markup "</span>" +:+
  markup "<span class='log-dot " +:+ escapeHtml level +:+ markup "'></span><span class='log-message'>" +:+
  escapeHtml (LogMessage item) +:+ markup "</span></div>".

Definition renderLogs (logs : list LogEntry) : Page → Page :=
  match logs with
  | [] => innerHTML "logs" (markup "<div class='empty-state'><strong>暂无日志</strong><span>服务事件会显示在这里。</span></div>")
  | _ => innerHTML "logs" (join "" (logMarkup <$> reverse logs))
  end.

(** *** Subscriptions *)

Record Preview := mkPreview {
  pvVmessURL : string; pvQuantumultURL : string; pvHost : string; pvResolved : string;
  pvServerListen : string; pvListen : string
}.

(** Setters of a [URL] object: an unusable value changes nothing, the default port
    of the scheme is left out. *)
Definition defaultPort (protocol : string) : Z :=
  if bool_decide (protocol = "http:") then 80 else if bool_decide (protocol = "https:") then 443 else 0.
Definition setURLHostname (h : string) (u : URL) : URL :=
  match parseHostname h with Some h => mkURL (urlProtocol u) h (urlPort u) (urlPath u) | None => u end.
Definition setURLPort (port : bytes) (u : URL) : URL :=
  match digits 0 port with
  | Some n =>
      if (65535 <? n)%Z then u
      else mkURL (urlProtocol u) (urlHostname u) (if bool_decide (n = defaultPort (urlProtocol u)) then "" else itoa n) (urlPath u)
  | None => u
  end.
Definition urlHref (u : URL) : string :=
  urlProtocol u +:+ "//" +:+ urlHostname u +:+ (if bool_decide (urlPort u = "") then "" else ":" +:+ urlPort u) +:+ urlPath u.

(** The digits of [/:(\d+)$/]. *)
Definition portMatch (listen : string) : option bytes :=
  let tail := dropWhileb isDigitByte (reverse (s2l listen)) in
  let port := reverse (take (length (s2l listen) - length tail) (reverse (s2l listen))) in
  match port, tail with
  | _ :: _, c :: _ => if (code c =? 58)%N then Some port else None
  | _, _ => None
  end.

Definition listenOf (preview : Preview) : string := jsOr (pvListen preview) (pvServerListen preview).
Definition loopbackHosts : list string := ["127.0.0.1"; "localhost"; "::1"].

Definition subscriptionTarget (path : string) (preview : Preview) : URL :=
  let url := newURL path in
  let currentIsLoopback := bool_decide (urlHostname url ∈ loopbackHosts) in
  let listen := listenOf preview in
  let listensExternally := hasPrefix listen "0.0.0.0:" || hasPrefix listen "[::]:" || hasPrefix listen ":" in
  let url := if currentIsLoopback && listensExternally && negb (bool_decide (pvResolved preview = ""))
             then setURLHostname (pvResolved preview) url else url in
  match portMatch listen with Some port => setURLPort port url | None => url end.
Definition subscriptionAddress (path : string) (preview : Preview) : string := urlHref (subscriptionTarget path preview).

Definition selectSubscription (kind : string) : Page → Page := λ p,
  let url := default "" (subscriptionURLs p !! kind) in
  (setSubscriptionChoice url kind >>
   textContent "subscriptionURL" (jsOr url "-") >>
   onElem "subLink" (setHref (jsOr url "#")) >>
   textContent "copySubBtn" (if bool_decide (kind = "quantumult-x") then "复制 Quantumult X 订阅" else "复制 VMESS 订阅") >>
   toggleClass (kindKey "quantumult-x") "active" (bool_decide (kind = "quantumult-x")) >>
   toggleClass (kindKey "vmess") "active" (bool_decide (kind = "vmess"))) p.

Definition renderSubscription (preview : Preview) : Page → Page := λ p,
  let listen := listenOf preview in
  let external := hasPrefix listen "0.0.0.0:" || hasPrefix listen "[::]:" in
  (setSubscriptionURLs (<["quantumult-x" := subscriptionAddress (pvQuantumultURL preview) preview]>
                        {[ "vmess" := subscriptionAddress (pvVmessURL preview) preview ]}) >>
   selectSubscription (subscriptionKind p) >>
   textContent "subscriptionHost" (jsOr (pvResolved preview) (jsOr (pvHost preview) "自动选择地址")) >>
   textContent "subMeta" (if external then "局域网客户端可获取订阅" else "仅本机可获取订阅；手机需要开启局域网监听") >>
   textContent "subscriptionState" "可用" >>
   className "subscriptionState" "badge good") p.

(** A click on a filter button. *)
Definition selectFilter (v : string) : Page → Page :=
  setNodeFilter v >>
  toggleClass (filterKey "all") "active" (bool_decide (v = "all")) >>
  toggleClass (filterKey "available") "active" (bool_decide (v = "available")) >>
  toggleClass (filterKey "strict_home") "active" (bool_decide (v = "strict_home")) >>
  renderNodes.

(** A key in the search field. *)
Definition search (query : string) : Page → Page := onElem "nodeSearch" (setValue query) >> renderNodes.
End View.
