(* ===== verification/ConsoleProps.v ===== *)
(** * [internal/web/static.go]: what the console shows is what it was given

    The markup the script writes is read by the browser as the elements it is
    meant to be, whatever the data: names, addresses, errors and messages come from
    VPNGate, from ip-api.com and from the log. *)

From S2P Require Import Prelude GoStrings GoNet GoCodec Domain Html ConsolePage.
From S2P Require Import Verify Config ProxyCore Subscription Tunnel Server ConsoleView.

Section Props.
Context {B : Browser}.

(** ** Markup *)

(** One row of the diagnostic list, one line of the log, one toast. *)
Definition diagnosticTokens (row : string * string) : list token :=
  el "div" [("class", "diagnostic-row")]
    (el "span" [] (textOf row.1) ++ el "span" [("class", "mono")] (textOf row.2)).
Definition logTokens (item : LogEntry) : list token :=
  el "div" [("class", "log")]
    (el "span" [("class", "log-time")] (textOf (localeTime (At item))) ++
     el "span" [("class", "log-dot " +:+ toLowerCase (jsOr (Level item) "info"))] [] ++
     el "span" [("class", "log-message")] (textOf (LogMessage item))).
Definition toastTokens (message : string) : list token :=
  el "span" [("class", "toast-mark")] [] ++ el "span" [("class", "toast-text")] (textOf message).

Lemma diagnostic_reads row : ReadsAs (diagnosticMarkup row) (diagnosticTokens row).
Proof.
  destruct row as [x y]. unfold diagnosticMarkup, diagnosticTokens. cbn [fst snd].
  eexists. split; [reads|visible].
Qed.

Lemma log_reads item : ReadsAs (logMarkup item) (logTokens item).
Proof.
  unfold logMarkup, logTokens. generalize (localeTime (At item)) as time.
  generalize (toLowerCase (jsOr (Level item) "info")) as level. generalize (LogMessage item) as message.
  intros message level time. eexists. split; [reads|visible].
Qed.

Lemma toast_reads message :
  ReadsAs (markup "<span class='toast-mark'></span><span class='toast-text'>" +:+ escapeHtml message +:+ markup "</span>")
    (toastTokens message).
Proof. unfold toastTokens. eexists. split; [reads|visible]. Qed.

(** The row of a node. *)
Definition rowTokens (active : bool) (node : VpnNode) : list token :=
  let latency := latencyView node in
  let isp := jsOr (joinPresent " · " [ISP node; ASN node]) "-" in
  let grade := purityName (PurityGrade node) in
  let status := statusName (Domain.Status node) in
  el "tr" [("class", if active then "active-row" else "")]
   (el "td" [] (el "div" [("class", "country-cell")]
      (el "span" [("class", "country-code")] (textOf (jsOr (CountryCode node) "--")) ++
       el "span" [] (textOf (jsOr (Country node) (jsOr (City node) "未知"))))) ++
    el "td" [] (el "div" [("class", "ip-cell")] (textOf (NodeIP node +:+ ":" +:+ itoa (RemotePort node))) ++
                el "div" [("class", "micro")] (textOf (toUpperCase (Protocol node)))) ++
    el "td" [("class", "isp-cell"); ("title", isp)] (textOf isp) ++
    el "td" [] (el "div" [("class", "latency-cell"); ("title", LastError node)]
      (el "span" [("class", "latency " +:+ lvTone latency)] (textOf (lvValue latency)) ++
       el "span" [("class", "micro")] (textOf (lvDetail latency)))) ++
    el "td" [] (el "span" [("class", "badge " +:+ purityTone grade)] (textOf (label purityLabels grade (jsOr grade "未判定")))) ++
    el "td" [] (el "span" [("class", "badge " +:+ nodeStatusTone status)] (textOf (label statusLabels status (jsOr status "未知")))) ++
    el "td" [] (el "button" ([("class", if active then "compact primary" else "compact "); ("data-node", ID node)] ++
                             (if active then [("disabled", "")] else []))
                  (textOf (if active then "当前" else "连接")))).

Lemma plain_tones :
  (∀ node, plain (lvTone (latencyView node))) ∧ (∀ g, plain (purityTone g)) ∧ (∀ s, plain (nodeStatusTone s)).
Proof.
  assert (∀ s, s ∈ ["good"; "warn"; "info"; "bad"; ""] → plain s) as H.
  { apply Forall_forall. repeat constructor. }
  assert (∀ z, plain (latencyTone z)) as Hl by (intros z; unfold latencyTone; repeat case_goal; apply H; decided).
  split; [|split]; intros x.
  - unfold latencyView. repeat case_goal; cbn [lvTone]; try apply Hl; apply H; decided.
  - unfold purityTone. repeat case_goal; apply H; decided.
  - unfold nodeStatusTone. repeat case_goal; apply H; decided.
Qed.

Lemma row_reads active node : ReadsAs (rowMarkup active node) (rowTokens active node).
Proof.
  destruct plain_tones as (Hl & Hp & Hs). specialize (Hl node).
  specialize (Hp (purityName (PurityGrade node))). specialize (Hs (statusName (Domain.Status node))).
  unfold rowMarkup, rowTokens. revert Hl Hp Hs.
  generalize (lvTone (latencyView node)) as tone, (lvValue (latencyView node)) as value,
    (lvDetail (latencyView node)) as detail, (jsOr (joinPresent " · " [ISP node; ASN node]) "-") as isp,
    (label purityLabels (purityName (PurityGrade node)) (jsOr (purityName (PurityGrade node)) "未判定")) as grade,
    (purityTone (purityName (PurityGrade node))) as gradeTone,
    (label statusLabels (statusName (Domain.Status node)) (jsOr (statusName (Domain.Status node)) "未知")) as status,
    (nodeStatusTone (statusName (Domain.Status node))) as statusTone,
    (jsOr (CountryCode node) "--") as code, (jsOr (Country node) (jsOr (City node) "未知")) as country,
    (toUpperCase (Protocol node)) as protocol, (itoa (RemotePort node)) as port, (NodeIP node) as ip,
    (LastError node) as error, (ID node) as nodeID.
  intros. cbn [join]. destruct active; (eexists; split; [reads|visible]).
Qed.

(** ** Reading the table *)

Lemma nodeButtons_text s l : nodeButtons (textOf s ++ l) = nodeButtons l.
Proof. destruct (decide (s = "")) as [->|]; [done|by rewrite textOf_ne]. Qed.

Lemma nodeButtons_end n l : nodeButtons (EndTag n :: l) = nodeButtons l.
Proof. done. Qed.
Lemma nodeButtons_start t l : attr t "data-node" = None → nodeButtons (StartTag t :: l) = nodeButtons l.
Proof. intros H. cbn. by rewrite H. Qed.

(** The button a row should have. *)
Definition rowButton (active : bool) (node : VpnNode) : RowButton :=
  mkRow (ID node) active [Text (if active then "当前" else "连接")].

Lemma nodeButtons_row active node l :
  nodeButtons (rowTokens active node ++ l) = rowButton active node :: nodeButtons l.
Proof.
  unfold rowTokens, el. repeat progress (cbn [app]; rewrite <-?app_assoc).
  repeat first [rewrite nodeButtons_text | rewrite nodeButtons_end | rewrite nodeButtons_start by reflexivity].
  by destruct active.
Qed.

Lemma nodeButtons_rows (active : VpnNode → bool) ns :
  nodeButtons (ns ≫= λ node, rowTokens (active node) node) = (λ node, rowButton (active node) node) <$> ns.
Proof.
  induction ns as [|n ns IH]; [reflexivity|].
  rewrite bind_cons, fmap_cons. cbv beta. rewrite nodeButtons_row. f_equal. exact IH.
Qed.

(** ** Elements *)

Lemma elem_onElem id f p : elem (onElem id f p) id = f (elem p id).
Proof. unfold elem at 1, onElem. cbn [elements setElements]. by rewrite lookup_insert_eq. Qed.
Lemma elem_onElem_ne id id' f p : id ≠ id' → elem (onElem id f p) id' = elem p id'.
Proof. intros H. unfold elem, onElem. cbn [elements setElements]. by rewrite lookup_insert_ne. Qed.
Lemma elem_setLoadingAll v p id : elem (setLoadingAll v p) id = elem p id.
Proof. done. Qed.
Lemma elem_setDialogs d p id : elem (setDialogs d p) id = elem p id.
Proof. done. Qed.
Lemma elem_setRows g r p id : elem (setRows g r p) id = elem p id.
Proof. done. Qed.
End Props.

(** *** The script writes only to elements the page has *)

Definition hasIds (p : Page) : Prop := dom (elements p) = dom initialElements.
Definition pageIds : list string := Eval vm_compute in (fst <$> pageElements).
Lemma pageIds_eq : pageIds = fst <$> pageElements.
Proof. vm_compute. reflexivity. Qed.

Lemma hasIds_onElem id f p : id ∈ pageIds → hasIds p → hasIds (onElem id f p).
Proof.
  rewrite pageIds_eq. unfold hasIds, onElem, initialElements. cbn [elements setElements].
  generalize pageElements as l. intros l Hid Hp. rewrite dom_insert_L, Hp, dom_list_to_map_L.
  apply subseteq_union_1_L, singleton_subseteq_l. by apply (elem_of_list_to_set (C := gset string)).
Qed.

(** A function that leaves the set of elements as it is. *)
Definition keepsIds (f : Page → Page) : Prop := ∀ p, hasIds p → hasIds (f p).
Create HintDb console discriminated.
Lemma keeps_id : keepsIds id.
Proof. by intros p. Qed.
Lemma keeps_andThen f g : keepsIds f → keepsIds g → keepsIds (f >> g).
Proof. intros Hf Hg p Hp. by apply Hg, Hf. Qed.
Lemma keeps_onElem id f : id ∈ pageIds → keepsIds (onElem id f).
Proof. intros H p. by apply hasIds_onElem. Qed.
Lemma keeps_at (f : Page → Page) p : keepsIds f → hasIds p → hasIds (f p).
Proof. auto. Qed.
Lemma keeps_if (b : bool) f g : keepsIds f → keepsIds g → keepsIds (if b then f else g).
Proof. by destruct b. Qed.
Lemma keeps_globals f : (∀ p, elements (f p) = elements p) → keepsIds f.
Proof. intros H p Hp. unfold hasIds. by rewrite H. Qed.
#[export] Hint Resolve keeps_id keeps_andThen keeps_onElem keeps_if : console.
#[export] Hint Extern 1 (_ ∈ pageIds) => decided : console.
#[export] Hint Extern 2 (keepsIds _) => (apply keeps_globals; reflexivity) : console.
#[export] Hint Unfold textContent innerHTML className toggleClass disable : console.

Ltac keeping := unfold textContent, innerHTML, className, toggleClass, disable; auto 30 with console.

Section Keeps.
Context {B : Browser}.
Lemma keeps_showApp v : keepsIds (showApp v).
Proof. unfold showApp. keeping. Qed.
Lemma keeps_toast m e : keepsIds (toast m e).
Proof. apply keeps_globals. reflexivity. Qed.
Lemma keeps_renderStatus snap c : keepsIds (renderStatus snap c).
Proof. unfold renderStatus, renderVerification, renderCounts. destruct (LastVerifiedAt snap); keeping. Qed.
Lemma keeps_renderProxy proxy : keepsIds (renderProxy proxy).
Proof. unfold renderProxy. keeping. Qed.
Lemma keeps_renderEnvironment vpn proxy : keepsIds (renderEnvironment vpn proxy).
Proof. intros p Hp. unfold renderEnvironment. apply keeps_at; [keeping|done]. Qed.
Lemma keeps_renderNodes : keepsIds renderNodes.
Proof.
  intros p Hp. unfold renderNodes. unfold hasIds. cbn [elements setRows].
  change (hasIds ((textContent "visibleCount" (itoa (Z.of_nat (length (filteredNodes p))) +:+ " 个结果") >>
    toggleClass "nodeEmpty" "hidden" (negb (bool_decide (filteredNodes p = []))) >>
    toggleClass "tableWrap" "hidden" (bool_decide (filteredNodes p = [])) >>
    innerHTML "nodeRows" (join "" ((λ node, rowMarkup (rowActive p node) node) <$> filteredNodes p))) p)).
  apply keeps_at; [keeping|done].
Qed.
Lemma keeps_renderLogs l : keepsIds (renderLogs l).
Proof. unfold renderLogs. destruct l; keeping. Qed.
Lemma keeps_selectSubscription k : keepsIds (selectSubscription k).
Proof. intros p Hp. unfold selectSubscription. apply keeps_at; [keeping|done]. Qed.
Lemma keeps_renderSubscription pv : keepsIds (renderSubscription pv).
Proof. intros p Hp. unfold renderSubscription. apply keeps_at; [pose proof keeps_selectSubscription; keeping|done]. Qed.
Lemma keeps_selectFilter v : keepsIds (selectFilter v).
Proof. pose proof keeps_renderNodes. unfold selectFilter. keeping. Qed.
Lemma keeps_search q : keepsIds (search q).
Proof. pose proof keeps_renderNodes. unfold search. keeping. Qed.
End Keeps.
#[export] Hint Resolve keeps_showApp keeps_toast keeps_renderStatus keeps_renderProxy keeps_renderEnvironment
  keeps_renderNodes keeps_renderLogs keeps_selectSubscription keeps_renderSubscription keeps_selectFilter keeps_search : console.

(** *** Which elements a function writes to *)

Definition writes (f : Page → Page) (ids : list string) : Prop :=
  ∀ p id, id ∉ ids → elem (f p) id = elem p id.
Lemma writes_onElem id f : writes (onElem id f) [id].
Proof. intros p id' H. apply elem_onElem_ne. intros ->. apply H. by left. Qed.
Lemma writes_andThen f g l l' : writes f l → writes g l' → writes (f >> g) (l ++ l').
Proof. intros Hf Hg p id [H1 H2]%not_elem_of_app. unfold andThen. by rewrite Hg, Hf. Qed.
Lemma writes_globals f : (∀ p, elements (f p) = elements p) → writes f [].
Proof. intros H p id _. unfold elem. by rewrite H. Qed.
Lemma writes_if (b : bool) f g l l' : writes f l → writes g l' → writes (if b then f else g) (l ++ l').
Proof. intros Hf Hg p id [H1 H2]%not_elem_of_app. destruct b; auto. Qed.

Lemma writes_sub f l l' : writes f l → Forall (λ x, x ∈ l') l → writes f l'.
Proof.
  intros Hf Hl p id Hid. apply Hf. intros Hin. apply Hid. rewrite Forall_forall in Hl. by apply Hl.
Qed.
Lemma writes_at f l (p : Page) : writes f l → ∀ id, id ∉ l → elem (f p) id = elem p id.
Proof. auto. Qed.

Ltac writing :=
  unfold textContent, innerHTML, className, toggleClass, disable;
  eapply writes_sub;
  [repeat first [apply writes_onElem | eapply writes_andThen | (apply writes_globals; reflexivity) | eassumption]
  |decided].

Section Writes.
Context {B : Browser}.

Definition statusIds : list string :=
  ["stateText"; "messageText"; "brandStatus"; "stateLight"; "activeNode"; "exitIP"; "exitDetail"; "disconnectBtn"; "verifyBtn";
   "connectBtn"; "verificationState"; "countNodes"; "countAvailable"; "countStrict"; "countCandidate"].
Lemma writes_renderStatus snap c : writes (renderStatus snap c) statusIds.
Proof. unfold renderStatus, renderVerification, renderCounts. destruct (LastVerifiedAt snap); writing. Qed.
Definition proxyIds : list string :=
  ["pathLocal"; "pathVMESS"; "localProxyValue"; "localProxyDetail"; "vmessDetail"; "proxyToggleBtn"].
Lemma writes_renderProxy st : writes (renderProxy st) proxyIds.
Proof. unfold renderProxy. writing. Qed.
Definition environmentIds : list string := ["pathVPN"; "pathExit"; "tunnelDetail"; "diagnosticList"].
Lemma writes_renderEnvironment vpn st : writes (renderEnvironment vpn st) environmentIds.
Proof. intros p. unfold renderEnvironment. apply writes_at. writing. Qed.
Definition nodesIds : list string := ["visibleCount"; "nodeEmpty"; "tableWrap"; "nodeRows"].
Lemma writes_renderNodes : writes renderNodes nodesIds.
Proof.
  intros p id Hid. unfold renderNodes. rewrite elem_setRows. revert id Hid.
  generalize (filteredNodes p) as ns, (rowActive p) as active. intros ns active. apply writes_at. writing.
Qed.
Lemma writes_renderLogs l : writes (renderLogs l) ["logs"].
Proof. destruct l; apply writes_onElem. Qed.
Definition subscriptionIds : list string :=
  ["subscriptionURL"; "subLink"; "copySubBtn"; kindKey "quantumult-x"; kindKey "vmess"; "subscriptionHost"; "subMeta";
   "subscriptionState"].
Lemma writes_selectSubscription kind : writes (selectSubscription kind) subscriptionIds.
Proof. intros p. unfold selectSubscription. apply writes_at. writing. Qed.
Lemma writes_renderSubscription pv : writes (renderSubscription pv) subscriptionIds.
Proof.
  intros p. unfold renderSubscription. apply writes_at. generalize (subscriptionKind p) as kind. intros kind.
  pose proof (writes_selectSubscription kind). writing.
Qed.
Lemma writes_showApp v : writes (showApp v) ["login"; "app"; "password"].
Proof. unfold showApp. destruct v; writing. Qed.
End Writes.

(** *** What the status functions show *)

Lemma elem_onElem_if id id' f p : elem (onElem id f p) id' = if String.eqb id id' then f (elem p id') else elem p id'.
Proof.
  destruct (String.eqb_spec id id') as [->|H]; [apply elem_onElem|by apply elem_onElem_ne].
Qed.
Ltac look := repeat (rewrite elem_onElem_if; cbn [String.eqb Ascii.eqb Bool.eqb]).

Section Shows.
Context {B : Browser}.
Lemma renderStatus_shows snap c p :
  let state := jsOr (stateName (State snap)) "idle" in
  let q := renderStatus snap c p in
  eContent (elem q "stateText") = textOf (label stateLabels state state) ∧
  eContent (elem q "activeNode") = textOf (jsOr (ActiveNodeID snap) "未连接") ∧
  eContent (elem q "exitIP") = textOf (jsOr (ExitIP snap) "尚未验证") ∧
  eDisabled (elem q "connectBtn") = bool_decide (state ∈ busyStates) ∧
  eDisabled (elem q "verifyBtn") = negb (bool_decide (state = "connected")) ∧
  match LastVerifiedAt snap with
  | Some at_ => eContent (elem q "verificationState") = textOf ("验证通过 · " +:+ localeTime at_) ∧
                eClass (elem q "verificationState") = ["badge"; "good"]
  | None => eClass (elem q "verificationState") = ["badge"]
  end.
Proof.
  cbv zeta. unfold renderStatus, renderVerification, renderCounts, andThen, textContent, className, toggleClass, disable.
  destruct (LastVerifiedAt snap); look; done.
Qed.
Lemma renderProxy_shows st p :
  eContent (elem (renderProxy st p) "proxyToggleBtn") = textOf (if stRunning st then "停止 VMESS" else "启动 VMESS").
Proof. unfold renderProxy, andThen, textContent, toggleClass. look. done. Qed.

Lemma toasts_toast message isError p : toasts (toast message isError p) =
  toasts p ++ [mkToast (if isError then ["toast"; "error"] else ["toast"]) (toastTokens message)].
Proof.
  unfold toast. cbn [toasts setToasts]. rewrite (tokenize_reads _ _ (toast_reads message)). by destruct isError.
Qed.
Lemma rows_renderNodes p : rows (renderNodes p) = (λ node, rowButton (rowActive p node) node) <$> filteredNodes p.
Proof.
  unfold renderNodes. cbn [rows setRows]. unfold andThen, innerHTML. rewrite elem_onElem. cbn [eContent setContent].
  rewrite (tokenize_all (λ node, rowMarkup (rowActive p node) node) (λ node, rowTokens (rowActive p node) node))
    by (intros; apply row_reads). apply nodeButtons_rows.
Qed.
End Shows.

(** ** Theorems *)

Section Faithful.
Context {B : Browser}.

(** C21. The table, the diagnostic list, the log and a toast hold exactly the elements
    the script means to write, with the data as text and as attribute values: no
    string of a node, a report, a log entry or an error can open a tag or an
    attribute. The button of a row carries the id of its node, and is disabled
    for the active node only. *)
Theorem markup_faithful (p : Page) (vpn : EnvironmentReport) (proxy : ProxyCore.Status)
    (item : LogEntry) (l : list LogEntry) (message : string) (isError : bool) :
  eContent (elem (renderNodes p) "nodeRows") = (filteredNodes p ≫= λ node, rowTokens (rowActive p node) node) ∧
  rows (renderNodes p) = (λ node, rowButton (rowActive p node) node) <$> filteredNodes p ∧
  eContent (elem (renderEnvironment vpn proxy p) "diagnosticList") = (diagnosticRows vpn proxy ≫= diagnosticTokens) ∧
  eContent (elem (renderLogs (item :: l) p) "logs") = (reverse (item :: l) ≫= logTokens) ∧
  toasts (toast message isError p) =
    toasts p ++ [mkToast (if isError then ["toast"; "error"] else ["toast"]) (toastTokens message)].
Proof.
  assert (∀ g : VpnNode → bool, tokenize (join "" ((λ node, rowMarkup (g node) node) <$> filteredNodes p)) =
    (filteredNodes p ≫= λ node, rowTokens (g node) node)) as Hrows.
  { intros g. apply (tokenize_all (λ node, rowMarkup (g node) node)). intros node. apply row_reads. }
  split_and!.
  - unfold renderNodes. rewrite elem_setRows. unfold andThen, innerHTML. rewrite elem_onElem.
    cbn [eContent setContent]. apply Hrows.
  - apply rows_renderNodes.
  - unfold renderEnvironment, andThen, innerHTML. rewrite elem_onElem. cbn [eContent setContent].
    apply tokenize_all, diagnostic_reads.
  - unfold renderLogs, innerHTML. rewrite elem_onElem. cbn [eContent setContent]. apply tokenize_all, log_reads.
  - apply toasts_toast.
Qed.
End Faithful.
