(* ===== verification/Console.v ===== *)
(** * [internal/web/static.go]: the script as a program

    JavaScript runs one thing at a time: an event handler runs until it awaits
    something from outside, and others run before it goes on. A [Task] is a
    handler between two such points; [settle] runs it to the next one, [step] is
    one event of the browser (a click, a timer, the head or the body of an answer,
    an answered dialog). [Promise.all] keeps its calls in the task that awaits them;
    when one fails, the others go on without it. [interact] runs a task to its end
    against [Server.Handler], with nothing else in between. *)

From S2P Require Import Prelude GoStrings GoNet GoCodec Domain Failover Probe Classify Html ConsolePage.
From S2P Require Import Verify Config ProxyCore Subscription Storage Tunnel TunnelApi Server ConsoleView.

(** ** Requests *)

(** What [options] of [api] holds: the method and the body. *)
Inductive payload := NoBody | EmptyBody | LoginBody (username password : string) | NodeBody (id : string).
Record call := mkCall { callPath : string; callPost : bool; callBody : payload }.
Definition getCall (path : string) : call := mkCall path false NoBody.
Definition postCall (path : string) : call := mkCall path true NoBody.

(** What the network hands to [api]: the head of an answer, its body, a failure. *)
Inductive reply :=
  | Headers (status : Z) (statusText : string)
  | BodyJSON (b : Body)
  | Broken (message : string).

(** How far a call of [api] is. *)
Inductive apiCall :=
  | AwaitHeaders (c : call)
  | AwaitBody (c : call) (status : Z) (statusText : string)
  | Got (c : call) (b : Body).
Definition callOf (s : apiCall) : call :=
  match s with AwaitHeaders c | AwaitBody c _ _ | Got c _ => c end.
Definition gotBody (s : apiCall) : option Body := match s with Got _ b => Some b | _ => None end.

(** [data.error]. *)
Definition errorMember (b : Body) : string :=
  match b with BodyError e | BodyProxyError e _ => e | _ => "" end.

(** [api] after an await: go on, or reject with a message. *)
Definition apiStep (s : apiCall) (r : reply) (p : Page) : Page * (apiCall + string) :=
  match s, r with
  | AwaitHeaders c, Headers status text =>
      if (status =? 401)%Z && negb (bool_decide (callPath c = "/api/login"))
      then (showApp false p, inr "登录状态已失效")
      else (p, inl (AwaitBody c status text))
  | AwaitHeaders c, Broken e => (p, inr e)
  | AwaitBody c status text, BodyJSON b =>
      if (200 <=? status)%Z && (status <=? 299)%Z then (p, inl (Got c b)) else (p, inr (jsOr (errorMember b) text))
  | AwaitBody c status text, Broken e =>
      if (200 <=? status)%Z && (status <=? 299)%Z then (p, inr e) else (p, inr text)
  | s, _ => (p, inl s)
  end.

(** ** Tasks *)

Inductive Task :=
  | Done
  | Rejected (message : string)
  | Do (f : Page → Page) (k : Page → Task)
  | Calls (cs : list apiCall) (k : list Body → Task) (h : string → Task)
  | Ask (k : bool → Task)
  | Clip (k : bool → Task).

(** Run until something is awaited. *)
Fixpoint settle (t : Task) (p : Page) : Page * Task :=
  match t with
  | Do f k => settle (k (f p)) (f p)
  | t => (p, t)
  end.

Definition read (k : Page → Task) : Task := Do id k.
Definition draw (f : Page → Page) (t : Task) : Task := Do f (λ _, t).
(** [await api(...)]. *)
Definition await (c : call) (k : Body → Task) (h : string → Task) : Task :=
  Calls [AwaitHeaders c] (λ bs, k (hd BodyOK bs)) h.

(** *** Dialogs *)

Definition showModal (id : string) (p : Page) : Page :=
  if bool_decide (id ∈ dialogs p) then p else setDialogs (id :: dialogs p) p.
Definition closeDialog (id : string) (p : Page) : Page := setDialogs (filter (λ d, d ≠ id) (dialogs p)) p.

Definition askConfirm (title message confirmLabel : string) (k : bool → Task) : Task :=
  draw (textContent "confirmTitle" title >> textContent "confirmMessage" message >>
       textContent "confirmAccept" (jsOr confirmLabel "继续") >> showModal "confirmDialog")
    (Ask (λ value, draw (closeDialog "confirmDialog") (k value))).

(** *** Buttons *)

(** A button is an element with an id, or the i-th of the rows drawn the g-th time:
    a row drawn before is no longer on the page. *)
Inductive button := ById (id : string) | RowAt (g i : nat).
Definition buttonContent (b : button) (p : Page) : list token :=
  match b with
  | ById id => eContent (elem p id)
  | RowAt g i => if bool_decide (g = rowsDrawn p) then default [] (rowContent <$> rows p !! i) else []
  end.
Definition setButton (b : button) (content : list token) (disabled : bool) (p : Page) : Page :=
  match b with
  | ById id => onElem id (λ e, setDisabled disabled (setContent content e)) p
  | RowAt g i =>
      if bool_decide (g = rowsDrawn p)
      then setRows g (alter (λ r, mkRow (rowNode r) disabled content) i (rows p)) p else p
  end.

(** [runAction]: [action] is given what runs when it is done, and when it throws. *)
Definition runAction (b : button) (busyLabel : string) (action : Task → (string → Task) → Task) (k : Task) : Task :=
  read (λ p, let original := buttonContent b p in
    draw (setButton b (tokenize (markup "<span class='spinner'></span>" +:+ busyLabel)) true)
      (let finally := draw (setButton b original false) k in
       action finally (λ e, draw (toast e true) finally))).

Section Script.
Context {B : Browser}.

(** ** Loading *)

Definition loadPaths : list string :=
  ["/api/status"; "/api/nodes"; "/api/logs"; "/api/proxy/status"; "/api/environment"; "/api/subscription/preview"].

(** The results in order, as [Server] types them ([requests_served]). *)
Definition showLoaded (results : list Body) : Page → Page :=
  match results with
  | [BodyStatus snap counts; BodyNodes ns; BodyLogs l; BodyProxy st; BodyEnvironment vpn pst;
     BodyPreview vmessURL quantumultURL host resolved serverListen listen _] =>
      setPgNodes ns >> setPgSnapshot (Some snap) >> setPgEnvironment (Some (vpn, pst)) >>
      renderStatus snap counts >> renderProxy st >> renderEnvironment vpn pst >> renderNodes >> renderLogs l >>
      renderSubscription (mkPreview vmessURL quantumultURL host resolved serverListen listen)
  | _ => id
  end.

Definition loadAll (showFailure : bool) (k : Task) : Task :=
  read (λ p, if loadingAll p then k else
    draw (setLoadingAll true)
      (Calls (AwaitHeaders ∘ getCall <$> loadPaths)
        (λ results, draw (showLoaded results) (draw (setLoadingAll false) k))
        (λ e, draw (if showFailure then toast e true else id) (draw (setLoadingAll false) k)))).

(** ** Handlers *)

(** A call, a message, a refresh. *)
Definition simpleAction (c : call) (message : string) (finally : Task) (h : string → Task) : Task :=
  await c (λ _, draw (toast message false) (loadAll true finally)) h.

Definition submitLogin : Task :=
  draw (textContent "loginError" "")
    (runAction (ById "loginSubmit") "正在登录" (λ finally h,
       read (λ p, await (mkCall "/api/login" true (LoginBody (eValue (elem p "username")) (eValue (elem p "password"))))
         (λ _, draw (showApp true) (loadAll true finally))
         (λ e, draw (textContent "loginError" e) (h e)))) Done).

Definition clickConnect : Task :=
  runAction (ById "connectBtn") "连接中" (simpleAction (mkCall "/api/connect" true EmptyBody) "VPNGate 出口已连接") Done.
Definition clickVerify : Task :=
  runAction (ById "verifyBtn") "复核中" (λ finally h,
    await (postCall "/api/exit/verify")
      (λ b, draw (toast ("出口验证通过：" +:+ match b with BodyVerify r => resExitIP r | _ => "undefined" end) false)
              (loadAll true finally)) h) Done.
Definition clickRefresh : Task :=
  runAction (ById "refreshBtn") "刷新中" (simpleAction (postCall "/api/nodes/refresh") "节点列表已刷新") Done.
Definition clickClassify : Task :=
  runAction (ById "classifyBtn") "判定中" (simpleAction (postCall "/api/nodes/classify") "家宽判定已完成") Done.
Definition clickProbe : Task :=
  runAction (ById "probeBtn") "探活中" (simpleAction (postCall "/api/nodes/probe") "TCP 探活已完成") Done.
Definition clickDisconnect : Task :=
  askConfirm "断开当前出口" "本机 SOCKS 和远程 VMESS 流量将暂时无法访问公网。" "断开出口" (λ yes,
    if yes then runAction (ById "disconnectBtn") "断开中" (simpleAction (postCall "/api/disconnect") "VPNGate 出口已断开") Done
    else Done).
Definition clickRow (g i : nat) (node : string) : Task :=
  runAction (RowAt g i) "正在连接" (simpleAction (mkCall "/api/connect" true (NodeBody node)) "节点已连接") Done.

(** After the question, [proxyRunning] is read again, and once more for the toast. *)
Definition toggleProxy : Task :=
  read (λ p, let endpoint := if proxyRunning p then "/api/proxy/stop" else "/api/proxy/start" in
    runAction (ById "proxyToggleBtn") (if proxyRunning p then "停止中" else "启动中") (λ finally h,
      await (postCall endpoint)
        (λ _, read (λ p, draw (toast (if proxyRunning p then "VMESS 服务已停止" else "VMESS 服务已启动") false)
                          (loadAll true finally))) h) Done).
Definition clickProxyToggle : Task :=
  read (λ p, if proxyRunning p
    then askConfirm "停止 VMESS 服务" "本机 SOCKS 和所有 VMESS 客户端连接将立即中断。" "停止服务" (λ yes,
           if yes then toggleProxy else Done)
    else toggleProxy).

Definition clickEnvironment : Task := loadAll true (draw (showModal "environmentDialog") Done).
Definition clickLogout : Task := await (postCall "/api/logout") (λ _, draw (showApp false) Done) Rejected.
Definition clickCopy : Task :=
  read (λ p, if bool_decide (subscriptionURL p = "") then draw (toast "订阅地址尚未准备好" true) Done
    else Clip (λ ok, draw (if ok then toast "订阅地址已复制" false
                          else toast "浏览器未允许复制，请从地址框手动复制" true) Done)).

(** The last line of the script. *)
Definition startup : Task :=
  await (getCall "/api/me") (λ _, draw (showApp true) (loadAll true Done)) (λ _, draw (showApp false) Done).

(** ** Events *)

Inductive input :=
  | Submit | Connect | VerifyNow | Refresh | Classify_ | Probe_ | Disconnect_ | Row (i : nat) | ProxyToggle
  | Environment_ | Logout | ReloadLogs | Copy | Filter (v : string) | Kind (k : string) | Search (query : string)
  | TypeLogin (username password : string) | CloseEnvironment.

Definition hidden (p : Page) (id : string) : bool := bool_decide ("hidden" ∈ eClass (elem p id)).

(** What can be clicked: a shown, enabled button of the topmost dialog, or of the
    view where no dialog is open. *)
Definition usable (p : Page) (id : string) : bool := negb (hidden p id) && negb (eDisabled (elem p id)).
Definition inView (p : Page) (view : string) : bool := bool_decide (dialogs p = []) && negb (hidden p view).
Definition inDialog (p : Page) (id : string) : bool := bool_decide (head (dialogs p) = Some id).
Definition inApp (p : Page) (id : string) : bool := inView p "app" && usable p id.

Definition enabled (i : input) (p : Page) : bool :=
  match i with
  | Submit => inView p "login" && usable p "loginSubmit"
  | TypeLogin _ _ => inView p "login"
  | Connect => inApp p "connectBtn"
  | VerifyNow => inApp p "verifyBtn"
  | Refresh => inApp p "refreshBtn"
  | Classify_ => inApp p "classifyBtn"
  | Probe_ => inApp p "probeBtn"
  | Disconnect_ => inApp p "disconnectBtn"
  | Row i => inView p "app" && match rows p !! i with Some r => negb (rowDisabled r) | None => false end
  | ProxyToggle => inDialog p "environmentDialog" && usable p "proxyToggleBtn"
  | CloseEnvironment => inDialog p "environmentDialog"
  | Filter v => inView p "app" && bool_decide (v ∈ ["all"; "available"; "strict_home"])
  | Kind k => inView p "app" && bool_decide (k ∈ ["quantumult-x"; "vmess"])
  | Environment_ | Logout | ReloadLogs | Copy | Search _ => inView p "app"
  end.

(** What the handlers bound to the page do. *)
Definition handler (i : input) (p : Page) : Task :=
  match i with
  | Submit => submitLogin
  | TypeLogin u pw => draw (onElem "username" (setValue u) >> onElem "password" (setValue pw)) Done
  | Connect => clickConnect
  | VerifyNow => clickVerify
  | Refresh => clickRefresh
  | Classify_ => clickClassify
  | Probe_ => clickProbe
  | Disconnect_ => clickDisconnect
  | Row i => clickRow (rowsDrawn p) i (default "" (rowNode <$> rows p !! i))
  | ProxyToggle => clickProxyToggle
  | CloseEnvironment => draw (closeDialog "environmentDialog") Done
  | Environment_ => clickEnvironment
  | Logout => clickLogout
  | ReloadLogs => loadAll true Done
  | Copy => clickCopy
  | Filter v => draw (selectFilter v) Done
  | Kind k => draw (selectSubscription k) Done
  | Search q => draw (search q) Done
  end.

(** [Tick] is the timer and [visibilitychange]; [Expire] removes the oldest toast. *)
Inductive consoleEvent :=
  | User (i : input)
  | Tick
  | Net (i j : nat) (r : reply)
  | Answer (i : nat) (yes : bool)
  | Clipboard (i : nat) (ok : bool)
  | Expire.

Record Console := mkConsole { cPage : Page; cPool : list Task }.

Definition start (t : Task) (c : Console) : Console :=
  let '(p, t) := settle t (cPage c) in mkConsole p (cPool c ++ [t]).
Definition resume (i : nat) (t : Task) (p : Page) (more : list Task) (c : Console) : Console :=
  let '(p, t) := settle t p in mkConsole p (<[i := t]> (cPool c) ++ more).

(** The calls a failed [Promise.all] no longer waits for. *)
Definition pending (s : apiCall) : bool := match s with Got _ _ => false | _ => true end.
Definition detach (cs : list apiCall) : list Task :=
  (λ s, Calls [s] (λ _, Done) (λ _, Done)) <$> filter (λ s, pending s = true) cs.

Definition deliver (i j : nat) (r : reply) (c : Console) : Console :=
  match cPool c !! i with
  | Some (Calls cs k h) =>
      match cs !! j with
      | Some s =>
          match apiStep s r (cPage c) with
          | (p, inr e) => resume i (h e) p (detach (take j cs ++ drop (S j) cs)) c
          | (p, inl s) =>
              let cs := <[j := s]> cs in
              match mapM gotBody cs with
              | Some bodies => resume i (k bodies) p [] c
              | None => mkConsole p (<[i := Calls cs k h]> (cPool c))
              end
          end
      | None => c
      end
  | _ => c
  end.

Definition step (ev : consoleEvent) (c : Console) : Console :=
  match ev with
  | User i => if enabled i (cPage c) then start (handler i (cPage c)) c else c
  | Tick => if hidden (cPage c) "app" then c else start (loadAll false Done) c
  | Net i j r => deliver i j r c
  | Answer i yes => match cPool c !! i with Some (Ask k) => resume i (k yes) (cPage c) [] c | _ => c end
  | Clipboard i ok => match cPool c !! i with Some (Clip k) => resume i (k ok) (cPage c) [] c | _ => c end
  | Expire => mkConsole (setToasts (tail (toasts (cPage c))) (cPage c)) (cPool c)
  end.

Definition opened : Console := start startup (mkConsole initialPage []).
Definition runEvents (evs : list consoleEvent) (c : Console) : Console := foldl (flip step) c evs.
(** A console after some events. *)
Definition reachable (c : Console) : Prop := ∃ evs, c = runEvents evs opened.
End Script.
