(* ===== verification/ConsoleMachine.v ===== *)
(** * [internal/web/static.go]: invariants of the script

    Two disciplines that every task of the script keepsIds, and what follows for
    every console that any sequence of events can lead to: [good] is about the
    page and the requests, [careful] about a flag of the page used as a lock. *)

From S2P Require Import Prelude GoStrings GoNet GoCodec Domain Failover Probe Classify Html ConsolePage.
From S2P Require Import Verify Config ProxyCore Subscription Storage Tunnel TunnelApi Server ConsoleView ConsoleProps Console.

(** ** Invariants of the page and of the requests *)

Section Good.
Context {B : Browser} (I : Page → Prop) (P : call → Prop).

Fixpoint good (t : Task) : Prop :=
  match t with
  | Done | Rejected _ => True
  | Do f k => ∀ p, I p → I (f p) ∧ good (k (f p))
  | Calls cs k h => Forall (λ s, P (callOf s)) cs ∧ (∀ bs, good (k bs)) ∧ (∀ e, good (h e))
  | Ask k | Clip k => ∀ b, good (k b)
  end.

Lemma settle_good t p : good t → I p → I (settle t p).1 ∧ good (settle t p).2.
Proof.
  revert p. induction t as [|e|f k IH|cs k IHk h IHh|k IH|k IH]; intros p Hg Hp; try done.
  cbn [settle]. destruct (Hg p Hp). by apply IH.
Qed.

(** *** The ways tasks are built *)

Lemma good_read k : (∀ p, I p → good (k p)) → good (read k).
Proof. intros H p Hp. split; [done|]. by apply H. Qed.
Lemma good_draw f t : (∀ p, I p → I (f p)) → good t → good (draw f t).
Proof. intros Hf Ht p Hp. auto. Qed.
Lemma good_await c k h : P c → (∀ b, good (k b)) → (∀ e, good (h e)) → good (await c k h).
Proof. intros Hc Hk Hh. split; [by constructor|]. split; auto. Qed.
Lemma good_detach cs : Forall (λ s, P (callOf s)) cs → Forall good (detach cs).
Proof.
  intros H. apply Forall_fmap, Forall_forall. intros s [_ Hs]%list_elem_of_filter.
  rewrite Forall_forall in H. split; [|done]. constructor; [by apply H|done].
Qed.

(** *** Events *)

Definition goodConsole (c : Console) : Prop := I (cPage c) ∧ Forall good (cPool c).

Lemma start_good t c : good t → goodConsole c → goodConsole (start t c).
Proof.
  intros Ht [Hp Hc]. unfold start. destruct (settle_good t (cPage c) Ht Hp) as [H1 H2].
  destruct (settle t (cPage c)) as [p t']. split; [done|]. apply Forall_app. auto.
Qed.
Lemma resume_good i t p more c :
  good t → I p → Forall good more → goodConsole c → goodConsole (resume i t p more c).
Proof.
  intros Ht Hp Hm [_ Hc]. unfold resume. destruct (settle_good t p Ht Hp) as [H1 H2].
  destruct (settle t p) as [p' t']. split; [done|]. apply Forall_app. split; [|done]. by apply Forall_insert.
Qed.

Lemma apiStep_call s r p p' s' : apiStep s r p = (p', inl s') → callOf s' = callOf s.
Proof. destruct s, r; cbn; repeat case_match; intros; by simplify_eq. Qed.
Lemma apiStep_page s r p : (apiStep s r p).1 = p ∨ (apiStep s r p).1 = showApp false p.
Proof. destruct s, r; cbn; repeat case_match; auto. Qed.

Lemma deliver_good i j r c :
  (∀ p, I p → I (showApp false p)) → goodConsole c → goodConsole (deliver i j r c).
Proof.
  intros Hshow Hgood. pose proof Hgood as [Hp Hc]. unfold deliver.
  destruct (cPool c !! i) as [[| | |cs k h| |]|] eqn:Ei; try done.
  destruct (cs !! j) as [s|] eqn:Ej; [|done].
  rewrite Forall_lookup in Hc. destruct (Hc _ _ Ei) as (Hcs & Hk & Hh).
  assert (I (apiStep s r (cPage c)).1) as Hp'.
  { destruct (apiStep_page s r (cPage c)) as [-> | ->]; auto. }
  destruct (apiStep s r (cPage c)) as [p [s'|e]] eqn:Es; cbn in Hp'.
  - assert (Forall (λ s, P (callOf s)) (<[j:=s']> cs)) as Hcs'.
    { apply Forall_insert; [done|]. rewrite (apiStep_call _ _ _ _ _ Es). exact (Forall_lookup_1 _ _ _ _ Hcs Ej). }
    destruct (mapM gotBody (<[j:=s']> cs)); [by apply resume_good; [apply Hk|..]|].
    split; [done|]. apply Forall_insert; [by apply Forall_lookup|]. done.
  - apply resume_good; [apply Hh|done| |done]. apply good_detach. apply Forall_app. split; [by apply Forall_take|by apply Forall_drop].
Qed.

(** What the handlers have to keep. *)
Record respectful : Prop := {
  re_initial : I initialPage;
  re_showApp : ∀ p, I p → I (showApp false p);
  re_expire : ∀ p, I p → I (setToasts (tail (toasts p)) p);
  re_startup : good startup;
  re_tick : good (loadAll false Done);
  re_handler : ∀ i p, I p → enabled i p = true → good (handler i p)
}.

Lemma step_good ev c : respectful → goodConsole c → goodConsole (step ev c).
Proof.
  intros R Hgood. pose proof Hgood as [Hp Hc]. destruct ev as [i| |i j r|i yes|i ok|]; cbn [step].
  - destruct (enabled i (cPage c)) eqn:E; [|done]. apply start_good; [by apply (re_handler R)|done].
  - destruct (hidden (cPage c) "app"); [done|]. apply start_good; [apply (re_tick R)|done].
  - apply deliver_good; [apply (re_showApp R)|done].
  - destruct (cPool c !! i) as [[]|] eqn:E; try done. rewrite Forall_lookup in Hc. apply Hc in E. by apply resume_good; [apply E|..].
  - destruct (cPool c !! i) as [[]|] eqn:E; try done. rewrite Forall_lookup in Hc. apply Hc in E. by apply resume_good; [apply E|..].
  - split; [by apply (re_expire R)|done].
Qed.

Lemma reachable_good c : respectful → reachable c → goodConsole c.
Proof.
  intros R [evs ->]. unfold runEvents. assert (goodConsole opened) as Ho.
  { apply start_good; [apply (re_startup R)|]. split; [apply (re_initial R)|constructor]. }
  revert Ho. generalize opened as c0. induction evs as [|ev evs IH]; intros c0 H0; [done|].
  cbn [foldl]. by apply IH, step_good.
Qed.
End Good.

(** ** Requests *)

(** Every request of the script. *)
Definition known (c : call) : Prop :=
  match callBody c with
  | LoginBody _ _ => c.(callPath) = "/api/login" ∧ callPost c = true
  | EmptyBody | NodeBody _ => c.(callPath) = "/api/connect" ∧ callPost c = true
  | NoBody =>
      if callPost c
      then callPath c ∈ ["/api/exit/verify"; "/api/nodes/refresh"; "/api/nodes/classify"; "/api/nodes/probe";
                         "/api/disconnect"; "/api/proxy/start"; "/api/proxy/stop"; "/api/logout"]
      else callPath c ∈ "/api/me" :: loadPaths
  end.

Section Respect.
Context {B : Browser}.
Abbreviation fine := (good hasIds known).

Lemma fine_draw f t : keepsIds f → fine t → fine (draw f t).
Proof. intros Hf Ht. by apply good_draw. Qed.

Lemma keeps_showLoaded results : keepsIds (showLoaded results).
Proof. unfold showLoaded. repeat case_goal; auto 20 with console. Qed.
Lemma keeps_loading v : keepsIds (setLoadingAll v).
Proof. apply keeps_globals. reflexivity. Qed.

Lemma fine_loadAll b k : fine k → fine (loadAll b k).
Proof.
  intros Hk. unfold loadAll. apply good_read. intros p Hp. destruct (loadingAll p); [done|].
  apply fine_draw; [apply keeps_loading|]. split_and!.
  - repeat (constructor; [unfold known, loadPaths; cbn; decided|]). constructor.
  - intros bs. apply fine_draw; [apply keeps_showLoaded|]. apply fine_draw; [apply keeps_loading|done].
  - intros e. apply fine_draw; [destruct b; auto with console|]. apply fine_draw; [apply keeps_loading|done].
Qed.

Definition onPage (b : button) : Prop := match b with ById id => id ∈ pageIds | RowAt _ _ => True end.
Lemma keeps_setButton b content d : onPage b → keepsIds (setButton b content d).
Proof.
  destruct b as [id|g i]; cbn; intros H.
  - by apply keeps_onElem.
  - apply keeps_globals. intros p. cbn. by case_bool_decide.
Qed.

(** An action that is fine if what follows it is. *)
Definition fineAction (action : Task → (string → Task) → Task) : Prop :=
  ∀ finally h, fine finally → (∀ e, fine (h e)) → fine (action finally h).

Lemma fine_runAction b busy action k : onPage b → fineAction action → fine k → fine (runAction b busy action k).
Proof.
  intros Hb Ha Hk. unfold runAction. apply good_read. intros p Hp.
  apply fine_draw; [by apply keeps_setButton|].
  assert (fine (draw (setButton b (buttonContent b p) false) k)) by (apply fine_draw; [by apply keeps_setButton|done]).
  apply Ha; [done|]. intros e. apply fine_draw; [auto with console|done].
Qed.

Lemma fine_simpleAction c message : known c → fineAction (simpleAction c message).
Proof.
  intros Hc finally h Hf Hh. apply good_await; [done| |done]. intros b.
  apply fine_draw; [auto with console|]. by apply fine_loadAll.
Qed.

Lemma fine_done : fine Done.
Proof. done. Qed.
Lemma fine_askConfirm title message lbl k : (∀ yes, fine (k yes)) → fine (askConfirm title message lbl k).
Proof.
  intros Hk. unfold askConfirm. apply fine_draw.
  - assert (keepsIds (showModal "confirmDialog")).
    { apply keeps_globals. intros p. unfold showModal. by case_bool_decide. }
    keeping.
  - intros yes. apply fine_draw; [by apply keeps_globals|apply Hk].
Qed.
Lemma fine_toggleProxy : fine toggleProxy.
Proof.
  apply good_read. intros p Hp. apply fine_runAction; [cbn; decided| |done].
  intros finally h Hf Hh. apply good_await; [|intros _|done].
  - unfold known. cbn. destruct (proxyRunning p); decided.
  - apply good_read. intros p' _. apply fine_draw; [auto with console|]. by apply fine_loadAll.
Qed.
#[local] Hint Resolve fine_draw fine_loadAll fine_runAction fine_simpleAction fine_askConfirm fine_toggleProxy fine_done : console.
#[local] Hint Extern 1 (onPage _) => (cbn; decided) : console.
#[local] Hint Extern 1 (known _) => (unfold known; cbn; first [decided | by split]) : console.

Lemma fine_submitLogin : fine submitLogin.
Proof.
  unfold submitLogin. apply fine_draw; [keeping|]. apply fine_runAction; [cbn; decided| |done].
  intros finally h Hf Hh. apply good_read. intros p _. apply good_await; [by split| |]; intros x.
  - apply fine_draw; [auto with console|by apply fine_loadAll].
  - apply fine_draw; [keeping|done].
Qed.
Lemma fine_clickVerify : fine clickVerify.
Proof.
  unfold clickVerify. apply fine_runAction; [cbn; decided| |done].
  intros finally h Hf Hh. apply good_await; [unfold known; cbn; decided|intros b|done].
  apply fine_draw; [auto with console|by apply fine_loadAll].
Qed.
Lemma fine_clickCopy : fine clickCopy.
Proof.
  apply good_read. intros p _. case_bool_decide; [auto with console|]. intros ok. apply fine_draw; [|done].
  destruct ok; auto with console.
Qed.
Lemma keeps_showModal id : keepsIds (showModal id).
Proof. apply keeps_globals. intros p. unfold showModal. by case_bool_decide. Qed.

Lemma fine_handler i p : hasIds p → enabled i p = true → fine (handler i p).
Proof.
  intros Hp _. destruct i; cbn [handler];
    auto using fine_submitLogin, fine_clickVerify, fine_clickCopy with console.
  - unfold clickConnect. auto with console.
  - unfold clickRefresh. auto with console.
  - unfold clickClassify. auto with console.
  - unfold clickProbe. auto with console.
  - unfold clickDisconnect. apply fine_askConfirm. intros []; auto with console.
  - unfold clickRow. auto with console.
  - unfold clickProxyToggle. apply good_read. intros p' _. destruct (proxyRunning p'); [|apply fine_toggleProxy].
    apply fine_askConfirm. intros []; auto with console.
  - unfold clickEnvironment. apply fine_loadAll, fine_draw; [apply keeps_showModal|done].
  - unfold clickLogout. apply good_await; [unfold known; cbn; decided|intros _|done]. auto with console.
Qed.

Lemma script_respectful : respectful hasIds known.
Proof.
  constructor.
  - done.
  - apply keeps_showApp.
  - by apply keeps_globals.
  - unfold startup. apply good_await; [unfold known; cbn; decided|intros _|intros e]; auto 10 with console.
  - auto with console.
  - apply fine_handler.
Qed.
End Respect.

(** ** [loadingAll] is a lock *)

Section Lock.
Context {B : Browser}.

(** A task that waits for the six answers of [loadAll]. *)
Definition isLoad (t : Task) : bool :=
  match t with Calls cs _ _ => bool_decide (callPath ∘ callOf <$> cs = loadPaths) | _ => false end.

(** A task that holds the lock ([h]) or not may keep things as they are, take a
    free lock, or give up its own. *)
Definition lockStep (h l h' l' : bool) : Prop :=
  (h' = h ∧ l' = l) ∨ (h = false ∧ l = false ∧ h' = true ∧ l' = true) ∨ (h = true ∧ h' = false ∧ l' = false).
Lemma lockStep_trans h l h' l' h'' l'' :
  (h = true → l = true) → lockStep h l h' l' → lockStep h' l' h'' l'' → lockStep h l h'' l''.
Proof. unfold lockStep. destruct h, l, h', l'; intuition congruence. Qed.
Lemma lockStep_holds h l h' l' : (h = true → l = true) → lockStep h l h' l' → h' = true → l' = true.
Proof. unfold lockStep. destruct h, l, h', l'; intuition congruence. Qed.

(** [careful h t p]: so does [t], run from [p]; who waits meets any page after,
    but the lock it holds is still taken. *)
Fixpoint careful (h : bool) (t : Task) (p : Page) : Prop :=
  match t with
  | Done | Rejected _ => h = false
  | Do f k => ∃ h', lockStep h (loadingAll p) h' (loadingAll (f p)) ∧ careful h' (k (f p)) (f p)
  | Calls cs k r => h = bool_decide (callPath ∘ callOf <$> cs = loadPaths) ∧
      (∀ bs p, (h = true → loadingAll p = true) → careful h (k bs) p) ∧
      (∀ e p, (h = true → loadingAll p = true) → careful h (r e) p)
  | Ask k | Clip k => h = false ∧ ∀ b p, careful false (k b) p
  end.

Lemma settle_careful h t p :
  careful h t p → (h = true → loadingAll p = true) →
  let '(p', t') := settle t p in
  lockStep h (loadingAll p) (isLoad t') (loadingAll p') ∧ ∀ q, careful (isLoad t') t' q.
Proof.
  revert h p. induction t as [|e|f k IH|cs k IHk r IHr|k IH|k IH]; intros h p Hc Hl; cbn [settle isLoad].
  1, 2: cbn in Hc; subst; split; [by left|done].
  - destruct Hc as (h' & Hs & Hc'). specialize (IH _ h' (f p) Hc' (lockStep_holds _ _ _ _ Hl Hs)).
    destruct (settle (k (f p)) (f p)) as [p' t']. destruct IH as [IH1 IH2]. split; [|done].
    by eapply lockStep_trans.
  - destruct Hc as (-> & Hk & Hr). split; [by left|done].
  - destruct Hc as (-> & Hk). split; [by left|done].
  - destruct Hc as (-> & Hk). split; [by left|done].
Qed.

(** *** Building careful tasks *)

(** What does not touch the lock. *)
Definition aside (f : Page → Page) : Prop := ∀ p, loadingAll (f p) = loadingAll p.

Lemma careful_read h k p : careful h (k p) p → careful h (read k) p.
Proof. intros H. exists h. split; [by left|apply H]. Qed.
Lemma careful_draw h f t p : aside f → careful h t (f p) → careful h (draw f t) p.
Proof. intros Hf Ht. exists h. split; [left; by rewrite Hf|done]. Qed.
Lemma careful_await c k r p :
  (∀ b p, careful false (k b) p) → (∀ e p, careful false (r e) p) → careful false (await c k r) p.
Proof. intros Hk Hr. split; [by rewrite bool_decide_false|]. split; intros; [apply Hk|apply Hr]. Qed.

Lemma aside_id : aside id.
Proof. done. Qed.
Lemma aside_andThen f g : aside f → aside g → aside (f >> g).
Proof. intros Hf Hg p. unfold andThen. by rewrite Hg, Hf. Qed.
Lemma aside_onElem id f : aside (onElem id f).
Proof. done. Qed.
Lemma aside_toast m e : aside (toast m e).
Proof. done. Qed.
Lemma aside_showApp v : aside (showApp v).
Proof. intros p. by destruct v. Qed.
Lemma aside_renderNodes : aside renderNodes.
Proof. done. Qed.
Lemma aside_setButton b c d : aside (setButton b c d).
Proof. intros p. destruct b; cbn; [done|]. by case_bool_decide. Qed.
Lemma aside_showModal id : aside (showModal id).
Proof. intros p. unfold showModal. by case_bool_decide. Qed.
Lemma aside_closeDialog id : aside (closeDialog id).
Proof. done. Qed.
Lemma aside_selections v q k : aside (selectFilter v) ∧ aside (search q) ∧ aside (selectSubscription k).
Proof. by split_and!; intros p. Qed.
Lemma aside_showLoaded results : aside (showLoaded results).
Proof.
  unfold showLoaded. repeat case_goal; try done. intros p. unfold renderStatus, renderVerification, renderLogs.
  by repeat case_goal.
Qed.
#[local] Hint Resolve aside_id aside_andThen aside_onElem aside_toast aside_showApp aside_renderNodes aside_setButton
  aside_showModal aside_closeDialog aside_showLoaded careful_draw careful_read careful_await : console.

Lemma careful_loadAll b k p : (∀ p, careful false k p) → careful false (loadAll b k) p.
Proof.
  intros Hk. unfold loadAll. apply careful_read. destruct (loadingAll p) eqn:E; [apply Hk|].
  exists true. split; [right; left; by rewrite E|]. split; [done|].
  assert (∀ q, loadingAll q = true → careful true (draw (setLoadingAll false) k) q) as Hend.
  { intros q Hq. exists false. split; [by right; right|apply Hk]. }
  split; intros x q Hq; (apply careful_draw; [|apply Hend]).
  - apply aside_showLoaded.
  - rewrite aside_showLoaded. auto.
  - destruct b; done.
  - destruct b; cbn; auto.
Qed.

Definition carefulAction (action : Task → (string → Task) → Task) : Prop :=
  ∀ finally h, (∀ p, careful false finally p) → (∀ e p, careful false (h e) p) → ∀ p, careful false (action finally h) p.
Lemma careful_runAction b busy action k p :
  carefulAction action → (∀ p, careful false k p) → careful false (runAction b busy action k) p.
Proof.
  intros Ha Hk. unfold runAction. apply careful_read, careful_draw; [auto with console|].
  apply Ha; intros; auto with console.
Qed.
Lemma careful_simpleAction c message : carefulAction (simpleAction c message).
Proof.
  intros finally h Hf Hh p. apply careful_await; [|done]. intros b q. apply careful_draw; [auto with console|].
  by apply careful_loadAll.
Qed.
Lemma careful_askConfirm title message lbl k p :
  (∀ yes p, careful false (k yes) p) → careful false (askConfirm title message lbl k) p.
Proof.
  intros Hk. apply careful_draw; [unfold textContent; auto 10 with console|]. split; [done|]. intros yes q.
  apply careful_draw; [auto with console|apply Hk].
Qed.
Lemma careful_done p : careful false Done p.
Proof. done. Qed.
#[local] Hint Resolve careful_loadAll careful_runAction careful_simpleAction careful_askConfirm careful_done : console.
Lemma careful_toggleProxy p : careful false toggleProxy p.
Proof.
  apply careful_read, careful_runAction; [|done]. intros finally h Hf Hh q. apply careful_await; [|done].
  intros _ r. apply careful_read. auto with console.
Qed.

Lemma careful_clickVerify p : careful false clickVerify p.
Proof.
  apply careful_runAction; [|done]. intros finally h Hf Hh q. apply careful_await; [|done]. auto with console.
Qed.
Lemma careful_submitLogin p : careful false submitLogin p.
Proof.
  apply careful_draw; [apply aside_onElem|]. apply careful_runAction; [|done]. intros finally h Hf Hh q.
  apply careful_read, careful_await; intros x r; (apply careful_draw; [|auto with console]).
  - apply aside_showApp.
  - apply aside_onElem.
Qed.

Lemma careful_handler i p q : careful false (handler i p) q.
Proof.
  destruct i; cbn [handler]; try solve [unfold clickConnect, clickRefresh, clickClassify, clickProbe, clickRow,
    clickEnvironment; auto 10 using careful_submitLogin, careful_clickVerify with console].
  - apply careful_askConfirm. intros [] r; [|done]. apply careful_runAction; auto with console.
  - apply careful_read. destruct (proxyRunning q); [|apply careful_toggleProxy].
    apply careful_askConfirm. intros [] r; [apply careful_toggleProxy|done].
  - apply careful_await; [auto with console|done].
  - apply careful_read. case_bool_decide; [auto with console|]. split; [done|]. intros [] r; (apply careful_draw; [apply aside_toast|done]).
Qed.
Lemma careful_startup p : careful false startup p.
Proof. apply careful_await; auto with console. Qed.

(** *** The lock and its holder *)

Definition loads (pool : list Task) : nat := length (filter (λ t, isLoad t = true) pool).
Definition locked (c : Console) : Prop :=
  Forall (λ t, ∀ q, careful (isLoad t) t q) (cPool c) ∧ loads (cPool c) = Nat.b2n (loadingAll (cPage c)).

Lemma loads_app l l' : loads (l ++ l') = loads l + loads l'.
Proof. unfold loads. by rewrite filter_app, length_app. Qed.
Lemma loads_one t : loads [t] = Nat.b2n (isLoad t).
Proof. unfold loads. cbn. by destruct (isLoad t). Qed.
Lemma loads_insert l i t t' :
  l !! i = Some t → loads (<[i := t']> l) + Nat.b2n (isLoad t) = loads l + Nat.b2n (isLoad t').
Proof.
  intros H. rewrite <-!loads_one. rewrite (insert_take_drop l i t') by (by eapply lookup_lt_Some).
  rewrite <-(take_drop_middle l i t H) at 3. change (t' :: drop (S i) l) with ([t'] ++ drop (S i) l).
  change (t :: drop (S i) l) with ([t] ++ drop (S i) l). rewrite !loads_app. lia.
Qed.
Lemma loads_none l : Forall (λ t, isLoad t = false) l → loads l = 0.
Proof.
  induction 1 as [|t l Ht Hl IH]; [done|]. change (t :: l) with ([t] ++ l). by rewrite loads_app, loads_one, Ht, IH.
Qed.
Lemma loads_holder l i t : l !! i = Some t → isLoad t = true → 0 < loads l.
Proof. intros H Ht. pose proof (loads_insert l i t Done H) as E. rewrite Ht in E. cbn in E. lia. Qed.

Lemma start_locked t c : (∀ p, careful false t p) → locked c → locked (start t c).
Proof.
  intros Ht [Hc Hn]. unfold start. pose proof (settle_careful false t (cPage c) (Ht _) ltac:(done)) as Hs.
  destruct (settle t (cPage c)) as [p t']. destruct Hs as [Hs Ht']. split; cbn [cPool cPage].
  - apply Forall_app. auto.
  - rewrite loads_app, loads_one, Hn. unfold lockStep in Hs.
    destruct (loadingAll (cPage c)), (loadingAll p), (isLoad t'); cbn; intuition congruence.
Qed.
Lemma resume_locked i t0 t p more c :
  cPool c !! i = Some t0 → (∀ q, (isLoad t0 = true → loadingAll q = true) → careful (isLoad t0) t q) →
  loadingAll p = loadingAll (cPage c) → Forall (λ t, isLoad t = false ∧ ∀ q, careful false t q) more →
  locked c → locked (resume i t p more c).
Proof.
  intros Hi Ht Hp Hm [Hc Hn]. unfold resume.
  assert (isLoad t0 = true → loadingAll p = true) as Hl.
  { intros E. pose proof (loads_holder _ _ _ Hi E). rewrite Hp. destruct (loadingAll (cPage c)); [done|]. cbn in Hn. lia. }
  pose proof (settle_careful _ t p (Ht p Hl) Hl) as Hs. destruct (settle t p) as [p' t']. destruct Hs as [Hs Ht'].
  pose proof (loads_insert _ _ _ t' Hi) as E. split; cbn [cPool cPage].
  - apply Forall_app. split; [by apply Forall_insert|]. eapply Forall_impl; [exact Hm|]. by intros x [-> Hx].
  - rewrite loads_app, (loads_none more) by (eapply Forall_impl; [exact Hm|]; by intros x [Hx _]).
    rewrite Hp in Hs. unfold lockStep in Hs.
    destruct (loadingAll (cPage c)), (loadingAll p'), (isLoad t0), (isLoad t'); cbn in *;
      destruct Hs as [[? ?]|[(? & ? & ? & ?)|(? & ? & ?)]]; try discriminate; lia.
Qed.
Lemma detach_locked cs : Forall (λ t, isLoad t = false ∧ ∀ q, careful false t q) (detach cs).
Proof.
  apply Forall_fmap, Forall_forall. intros s _. cbn. rewrite bool_decide_false by done. done.
Qed.
Lemma calls_insert (cs : list apiCall) (j : nat) s s' :
  cs !! j = Some s → callOf s' = callOf s → callPath ∘ callOf <$> <[j:=s']> cs = callPath ∘ callOf <$> cs.
Proof.
  intros Hj Hs. rewrite list_fmap_insert. apply list_insert_id. rewrite list_lookup_fmap, Hj. cbn. by rewrite Hs.
Qed.
Lemma deliver_locked i j r c : locked c → locked (deliver i j r c).
Proof.
  intros Hlock. unfold deliver. destruct (cPool c !! i) as [[| | |cs k h| |]|] eqn:Ei; try done.
  destruct (cs !! j) as [s|] eqn:Ej; [|done]. pose proof Hlock as [Hc Hn].
  pose proof (Forall_lookup_1 _ _ _ _ Hc Ei) as Ht.
  assert (loadingAll (apiStep s r (cPage c)).1 = loadingAll (cPage c)) as Hp.
  { destruct (apiStep_page s r (cPage c)) as [-> | ->]; [done|apply aside_showApp]. }
  destruct (Ht (cPage c)) as (_ & Hk & Hh).
  destruct (apiStep s r (cPage c)) as [p [s'|e]] eqn:Es; cbn in Hp.
  - destruct (mapM gotBody (<[j:=s']> cs)); [eapply resume_locked; [exact Ei| |done|done|done]; intros q; apply Hk|].
    assert (isLoad (Calls (<[j:=s']> cs) k h) = isLoad (Calls cs k h)) as Hsame.
    { unfold isLoad. by rewrite (calls_insert _ _ _ _ Ej (apiStep_call _ _ _ _ _ Es)). }
    pose proof (loads_insert _ _ _ (Calls (<[j:=s']> cs) k h) Ei) as E. rewrite Hsame in E.
    split; cbn [cPool cPage]; [|rewrite Hp; lia]. apply Forall_insert; [done|]. intros q. rewrite Hsame.
    split_and!; [by rewrite <-Hsame|exact Hk|exact Hh].
  - eapply resume_locked; [exact Ei| |done|apply detach_locked|done]. intros q. apply Hh.
Qed.
Lemma step_locked ev c : locked c → locked (step ev c).
Proof.
  intros Hlock. destruct ev as [i| |i j r|i yes|i ok|]; cbn [step].
  - destruct (enabled i (cPage c)); [|done]. apply start_locked; [|done]. intros q. apply careful_handler.
  - destruct (hidden (cPage c) "app"); [done|]. apply start_locked; [|done]. auto with console.
  - by apply deliver_locked.
  - destruct (cPool c !! i) as [[]|] eqn:E; try done. eapply resume_locked; try done.
    intros q _. pose proof (Forall_lookup_1 _ _ _ _ (proj1 Hlock) E q) as [_ Hq]. apply Hq.
  - destruct (cPool c !! i) as [[]|] eqn:E; try done. eapply resume_locked; try done.
    intros q _. pose proof (Forall_lookup_1 _ _ _ _ (proj1 Hlock) E q) as [_ Hq]. apply Hq.
  - done.
Qed.
Lemma reachable_locked c : reachable c → locked c.
Proof.
  intros [evs ->]. unfold runEvents. assert (locked opened) as Ho.
  { apply start_locked; [apply careful_startup|]. split; [constructor|done]. }
  revert Ho. generalize opened as c0. induction evs as [|ev evs IH]; intros c0 H0; [done|].
  cbn [foldl]. by apply IH, step_locked.
Qed.
End Lock.

(** ** Theorems *)

(** A browser with ASCII case tables, served from http://localhost:8899. *)
Definition plainBrowser : Browser := {|
  toLowerCase := toLower (U := asciiTables);
  toUpperCase := toUpper (U := asciiTables);
  jsTrim := trimSpace;
  inherited := λ _, None;
  localeTime := λ t, itoa (t / Second);
  localeNumber := λ n, itoa (Z.of_N n);
  newURL := λ path, mkURL "http:" "localhost" "8899" path;
  parseHostname := λ h, if bool_decide (h = "") then None else Some h
|}.

(** The answers to [loadAll] from a server with a proxy that runs or not. *)
Definition loadBodies (running : bool) : list Body :=
  let st := mkStatus true "embedded-vmess" true running "in-memory" "" "" in
  [BodyStatus InitialSnapshot (mkCounts 0 0 0 0 0); BodyNodes []; BodyLogs []; BodyProxy st;
   BodyEnvironment (mkEnv "linux" "" true "" "" true false false "" "" "" 0 0 0 0 "") st;
   BodyPreview "/sub/vmess?token=t" "/sub/quantumult-x?token=t" "auto" "192.0.2.1" "127.0.0.1:8899" "" 0].
(** They arrive one after the other, for the task [i]. *)
Definition loadEvents (i : nat) (running : bool) : list consoleEvent :=
  imap (λ j b, [Net i j (Headers 200 "OK"); Net i j (BodyJSON b)]) (loadBodies running) ≫= id.

Section Theorems.
Context {B : Browser}.

(** C24. In every console that events can lead to, [loadingAll] is set exactly while
    one task, and only one, waits for the answers of a refresh: refreshes do not
    overlap, and none is refused for ever because an earlier one has failed. *)
Theorem one_load_at_a_time c : reachable c → loads (cPool c) = Nat.b2n (loadingAll (cPage c)).
Proof. intros H. by apply reachable_locked. Qed.

(** The script writes only to elements that the page has, and every request it
    has in flight is one of the requests listed in [known]. *)
Theorem script_stays_on_page c : reachable c →
  dom (elements (cPage c)) = dom initialElements ∧
  ∀ i cs k h, cPool c !! i = Some (Calls cs k h) → Forall (λ s, known (callOf s)) cs.
Proof.
  intros H. destruct (reachable_good hasIds known c script_respectful H) as [Hp Hc]. split; [exact Hp|].
  intros i cs k h Hi. pose proof (Forall_lookup_1 _ _ _ _ Hc Hi) as (Hcs & _). exact Hcs.
Qed.

(** The requests a task waits for. *)
Definition awaiting (c : Console) (i : nat) : list call :=
  match cPool c !! i with Some (Calls cs _ _) => callOf <$> cs | _ => [] end.

(** The console is loaded, the user opens the environment and asks to stop the
    proxy; while the question is open, the timer learns that it has stopped
    already; the user confirms. *)
Definition stopRace : list consoleEvent :=
  [Net 0 0 (Headers 200 "OK"); Net 0 0 (BodyJSON (BodyUser "admin"))] ++ loadEvents 0 true ++
  [User Environment_] ++ loadEvents 1 true ++ [User ProxyToggle; Tick] ++ loadEvents 3 false ++ [Answer 2 true].

(** Confirming "stop the VMESS service" can start it: the endpoint is chosen
    after the question, from a variable that the timer updates meanwhile. *)
Theorem confirmed_stop_starts :
  let question := runEvents (take 28 stopRace) opened in
  let c := runEvents stopRace opened in
  proxyRunning (cPage question) = true ∧ eContent (elem (cPage question) "confirmTitle") = textOf "停止 VMESS 服务" ∧
  awaiting c 2 = [postCall "/api/proxy/start"].
Proof. vm_compute. auto. Qed.

(** The timer's refresh has its status, the user connects and the server answers,
    then the rest of the refresh arrives. *)
Definition connectedSnapshot : ConnectionSnapshot := setState StateConnected (setActiveNodeID "live" InitialSnapshot).
Definition connectRace : list consoleEvent :=
  [Net 0 0 (Headers 200 "OK"); Net 0 0 (BodyJSON (BodyUser "admin"))] ++ loadEvents 0 true ++
  [Tick] ++ take 2 (loadEvents 1 true) ++
  [User Connect; Net 2 0 (Headers 200 "OK"); Net 2 0 (BodyJSON (BodySnapshot connectedSnapshot))] ++ drop 2 (loadEvents 1 true).

(** An action does not refresh the page while the timer's refresh is under way: here
    all is done, the server has answered that it is connected, the console has
    said so, and the page still shows the state from before. *)
Theorem refresh_after_action_lost :
  let c := runEvents connectRace opened in
  cPool c = [Done; Done; Done] ∧ toastContent <$> toasts (cPage c) = [toastTokens "VPNGate 出口已连接"] ∧
  pgSnapshot (cPage c) = Some InitialSnapshot ∧ eContent (elem (cPage c) "activeNode") = textOf "未连接".
Proof. vm_compute. auto. Qed.
End Theorems.

(** *** Concrete consoles *)

Definition loadingConsole : Console := runEvents (B := plainBrowser) (take 2 stopRace) (opened (B := plainBrowser)).
Definition raceConsole : Console := runEvents (B := plainBrowser) stopRace (opened (B := plainBrowser)).
Lemma loadingConsole_reachable : reachable (B := plainBrowser) loadingConsole.
Proof. exists (take 2 stopRace). reflexivity. Qed.
Lemma raceConsole_reachable : reachable (B := plainBrowser) raceConsole.
Proof. exists stopRace. reflexivity. Qed.
Lemma raceConsole_awaiting : awaiting raceConsole 2 = [postCall "/api/proxy/start"].
Proof. vm_compute. reflexivity. Qed.
Lemma awaiting_all (P : call → Prop) c i :
  (∀ cs k h, cPool c !! i = Some (Calls cs k h) → Forall (λ s, P (callOf s)) cs) → Forall P (awaiting c i).
Proof.
  intros H. unfold awaiting. destruct (cPool c !! i) as [[| | |cs k h| |]|]; try done. apply Forall_fmap. by eapply H.
Qed.

Lemma one_load_at_a_time_witness : loadingAll (cPage loadingConsole) = true ∧ loads (cPool loadingConsole) = 1.
Proof.
  assert (loadingAll (cPage loadingConsole) = true) as H by (vm_compute; reflexivity). split; [exact H|].
  rewrite (one_load_at_a_time (B := plainBrowser) _ loadingConsole_reachable), H. reflexivity.
Defined.
Lemma script_stays_on_page_witness :
  dom (elements (cPage raceConsole)) = dom initialElements ∧ Forall known [postCall "/api/proxy/start"].
Proof.
  destruct (script_stays_on_page (B := plainBrowser) _ raceConsole_reachable) as [H Hk]. split; [exact H|].
  rewrite <-raceConsole_awaiting. apply awaiting_all. exact (Hk 2).
Defined.
