(* ===== verification/ConsoleServer.v ===== *)
(** * The console and the server together

    The requests of the script ([Console]) answered by the handlers of the server
    ([Server.Handler]): the network between them changes nothing, the cookie jar of
    the browser is part of the state. *)

From S2P Require Import Prelude GoStrings GoNet GoCodec Domain Failover Probe Classify Html ConsolePage.
From S2P Require Import Verify Config ProxyCore Subscription Storage Tunnel TunnelApi Server ServerProps ConsoleView ConsoleProps Console ConsoleMachine.

(** The request of a call. The bodies are JSON objects, so the login handler
    decodes them all; without a body it does not. *)
Definition requestOf (tls : bool) (jar : option string) (c : call) : Request :=
  mkRequest (if callPost c then "POST" else "GET") (callPath c) jar
    (match callBody c with NoBody => None | LoginBody u p => Some (u, p) | _ => Some ("", "") end)
    (match callBody c with NodeBody id => id | _ => "" end) "" tls.

(** What the script expects of a successful answer. *)
Definition expected (path : string) (b : Body) : bool :=
  match b with
  | BodyStatus _ _ => bool_decide (path = "/api/status")
  | BodyNodes _ => bool_decide (path = "/api/nodes")
  | BodyLogs _ => bool_decide (path = "/api/logs")
  | BodyProxy _ => bool_decide (path ∈ ["/api/proxy/status"; "/api/proxy/start"; "/api/proxy/stop"])
  | BodyEnvironment _ _ => bool_decide (path = "/api/environment")
  | BodyPreview _ _ _ _ _ _ _ => bool_decide (path = "/api/subscription/preview")
  | BodyUser _ => bool_decide (path = "/api/me")
  | BodyVerify _ => bool_decide (path = "/api/exit/verify")
  | BodyNodeCount _ => bool_decide (path = "/api/nodes/refresh")
  | BodyCounts _ => bool_decide (path ∈ ["/api/nodes/classify"; "/api/nodes/probe"])
  | BodySnapshot _ => bool_decide (path = "/api/connect")
  | BodyOK => bool_decide (path ∈ ["/api/login"; "/api/logout"; "/api/disconnect"])
  | _ => false
  end.

(** An answer that was meant for the path: a success has the expected body, a
    failure an error message; neither is the page, 404 of the router, or 405. *)
Definition answers (path : string) (rsp : Response) : Prop :=
  rspCode rsp ≠ 405%Z ∧
  (if (rspCode rsp =? 200)%Z then expected path (rspBody rsp) = true
   else match rspBody rsp with BodyError _ | BodyProxyError _ _ => True | _ => False end).

Section Served.
Context {T : Type} {API : TunnelAPI T} {U : UnicodeTables} (env : Environment) (cfg : Config).

(** What a handler answers, from any world. *)
Definition yields {A} (Q : A → Prop) (m : M T A) : Prop := ∀ w, Q (m w).1.
Lemma yields_ret {A} (Q : A → Prop) (a : A) : Q a → yields Q (mret a).
Proof. by intros H w. Qed.
Lemma yields_bind {A C} (Q : C → Prop) (m : M T A) (f : A → M T C) : (∀ a, yields Q (f a)) → yields Q (m ≫= f).
Proof. intros H w. unfold mbind, M_bind. destruct (m w) as [a w']. apply H. Qed.

Ltac yielding :=
  repeat first
    [ apply yields_ret; split; [discriminate|cbn; first [reflexivity | exact I | done]]
    | apply yields_bind; intros ?
    | case_goal ].

Lemma read_handlers_answer (r : Request) :
  yields (answers "/api/me") (me cfg r) ∧ yields (answers "/api/status") (Server.status r) ∧
  yields (answers "/api/nodes") (listNodes r) ∧ yields (answers "/api/logs") (listLogs r) ∧
  yields (answers "/api/environment") (environment env r) ∧ yields (answers "/api/proxy/status") (proxyStatus r) ∧
  yields (answers "/api/subscription/preview") (subscriptionPreview env cfg r).
Proof.
  split_and!.
  - unfold me. yielding.
  - unfold Server.status. yielding.
  - unfold listNodes. yielding.
  - unfold listLogs. yielding.
  - unfold environment. yielding.
  - unfold proxyStatus. yielding.
  - unfold subscriptionPreview. yielding.
Qed.

Lemma post_handlers_answer (r : Request) :
  isPost r = true →
  yields (answers "/api/logout") (logout r) ∧ yields (answers "/api/nodes/refresh") (refreshNodes env r) ∧
  yields (answers "/api/nodes/classify") (classifyNodes env r) ∧ yields (answers "/api/nodes/probe") (probeNodes env cfg r) ∧
  yields (answers "/api/exit/verify") (verifyExit env cfg r) ∧ yields (answers "/api/proxy/start") (proxyStart env r) ∧
  yields (answers "/api/proxy/stop") (proxyStop env r) ∧ yields (answers "/api/connect") (connectExit env cfg r) ∧
  yields (answers "/api/disconnect") (disconnect env r).
Proof.
  intros Hr. split_and!.
  - unfold logout. rewrite Hr. cbn [negb]. yielding.
  - unfold refreshNodes. rewrite Hr. cbn [negb]. yielding.
  - unfold classifyNodes. rewrite Hr. cbn [negb]. yielding.
  - unfold probeNodes. rewrite Hr. cbn [negb]. yielding.
  - unfold verifyExit. rewrite Hr. cbn [negb]. yielding.
  - unfold proxyStart. rewrite Hr. cbn [negb]. yielding.
  - unfold proxyStop. rewrite Hr. cbn [negb]. yielding.
  - unfold connectExit. rewrite Hr. cbn [negb]. yielding.
  - unfold disconnect. rewrite Hr. cbn [negb]. yielding.
Qed.
Lemma login_answers (r : Request) : isPost r = true → yields (answers "/api/login") (login env cfg r).
Proof. intros Hr. unfold login. rewrite Hr. cbn [negb]. yielding. Qed.
Lemma requireAuth_answers path next r :
  yields (answers path) (next r) → yields (answers path) (requireAuth env next r).
Proof. intros H. unfold requireAuth. destruct (reqCookie r); yielding. apply H. Qed.
Lemma securityHeaders_answers path next r :
  yields (answers path) (next r) → yields (answers path) (securityHeaders next r).
Proof.
  intros H w. unfold securityHeaders, mbind, M_bind. specialize (H w). destruct (next r w) as [rsp w']. done.
Qed.

(** Every request of the script reaches the handler it is meant for. *)
Lemma requests_answered tls jar c w : known c → answers (callPath c) (Handler env cfg (requestOf tls jar c) w).1.
Proof.
  destruct c as [path post body]. intros Hk. cbn [callPath]. revert w. apply securityHeaders_answers.
  pose proof (read_handlers_answer (requestOf tls jar (mkCall path post body))) as (H1 & H2 & H3 & H4 & H5 & H6 & H7).
  unfold known in Hk. cbn [callPath callPost callBody] in Hk. destruct body as [| |u pw|id].
  - destruct post.
    + pose proof (post_handlers_answer (requestOf tls jar (mkCall path true NoBody)) eq_refl)
        as (P1 & P2 & P3 & P4 & P5 & P6 & P7 & P8 & P9).
      repeat (apply elem_of_cons in Hk as [->|Hk]); [..|by apply elem_of_nil in Hk];
        (eapply requireAuth_answers; eassumption).
    + repeat (apply elem_of_cons in Hk as [->|Hk]); [..|by apply elem_of_nil in Hk];
        (eapply requireAuth_answers; eassumption).
  - destruct Hk as [-> ->]. eapply (requireAuth_answers _ (connectExit env cfg)).
    by apply (post_handlers_answer (requestOf tls jar (mkCall "/api/connect" true EmptyBody))).
  - destruct Hk as [-> ->]. by apply login_answers.
  - destruct Hk as [-> ->]. eapply (requireAuth_answers _ (connectExit env cfg)).
    by apply (post_handlers_answer (requestOf tls jar (mkCall "/api/connect" true (NodeBody id)))).
Qed.
End Served.

(** ** The closed loop *)

Record Loop (T : Type) := mkLoop { lpPage : Page; lpWorld : World T; lpJar : option string }.
Arguments mkLoop {T}.
Arguments lpPage {T}.
Arguments lpWorld {T}.
Arguments lpJar {T}.

Section Loop.
Context {T : Type} {API : TunnelAPI T} {U : UnicodeTables} {B : Browser} (env : Environment) (cfg : Config).
(** Whether the page came over TLS, and the status line of a code. *)
Context (tls : bool) (statusText : Z → string).

(** The browser keeps or drops the session cookie. *)
Definition keepCookie (jar : option string) (rsp : Response) : option string :=
  match rspCookie rsp with
  | Some ck => match cookieExpires ck with Some _ => Some (cookieValue ck) | None => None end
  | None => jar
  end.
Definition bodyReply (b : Body) : reply :=
  match b with BodyText _ | BodyIndex | BodyNotFound => Broken "SyntaxError" | b => BodyJSON b end.

(** One call, from the request to the value or the error of [api]. *)
Definition exchange (c : call) (l : Loop T) : Loop T * (apiCall + string) :=
  let '(rsp, w) := Handler env cfg (requestOf tls (lpJar l) c) (lpWorld l) in
  let jar := keepCookie (lpJar l) rsp in
  match apiStep (AwaitHeaders c) (Headers (rspCode rsp) (statusText (rspCode rsp))) (lpPage l) with
  | (p, inr e) => (mkLoop p w jar, inr e)
  | (p, inl s) => let '(p, r) := apiStep s (bodyReply (rspBody rsp)) p in (mkLoop p w jar, r)
  end.

(** [Promise.all], its calls answered in order: the values, or the first error. *)
Fixpoint exchangeAll (cs : list apiCall) (l : Loop T) : Loop T * (list Body + string) :=
  match cs with
  | [] => (l, inl [])
  | s :: cs =>
      let '(l, r) := exchange (callOf s) l in
      let '(l, rs) := exchangeAll cs l in
      (l, match r, rs with
          | inl s, inl bodies => inl (default BodyOK (gotBody s) :: bodies)
          | inr e, _ => inr e
          | _, inr e => inr e
          end)
  end.

(** A task to its end; the user answers every dialog with [yes]. *)
Fixpoint interact (yes : bool) (t : Task) (l : Loop T) : Loop T :=
  match t with
  | Done | Rejected _ => l
  | Do f k => let p := f (lpPage l) in interact yes (k p) (mkLoop p (lpWorld l) (lpJar l))
  | Calls cs k h =>
      let '(l, r) := exchangeAll cs l in
      match r with inl bodies => interact yes (k bodies) l | inr e => interact yes (h e) l end
  | Ask k | Clip k => interact yes (k yes) l
  end.

(** *** Reading requests *)

(** The worlds that show the same to the console. *)
Definition sameState (w w' : World T) : Prop :=
  nodes w' = nodes w ∧ snapshot w' = snapshot w ∧ logs w' = logs w ∧ proxy w' = proxy w ∧ sessions w' = sessions w.

(** A session that outlives every reading of the clock. *)
Definition loggedIn (l : Loop T) : Prop :=
  ∃ v expires, lpJar l = Some v ∧ sessions (lpWorld l) !! v = Some expires ∧ ∀ k, timeBefore (envNow env k) expires = true.

Definition asked (w : World T) : World T :=
  mkWorld (nodes w) (snapshot w) (sessions w) (logs w) (tunnel w) (proxy w) (saved w) (S (tick w)).

Lemma exchange_get (h : Request → M T Response) c l :
  (∀ w, Handler env cfg (requestOf tls (lpJar l) c) w = securityHeaders (requireAuth env h) (requestOf tls (lpJar l) c) w) →
  loggedIn l →
  exchange c l =
    let '(rsp, w) := h (requestOf tls (lpJar l) c) (asked (lpWorld l)) in
    let jar := keepCookie (lpJar l) rsp in
    match apiStep (AwaitHeaders c) (Headers (rspCode rsp) (statusText (rspCode rsp))) (lpPage l) with
    | (p, inr e) => (mkLoop p w jar, inr e)
    | (p, inl s) => let '(p, r) := apiStep s (bodyReply (rspBody rsp)) p in (mkLoop p w jar, r)
    end.
Proof.
  intros Hh (v & ex & Hj & Hs & Ht). unfold exchange. rewrite Hh, Hj. unfold securityHeaders, mbind, M_bind.
  unfold requireAuth. cbn [reqCookie requestOf]. unfold sessionValid, get, now, ask, mbind, M_bind, mret, M_ret.
  rewrite Hs, Ht. cbn [fst snd]. fold (asked (lpWorld l)).
  destruct (h (requestOf tls (Some v) c) (asked (lpWorld l))) as [rsp w]. done.
Qed.

Lemma exchange_ok (h : Request → M T Response) c l body w' :
  (∀ w, Handler env cfg (requestOf tls (lpJar l) c) w = securityHeaders (requireAuth env h) (requestOf tls (lpJar l) c) w) →
  loggedIn l → h (requestOf tls (lpJar l) c) (asked (lpWorld l)) = (writeJSON 200 body, w') →
  bodyReply body = BodyJSON body →
  exchange c l = (mkLoop (lpPage l) w' (lpJar l), inl (Got c body)).
Proof. intros Hh Hl Ha Hb. rewrite (exchange_get h c l Hh Hl), Ha. cbn. by rewrite Hb. Qed.

Lemma loggedIn_same l p w' : loggedIn l → sameState (lpWorld l) w' → loggedIn (mkLoop p w' (lpJar l)).
Proof. intros (v & ex & Hj & Hs & Ht) (_ & _ & _ & _ & E). exists v, ex. cbn. by rewrite E. Qed.
Lemma sameState_trans w1 w2 w3 : sameState w1 w2 → sameState w2 w3 → sameState w1 w3.
Proof. intros (?&?&?&?&?) (?&?&?&?&?). repeat split; congruence. Qed.
Lemma sameState_asked w : sameState w (asked w).
Proof. by repeat split. Qed.
Lemma checkEnvironment_same w : sameState w (checkEnvironment env w).2.
Proof. by repeat split. Qed.

(** The answers of the server to [loadAll]. *)
Definition proxyView (w : World T) : ProxyCore.Status := statusLocked (proxy w) "".
Definition previewBody (text : string) : Body :=
  let sub := cfgSubscription cfg in
  BodyPreview ("/sub/vmess?token=" +:+ subToken sub) ("/sub/quantumult-x?token=" +:+ subToken sub) (subHost sub)
    (ResolveHost (envAddrs env) (subHost sub)) (srvListen (cfgServer cfg)) (subListen sub) (Z.of_nat (length (s2l text))).
Definition worldBodies (w : World T) (report : EnvironmentReport) (text : string) : list Body :=
  [BodyStatus (snapshot w) (countsLocked (nodes w)); BodyNodes (nodes w); BodyLogs (logs w); BodyProxy (proxyView w);
   BodyEnvironment report (proxyView w); previewBody text].

Lemma exchange_five l : loggedIn l →
  ∃ report w', sameState (lpWorld l) w' ∧ ∀ rest, exchangeAll ((AwaitHeaders ∘ getCall <$> take 5 loadPaths) ++ rest) l =
    let '(l', r) := exchangeAll rest (mkLoop (lpPage l) w' (lpJar l)) in
    (l', match r with inl bodies => inl (take 5 (worldBodies (lpWorld l) report "") ++ bodies) | inr e => inr e end).
Proof.
  intros Hl. destruct l as [p w jar].
  set (w1 := asked w). set (w2 := asked w1). set (w3 := asked w2). set (w4 := asked w3). set (w5 := asked w4).
  exists (checkEnvironment env w5).1, (checkEnvironment env w5).2. split; [by repeat split|]. intros rest.
  cbn [loadPaths take fmap list_fmap app exchangeAll compose callOf].
  rewrite (exchange_ok Server.status (getCall "/api/status") (mkLoop p w jar) _ w1 (λ _, eq_refl) Hl eq_refl eq_refl).
  cbn [lpPage lpJar].
  assert (∀ w', sameState w w' → loggedIn (mkLoop p w' jar)) as Hin by (intros w' Hw'; by apply (loggedIn_same _ p w' Hl)).
  rewrite (exchange_ok listNodes (getCall "/api/nodes") (mkLoop p w1 jar) _ w2 (λ _, eq_refl)
    (Hin _ ltac:(by repeat split)) eq_refl eq_refl). cbn [lpPage lpJar].
  rewrite (exchange_ok listLogs (getCall "/api/logs") (mkLoop p w2 jar) _ w3 (λ _, eq_refl)
    (Hin _ ltac:(by repeat split)) eq_refl eq_refl). cbn [lpPage lpJar].
  rewrite (exchange_ok proxyStatus (getCall "/api/proxy/status") (mkLoop p w3 jar) _ w4 (λ _, eq_refl)
    (Hin _ ltac:(by repeat split)) eq_refl eq_refl). cbn [lpPage lpJar].
  rewrite (exchange_ok (environment env) (getCall "/api/environment") (mkLoop p w4 jar) _ (checkEnvironment env w5).2 (λ _, eq_refl)
    (Hin _ ltac:(by repeat split)) eq_refl eq_refl). cbn [lpPage lpJar].
  cbn [lpPage lpJar]. destruct (exchangeAll rest _) as [l' [bodies|e]]; done.
Qed.

(** The refresh against the server: with the subscription, all six answers are
    drawn; without it the sixth is an error. *)
Lemma interact_loadAll yes sf k l : loggedIn l → subEnabled (cfgSubscription cfg) = true → loadingAll (lpPage l) = false →
  ∃ report text w', sameState (lpWorld l) w' ∧
    interact yes (loadAll sf k) l =
    interact yes k (mkLoop (setLoadingAll false (showLoaded (worldBodies (lpWorld l) report text) (setLoadingAll true (lpPage l))))
      w' (lpJar l)).
Proof.
  intros Hl He Hload. destruct l as [p w jar]. cbn [lpPage] in Hload.
  destruct (exchange_five (mkLoop (setLoadingAll true p) w jar) Hl) as (report & w5 & Hsame & Hfive).
  assert (loggedIn (mkLoop (setLoadingAll true p) w5 jar)) as Hl5.
  { by apply (loggedIn_same (mkLoop p w jar) _ w5 Hl). }
  destruct (VMESS (envAddrs env) (cfgSubscription cfg) (nodes w5)) as [text|e] eqn:Ev.
  2:{ unfold VMESS in Ev. by rewrite He in Ev. }
  exists report, text, (asked w5). split; [done|].
  cbn [loadAll interact read draw id lpPage]. rewrite Hload. cbn [interact draw lpPage lpWorld lpJar].
  change (AwaitHeaders ∘ getCall <$> loadPaths) with
    ((AwaitHeaders ∘ getCall <$> take 5 loadPaths) ++ [AwaitHeaders (getCall "/api/subscription/preview")]).
  rewrite Hfive. cbn [exchangeAll callOf lpPage lpWorld lpJar].
  rewrite (exchange_ok (subscriptionPreview env cfg) (getCall "/api/subscription/preview")
    (mkLoop (setLoadingAll true p) w5 jar) (previewBody text) (asked w5) (λ _, eq_refl) Hl5); [done| |done].
  unfold subscriptionPreview, mbind, M_bind, get. cbn [nodes asked lpWorld]. by rewrite Ev.
Qed.

(** *** What the page shows after a refresh *)

Lemma showLoaded_globals w report text p :
  let q := showLoaded (worldBodies w report text) p in
  pgNodes q = nodes w ∧ pgSnapshot q = Some (snapshot w) ∧ proxyRunning q = stRunning (proxyView w) ∧ toasts q = toasts p.
Proof.
  cbn -[renderStatus renderLogs]. unfold renderStatus, renderVerification, renderLogs. repeat case_goal; done.
Qed.

(** The parts of the page are drawn by one function each. *)
Lemma apart (l l' : list string) : Forall (λ x, x ∉ l') l → ∀ id, id ∈ l → id ∉ l'.
Proof. rewrite Forall_forall. auto. Qed.
Lemma showLoaded_elem w report text p :
  let q := showLoaded (worldBodies w report text) p in
  (∀ id, id ∈ statusIds → ∃ p0, elem q id = elem (renderStatus (snapshot w) (countsLocked (nodes w)) p0) id) ∧
  (∀ id, id ∈ proxyIds → ∃ p0, elem q id = elem (renderProxy (proxyView w) p0) id) ∧
  (∃ p0, elem q "logs" = elem (renderLogs (logs w) p0) "logs").
Proof.
  cbv zeta. unfold worldBodies, previewBody, showLoaded. cbv zeta. unfold andThen. split_and!.
  - intros id Hid. eexists.
    rewrite writes_renderSubscription, writes_renderLogs, writes_renderNodes, writes_renderEnvironment, writes_renderProxy
      by (eapply apart; [|exact Hid]; decided). reflexivity.
  - intros id Hid. eexists.
    rewrite writes_renderSubscription, writes_renderLogs, writes_renderNodes, writes_renderEnvironment
      by (eapply apart; [|exact Hid]; decided). reflexivity.
  - eexists. rewrite writes_renderSubscription by decided. reflexivity.
Qed.

(** The rows are those of the nodes the filter lets through. *)
Lemma filteredNodes_congr p q :
  pgNodes p = pgNodes q → nodeFilter p = nodeFilter q → elem p "nodeSearch" = elem q "nodeSearch" →
  filteredNodes p = filteredNodes q.
Proof. intros H1 H2 H3. unfold filteredNodes. by rewrite H1, H2, H3. Qed.
(** The log and the subscription leave the table alone. *)
Lemma table_renderLogs l p :
  rows (renderLogs l p) = rows p ∧ pgNodes (renderLogs l p) = pgNodes p ∧
  nodeFilter (renderLogs l p) = nodeFilter p ∧ pgSnapshot (renderLogs l p) = pgSnapshot p.
Proof. by destruct l. Qed.
Lemma table_renderSubscription pv p :
  rows (renderSubscription pv p) = rows p ∧ pgNodes (renderSubscription pv p) = pgNodes p ∧
  nodeFilter (renderSubscription pv p) = nodeFilter p ∧ pgSnapshot (renderSubscription pv p) = pgSnapshot p.
Proof. done. Qed.
Lemma table_renderNodes p :
  pgNodes (renderNodes p) = pgNodes p ∧ nodeFilter (renderNodes p) = nodeFilter p ∧ pgSnapshot (renderNodes p) = pgSnapshot p.
Proof. done. Qed.
Lemma showLoaded_rows w report text p :
  let q := showLoaded (worldBodies w report text) p in
  rows q = (λ node, rowButton (rowActive q node) node) <$> filteredNodes q.
Proof.
  cbv zeta. unfold worldBodies, previewBody, showLoaded. cbv zeta. unfold andThen.
  match goal with |- context [renderNodes ?p0] => set (r := p0) end.
  set (s := renderLogs _ (renderNodes r)). set (pv := mkPreview _ _ _ _ _ _).
  destruct (table_renderSubscription pv s) as (-> & E1 & E2 & E3).
  destruct (table_renderLogs (logs w) (renderNodes r)) as (E0 & E4 & E5 & E6). fold s in E0, E4, E5, E6.
  destruct (table_renderNodes r) as (E7 & E8 & E9).
  rewrite E0, rows_renderNodes.
  assert (filteredNodes (renderSubscription pv s) = filteredNodes r) as ->.
  { apply filteredNodes_congr; [congruence|congruence|].
    unfold s. by rewrite writes_renderSubscription, writes_renderLogs, writes_renderNodes by decided. }
  unfold rowActive. by rewrite E3, E6, E9.
Qed.


(** ** Without the subscription *)

(** Pages that differ at most in which view is shown. *)
Definition sameView (p p' : Page) : Prop :=
  pgNodes p' = pgNodes p ∧ pgSnapshot p' = pgSnapshot p ∧ rows p' = rows p ∧ toasts p' = toasts p ∧ loadingAll p' = loadingAll p ∧
  ∀ id, id ∉ ["login"; "app"; "password"] → elem p' id = elem p id.
Lemma sameView_refl p : sameView p p.
Proof. done. Qed.
Lemma sameView_trans p1 p2 p3 : sameView p1 p2 → sameView p2 p3 → sameView p1 p3.
Proof. intros (?&?&?&?&?&Ha) (?&?&?&?&?&Hb). repeat split; try congruence. intros id Hid. by rewrite Hb, Ha. Qed.
Lemma sameView_showApp p v : sameView p (showApp v p).
Proof. repeat split; try (by destruct v). intros id Hid. by apply writes_showApp. Qed.

Lemma apiStep_view s r p : sameView p (apiStep s r p).1.
Proof. destruct (apiStep_page s r p) as [-> | ->]; [apply sameView_refl|apply sameView_showApp]. Qed.
Lemma exchange_view c l : sameView (lpPage l) (lpPage (exchange c l).1).
Proof.
  unfold exchange. destruct (Handler env cfg _ _) as [rsp w].
  pose proof (apiStep_view (AwaitHeaders c) (Headers (rspCode rsp) (statusText (rspCode rsp))) (lpPage l)) as H1.
  destruct (apiStep _ _ _) as [p [s|e]]; [|done].
  pose proof (apiStep_view s (bodyReply (rspBody rsp)) p) as H2. destruct (apiStep s _ p) as [p' r].
  by eapply sameView_trans.
Qed.
Lemma exchangeAll_view cs l : sameView (lpPage l) (lpPage (exchangeAll cs l).1).
Proof.
  revert l. induction cs as [|s cs IH]; intros l; [apply sameView_refl|]. cbn [exchangeAll].
  pose proof (exchange_view (callOf s) l) as H1. destruct (exchange (callOf s) l) as [l1 r1].
  specialize (IH l1). destruct (exchangeAll cs l1) as [l2 r2]. by eapply sameView_trans.
Qed.
Lemma exchangeAll_fails cs s l :
  s ∈ cs → (∀ l, ∃ e, (exchange (callOf s) l).2 = inr e) → ∃ e, (exchangeAll cs l).2 = inr e.
Proof.
  intros Hs Hf. revert l. induction cs as [|s' cs IH]; intros l; [by apply elem_of_nil in Hs|]. cbn [exchangeAll].
  apply elem_of_cons in Hs as [<-|Hs].
  - destruct (Hf l) as [e He]. destruct (exchange (callOf s) l) as [l1 r1]. cbn in He. subst r1.
    destruct (exchangeAll cs l1). by exists e.
  - destruct (exchange (callOf s') l) as [l1 r1]. destruct (IH Hs l1) as [e He].
    destruct (exchangeAll cs l1) as [l2 r2]. cbn in He. subst r2. destruct r1; eauto.
Qed.

Definition refused (rsp : Response) : Prop := rspCode rsp = 400%Z ∨ rspCode rsp = 401%Z.
Lemma preview_yields r : subEnabled (cfgSubscription cfg) = false →
  yields refused (securityHeaders (requireAuth (T := T) env (subscriptionPreview env cfg)) r).
Proof.
  intros Hd w. assert (yields refused (requireAuth (T := T) env (subscriptionPreview env cfg) r)) as Hy.
  { unfold requireAuth, subscriptionPreview, VMESS. rewrite Hd. cbn [negb].
    destruct (reqCookie r); repeat first [apply yields_bind; intros ? | case_goal | apply yields_ret; unfold refused; cbn; auto]. }
  specialize (Hy w). unfold securityHeaders, mbind, M_bind. by destruct (requireAuth _ _ _ _).
Qed.
Lemma preview_refused l : subEnabled (cfgSubscription cfg) = false →
  ∃ e, (exchange (getCall "/api/subscription/preview") l).2 = inr e.
Proof.
  intros Hd. unfold exchange.
  pose proof (preview_yields (requestOf tls (lpJar l) (getCall "/api/subscription/preview")) Hd (lpWorld l)) as Hy.
  change (securityHeaders (requireAuth env (subscriptionPreview env cfg)) (requestOf tls (lpJar l) (getCall "/api/subscription/preview")) (lpWorld l))
    with (Handler env cfg (requestOf tls (lpJar l) (getCall "/api/subscription/preview")) (lpWorld l)) in Hy.
  destruct (Handler env cfg _ _) as [rsp w]. cbn in Hy. destruct Hy as [-> | ->]; cbn.
  - destruct (rspBody rsp); cbn; eauto.
  - eauto.
Qed.

(** A server whose subscription is switched off (a valid configuration) answers
    the sixth request of a refresh with an error, so the refresh draws nothing:
    neither the state nor the nodes nor the log are ever shown, all the user sees
    is an error. *)
Theorem console_needs_subscription yes sf l :
  subEnabled (cfgSubscription cfg) = false → loadingAll (lpPage l) = false →
  let p := lpPage l in let p' := lpPage (interact yes (loadAll sf Done) l) in
  pgNodes p' = pgNodes p ∧ pgSnapshot p' = pgSnapshot p ∧ rows p' = rows p ∧ loadingAll p' = false ∧
  (∀ id, id ∉ ["login"; "app"; "password"] → elem p' id = elem p id) ∧
  length (toasts p') = length (toasts p) + (if sf then 1 else 0).
Proof.
  intros Hd Hload. destruct l as [p w jar]. cbn [lpPage] in *.
  unfold loadAll, read, draw. cbn [interact lpPage id lpWorld lpJar]. rewrite Hload. cbn [interact lpPage lpWorld lpJar].
  set (l1 := mkLoop (setLoadingAll true p) w jar).
  pose proof (exchangeAll_view (AwaitHeaders ∘ getCall <$> loadPaths) l1) as Hv.
  destruct (exchangeAll_fails (AwaitHeaders ∘ getCall <$> loadPaths) (AwaitHeaders (getCall "/api/subscription/preview")) l1)
    as [e He].
  { apply list_elem_of_fmap. exists "/api/subscription/preview". split; [done|decided]. }
  { intros l. by apply preview_refused. }
  destruct (exchangeAll _ l1) as [[q w' jar'] r]. cbn in He, Hv. subst r. cbn [interact lpPage lpWorld lpJar].
  destruct Hv as (V1 & V2 & V3 & V4 & V5 & V6).
  destruct sf; cbn; rewrite ?length_app, V1, V2, V3, V4; split_and!; try done; cbn; lia.
Qed.

(** ** Actions *)

Lemma interact_await yes c k h l :
  interact yes (await c k h) l =
  let '(l, r) := exchange c l in
  match r with inl s => interact yes (k (default BodyOK (gotBody s))) l | inr e => interact yes (h e) l end.
Proof. unfold await. cbn [interact exchangeAll callOf]. by destruct (exchange c l) as [l1 [s|e]]. Qed.

Lemma interact_read yes k l : interact yes (read k) l = interact yes (k (lpPage l)) l.
Proof. by destruct l. Qed.
Lemma interact_askConfirm yes title message lbl k l :
  interact yes (askConfirm title message lbl k) l =
  interact yes (k yes) (mkLoop (closeDialog "confirmDialog"
    ((textContent "confirmTitle" title >> textContent "confirmMessage" message >>
      textContent "confirmAccept" (jsOr lbl "继续") >> showModal "confirmDialog") (lpPage l))) (lpWorld l) (lpJar l)).
Proof. done. Qed.

(** The page and the world after a call that succeeds, a toast and a refresh. *)
Lemma interact_refreshed yes m k l : loggedIn l → subEnabled (cfgSubscription cfg) = true → loadingAll (lpPage l) = false →
  ∃ report text w' p0, sameState (lpWorld l) w' ∧ toasts p0 = toasts (toast m false (lpPage l)) ∧
    interact yes (draw (toast m false) (loadAll true k)) l =
    interact yes k (mkLoop (setLoadingAll false (showLoaded (worldBodies (lpWorld l) report text) p0)) w' (lpJar l)).
Proof.
  intros Hl He Hload. unfold draw at 1. cbn [interact].
  destruct (interact_loadAll yes true k (mkLoop (toast m false (lpPage l)) (lpWorld l) (lpJar l)) Hl He Hload)
    as (report & text & w' & Hs & ->).
  exists report, text, w'. eexists. split_and!; [done| |done]. done.
Qed.

Lemma verifyExit_failed r (w w' : World T) result :
  verifyExit env cfg r w = (writeJSON 200 (BodyVerify result), w') → resPassed result = false →
  State (snapshot w') = StateError ∧ is_Some (LastVerifiedAt (snapshot w')) ∧ sessions w' = sessions w.
Proof.
  intros E Hr. assert (keeps (T := T) sessions (verifyExit env cfg r)) as Hk.
  { unfold verifyExit, activeNode, verifyNodeExit, applyVerifyResult. frame. }
  pose proof (Hk w) as Hs. rewrite E in Hs. cbn in Hs.
  unfold verifyExit in E. destruct (negb (isPost r)); [discriminate|].
  rewrite bind_run in E. destruct (activeNode w).1 as [node|]; [|discriminate].
  rewrite bind_run in E. destruct (verifyNodeExit env cfg node _).1 as [res|e]; [|by rewrite bind_run in E].
  rewrite bind_run in E. injection E as -> <-. split; [|split; [|done]].
  - unfold applyVerifyResult. rewrite !bind_run, saveLocked_snapshot, addLog_snapshot. cbn. by rewrite Hr.
  - unfold applyVerifyResult. rewrite !bind_run, saveLocked_snapshot, addLog_snapshot. cbn. done.
Qed.

(** What a click on the verify button leaves on the page. *)
Lemma interact_clickVerify yes l result w1 :
  exchange (postCall "/api/exit/verify") (mkLoop (setButton (ById "verifyBtn")
    (tokenize (markup "<span class='spinner'></span>" +:+ "复核中")) true (lpPage l)) (lpWorld l) (lpJar l)) =
    (mkLoop (setButton (ById "verifyBtn") (tokenize (markup "<span class='spinner'></span>" +:+ "复核中")) true (lpPage l))
      w1 (lpJar l), inl (Got (postCall "/api/exit/verify") (BodyVerify result))) →
  loggedIn (mkLoop (lpPage l) w1 (lpJar l)) → subEnabled (cfgSubscription cfg) = true → loadingAll (lpPage l) = false →
  ∃ report text w' p0, toasts p0 = toasts (toast ("出口验证通过：" +:+ resExitIP result) false (lpPage l)) ∧
    interact yes clickVerify l =
    mkLoop (setButton (ById "verifyBtn") (buttonContent (ById "verifyBtn") (lpPage l)) false
      (setLoadingAll false (showLoaded (worldBodies w1 report text) p0))) w' (lpJar l).
Proof.
  intros Hx Hl He Hload. unfold clickVerify, runAction, read. cbn [interact id lpPage lpWorld lpJar].
  unfold draw at 1. cbn [interact lpPage lpWorld lpJar]. rewrite interact_await, Hx. cbn [gotBody default].
  match goal with |- context [interact yes (draw (toast ?m false) (loadAll true ?k)) ?l1] =>
    destruct (interact_refreshed yes m k l1) as (report & text & w' & p0 & Hs & Ht & E) end; [done|done|done|].
  exists report, text, w', p0. split; [done|]. rewrite E. done.
Qed.

(** The handler behind a button, and what a session sees of it. *)
Lemma exchange_post (h : Request → M T Response) c l body w1 :
  (∀ w, Handler env cfg (requestOf tls (lpJar l) c) w = securityHeaders (requireAuth env h) (requestOf tls (lpJar l) c) w) →
  loggedIn l → h (requestOf tls (lpJar l) c) (asked (lpWorld l)) = (writeJSON 200 body, w1) →
  bodyReply body = BodyJSON body → sessions w1 = sessions (asked (lpWorld l)) →
  (∀ p, exchange c (mkLoop p (lpWorld l) (lpJar l)) = (mkLoop p w1 (lpJar l), inl (Got c body))) ∧
  loggedIn (mkLoop (lpPage l) w1 (lpJar l)).
Proof.
  intros Hh Hl Ha Hb Hs. split.
  - intros p. by apply (exchange_ok h c (mkLoop p (lpWorld l) (lpJar l))).
  - destruct Hl as (v & ex & Hj & Hv & Ht). exists v, ex. cbn. by rewrite Hs.
Qed.

(** A verification that does not pass is shown as passed: the console says so in a
    toast and keeps a green badge, beside the error state the server reports. *)
Theorem failed_verification_shown_passed yes l result w1 :
  loggedIn l → subEnabled (cfgSubscription cfg) = true → loadingAll (lpPage l) = false →
  verifyExit env cfg (requestOf tls (lpJar l) (postCall "/api/exit/verify")) (asked (lpWorld l)) =
    (writeJSON 200 (BodyVerify result), w1) → resPassed result = false →
  let p := lpPage (interact yes clickVerify l) in
  mkToast ["toast"] (toastTokens ("出口验证通过：" +:+ resExitIP result)) ∈ toasts p ∧
  (∃ at_, eContent (elem p "verificationState") = textOf ("验证通过 · " +:+ localeTime at_)) ∧
  eClass (elem p "verificationState") = ["badge"; "good"] ∧
  eContent (elem p "stateText") = textOf "需要处理".
Proof.
  intros Hl He Hload Hv Hr. destruct (verifyExit_failed _ _ _ _ Hv Hr) as (Hstate & [at_ Hat] & Hs).
  destruct (exchange_post (verifyExit env cfg) (postCall "/api/exit/verify") l _ w1 (λ _, eq_refl) Hl Hv eq_refl Hs) as [Hx Hl1].
  destruct (interact_clickVerify yes l result w1 (Hx _) Hl1 He Hload) as (report & text & w' & p0 & Ht & ->).
  cbn [lpPage setButton]. destruct (showLoaded_globals w1 report text p0) as (_ & _ & _ & G4).
  destruct (showLoaded_elem w1 report text p0) as (S1 & _). revert G4 S1.
  generalize (showLoaded (worldBodies w1 report text) p0) as q. intros q G4 S1.
  rewrite !elem_onElem_if. cbn [String.eqb Ascii.eqb Bool.eqb]. rewrite !elem_setLoadingAll.
  destruct (S1 "stateText" ltac:(decided)) as (p1 & ->). destruct (S1 "verificationState" ltac:(decided)) as (p2 & ->).
  destruct (renderStatus_shows (snapshot w1) (countsLocked (nodes w1)) p1) as (-> & _).
  destruct (renderStatus_shows (snapshot w1) (countsLocked (nodes w1)) p2) as (_ & _ & _ & _ & _ & Hb).
  rewrite Hat in Hb. destruct Hb as [-> ->]. rewrite Hstate. split_and!; [|by eexists|done|done].
  change (toasts (onElem _ _ (setLoadingAll false q))) with (toasts q). rewrite G4, Ht.
  rewrite toasts_toast. apply elem_of_app. right. by left.
Qed.

(** What [toggleProxy] leaves on a page whose proxy runs, if the stop succeeds. *)
Lemma interact_toggleProxy yes l b w1 :
  (∀ p, exchange (postCall "/api/proxy/stop") (mkLoop p (lpWorld l) (lpJar l)) =
        (mkLoop p w1 (lpJar l), inl (Got (postCall "/api/proxy/stop") b))) →
  loggedIn (mkLoop (lpPage l) w1 (lpJar l)) → subEnabled (cfgSubscription cfg) = true →
  loadingAll (lpPage l) = false → proxyRunning (lpPage l) = true →
  ∃ report text w' p0, interact yes toggleProxy l =
    mkLoop (setButton (ById "proxyToggleBtn") (buttonContent (ById "proxyToggleBtn") (lpPage l)) false
      (setLoadingAll false (showLoaded (worldBodies w1 report text) p0))) w' (lpJar l).
Proof.
  intros Hx Hl He Hload Hrun. unfold toggleProxy, runAction, read. cbn [interact id lpPage lpWorld lpJar]. rewrite Hrun.
  unfold draw at 1. cbn [interact id lpPage lpWorld lpJar]. rewrite interact_await, Hx. cbn [gotBody default interact id lpPage lpWorld lpJar].
  match goal with |- context [interact yes (draw (toast ?m false) (loadAll true ?k)) ?l1] =>
    destruct (interact_refreshed yes m k l1) as (report & text & w' & p0 & Hs & Ht & E) end; [done|done|done|].
  exists report, text, w', p0. rewrite E. done.
Qed.

(** The button that stops the proxy keeps its label when the proxy has stopped:
    [runAction] puts back what the button said before, over what the refresh wrote. *)
Theorem stopped_proxy_says_stop l st w1 :
  loggedIn l → subEnabled (cfgSubscription cfg) = true → loadingAll (lpPage l) = false →
  proxyRunning (lpPage l) = true → eContent (elem (lpPage l) "proxyToggleBtn") = textOf "停止 VMESS" →
  proxyStop env (requestOf tls (lpJar l) (postCall "/api/proxy/stop")) (asked (lpWorld l)) = (writeJSON 200 (BodyProxy st), w1) →
  stRunning (proxyView w1) = false →
  let p := lpPage (interact true clickProxyToggle l) in
  proxyRunning p = false ∧ eContent (elem p "proxyToggleBtn") = textOf "停止 VMESS".
Proof.
  intros Hl He Hload Hrun Hlabel Hstop Hoff.
  assert (sessions w1 = sessions (asked (lpWorld l))) as Hs.
  { assert (keeps (T := T) sessions (proxyStop env (requestOf tls (lpJar l) (postCall "/api/proxy/stop")))) as Hk
      by (unfold proxyStop; frame).
    pose proof (Hk (asked (lpWorld l))) as H. by rewrite Hstop in H. }
  destruct (exchange_post (proxyStop env) (postCall "/api/proxy/stop") l _ w1 (λ _, eq_refl) Hl Hstop eq_refl Hs) as [Hx Hl1].
  cbv zeta. unfold clickProxyToggle. rewrite interact_read, Hrun, interact_askConfirm. set (q := closeDialog _ _).
  assert (loadingAll q = false ∧ proxyRunning q = true ∧
    eContent (elem q "proxyToggleBtn") = textOf "停止 VMESS") as (L1 & L2 & L3).
  { unfold q, closeDialog, andThen, showModal. case_bool_decide; split_and!; try done;
      (rewrite ?elem_setDialogs; unfold textContent; look; exact Hlabel). }
  clearbody q. destruct (interact_toggleProxy true (mkLoop q (lpWorld l) (lpJar l)) (BodyProxy st) w1 Hx Hl1 He L1 L2)
    as (report & text & w' & p0 & ->).
  destruct (showLoaded_globals w1 report text p0) as (_ & _ & G3 & _). revert G3.
  generalize (showLoaded (worldBodies w1 report text) p0) as q1. intros q1 G3.
  split; [cbn; by rewrite G3|]. cbn [lpPage setButton buttonContent]. rewrite elem_onElem. exact L3.
Qed.
End Loop.

(** ** The requests of the script *)

(** C22. Whatever the events, every request the script has in flight is answered by
    the handler it is meant for: the routes exist, the methods are right, a
    success carries the data the script reads and a failure a message. *)
Theorem requests_served {T} {API : TunnelAPI T} {U : UnicodeTables} {B : Browser} (env : Environment) (cfg : Config)
    tls jar (w : World T) c i cs k h s :
  reachable c → cPool c !! i = Some (Calls cs k h) → s ∈ cs →
  answers (callPath (callOf s)) (Handler env cfg (requestOf tls jar (callOf s)) w).1.
Proof.
  intros Hc Hi Hs. apply requests_answered.
  destruct (reachable_good hasIds known c script_respectful Hc) as [_ Hg].
  pose proof (Forall_lookup_1 _ _ _ _ Hg Hi) as (Hcs & _). rewrite Forall_forall in Hcs. by apply Hcs.
Qed.

(** ** A concrete console and server *)

#[local] Existing Instance asciiTables.
#[local] Existing Instance plainBrowser.
#[local] Instance consoleTunnel : TunnelAPI ControllerTunnel := controllerTunnel quietOS "run".

(** The clock of [sampleEnv] stands still, and ip-api.com reports a proxy. *)
Definition stillEnv : Environment := {|
  envNow := λ _, 0%Z; envRandom := envRandom sampleEnv; envSave := λ _, None; envHandshake := envHandshake sampleEnv;
  envDropped := λ _, None; envFetch := envFetch sampleEnv; envClassifyPost := envClassifyPost sampleEnv;
  envVerifyGet := λ _ _, Ok (200%Z, Ok (mkResponse "success" "" "203.0.113.7" "Japan" "JP" "NTT" "AS4713 NTT" "OCN" true false false));
  envDial := envDial sampleEnv; envPublicIP := envPublicIP sampleEnv; envStart := envStart sampleEnv;
  envClose := envClose sampleEnv; envCancelled := λ _, false; envMarshal := envMarshal sampleEnv; envAddrs := envAddrs sampleEnv
|}.
(** A session, an active node, a proxy that runs. *)
Definition consoleWorld : World ControllerTunnel :=
  mkWorld [liveNode] (setActiveNodeID "live" (setState StateConnected InitialSnapshot)) {[ "sid" := 1%Z ]} [] idleTunnel
    (mkManager (cfgProxyCore quietConfig) (cfgSubscription quietConfig) (Some ()) (Some 1%nat)) None 0.
Definition consoleLoop : Loop ControllerTunnel :=
  mkLoop (textContent "proxyToggleBtn" "停止 VMESS" (setProxyRunning true initialPage)) consoleWorld (Some "sid").
Lemma consoleLoop_loggedIn : loggedIn stillEnv consoleLoop.
Proof. by exists "sid", 1%Z. Qed.

Lemma requests_served_witness :
  Forall (λ c, answers (callPath c) (Handler stillEnv quietConfig (requestOf false (Some "sid") c) consoleWorld).1)
    [postCall "/api/proxy/start"].
Proof.
  rewrite <-raceConsole_awaiting. apply awaiting_all. intros cs k h Hi. apply Forall_forall. intros s Hs.
  exact (requests_served stillEnv quietConfig false (Some "sid") consoleWorld _ 2 cs k h s raceConsole_reachable Hi Hs).
Defined.


(** The same server with its subscription switched off. *)
Definition unsubscribed : Config :=
  setSubscription (mkSubscriptionConfig false "" "" "auto" 10086 "" 0 "auto" "tcp") quietConfig.
Lemma console_needs_subscription_witness :
  let l' := interact stillEnv unsubscribed false (λ _, "") true (loadAll true Done) consoleLoop in
  subEnabled (cfgSubscription unsubscribed) = false ∧ pgSnapshot (lpPage l') = None ∧ length (toasts (lpPage l')) = 1.
Proof.
  cbv zeta. split; [reflexivity|].
  pose proof (console_needs_subscription stillEnv unsubscribed false (λ _, "") true true consoleLoop eq_refl eq_refl)
    as (_ & H1 & _ & _ & _ & H2). split; [exact H1|exact H2].
Defined.

Definition verifiedWorld : World ControllerTunnel :=
  (verifyExit stillEnv quietConfig (requestOf false (lpJar consoleLoop) (postCall "/api/exit/verify")) (asked (lpWorld consoleLoop))).2.
Definition proxyResult : Result :=
  match Verify (envVerifyGet stillEnv 0) "" liveNode with Ok r => r | Err _ => zeroResult end.
Lemma consoleLoop_verified :
  verifyExit stillEnv quietConfig (requestOf false (lpJar consoleLoop) (postCall "/api/exit/verify")) (asked (lpWorld consoleLoop)) =
  (writeJSON 200 (BodyVerify proxyResult), verifiedWorld).
Proof. vm_compute. reflexivity. Qed.
Lemma proxyResult_failed : resPassed proxyResult = false.
Proof. vm_compute. reflexivity. Qed.
Lemma failed_verification_shown_passed_witness :
  let p := lpPage (interact stillEnv quietConfig false (λ _, "") true clickVerify consoleLoop) in
  eClass (elem p "verificationState") = ["badge"; "good"] ∧ eContent (elem p "stateText") = textOf "需要处理".
Proof.
  pose proof (failed_verification_shown_passed stillEnv quietConfig false (λ _, "") true consoleLoop proxyResult verifiedWorld
    consoleLoop_loggedIn eq_refl eq_refl consoleLoop_verified proxyResult_failed) as (_ & _ & H1 & H2). split; [exact H1|exact H2].
Defined.

Lemma stopped_proxy_says_stop_witness :
  let p := lpPage (interact stillEnv quietConfig false (λ _, "") true clickProxyToggle consoleLoop) in
  proxyRunning p = false ∧ eContent (elem p "proxyToggleBtn") = textOf "停止 VMESS".
Proof.
  cbv zeta.
  pose (out := proxyStop stillEnv (requestOf false (Some "sid") (postCall "/api/proxy/stop")) (asked consoleWorld)).
  pose (st := match rspBody out.1 with BodyProxy st => st | _ => statusLocked (proxy consoleWorld) "" end).
  assert (out = (writeJSON 200 (BodyProxy st), out.2)) as E by (vm_compute; reflexivity).
  assert (eContent (elem (lpPage consoleLoop) "proxyToggleBtn") = textOf "停止 VMESS") as Hb by (vm_compute; reflexivity).
  exact (stopped_proxy_says_stop stillEnv quietConfig false (λ _, "") consoleLoop st out.2
    consoleLoop_loggedIn eq_refl eq_refl eq_refl Hb E eq_refl).
Defined.
